(* ===== verification/_CoqProject ===== *)
-Q . S2P
Prelude.v
Io.v
Compress.v
Dump.v
Encrypt.v
Target.v
Parasite.v
Link.v
Vmas.v
Rss.v
Pages.v
PageFacts.v
Serve.v
CkptFacts.v
RestFacts.v
Session.v
SessionFacts.v
Proto.v
Paths.v
Seize.v
Watch.v
Arch.v
Abi.v
Inject.v
InjectFacts.v
Enter.v
Signals.v
Worker.v
Queue.v
Table.v
TableRace.v
Sockets.v
Startup.v
Head.v
Service.v
ServiceFacts.v
ServiceRaces.v
ServiceLive.v
ServiceMode.v
EndToEnd.v
Getopt.v
Main.v
Client.v
