(* ===== verification/Prelude.v ===== *)
(** * memcr: checkpoint and restore of a process's memory

    memcr (src/memcr.c) stops a process, injects a small service into it (the
    parasite, src/parasite.c), has the service send and drop the process's
    anonymous pages, keeps them in a dump file, and later writes them back.  It
    runs once from the command line, or as a service that takes checkpoint and
    restore commands from clients and forks one worker per process.

    ** The parts and where they are modelled

    - Prelude.v: bytes, machine-width integers, the [run] monad for C functions
      (a value, a failed assert, or fuel used up), tactics and hint databases.
    - Io.v: [__read], [__write] and their wrappers, [dump_read] and [dump_write]
      (memcr.c).  The kernel's answer to one system call is an operation of the
      class [Fd]; the class [DumpChannel] is what the dump file promises to the
      code above it.
    - Compress.v: compress.c.  lz4 and zstd are parameters with their contracts.
    - Dump.v: [read_vm_region], [write_vm_region], the digests (memcr.c).
    - Encrypt.v: libencrypt.c, the library that encrypts the dump, as another
      [DumpChannel]; OpenSSL's cipher functions are a parameter.
    - Target.v: the frozen process's address space as the kernel shows it: class
      [AddrSpace], its contract [AddrSpaceSpec], a concrete instance [simple_as].
    - Parasite.v: the service of parasite.c as a machine that runs between two
      blocking points, over the results of sys_read() (bytes, the end of the
      connection, an error).
    - Link.v: [parasite_connect], [parasite_read], [parasite_write] (memcr.c).
    - Vmas.v: [scan_target_vmas] (memcr.c) with fgets and sscanf.
    - Rss.v: the memory statistics, [get_target_rss] and what shows them
      (memcr.c).
    - Pages.v: [get_vma_pages], [get_vm_region], [get_target_pages],
      [target_mprotect_off], [target_mprotect_on], [target_set_pages],
      [target_cmd_end] (memcr.c).
    - PageFacts.v: which pages are saved, and in which regions.
    - Serve.v: one request against the service, seen from memcr.
    - CkptFacts.v, RestFacts.v: the invariants of the download and the upload.
    - Session.v, SessionFacts.v: [cmd_checkpoint], [cmd_restore] (memcr.c), and
      that the second undoes the first.
    - Proto.v: the commands and responses between client, service and worker
      (memcrclient_proto.h, memcr.c), libmemcrclient.c and memcr-client.c.
    - Paths.v: the names of sockets and files, [cleanup_pid] (memcr.c).
    - Sockets.v: the system calls that set up each socket (memcr.c,
      libmemcrclient.c), with their error paths.
    - Watch.v: the thread that watches the parasite, [parasite_status_wait]
      (memcr.c).
    - Seize.v: [iterate_pstree], [seize_target], [unseize_target] (memcr.c).
    - Arch.v: the registers and arch/*/cpu.c; class [Cpu], one instance per
      architecture.
    - Abi.v: the system call wrappers of arch/syscall.c over the asm statements
      of arch/*/linux-abi.h; class [LinuxAbi], one instance per architecture,
      and its contract [LinuxAbiSpec].
    - Inject.v, InjectFacts.v: [execute_blob], [ctx_save], [signals_block] and
      the functions around them up to [execute_parasite_checkpoint] and
      [execute_parasite_restore] (memcr.c), and that they leave no trace.
    - Enter.v: the code run in the target, arch/*/enter.c, as lists of
      instructions for a small machine; it discharges the contract [Blobs] that
      InjectFacts.v is proved against.
    - Startup.v: the start and the end of the parasite's service() and the
      messages it dies with (parasite.c).
    - Head.v: the first instructions of the parasite and the areas reserved
      behind them, arch/*/parasite-head.S; class [Head], one instance per
      architecture.
    - Signals.v: [register_signal_handlers] and the handlers (memcr.c).
    - Worker.v: [application_worker] and [user_interactive_mode] (memcr.c), with
      SIGCHLD at every point at which the worker handles it.
    - Queue.v: the ring buffer of commands, [service_cmds_ctx] (memcr.c).
    - Table.v: [checkpoint_service_data] and its functions (memcr.c).
    - TableRace.v: the same functions access by access, each a loop over the
      entries with a small program as its body, and the SIGCHLD handler, which
      does not take the lock, between any two accesses of a thread.
    - Service.v, ServiceFacts.v: the accepting thread, the command thread and
      the SIGCHLD handler as a step machine over the two.
    - ServiceRaces.v: two interleavings that break the service.
    - ServiceLive.v: that the command thread gets through its queue.
    - ServiceMode.v: [service_mode], the loop around select() and accept().
    - EndToEnd.v: the worker with everything it runs, on one target whose memory
      ptrace(2) and the parasite share, and the service it answers to.
    - Getopt.v, Main.v, Client.v: getopt_long(3), and the two programs from their
      command lines, [main] of memcr.c and of memcr-client.c.

    ** How they correspond to the code

    A C function is a Rocq function of the same name; what it changes is passed
    in and returned.  Return values are the C values ([Z]), buffers are byte
    lists, structs are records with their packed encodings.  What the kernel or
    a peer answers is an argument: a list of [hint]s for the calls on a
    descriptor, records such as [conn_env] and [get_env] for one function's
    calls, labels of steps for the service, a list of [stop]s for a traced
    thread.  Integers wrap where the code's do ([u64], [i32]).

    ** What the theorems show

    - End to end: when no system call fails, no page of the target is locked and
      no signal handler of it is started meanwhile (the record [ready]), a client
      that asks for a checkpoint and then for a restore is
      told twice that it succeeded, and the target has its registers, its signal
      mask, its mappings, their protections and its memory as they were
      ([memcr_transparent]); so has one that was suspended from the command line
      ([interactive_transparent]).  Whatever fails in the worker, the client is
      told the truth, and an error means that the target was killed
      ([client_told_truth]).
    - Round trips: a checkpoint followed by a restore leaves every byte and
      protection of the target as it was ([checkpoint_restore]), built on the
      round trips of a region ([vm_region_roundtrip]) and of a compressed block
      ([compress_roundtrip]); it holds for the encrypted dump too
      ([encrypted_dump_roundtrip]).  The injection around it leaves registers,
      signal mask, mappings and memory as they were ([injection_undone],
      [mmap_failure_undone]).  A client's command and its answer cross the
      socket unchanged ([client_service_exchange]), and the client exits with the
      answer ([memcr_client_runs]).  The parasite reads the arguments memcr wrote
      and listens where memcr connects ([parasite_listens_for_memcr]), from its
      first instruction on and as long as its stack stays small
      ([parasite_gets_arguments]); the options come out as they were written, in
      every spelling ([options_read]).
    - The machine level: the injected code does what the injection relies on, on
      four architectures ([enter_keeps_contract]), starts the parasite
      ([clone_starts_parasite]), and keeps machine words in the registers
      ([blobs_well_typed]); the system call wrappers make the call they name and
      return its result ([wrappers_answer]).
    - Selection: the regions saved are exactly the selected pages
      ([regions_cover]), aligned and bounded ([regions_bounded]); the scan finds
      exactly the private areas that do not lie at the parasite or right under it
      ([scan_target_vmas_spec]).
    - Refinement: the ring buffer is a bounded queue ([queue_refines_fifo]), the
      table a finite map ([table_refines_map], [table_queries]).
    - Concurrency: whatever accesses of the table the unlocked SIGCHLD handler
      falls between, the result is that of one order or the other
      ([handler_race_linear]), for the calls for which it is not shown to be
      otherwise below; for every interleaving each client is answered at most once
      and no process has two entries ([at_most_one_response],
      [service_table_ok]); from every state with the lock free the command
      thread answers all it has taken in ([requests_answered]); a client alone
      gets what it asks for ([checkpoint_then_restore]).  A worker exits with 0
      exactly when all its steps succeeded or its target died under it
      ([worker_exits_ok]); threads are seized and released in
      step ([seize_unseize]); sockets of different processes have different
      addresses ([socket_addresses_distinct]).
    - Errors and termination: I/O loops ([_read_spec], [_write_any]), damaged
      records and digests ([read_vm_region_guard], [cmd_restore_checked]), the
      service between requests ([parasite_chunks], [parasite_run_rests]),
      connecting ([parasite_connect_spec]), main() ([main_spec]) and the end of
      the service ([service_mode_ends]).
    - Defects, each shown on the model: [unevictable_page_misplaces_region],
      [scan_stops_silently], [read_vm_region_unbounded],
      [truncated_dump_accepted], [abort_flag_survives],
      [double_restore_deadlocks], [acknowledged_checkpoint_lost],
      [status_wait_livelocks], [worker_abandons_target], [signal_handler_dropped], [seize_overflows],
      [client_both_fails], [record_length_unchecked], [short_write_unnoticed],
      [x86_64_chown_group_lost], [attached_algorithm_starts_service],
      [abort_marks_free_entry], [cleanup_kills_group], [dead_worker_recorded],
      [stack_runs_over_arguments], [unwatched_wait_never_ends];
      smaller ones as lemmas ([lz4_read_short_block], [restore_pid_0_poisons],
      [long_keys_not_filled], [long_socket_dir_shared], [riscv64_clone_size],
      [x86_64_dishonest], [service_mode_status], [riscv64_stack_misaligned]).

    ** Fuel

    [__read_loop] and [__write_loop] run for the count, plus the errors the
    kernel has in store (each iteration moves a byte or uses up an error);
    [set_pages_loop] for dumped_vm_size, which every round lowers;
    [scan_loop] for the length of the text; [parasite_iter] for a measure of the
    service's input; [connect_retry] for the 101 attempts of the code;
    [send_pagemap] for the bytes asked for; [crypt_read_loop] for the length of
    the encrypted record, [crypt_write_loop] for its blocks of [IO_SIZE].
    In TableRace.v a schedule is long enough when it gives each of the two loops
    [loop_turns] turns, one for each access to each entry and one to go on.
    [drive] makes the 53 steps that a full queue takes.
    [seize_rounds], [blob_loop] and [accept_loop] go on as long as the kernel
    reports something.  [parse_options] and [client_getopt] run for the characters on
    the command line, [hstr_loop] for the room in its buffer, [rss_loop] for the length of the
    file, [run_code] for the length of the code, which never jumps back.
    Theorems that promise a result show it with this fuel.

    ** What is not modelled

    The text of the log messages; dump_open() and dump_close(), which only choose
    between open(2), close(2) and the library's functions; and
    the programs under tests/ that the test scripts checkpoint.  lz4, zstd and
    OpenSSL are parameters with their contracts, as are the kernel's system calls
    ([AddrSpaceSpec], [LinuxCalls]); mmap(2) and munmap(2) work on whole pages, and
    they and clone(2) may fail.  The theorems that the injection leaves no trace
    take the signals that arrive meanwhile to start no handler in the target
    ([harmless]); [signal_handler_dropped] is about those that do.  How an
    instruction is encoded is a parameter of Enter.v.  The steps of Service.v take
    the SIGCHLD handler to come before or after a function on the table; TableRace.v
    shows for which functions that is so, taking the single accesses to happen in
    the order of the source.  A client that connects
    and sends nothing makes [read_command] wait; the model of the loop sees only
    reads that end. *)

(** This file: the shared vocabulary of the development: byte strings and their
    lengths in [Z], machine-width integers, the monad in which effectful C
    functions are written, and the tactics and hint databases the component
    files use. *)
From stdpp Require Import base list.
From coqutil Require Export Byte Word.LittleEndianList.
From Stdlib Require Export ZArith Lia.

#[global] Open Scope Z_scope.

(** * Byte strings *)

Abbreviation bytes := (list byte).

#[export] Instance byte_eq_dec : EqDecision byte := Byte.byte_eq_dec.

(** Length of a buffer as the C code computes with it. *)
Definition blen {A} (b : list A) : Z := Z.of_nat (length b).

Definition ztake {A} (n : Z) (b : list A) : list A := take (Z.to_nat n) b.
Definition zdrop {A} (n : Z) (b : list A) : list A := drop (Z.to_nat n) b.

(** * Machine-width integers *)

Definition u8 (z : Z) : Z := z mod 2 ^ 8.
Definition u32 (z : Z) : Z := z mod 2 ^ 32.
Definition u64 (z : Z) : Z := z mod 2 ^ 64.
(** Conversion to [int]. *)
Definition i32 (z : Z) : Z := (z + 2 ^ 31) mod 2 ^ 32 - 2 ^ 31.

Definition is_u64 (z : Z) : Prop := 0 <= z < 2 ^ 64.
Definition is_u32 (z : Z) : Prop := 0 <= z < 2 ^ 32.

#[global] Arguments blen : simpl never.
#[global] Arguments ztake : simpl never.
#[global] Arguments zdrop : simpl never.
#[global] Arguments u8 : simpl never.
#[global] Arguments u32 : simpl never.
#[global] Arguments u64 : simpl never.
#[global] Arguments i32 : simpl never.

(** errno values the sources test. *)
Definition EINTR : Z := 4.
Definition EAGAIN : Z := 11.
Definition EINVAL : Z := 22.
Definition ETIMEDOUT : Z := 110.

(** * Effectful C functions

    A C function returns a value, stops the process in [assert()], or is still
    looping when the fuel of its loop is used up. *)
Inductive run (A : Type) : Type :=
| Ret (a : A)
| AssertFail
| OutOfFuel.
Arguments Ret {A} a.
Arguments AssertFail {A}.
Arguments OutOfFuel {A}.

Definition rbind {A B} (m : run A) (k : A -> run B) : run B :=
  match m with
  | Ret a => k a
  | AssertFail => AssertFail
  | OutOfFuel => OutOfFuel
  end.

Declare Scope run_scope.
Delimit Scope run_scope with run.
Notation "'let!' x ':=' m 'in' k" := (rbind m (fun x => k))
  (at level 10, x pattern, m at level 100, k at level 200) : run_scope.
#[global] Open Scope run_scope.

(** * Generic lemmas *)

Create HintDb memcr.
Create Rewrite HintDb blen.

Lemma blen_nonneg {A} (b : list A) : 0 <= blen b.
Proof. unfold blen; lia. Qed.

Lemma blen_app {A} (a b : list A) : blen (a ++ b) = blen a + blen b.
Proof. unfold blen; rewrite length_app; lia. Qed.

Lemma blen_nil {A} : blen (@nil A) = 0.
Proof. reflexivity. Qed.

Lemma blen_cons {A} (x : A) b : blen (x :: b) = 1 + blen b.
Proof. unfold blen; simpl length; lia. Qed.

Lemma blen_replicate {A} n (x : A) : blen (replicate n x) = Z.of_nat n.
Proof. unfold blen; by rewrite length_replicate. Qed.

Lemma blen_le_split n z : blen (le_split n z) = Z.of_nat n.
Proof. unfold blen; by rewrite length_le_split. Qed.

Lemma blen_map {A B} (f : A -> B) l : blen (map f l) = blen l.
Proof. unfold blen; by rewrite length_map. Qed.

Lemma blen_ztake {A} n (b : list A) : blen (ztake n b) = Z.min (Z.max 0 n) (blen b).
Proof. unfold blen, ztake; rewrite length_take; lia. Qed.

Lemma blen_zdrop {A} n (b : list A) : blen (zdrop n b) = blen b - Z.min (Z.max 0 n) (blen b).
Proof. unfold blen, zdrop; rewrite length_drop; lia. Qed.

#[export] Hint Rewrite @blen_app @blen_nil @blen_cons @blen_replicate blen_le_split
  @blen_map @blen_ztake @blen_zdrop : blen.

(** Closes arithmetic goals about lengths. *)
Ltac blia :=
  autorewrite with blen in *;
  repeat match goal with
  | |- context [blen ?b] => lazymatch goal with
      | _ : 0 <= blen b |- _ => fail
      | _ => pose proof (blen_nonneg b) end
  | _ : context [blen ?b] |- _ => lazymatch goal with
      | _ : 0 <= blen b |- _ => fail
      | _ => pose proof (blen_nonneg b) end
  end; lia.

Lemma blen_0_nil {A} (b : list A) : blen b = 0 -> b = [].
Proof. destruct b; [done|]; intros H; blia. Qed.

Lemma ztake_zdrop {A} n (b : list A) : ztake n b ++ zdrop n b = b.
Proof. apply take_drop. Qed.

Lemma ztake_all {A} n (b : list A) : blen b <= n -> ztake n b = b.
Proof. intros H; apply take_ge; unfold blen in H; lia. Qed.

Lemma zdrop_all {A} n (b : list A) : blen b <= n -> zdrop n b = [].
Proof. intros H; apply drop_ge; unfold blen in H; lia. Qed.

Lemma ztake_0 {A} (b : list A) : ztake 0 b = [].
Proof. reflexivity. Qed.

Lemma zdrop_0 {A} (b : list A) : zdrop 0 b = b.
Proof. reflexivity. Qed.

Lemma ztake_app_exact {A} n (a b : list A) : n = blen a -> ztake n (a ++ b) = a.
Proof. intros ->; unfold ztake, blen; rewrite Nat2Z.id; apply take_app_length. Qed.

Lemma zdrop_app_exact {A} n (a b : list A) : n = blen a -> zdrop n (a ++ b) = b.
Proof. intros ->; unfold zdrop, blen; rewrite Nat2Z.id; apply drop_app_length. Qed.

Lemma ztake_app_le {A} n (a b : list A) : n <= blen a -> ztake n (a ++ b) = ztake n a.
Proof. intros H; apply take_app_le; unfold blen in H; lia. Qed.

Lemma zdrop_app_le {A} n (a b : list A) : n <= blen a -> zdrop n (a ++ b) = zdrop n a ++ b.
Proof. intros H; apply drop_app_le; unfold blen in H; lia. Qed.

Lemma zdrop_zdrop {A} n m (b : list A) : 0 <= n -> 0 <= m -> zdrop n (zdrop m b) = zdrop (m + n) b.
Proof. intros; unfold zdrop; rewrite drop_drop; f_equal; lia. Qed.

Lemma ztake_add {A} n m (b : list A) :
  0 <= n -> 0 <= m -> ztake (n + m) b = ztake n b ++ ztake m (zdrop n b).
Proof.
  intros Hn Hm; unfold ztake, zdrop.
  replace (Z.to_nat (n + m)) with (Z.to_nat n + Z.to_nat m)%nat by lia.
  by rewrite <- take_take_drop.
Qed.

Lemma ztake_app_twice {A} n (a b : list A) : ztake n (ztake n a ++ b) = ztake n (a ++ b).
Proof.
  unfold ztake. generalize (Z.to_nat n). clear n. intros n. rewrite !take_app, length_take.
  rewrite take_take, Nat.min_id. destruct (decide (n <= length a)%nat).
  - rewrite Nat.min_l by done. by replace (n - length a)%nat with (n - n)%nat by lia.
  - by rewrite Nat.min_r by lia.
Qed.

(** ** Widths *)

Lemma u64_small z : is_u64 z -> u64 z = z.
Proof. apply Z.mod_small. Qed.

Lemma u64_range z : is_u64 (u64 z).
Proof. apply Z.mod_pos_bound; lia. Qed.

Lemma u32_small z : is_u32 z -> u32 z = z.
Proof. apply Z.mod_small. Qed.

Lemma u32_range z : is_u32 (u32 z).
Proof. apply Z.mod_pos_bound; lia. Qed.

Lemma i32_small z : - 2 ^ 31 <= z < 2 ^ 31 -> i32 z = z.
Proof. intros; unfold i32; rewrite Z.mod_small; lia. Qed.

Lemma i32_range z : - 2 ^ 31 <= i32 z < 2 ^ 31.
Proof. unfold i32; pose proof (Z.mod_pos_bound (z + 2 ^ 31) (2 ^ 32)); lia. Qed.

(** Removes the width conversions of values that fit. *)
Ltac width :=
  unfold is_u64, is_u32 in *;
  repeat first
    [ rewrite u64_small by (unfold is_u64; blia)
    | rewrite u32_small by (unfold is_u32; blia)
    | rewrite i32_small by blia ].

(** ** Little-endian encodings *)

Lemma le_combine_split_8 z : is_u64 z -> le_combine (le_split 8 z) = z.
Proof. intros H; rewrite le_combine_split; by apply Z.mod_small. Qed.

Lemma le_combine_split_4 z : is_u32 z -> le_combine (le_split 4 z) = z.
Proof. intros H; rewrite le_combine_split; by apply Z.mod_small. Qed.

Lemma le_combine_range n (b : bytes) : blen b = Z.of_nat n -> 0 <= le_combine b < 2 ^ (8 * Z.of_nat n).
Proof. intros H; pose proof (le_combine_bound b); unfold blen in H; by rewrite <- H. Qed.

(** ** Case analysis on the boolean tests of the source *)

Ltac tests :=
  repeat match goal with
  | H : andb _ _ = true |- _ => apply andb_prop in H; destruct H
  | H : andb _ _ = false |- _ => apply andb_false_iff in H
  | H : orb _ _ = false |- _ => apply orb_false_iff in H; destruct H
  | H : negb _ = true |- _ => apply negb_true_iff in H
  | H : negb _ = false |- _ => apply negb_false_iff in H
  | H : (_ =? _) = true |- _ => apply Z.eqb_eq in H
  | H : (_ =? _) = false |- _ => apply Z.eqb_neq in H
  | H : (_ <? _) = true |- _ => apply Z.ltb_lt in H
  | H : (_ <? _) = false |- _ => apply Z.ltb_ge in H
  | H : (_ <=? _) = true |- _ => apply Z.leb_le in H
  | H : (_ <=? _) = false |- _ => apply Z.leb_gt in H
  end.

Ltac split_test :=
  match goal with
  | |- context [if ?b then _ else _] => destruct b eqn:?; tests
  | H : context [if ?b then _ else _] |- _ => destruct b eqn:?; tests
  end.

(** Peels a successful computation apart: [let! x := m in k = Ret r]. *)
Lemma rbind_ret {A B} (m : run A) (k : A -> run B) b :
  rbind m k = Ret b -> exists a, m = Ret a /\ k a = Ret b.
Proof. destruct m; simpl; intros; [by eauto|done|done]. Qed.

(** * Buffers *)

(** A buffer after its first bytes were overwritten. *)
Definition overlay (new old : bytes) : bytes := new ++ drop (length new) old.

Lemma overlay_all new old : blen old <= blen new -> overlay new old = new.
Proof. intros H; unfold overlay; rewrite drop_ge, app_nil_r; [done|unfold blen in H; lia]. Qed.

Lemma ztake_overlay new old : ztake (blen new) (overlay new old) = new.
Proof. by apply ztake_app_exact. Qed.

Lemma blen_overlay new old : blen new <= blen old -> blen (overlay new old) = blen old.
Proof. intros H; unfold overlay, blen in *; rewrite length_app, length_drop; lia. Qed.

(** Decides closed goals about concrete numbers and lists. *)
Ltac ground := vm_compute; repeat split; first [reflexivity | congruence | done].
