(* ===== verification/Io.v ===== *)
(** Descriptors and the retry loops of memcr.c over them: [__read] and
    [__write] with their wrappers, and the dump file operations [dump_read] and
    [dump_write] that a preloaded library may replace.

    What the kernel answers to one read(2) or write(2) is an operation of the
    class [Fd]; the retry loops are written against that class.  The instance
    [stream] is a regular file or stream whose kernel is free to return short
    counts and errors: a list of [hint]s says what each call does. *)
From stdpp Require Import base list.
From S2P Require Import Prelude.

(** * One system call *)

(** [RdGot bs] is a read that returned [length bs] (so [RdGot []] returned 0);
    [RdFail e] is a read that returned -1 with [errno = e]. *)
Inductive rd_result := RdGot (bs : bytes) | RdFail (errno : Z).
Inductive wr_result := WrGot (n : Z) | WrFail (errno : Z).

Class Fd (S : Type) := {
  sys_read : Z -> S -> rd_result * S;
  sys_write : bytes -> S -> wr_result * S;
  (** how many more calls the kernel may disturb: bounds the retries *)
  fd_patience : S -> nat;
}.

(** * The retry loops of memcr.c *)

Section Loops.
Context {S : Type} `{Fd S}.

(** [check_peer_ok] is a function pointer that may be NULL. *)
Fixpoint __read_loop (fuel : nat) (count off : Z) (buf : bytes)
    (check_peer_ok : option (S -> bool)) (fd : S) : run (Z * bytes * S) :=
  match fuel with
  | O => OutOfFuel
  | Datatypes.S fuel =>
      match sys_read (count - off) fd with
      | (RdGot [], fd) => Ret (0, buf, fd)
      | (RdFail errno, fd) =>
          match check_peer_ok with
          | Some ok =>
              if errno =? EAGAIN then
                if ok fd then __read_loop fuel count off buf check_peer_ok fd
                else Ret (-1, buf, fd)
              else if errno =? EINTR then __read_loop fuel count off buf check_peer_ok fd
              else Ret (-1, buf, fd)
          | None =>
              if errno =? EINTR then __read_loop fuel count off buf check_peer_ok fd
              else Ret (-1, buf, fd)
          end
      | (RdGot bs, fd) =>
          if blen bs <? count - off
          then __read_loop fuel count (off + blen bs) (buf ++ bs) check_peer_ok fd
          else Ret (i32 count, buf ++ bs, fd)
      end
  end.

(** The retries of one call end once the kernel stops disturbing it: each
    iteration either moves bytes or uses up one disturbance. *)
Definition io_fuel (count : Z) (fd : S) : nat := (Z.to_nat count + fd_patience fd + 1)%nat.

Definition __read (count : Z) (check_peer_ok : option (S -> bool)) (fd : S)
    : run (Z * bytes * S) :=
  if count =? 0 then AssertFail
  else __read_loop (io_fuel count fd) count 0 [] check_peer_ok fd.

Fixpoint __write_loop (fuel : nat) (buf : bytes) (off : Z)
    (check_peer_ok : option (S -> bool)) (fd : S) : run (Z * S) :=
  let count := blen buf in
  match fuel with
  | O => OutOfFuel
  | Datatypes.S fuel =>
      match sys_write (zdrop off buf) fd with
      | (WrFail errno, fd) =>
          match check_peer_ok with
          | Some ok =>
              if (errno =? EAGAIN) && ok fd
              then __write_loop fuel buf off check_peer_ok fd
              else Ret (-1, fd)
          | None => Ret (-1, fd)
          end
      | (WrGot n, fd) =>
          if n <? count - off
          then __write_loop fuel buf (off + n) check_peer_ok fd
          else Ret (i32 count, fd)
      end
  end.

Definition __write (buf : bytes) (check_peer_ok : option (S -> bool)) (fd : S)
    : run (Z * S) :=
  if blen buf =? 0 then AssertFail
  else __write_loop (io_fuel (blen buf) fd) buf 0 check_peer_ok fd.

Definition _read (count : Z) (fd : S) : run (Z * bytes * S) := __read count None fd.
Definition _write (buf : bytes) (fd : S) : run (Z * S) := __write buf None fd.
End Loops.

(** * The dump file

    [lib__read] and [lib__write] are weak symbols: a preloaded library defines
    both or memcr uses its own loops. *)
Record dump_lib (S : Type) := {
  lib__read : Z -> S -> run (Z * bytes * S);
  lib__write : bytes -> S -> run (Z * S);
}.
Arguments lib__read {S} _.
Arguments lib__write {S} _.

Definition dump_read {S} `{Fd S} (lib : option (dump_lib S)) (count : Z) (fd : S)
    : run (Z * bytes * S) :=
  match lib with
  | Some l => lib__read l count fd
  | None => _read count fd
  end.

Definition dump_write {S} `{Fd S} (lib : option (dump_lib S)) (buf : bytes) (fd : S)
    : run (Z * S) :=
  match lib with
  | Some l => lib__write l buf fd
  | None => _write buf fd
  end.

(** * Files and streams *)

(** What the kernel does to one call: a transfer of at most [n] bytes (at least
    one), or a failure. *)
Inductive hint := HShort (n : Z) | HErr (errno : Z).

#[export] Instance hint_eq_dec : EqDecision hint.
Proof. solve_decision. Defined.

Record stream := Stream {
  st_data : bytes;      (** bytes not yet read, or bytes written so far *)
  st_hints : list hint;
}.

(** How much of a request of [n > 0] bytes a disturbed call moves. *)
Definition clip (h n : Z) : Z := Z.min n (Z.max 1 h).

#[export] Instance stream_fd : Fd stream := {|
  sys_read n s :=
    match st_hints s with
    | [] => (RdGot (ztake n (st_data s)), Stream (zdrop n (st_data s)) [])
    | HShort h :: hs =>
        (RdGot (ztake (clip h n) (st_data s)), Stream (zdrop (clip h n) (st_data s)) hs)
    | HErr e :: hs => (RdFail e, Stream (st_data s) hs)
    end;
  sys_write b s :=
    match st_hints s with
    | [] => (WrGot (blen b), Stream (st_data s ++ b) [])
    | HShort h :: hs =>
        (WrGot (clip h (blen b)), Stream (st_data s ++ ztake (clip h (blen b)) b) hs)
    | HErr e :: hs => (WrFail e, Stream (st_data s) hs)
    end;
  fd_patience s := length (st_hints s);
|}.

(** Kernel behaviours the two loops survive: a read restarts after a signal, a
    write does not. *)
Definition rd_benign (h : hint) : Prop := match h with HShort _ => True | HErr e => e = EINTR end.
Definition wr_benign (h : hint) : Prop := match h with HShort _ => True | HErr _ => False end.

(** * Theorems *)

(** The loop with [off] bytes delivered, on a file that still holds the rest. *)
Lemma __read_loop_complete fuel count off buf data hints :
  0 <= off < count -> count - off <= blen data ->
  Forall rd_benign hints ->
  (Z.to_nat (count - off) + length hints < fuel)%nat ->
  exists hints',
    __read_loop fuel count off buf None (Stream data hints)
      = Ret (i32 count, buf ++ ztake (count - off) data, Stream (zdrop (count - off) data) hints')
    /\ Forall rd_benign hints'.
Proof.
  revert off buf data hints.
  induction fuel as [|fuel IH]; intros off buf data hints Hoff Hdata Hb Hf; [lia|].
  cbn [__read_loop sys_read stream_fd st_hints st_data].
  destruct hints as [|[h|e] hs].
  - destruct (ztake (count - off) data) eqn:E.
    { apply (f_equal blen) in E; blia. }
    rewrite <- E. case_match; tests; [blia|]. eauto.
  - inversion_clear Hb. set (k := clip h (count - off)).
    assert (1 <= k <= count - off) by (unfold k, clip; lia).
    destruct (ztake k data) eqn:E.
    { apply (f_equal blen) in E; blia. }
    rewrite <- E. assert (Hk : blen (ztake k data) = k) by blia. rewrite Hk.
    case_match; tests.
    + edestruct (IH (off + k) (buf ++ ztake k data) (zdrop k data) hs) as (h' & -> & ?);
        [lia|blia|done|simpl in Hf; lia|].
      exists h'; split; [|done].
      replace (count - (off + k)) with (count - off - k) by lia.
      rewrite <- app_assoc, <- ztake_add, zdrop_zdrop by lia.
      by replace (k + (count - off - k)) with (count - off) by lia.
    + assert (k = count - off) as -> by lia. eauto.
  - inversion_clear Hb as [|? ? He]; simpl in He; subst e.
    rewrite Z.eqb_refl. edestruct (IH off buf data hs) as (h' & -> & ?);
      [lia|lia|done|simpl in Hf; lia|eauto].
Qed.

(** A file that ends early: the loop hands back 0, whatever it got before. *)
Lemma __read_loop_short fuel count off buf data hints :
  0 <= off < count -> blen data < count - off ->
  Forall rd_benign hints ->
  (length data + length hints + 1 < fuel)%nat ->
  exists hints',
    __read_loop fuel count off buf None (Stream data hints)
      = Ret (0, buf ++ data, Stream [] hints')
    /\ Forall rd_benign hints'.
Proof.
  revert off buf data hints.
  induction fuel as [|fuel IH]; intros off buf data hints Hoff Hdata Hb Hf; [lia|].
  cbn [__read_loop sys_read stream_fd st_hints st_data].
  destruct hints as [|[h|e] hs].
  - rewrite ztake_all, zdrop_all by lia. destruct data as [|x data]; [by rewrite app_nil_r; eauto|].
    case_match; tests; [|blia].
    edestruct (IH (off + blen (x :: data)) (buf ++ x :: data) [] []) as (h' & -> & ?);
      [blia|blia|done|simpl in *; lia|]. rewrite app_nil_r in *; eauto.
  - inversion_clear Hb. set (k := clip h (count - off)).
    assert (1 <= k <= count - off) by (unfold k, clip; lia).
    destruct (ztake k data) eqn:E.
    + assert (data = []) as -> by (apply blen_0_nil; apply (f_equal blen) in E; blia).
      rewrite app_nil_r. unfold zdrop; rewrite drop_nil. eauto.
    + rewrite <- E. assert (0 < blen (ztake k data) < count - off)
        by (split; [rewrite E; blia|blia]).
      case_match; tests; [|lia].
      edestruct (IH (off + blen (ztake k data)) (buf ++ ztake k data) (zdrop k data) hs) as (h' & -> & ?);
        [lia|blia|done| |].
      { unfold zdrop; rewrite length_drop. simpl in Hf.
        assert (0 < length data)%nat by (destruct data; [by rewrite (ztake_all k []) in E by blia|simpl; lia]). lia. }
      rewrite <- app_assoc, ztake_zdrop. eauto.
  - inversion_clear Hb as [|? ? He]; simpl in He; subst e.
    rewrite Z.eqb_refl. apply IH; [done..|simpl in Hf; lia].
Qed.

Lemma __write_loop_complete fuel buf off data hints :
  0 <= off < blen buf -> Forall wr_benign hints ->
  (Z.to_nat (blen buf - off) + length hints < fuel)%nat ->
  exists hints',
    __write_loop fuel buf off None (Stream data hints)
      = Ret (i32 (blen buf), Stream (data ++ zdrop off buf) hints')
    /\ Forall wr_benign hints'.
Proof.
  revert off data hints.
  induction fuel as [|fuel IH]; intros off data hints Hoff Hb Hf; [lia|].
  cbn [__write_loop sys_write stream_fd st_hints st_data].
  destruct hints as [|[h|e] hs].
  - case_match; tests; [blia|]. eauto.
  - inversion_clear Hb. set (k := clip h (blen (zdrop off buf))).
    assert (1 <= k <= blen buf - off) by (unfold k, clip; blia).
    case_match; tests.
    + edestruct (IH (off + k) (data ++ ztake k (zdrop off buf)) hs) as (h' & -> & ?);
        [lia|done|simpl in Hf; lia|].
      exists h'; split; [|done].
      by rewrite <- app_assoc, <- zdrop_zdrop, ztake_zdrop by lia.
    + exists hs; split; [|done]. rewrite ztake_all by blia. done.
  - inversion_clear Hb as [|? ? He]; destruct He.
Qed.

(** The wrappers on a well-behaved kernel. *)
Lemma _read_full count data hints :
  0 < count < 2 ^ 31 -> count <= blen data -> Forall rd_benign hints ->
  exists hints',
    _read count (Stream data hints)
      = Ret (count, ztake count data, Stream (zdrop count data) hints')
    /\ Forall rd_benign hints'.
Proof.
  intros Hc Hd Hb. unfold _read, __read. case_match; tests; [lia|].
  edestruct (__read_loop_complete (io_fuel count (Stream data hints)) count 0 [] data hints)
    as (h' & E & ?); [lia|lia|done|unfold io_fuel; simpl; lia|].
  rewrite E, i32_small, Z.sub_0_r by lia. eauto.
Qed.

Lemma _read_truncated count data hints :
  0 < count -> blen data < count -> Forall rd_benign hints ->
  exists hints', _read count (Stream data hints) = Ret (0, data, Stream [] hints')
    /\ Forall rd_benign hints'.
Proof.
  intros Hc Hd Hb. unfold _read, __read. case_match; tests; [lia|].
  apply (__read_loop_short _ count 0 []); [lia|lia|done|].
  unfold io_fuel; cbn [fd_patience stream_fd st_hints]. unfold blen in Hd; lia.
Qed.

Lemma _write_full buf data hints :
  0 < blen buf < 2 ^ 31 -> Forall wr_benign hints ->
  exists hints',
    _write buf (Stream data hints) = Ret (blen buf, Stream (data ++ buf) hints')
    /\ Forall wr_benign hints'.
Proof.
  intros Hc Hb. unfold _write, __write. case_match; tests; [lia|].
  edestruct (__write_loop_complete (io_fuel (blen buf) (Stream data hints)) buf 0 data hints)
    as (h' & E & ?); [lia|done|unfold io_fuel; simpl; lia|].
  rewrite E, i32_small, zdrop_0 by lia. eauto.
Qed.

(** On a file, however the kernel splits the transfer into short reads and
    however often a signal interrupts it, [_read] returns: the requested count
    with exactly the next [count] bytes when the file holds them, and otherwise
    0, the value of a clean end of file, although the bytes that were left are
    consumed. *)
Theorem _read_spec count data hints :
  0 < count < 2 ^ 31 -> Forall rd_benign hints ->
  exists hints',
    _read count (Stream data hints)
      = Ret (if count <=? blen data then count else 0,
             ztake count data, Stream (zdrop count data) hints').
Proof.
  intros Hc Hb. case_match; tests.
  - destruct (_read_full count data hints) as (h' & ? & _); eauto.
  - destruct (_read_truncated count data hints) as (h' & ? & _); [lia..|done|].
    rewrite ztake_all, zdrop_all by lia. eauto.
Qed.

Lemma _read_spec_witness :
  exists hints',
    _read 3 (Stream [Byte.x01; Byte.x02; Byte.x03; Byte.x04] [HShort 1; HErr EINTR; HShort 7])
      = Ret (3, [Byte.x01; Byte.x02; Byte.x03], Stream [Byte.x04] hints').
Proof. apply (_read_spec 3 [Byte.x01; Byte.x02; Byte.x03; Byte.x04]); [lia|repeat constructor]. Defined.

(** Each iteration of the write loop moves a prefix of what is left. *)
Lemma __write_loop_any fuel buf off data hints :
  0 <= off < blen buf ->
  (Z.to_nat (blen buf - off) + length hints < fuel)%nat ->
  exists r k hints',
    __write_loop fuel buf off None (Stream data hints)
      = Ret (r, Stream (data ++ ztake k (zdrop off buf)) hints')
    /\ (r = i32 (blen buf) /\ k = blen buf - off \/ r = -1 /\ 0 <= k < blen buf - off).
Proof.
  revert off data hints.
  induction fuel as [|fuel IH]; intros off data hints Hoff Hf; [lia|].
  cbn [__write_loop sys_write stream_fd st_hints st_data].
  destruct hints as [|[h|e] hs].
  - case_match; tests; [blia|].
    eexists _, (blen buf - off), []. split; [by rewrite ztake_all by blia|]. auto.
  - set (k := clip h (blen (zdrop off buf))).
    assert (1 <= k <= blen buf - off) by (unfold k, clip; blia).
    case_match; tests.
    + destruct (IH (off + k) (data ++ ztake k (zdrop off buf)) hs) as (r & j & h' & -> & Hr);
        [lia|simpl in Hf; lia|].
      eexists r, (k + j), h'. split; [|destruct Hr as [[-> ->]|[-> ?]]; [left|right]; split; lia].
      rewrite <- app_assoc, <- zdrop_zdrop, <- ztake_add by lia. done.
    + eexists _, k, hs. split; [done|]. left; split; [done|lia].
  - eexists (-1), 0, hs. rewrite ztake_0, app_nil_r. split; [done|]. right; lia.
Qed.

(** Whatever the kernel does, [_write] on a file returns, what it added to
    the file is a prefix of the buffer, and it returns the buffer's length
    exactly when it added all of it; otherwise it returns -1. *)
Theorem _write_any buf data hints :
  0 < blen buf < 2 ^ 31 ->
  exists r k hints',
    _write buf (Stream data hints) = Ret (r, Stream (data ++ ztake k buf) hints')
    /\ (r = blen buf /\ k = blen buf \/ r = -1 /\ 0 <= k < blen buf).
Proof.
  intros Hc. unfold _write, __write. case_match; tests; [lia|].
  destruct (__write_loop_any (io_fuel (blen buf) (Stream data hints)) buf 0 data hints)
    as (r & k & h' & E & Hr); [lia|unfold io_fuel; simpl; lia|].
  rewrite i32_small, Z.sub_0_r, zdrop_0 in * by lia. eauto 10.
Qed.

Lemma _write_any_witness :
  exists r k hints',
    _write [Byte.x01; Byte.x02; Byte.x03] (Stream [] [HShort 1; HErr EINTR])
      = Ret (r, Stream ([] ++ ztake k [Byte.x01; Byte.x02; Byte.x03]) hints')
    /\ (r = 3 /\ k = 3 \/ r = -1 /\ 0 <= k < 3).
Proof. apply (_write_any [Byte.x01; Byte.x02; Byte.x03]); split; reflexivity. Defined.

(** Whatever the descriptor and the peer check, [__read] returns the count, 0
    or -1. *)
Lemma __read_loop_values {S} `{Fd S} fuel count off buf ok (fd : S) r b fd' :
  __read_loop fuel count off buf ok fd = Ret (r, b, fd') -> r = i32 count \/ r = 0 \/ r = -1.
Proof.
  revert off buf fd. induction fuel as [|fuel IH]; intros off buf fd; simpl; [done|].
  destruct (sys_read (count - off) fd) as [[[|x bs]|e] fd1]; [by intros [= <- _ _]; auto| |].
  - case_match; [by apply IH|]. intros [= <- _ _]; auto.
  - destruct ok as [ok|]; repeat case_match; try (by apply IH); intros [= <- _ _]; auto.
Qed.

(** Whatever the descriptor, the kernel and the peer check do, a [__read]
    that returns hands back the requested count, 0 or -1, never a short count:
    the callers' tests against the requested size catch every failure. *)
Theorem __read_values {S} `{Fd S} count ok (fd : S) r b fd' :
  __read count ok fd = Ret (r, b, fd') -> r = i32 count \/ r = 0 \/ r = -1.
Proof. unfold __read. case_match; [done|]. apply __read_loop_values. Qed.

(** * What the dump file promises to its users

    The layers above write the dump as a sequence of records and read it back
    with the same sequence of counts.  A channel is a pair of operations under
    which each record written occupies [dc_enc data] in the file, and reading
    [length data] bytes at that place returns [data].  [dc_writer f c]: [f] is
    open for writing and holds the bytes [c]; [dc_reader f c]: [f] is open for
    reading with the bytes [c] ahead.  Records are shorter than 1 GiB (memcr's
    are at most a little over [MAX_VM_REGION_SIZE], 1 MiB). *)
Class DumpChannel {F : Type} (rd : Z -> F -> run (Z * bytes * F)) (wr : bytes -> F -> run (Z * F)) := {
  dc_enc : bytes -> bytes;
  dc_writer : F -> bytes -> Prop;
  dc_reader : F -> bytes -> Prop;
  dc_write f c data :
    dc_writer f c -> 0 < blen data < 2 ^ 30 ->
    exists f', wr data f = Ret (blen data, f') /\ dc_writer f' (c ++ dc_enc data);
  dc_read f c data :
    dc_reader f (dc_enc data ++ c) -> 0 < blen data < 2 ^ 30 ->
    exists f', rd (blen data) f = Ret (blen data, data, f') /\ dc_reader f' c;
  dc_eof f n :
    dc_reader f [] -> 0 < n ->
    exists f', rd n f = Ret (0, [], f') /\ dc_reader f' [];
}.
Arguments dc_enc {F} rd wr {_} _.
Arguments dc_writer {F} rd wr {_} _ _.
Arguments dc_reader {F} rd wr {_} _ _.

(** memcr's own file operations, with no library preloaded, are a channel that
    stores the records as they are. *)
#[export] Instance plain_channel : DumpChannel (dump_read (S := stream) None) (dump_write None).
Proof.
  refine {|
    dc_enc := fun data => data;
    dc_writer := fun f c => st_data f = c /\ Forall wr_benign (st_hints f);
    dc_reader := fun f c => st_data f = c /\ Forall rd_benign (st_hints f);
  |}.
  - intros [d h] c data [E Hb] Hl. simpl in *; subst d.
    destruct (_write_full data c h) as (h' & Hw & Hh); [lia|done|].
    eexists; split; [exact Hw|]. by split.
  - intros [d h] c data [E Hb] Hl. simpl in *; subst d.
    destruct (_read_full (blen data) (data ++ c) h) as (h' & Hr & Hh); [lia|blia|done|].
    rewrite ztake_app_exact, zdrop_app_exact in Hr by done.
    eexists; split; [exact Hr|]. by split.
  - intros [d h] n [E Hb] Hl. simpl in *; subst d.
    destruct (_read_truncated n [] h) as (h' & Hr & Hh); [done|by rewrite blen_nil|done|].
    eexists; split; [exact Hr|]. by split.
Defined.
