(* ===== verification/Compress.v ===== *)
(** compress.c: the three ways the data of a memory region is stored in the
    dump (as it is, LZ4, ZSTD) over the read and write functions the caller
    passes, and the selection of one of them.

    liblz4 and libzstd are parameters; the classes [Lz4Spec] and [ZstdSpec]
    state what their documentation promises. *)
From stdpp Require Import base list strings sets.
From S2P Require Import Prelude Io.
#[local] Open Scope Z_scope.

(** Return value and destination buffer of each library call. *)
Record lz4_api := {
  LZ4_compressBound : Z -> Z;
  LZ4_compress_default : bytes -> Z -> Z * bytes;
  LZ4_decompress_safe : bytes -> Z -> Z * bytes;
}.

Record zstd_api := {
  ZSTD_compressBound : Z -> Z;
  ZSTD_compress : bytes -> Z -> Z * bytes;
  ZSTD_decompress : bytes -> Z -> Z * bytes;
  ZSTD_isError : Z -> bool;
}.

(** The function pointers [compress_write] and [compress_read] always name the
    two functions of one algorithm. *)
Inductive algorithm := Plain | Lz4 | Zstd.

#[export] Instance algorithm_eq_dec : EqDecision algorithm.
Proof. solve_decision. Defined.

(** * The functions *)

Section Compress.
Context (lz4 : lz4_api) (zstd : zstd_api).
(** [max_data_size], set by [compress_init] *)
Context (max_data_size : Z).
Context {F : Type} (_read : Z -> F -> run (Z * bytes * F)) (_write : bytes -> F -> run (Z * F)).

Definition MAX_DATA_SIZE_LZ4 : Z := LZ4_compressBound lz4 max_data_size.
Definition MAX_DATA_SIZE_ZSTD : Z := ZSTD_compressBound zstd max_data_size.

Definition lz4_write (src : bytes) (fd : F) : run (Z * F) :=
  let '(ret, dst) := LZ4_compress_default lz4 src MAX_DATA_SIZE_LZ4 in
  if ret <=? 0 then Ret (-1, fd)
  else
    let dst_len := u32 ret in
    let! (ret, fd) := _write (le_split 4 dst_len) fd in
    if negb (u64 ret =? 4) then Ret (-1, fd)
    else
      let! (ret, fd) := _write (ztake dst_len dst) fd in
      if negb (u32 ret =? dst_len) then Ret (-1, fd)
      else Ret (i32 (blen src), fd).

Definition lz4_read (dst : bytes) (len : Z) (fd : F) : run (Z * bytes * F) :=
  let! (ret, b, fd) := _read 4 fd in
  if negb (u64 ret =? 4) then Ret (-1, dst, fd)
  else
    let src_len := le_combine b in
    if MAX_DATA_SIZE_LZ4 <? src_len then Ret (-1, dst, fd)
    else
      let! (ret, src, fd) := _read src_len fd in
      if negb (u32 ret =? src_len) then Ret (-1, dst, fd)
      else
        let '(ret, out) := LZ4_decompress_safe lz4 src len in
        if ret <=? 0 then Ret (-1, dst, fd)
        else Ret (i32 len, overlay (ztake ret out) dst, fd).

Definition zstd_write (src : bytes) (fd : F) : run (Z * F) :=
  let '(size, dst) := ZSTD_compress zstd src MAX_DATA_SIZE_ZSTD in
  if ZSTD_isError zstd size then Ret (-1, fd)
  else
    let dst_len := u32 size in
    let! (ret, fd) := _write (le_split 4 dst_len) fd in
    if negb (u64 ret =? 4) then Ret (-1, fd)
    else
      let! (ret, fd) := _write (ztake dst_len dst) fd in
      if negb (u32 ret =? dst_len) then Ret (-1, fd)
      else Ret (i32 (blen src), fd).

Definition zstd_read (dst : bytes) (len : Z) (fd : F) : run (Z * bytes * F) :=
  let! (ret, b, fd) := _read 4 fd in
  if negb (u64 ret =? 4) then Ret (-1, dst, fd)
  else
    let src_len := le_combine b in
    if MAX_DATA_SIZE_ZSTD <? src_len then Ret (-1, dst, fd)
    else
      let! (ret, src, fd) := _read src_len fd in
      if negb (u32 ret =? src_len) then Ret (-1, dst, fd)
      else
        let '(size, out) := ZSTD_decompress zstd src len in
        if ZSTD_isError zstd size then Ret (-1, dst, fd)
        else Ret (i32 len, overlay (ztake size out) dst, fd).

Definition plain_write (src : bytes) (fd : F) : run (Z * F) :=
  let! (ret, fd) := _write src fd in
  if negb (u64 ret =? blen src) then Ret (-1, fd)
  else Ret (i32 (blen src), fd).

Definition plain_read (dst : bytes) (len : Z) (fd : F) : run (Z * bytes * F) :=
  let! (ret, b, fd) := _read len fd in
  if negb (u64 ret =? len) then Ret (-1, overlay b dst, fd)
  else Ret (ret, overlay b dst, fd).

Definition compress_write (a : algorithm) : bytes -> F -> run (Z * F) :=
  match a with Plain => plain_write | Lz4 => lz4_write | Zstd => zstd_write end.

Definition compress_read (a : algorithm) : bytes -> Z -> F -> run (Z * bytes * F) :=
  match a with Plain => plain_read | Lz4 => lz4_read | Zstd => zstd_read end.
End Compress.

(** * Selection *)

(** Which libraries the build has: [COMPRESS_LZ4] and [COMPRESS_ZSTD]. *)
Record build_opts := { COMPRESS_LZ4 : bool; COMPRESS_ZSTD : bool }.

(** The globals of compress.c. *)
Record compress_globals := {
  cg_algorithm : option algorithm;   (** [None]: the pointers are still NULL *)
  cg_max_data_size : Z;
}.

Definition select_algorithm (opts : build_opts) (algo : option string) (g : compress_globals)
    : Z * compress_globals :=
  let use a := (0, {| cg_algorithm := Some a; cg_max_data_size := cg_max_data_size g |}) in
  match algo with
  | None => use Plain
  | Some name =>
      if (name =? "lz4")%string || (name =? "LZ4")%string then
        if COMPRESS_LZ4 opts then use Lz4 else (1, g)
      else if (name =? "zstd")%string || (name =? "ZSTD")%string then
        if COMPRESS_ZSTD opts then use Zstd else (1, g)
      else (1, g)
  end.

Definition compress_init (opts : build_opts) (algorithm : option string) (max_size : Z)
    (g : compress_globals) : Z * compress_globals :=
  let '(ret, g) := select_algorithm opts algorithm g in
  if negb (ret =? 0) then (ret, g)
  else (0, {| cg_algorithm := cg_algorithm g; cg_max_data_size := max_size |}).

(** * What the libraries promise *)

(** LZ4_compress_default succeeds when the destination holds
    [LZ4_compressBound] bytes, and LZ4_decompress_safe undoes it. *)
Class Lz4Spec (lz4 : lz4_api) := {
  lz4_bound_mono n m : 0 <= n <= m -> LZ4_compressBound lz4 n <= LZ4_compressBound lz4 m;
  lz4_compress_ok src cap :
    0 < blen src -> LZ4_compressBound lz4 (blen src) <= cap < 2 ^ 31 ->
    exists dst, LZ4_compress_default lz4 src cap = (blen dst, dst) /\ 0 < blen dst <= cap
      /\ LZ4_decompress_safe lz4 dst (blen src) = (blen src, src);
}.

Class ZstdSpec (zstd : zstd_api) := {
  zstd_bound_mono n m : 0 <= n <= m -> ZSTD_compressBound zstd n <= ZSTD_compressBound zstd m;
  zstd_compress_ok src cap :
    0 < blen src -> ZSTD_compressBound zstd (blen src) <= cap < 2 ^ 31 ->
    exists dst, ZSTD_compress zstd src cap = (blen dst, dst) /\ 0 < blen dst <= cap
      /\ ZSTD_decompress zstd dst (blen src) = (blen src, src);
  zstd_size_ok n : 0 <= n < 2 ^ 31 -> ZSTD_isError zstd n = false;
}.

(** * Theorems *)

Section Roundtrip.
Context (lz4 : lz4_api) (zstd : zstd_api) `{!Lz4Spec lz4, !ZstdSpec zstd}.
Context (max_data_size : Z).
Context {F : Type} (rd : Z -> F -> run (Z * bytes * F)) (wr : bytes -> F -> run (Z * F)).
Context `{!DumpChannel rd wr}.

(** The buffers of the two libraries fit an [int]. *)
Definition bounds_fit : Prop :=
  0 <= max_data_size < 2 ^ 30 /\
  MAX_DATA_SIZE_LZ4 lz4 max_data_size < 2 ^ 30 /\
  MAX_DATA_SIZE_ZSTD zstd max_data_size < 2 ^ 30.

(** A compressed block in the file: its size, then its bytes. *)
Definition frame (dst : bytes) : bytes :=
  dc_enc rd wr (le_split 4 (blen dst)) ++ dc_enc rd wr dst.

(** What one region's data occupies in the file. *)
Definition stored (a : algorithm) (data : bytes) : bytes :=
  match a with
  | Plain => dc_enc rd wr data
  | Lz4 => frame (LZ4_compress_default lz4 data (MAX_DATA_SIZE_LZ4 lz4 max_data_size)).2
  | Zstd => frame (ZSTD_compress zstd data (MAX_DATA_SIZE_ZSTD zstd max_data_size)).2
  end.

Lemma frame_write dst f c :
  0 < blen dst < 2 ^ 30 -> dc_writer rd wr f c ->
  exists f1 f2, wr (le_split 4 (blen dst)) f = Ret (4, f1) /\ wr dst f1 = Ret (blen dst, f2)
    /\ dc_writer rd wr f2 (c ++ frame dst).
Proof.
  intros Hd Hf. destruct (dc_write f c (le_split 4 (blen dst))) as (f1 & E1 & Hf1); [done|blia|].
  destruct (dc_write f1 _ dst Hf1) as (f2 & E2 & Hf2); [lia|].
  rewrite blen_le_split in E1. unfold frame. rewrite app_assoc. eauto 6.
Qed.

Lemma frame_read dst f c :
  0 < blen dst < 2 ^ 30 -> dc_reader rd wr f (frame dst ++ c) ->
  exists f1 f2, rd 4 f = Ret (4, le_split 4 (blen dst), f1)
    /\ rd (blen dst) f1 = Ret (blen dst, dst, f2) /\ dc_reader rd wr f2 c.
Proof.
  unfold frame; rewrite <- app_assoc; intros Hd Hf.
  destruct (dc_read f _ _ Hf) as (f1 & E1 & Hf1); [blia|].
  destruct (dc_read f1 _ _ Hf1) as (f2 & E2 & Hf2); [lia|].
  rewrite blen_le_split in E1. eauto 6.
Qed.

(** Both libraries compress a region into a block that fits the buffer and
    decompress that block to the region. *)
Lemma lz4_block data :
  bounds_fit -> 0 < blen data <= max_data_size ->
  exists dst, LZ4_compress_default lz4 data (MAX_DATA_SIZE_LZ4 lz4 max_data_size) = (blen dst, dst)
    /\ 0 < blen dst < 2 ^ 30 /\ blen dst <= MAX_DATA_SIZE_LZ4 lz4 max_data_size
    /\ LZ4_decompress_safe lz4 dst (blen data) = (blen data, data).
Proof.
  intros (Hm & Hl & Hz) Hd. unfold MAX_DATA_SIZE_LZ4 in *.
  destruct (lz4_compress_ok data (LZ4_compressBound lz4 max_data_size)) as (dst & ? & ? & ?);
    [lia|split; [apply lz4_bound_mono; lia|lia]|]. exists dst; repeat split; (done || lia).
Qed.

Lemma zstd_block data :
  bounds_fit -> 0 < blen data <= max_data_size ->
  exists dst, ZSTD_compress zstd data (MAX_DATA_SIZE_ZSTD zstd max_data_size) = (blen dst, dst)
    /\ 0 < blen dst < 2 ^ 30 /\ blen dst <= MAX_DATA_SIZE_ZSTD zstd max_data_size
    /\ ZSTD_decompress zstd dst (blen data) = (blen data, data).
Proof.
  intros (Hm & Hl & Hz) Hd. unfold MAX_DATA_SIZE_ZSTD in *.
  destruct (zstd_compress_ok data (ZSTD_compressBound zstd max_data_size)) as (dst & ? & ? & ?);
    [lia|split; [apply zstd_bound_mono; lia|lia]|]. exists dst; repeat split; (done || lia).
Qed.

Lemma compress_write_stored a data f c :
  bounds_fit -> 0 < blen data <= max_data_size -> dc_writer rd wr f c ->
  exists f', compress_write lz4 zstd max_data_size wr a data f = Ret (blen data, f')
    /\ dc_writer rd wr f' (c ++ stored a data).
Proof.
  intros Hfit Hd Hf. assert (Hm := proj1 Hfit). destruct a; simpl.
  - unfold plain_write. destruct (dc_write f c data) as (f' & -> & Hf'); [done|lia|].
    cbn [rbind]. width. rewrite Z.eqb_refl. eauto.
  - destruct (lz4_block data) as (dst & E & Hdst & Hle & _); [done..|].
    destruct (frame_write dst f c) as (f1 & f2 & E1 & E2 & Hf2); [lia|done|].
    unfold lz4_write. rewrite E. case_match; tests; [lia|].
    width. rewrite E1, (ztake_all (blen dst) dst) by lia. cbn -[u32 i32 Z.eqb]. rewrite E2.
    cbn -[u32 i32 Z.eqb]. width. rewrite !Z.eqb_refl. cbn [negb]. eauto.
  - destruct (zstd_block data) as (dst & E & Hdst & Hle & _); [done..|].
    destruct (frame_write dst f c) as (f1 & f2 & E1 & E2 & Hf2); [lia|done|].
    unfold zstd_write. rewrite E, zstd_size_ok by lia.
    width. rewrite E1, (ztake_all (blen dst) dst) by lia. cbn -[u32 i32 Z.eqb]. rewrite E2.
    cbn -[u32 i32 Z.eqb]. width. rewrite !Z.eqb_refl. cbn [negb]. eauto.
Qed.

Lemma compress_read_stored a data f c buf :
  bounds_fit -> 0 < blen data <= max_data_size -> dc_reader rd wr f (stored a data ++ c) ->
  exists f', compress_read lz4 zstd max_data_size rd a buf (blen data) f
      = Ret (blen data, overlay data buf, f')
    /\ dc_reader rd wr f' c.
Proof.
  intros Hfit Hd. assert (Hm := proj1 Hfit). destruct a; simpl.
  - intros Hf. unfold plain_read. destruct (dc_read f c data) as (f' & -> & Hf'); [done|lia|].
    cbn [rbind]. width. rewrite Z.eqb_refl. eauto.
  - destruct (lz4_block data) as (dst & E & Hdst & Hle & Hdec); [done..|]. rewrite E; intros Hf.
    destruct (frame_read dst f c) as (f1 & f2 & E1 & E2 & Hf2); [lia|done|].
    unfold lz4_read. rewrite E1. cbn [rbind]. change (u64 4 =? 4) with true. cbn [negb].
    rewrite le_combine_split_4 by (unfold is_u32; lia). case_match; tests; [lia|].
    rewrite E2. cbn -[u32 i32 Z.eqb]. width. rewrite !Z.eqb_refl, Hdec. cbn [negb].
    case_match; tests; [lia|]. rewrite ztake_all by lia. eauto.
  - destruct (zstd_block data) as (dst & E & Hdst & Hle & Hdec); [done..|]. rewrite E; intros Hf.
    destruct (frame_read dst f c) as (f1 & f2 & E1 & E2 & Hf2); [lia|done|].
    unfold zstd_read. rewrite E1. cbn [rbind]. change (u64 4 =? 4) with true. cbn [negb].
    rewrite le_combine_split_4 by (unfold is_u32; lia). case_match; tests; [lia|].
    rewrite E2. cbn -[u32 i32 Z.eqb]. width. rewrite !Z.eqb_refl, Hdec, zstd_size_ok by lia.
    cbn [negb]. rewrite ztake_all by lia. eauto.
Qed.

(** Whichever algorithm is selected, the data of a region written with
    [compress_write] is read back unchanged by [compress_read] from the place
    of the dump where it was written, and the file position ends right after
    it. *)
Theorem compress_roundtrip a data f c :
  bounds_fit -> 0 < blen data <= max_data_size -> dc_writer rd wr f c ->
  exists f' img,
    compress_write lz4 zstd max_data_size wr a data f = Ret (blen data, f')
    /\ dc_writer rd wr f' (c ++ img)
    /\ forall g rest buf, dc_reader rd wr g (img ++ rest) -> blen buf = blen data ->
       exists g', compress_read lz4 zstd max_data_size rd a buf (blen data) g
           = Ret (blen data, data, g') /\ dc_reader rd wr g' rest.
Proof.
  intros Hfit Hd Hf. destruct (compress_write_stored a data f c) as (f' & E & Hf'); [done..|].
  exists f', (stored a data). split_and!; [done..|]. intros g rest buf Hg Hb.
  destruct (compress_read_stored a data g rest buf) as (g' & E' & Hg'); [done..|].
  rewrite overlay_all in E' by lia. eauto.
Qed.
End Roundtrip.

(** Whatever the dump holds, [lz4_read] and [zstd_read] hand the caller's
    descriptor a compressed block only if its announced size fits the buffer
    they read it into; a larger one makes them return -1 with the destination
    untouched. *)
Theorem compressed_block_fits lz4 zstd max {F} (rd : Z -> F -> run (Z * bytes * F))
    a bound dst len fd n b fd1 :
  (a = Lz4 /\ bound = MAX_DATA_SIZE_LZ4 lz4 max \/ a = Zstd /\ bound = MAX_DATA_SIZE_ZSTD zstd max) ->
  rd 4 fd = Ret (n, b, fd1) ->
  bound < le_combine b ->
  compress_read lz4 zstd max rd a dst len fd = Ret (-1, dst, fd1).
Proof.
  intros [[-> ->]|[-> ->]] Hrd Hb; cbn [compress_read]; unfold lz4_read, zstd_read;
    rewrite Hrd; cbn [rbind]; case_match; try done; case_match; tests; done || lia.
Qed.

(** [lz4_read] reports a full region whenever LZ4 decompresses anything at
    all: a block that decompresses to fewer than [len] bytes is accepted, and
    the rest of the destination keeps its old contents. *)
Theorem lz4_read_short_block lz4 zstd max {F} (rd : Z -> F -> run (Z * bytes * F))
    dst len fd b fd1 src fd2 out :
  rd 4 fd = Ret (4, b, fd1) ->
  le_combine b <= MAX_DATA_SIZE_LZ4 lz4 max -> is_u32 (le_combine b) ->
  rd (le_combine b) fd1 = Ret (le_combine b, src, fd2) ->
  LZ4_decompress_safe lz4 src len = (blen out, out) ->
  0 < blen out < len -> blen dst = len -> len < 2 ^ 31 ->
  compress_read lz4 zstd max rd Lz4 dst len fd = Ret (len, out ++ zdrop (blen out) dst, fd2).
Proof.
  intros Hrd Hb Hu Hrd2 Hdec Hout Hdst Hl. cbn [compress_read]; unfold lz4_read.
  rewrite Hrd; cbn [rbind]. change (u64 4 =? 4) with true; cbn [negb].
  case_match; tests; [lia|]. rewrite Hrd2; cbn [rbind]. rewrite (u32_small (le_combine b)) by done.
  rewrite Z.eqb_refl, Hdec; cbn [negb]. case_match; tests; [lia|].
  rewrite ztake_all, i32_small by lia. unfold overlay, zdrop, blen. by rewrite Nat2Z.id.
Qed.

(** [compress_init] succeeds exactly for no algorithm and for a name, in
    lower or upper case, of an algorithm the build has; it then selects that
    algorithm and the size limit, and otherwise changes nothing. *)
Theorem compress_init_spec opts name max_size g :
  compress_init opts name max_size g =
    let ok a := (0, {| cg_algorithm := Some a; cg_max_data_size := max_size |}) in
    match name with
    | None => ok Plain
    | Some n =>
        if decide (n ∈ ["lz4"; "LZ4"]%string /\ COMPRESS_LZ4 opts = true) then ok Lz4
        else if decide (n ∈ ["zstd"; "ZSTD"]%string /\ COMPRESS_ZSTD opts = true) then ok Zstd
        else (1, g)
    end.
Proof.
  unfold compress_init, select_algorithm. destruct name as [n|]; [|done].
  destruct (String.eqb_spec n "lz4") as [->|]; [by destruct (COMPRESS_LZ4 opts)|].
  destruct (String.eqb_spec n "LZ4") as [->|]; [by destruct (COMPRESS_LZ4 opts)|].
  rewrite decide_False by (rewrite !elem_of_cons, elem_of_nil; tauto).
  destruct (String.eqb_spec n "zstd") as [->|]; [by destruct (COMPRESS_ZSTD opts)|].
  destruct (String.eqb_spec n "ZSTD") as [->|]; [by destruct (COMPRESS_ZSTD opts)|].
  rewrite decide_False by (rewrite !elem_of_cons, elem_of_nil; tauto).
  done.
Qed.

(** * Witnesses: a codec that stores its input *)

Definition store_codec (src : bytes) (cap : Z) : Z * bytes :=
  if blen src <=? cap then (blen src, src) else (0, []).

Definition store_lz4 : lz4_api := {|
  LZ4_compressBound n := n;
  LZ4_compress_default := store_codec;
  LZ4_decompress_safe := store_codec;
|}.

Definition store_zstd : zstd_api := {|
  ZSTD_compressBound n := n;
  ZSTD_compress := store_codec;
  ZSTD_decompress := store_codec;
  ZSTD_isError n := n <? 0;
|}.

#[export] Instance store_lz4_spec : Lz4Spec store_lz4.
Proof.
  split; simpl; [lia|]. intros src cap Hs Hc. unfold store_codec.
  rewrite (proj2 (Z.leb_le _ _)) by lia. exists src. rewrite Z.leb_refl. auto with lia.
Qed.

#[export] Instance store_zstd_spec : ZstdSpec store_zstd.
Proof.
  split; simpl; [lia| |intros; apply Z.ltb_ge; lia]. intros src cap Hs Hc. unfold store_codec.
  rewrite (proj2 (Z.leb_le _ _)) by lia. exists src. rewrite Z.leb_refl. auto with lia.
Qed.

Lemma compress_roundtrip_witness :
  exists f' img,
    compress_write store_lz4 store_zstd 16 (dump_write None) Lz4 [Byte.x2a; Byte.x2b] (Stream [] [HShort 1])
      = Ret (blen [Byte.x2a; Byte.x2b], f')
    /\ dc_writer (dump_read None) (dump_write None) f' ([] ++ img)
    /\ forall g rest buf, dc_reader (dump_read None) (dump_write None) g (img ++ rest) ->
       blen buf = blen [Byte.x2a; Byte.x2b] ->
       exists g', compress_read store_lz4 store_zstd 16 (dump_read None) Lz4 buf (blen [Byte.x2a; Byte.x2b]) g
           = Ret (blen [Byte.x2a; Byte.x2b], [Byte.x2a; Byte.x2b], g')
         /\ dc_reader (dump_read None) (dump_write None) g' rest.
Proof.
  apply (compress_roundtrip store_lz4 store_zstd 16 (dump_read None) (dump_write None)).
  - ground.
  - ground.
  - split; [done|repeat constructor].
Defined.

