(* ===== verification/Dump.v ===== *)
(** The dump file of memcr.c: one record per saved memory region, written by
    [write_vm_region] and read back by [read_vm_region], the [dumped_vm_size]
    account that bounds what a restore accepts, and the MD5 digests over what
    was written and what was read.

    The digest functions of libcrypto are a parameter ([evp_api]); the dump
    file and the compression come from Io.v and Compress.v. *)
From stdpp Require Import base list.
From S2P Require Import Prelude Io Compress.

(** * Constants and structures of memcr.c and memcr.h *)

Definition MAX_VM_REGION_SIZE : Z := 1 * 1024 * 1024.

Record vm_region := VmRegion { vmr_addr : Z; vmr_len : Z }.

#[export] Instance vm_region_eq_dec : EqDecision vm_region.
Proof. solve_decision. Defined.

Definition vm_region_ok (v : vm_region) : Prop := is_u64 (vmr_addr v) /\ is_u64 (vmr_len v).

(** [sizeof(struct vm_region)] and the struct's bytes in memory. *)
Definition sizeof_vm_region : Z := 16.
Definition vm_region_bytes (v : vm_region) : bytes :=
  le_split 8 (vmr_addr v) ++ le_split 8 (vmr_len v).
Definition vm_region_of (b : bytes) : vm_region :=
  VmRegion (le_combine (ztake 8 b)) (le_combine (ztake 8 (zdrop 8 b))).

Definition vm_region_valid (page_size : Z) (vmr : vm_region) : Z :=
  if negb (Z.land (vmr_addr vmr) (page_size - 1) =? 0) then 0
  else if negb (vmr_len vmr mod page_size =? 0) then 0
  else 1.

(** * Digests *)

(** EVP_MD_CTX_new with EVP_DigestInit_ex2, EVP_DigestUpdate and
    EVP_DigestFinal_ex; [None] is their failure. *)
Record evp_api (C : Type) := {
  EVP_DigestInit : option C;
  EVP_DigestUpdate : C -> bytes -> option C;
  EVP_DigestFinal : C -> option bytes;
}.
Arguments EVP_DigestInit {C} _.
Arguments EVP_DigestUpdate {C} _ _ _.
Arguments EVP_DigestFinal {C} _ _.

Section Md5.
Context {C : Type} (evp : evp_api C).

(** A context that is [None] is the NULL pointer left by an earlier failure. *)
Definition md5_init : option C := EVP_DigestInit evp.

Definition md5_update (ctx : option C) (data : bytes) : option C :=
  match ctx with
  | None => None
  | Some c => EVP_DigestUpdate evp c data
  end.

(** The digest buffer and its length; the context is freed. *)
Definition md5_final (md : bytes) (ctx : option C) : bytes * Z * option C :=
  match ctx with
  | None => (md, 0, None)
  | Some c =>
      match EVP_DigestFinal evp c with
      | None => (md, 0, None)
      | Some d => (overlay d md, blen d, None)
      end
  end.
End Md5.

(** * Regions in the dump file *)

(** The dump descriptor and the globals the two functions change. *)
Record dump_state (F C : Type) := DumpState {
  d_fd : F;
  d_size : Z;                 (** [dumped_vm_size] *)
  d_ckpt : option C;          (** [md5_checkpoint_ctx] *)
  d_rest : option C;          (** [md5_restore_ctx] *)
}.
Arguments DumpState {F C} _ _ _ _.
Arguments d_fd {F C} _.
Arguments d_size {F C} _.
Arguments d_ckpt {F C} _.
Arguments d_rest {F C} _.

(** The options that select the data path: the page size, [-c], and the
    algorithm chosen by [compress_init] with [MAX_VM_REGION_SIZE]. *)
Record dump_cfg := {
  page_size : Z;
  checksum : bool;
  algo : algorithm;
}.

Section Regions.
Context (cfg : dump_cfg) (lz4 : lz4_api) (zstd : zstd_api).
Context {C : Type} (evp : evp_api C).
Context {F : Type} (dump_read : Z -> F -> run (Z * bytes * F)) (dump_write : bytes -> F -> run (Z * F)).

Definition compress_rd := compress_read lz4 zstd MAX_VM_REGION_SIZE dump_read (algo cfg).
Definition compress_wr := compress_write lz4 zstd MAX_VM_REGION_SIZE dump_write (algo cfg).

(** [vmr] and [buf] are the caller's, overwritten as the file is read. *)
Definition read_vm_region (vmr : vm_region) (buf : bytes) (st : dump_state F C)
    : run (Z * vm_region * bytes * dump_state F C) :=
  let! (ret, b, fd) := dump_read sizeof_vm_region (d_fd st) in
  let st := DumpState fd (d_size st) (d_ckpt st) (d_rest st) in
  if negb (u64 ret =? sizeof_vm_region) then Ret (ret, vmr, buf, st)
  else
    let vmr := vm_region_of b in
    if d_size st <? vmr_len vmr then Ret (-1, vmr, buf, st)
    else
      let st := DumpState fd (d_size st - vmr_len vmr) (d_ckpt st) (d_rest st) in
      if vm_region_valid (page_size cfg) vmr =? 0 then Ret (-1, vmr, buf, st)
      else
        let! (ret, buf, fd) := compress_rd buf (vmr_len vmr) (d_fd st) in
        let st := DumpState fd (d_size st) (d_ckpt st) (d_rest st) in
        if ret <? 0 then Ret (ret, vmr, buf, st)
        else
          let ctx :=
            if checksum cfg && (0 <? ret)
            then md5_update evp (md5_update evp (d_rest st) (vm_region_bytes vmr))
                   (ztake (vmr_len vmr) buf)
            else d_rest st in
          Ret (ret, vmr, buf, DumpState fd (d_size st) (d_ckpt st) ctx).

(** [buf] holds the [vmr->len] bytes of the region. *)
Definition write_vm_region (vmr : vm_region) (buf : bytes) (st : dump_state F C)
    : run (Z * dump_state F C) :=
  if vm_region_valid (page_size cfg) vmr =? 0 then Ret (-1, st)
  else
    let! (ret, fd) := dump_write (vm_region_bytes vmr) (d_fd st) in
    let st := DumpState fd (d_size st) (d_ckpt st) (d_rest st) in
    if negb (u64 ret =? sizeof_vm_region) then Ret (-1, st)
    else
      let! (ret, fd) := compress_wr (ztake (vmr_len vmr) buf) (d_fd st) in
      let st := DumpState fd (d_size st) (d_ckpt st) (d_rest st) in
      if ret <? 0 then Ret (ret, st)
      else
        let size := u64 (d_size st + vmr_len vmr) in
        let ctx :=
          if checksum cfg && (0 <? ret)
          then md5_update evp (md5_update evp (d_ckpt st) (vm_region_bytes vmr))
                 (ztake (vmr_len vmr) buf)
          else d_ckpt st in
        Ret (ret, DumpState fd size ctx (d_rest st)).
End Regions.

(** * Lemmas *)

Lemma blen_vm_region_bytes v : blen (vm_region_bytes v) = 16.
Proof. unfold vm_region_bytes; blia. Qed.
#[export] Hint Rewrite blen_vm_region_bytes : blen.

Lemma vm_region_of_bytes v : vm_region_ok v -> vm_region_of (vm_region_bytes v) = v.
Proof.
  intros [Ha Hl]. destruct v as [a l]; unfold vm_region_of, vm_region_bytes; cbn [vmr_addr vmr_len] in *.
  rewrite ztake_app_exact, zdrop_app_exact, ztake_all by blia.
  by rewrite !le_combine_split_8.
Qed.

(** A page size is a power of two; alignment is then divisibility. *)
Definition page_size_ok (ps : Z) : Prop := exists k, 0 <= k <= 20 /\ ps = 2 ^ k.

Lemma page_size_pos ps : page_size_ok ps -> 0 < ps <= 2 ^ 20.
Proof. intros (k & Hk & ->). split; [lia|apply Z.pow_le_mono_r; lia]. Qed.

Lemma page_size_divides ps : page_size_ok ps -> (ps | MAX_VM_REGION_SIZE).
Proof.
  intros (k & Hk & ->). exists (2 ^ (20 - k)). rewrite <- Z.pow_add_r by lia.
  replace (20 - k + k) with 20 by lia. reflexivity.
Qed.

Lemma land_page_mask ps a : page_size_ok ps -> Z.land a (ps - 1) = a mod ps.
Proof.
  intros (k & Hk & ->). replace (2 ^ k - 1) with (Z.ones k) by (rewrite Z.ones_equiv; lia).
  apply Z.land_ones; lia.
Qed.

(** A region the two functions accept. *)
Definition region_fits (ps : Z) (v : vm_region) : Prop :=
  vm_region_ok v /\ vmr_addr v mod ps = 0 /\ vmr_len v mod ps = 0.

Lemma vm_region_valid_fits ps v :
  page_size_ok ps -> vmr_addr v mod ps = 0 -> vmr_len v mod ps = 0 -> vm_region_valid ps v = 1.
Proof.
  intros Hp Ha Hl. unfold vm_region_valid. by rewrite land_page_mask, Ha, Hl by done.
Qed.

Lemma vm_region_valid_1 ps v :
  page_size_ok ps -> vm_region_valid ps v <> 0 -> vmr_addr v mod ps = 0 /\ vmr_len v mod ps = 0.
Proof.
  intros Hp. unfold vm_region_valid. rewrite land_page_mask by done.
  repeat case_match; tests; done.
Qed.

Section Specs.
Context (cfg : dump_cfg) (lz4 : lz4_api) (zstd : zstd_api) `{!Lz4Spec lz4, !ZstdSpec zstd}.
Context {C : Type} (evp : evp_api C).
Context {F : Type} (rd : Z -> F -> run (Z * bytes * F)) (wr : bytes -> F -> run (Z * F)).
Context `{!DumpChannel rd wr}.
Context (Hps : page_size_ok (page_size cfg)) (Hfit : bounds_fit lz4 zstd MAX_VM_REGION_SIZE).

(** The record of a region in the file, and what it adds to a digest. *)
Definition region_img (v : vm_region) (data : bytes) : bytes :=
  dc_enc rd wr (vm_region_bytes v) ++ stored lz4 zstd MAX_VM_REGION_SIZE rd wr (algo cfg) data.

Definition digest_region (ctx : option C) (v : vm_region) (data : bytes) : option C :=
  if checksum cfg then md5_update evp (md5_update evp ctx (vm_region_bytes v)) data else ctx.

(** A region as the checkpoint saves it. *)
Definition region_saved (v : vm_region) (data : bytes) : Prop :=
  region_fits (page_size cfg) v /\ blen data = vmr_len v /\ 0 < vmr_len v <= MAX_VM_REGION_SIZE.

Lemma write_vm_region_ok v data st c :
  region_saved v data -> dc_writer rd wr (d_fd st) c ->
  exists fd,
    write_vm_region cfg lz4 zstd evp wr v data st
      = Ret (vmr_len v, DumpState fd (u64 (d_size st + vmr_len v))
                          (digest_region (d_ckpt st) v data) (d_rest st))
    /\ dc_writer rd wr fd (c ++ region_img v data).
Proof.
  intros ((Hok & Ha & Hl) & Hd & Hlen) Hf. unfold write_vm_region.
  rewrite vm_region_valid_fits by done. cbn [Z.eqb].
  destruct (dc_write (d_fd st) c (vm_region_bytes v)) as (f1 & -> & Hf1); [done|blia|].
  rewrite blen_vm_region_bytes. cbn [rbind]. change (u64 16 =? sizeof_vm_region) with true.
  cbn [negb d_fd d_size d_ckpt d_rest]. rewrite ztake_all by lia.
  destruct (compress_write_stored lz4 zstd MAX_VM_REGION_SIZE rd wr (algo cfg) data f1
    (c ++ dc_enc rd wr (vm_region_bytes v)) Hfit) as (f2 & E & Hf2); [lia|done|].
  unfold compress_wr. rewrite E. cbn [rbind].
  rewrite (proj2 (Z.ltb_ge _ _)), (proj2 (Z.ltb_lt _ _)), andb_true_r by lia.
  cbn [d_fd d_size d_ckpt d_rest]. rewrite Hd. eexists. split; [done|].
  unfold region_img. by rewrite app_assoc.
Qed.

Lemma read_vm_region_ok v data st c v0 buf :
  region_saved v data -> dc_reader rd wr (d_fd st) (region_img v data ++ c) ->
  vmr_len v <= d_size st ->
  exists fd,
    read_vm_region cfg lz4 zstd evp rd v0 buf st
      = Ret (vmr_len v, v, overlay data buf,
             DumpState fd (d_size st - vmr_len v) (d_ckpt st) (digest_region (d_rest st) v data))
    /\ dc_reader rd wr fd c.
Proof.
  intros ((Hok & Ha & Hl) & Hd & Hlen) Hf Hsz. unfold read_vm_region, region_img in *.
  rewrite <- app_assoc in Hf.
  destruct (dc_read _ _ _ Hf) as (f1 & E1 & Hf1); [blia|]. rewrite blen_vm_region_bytes in E1.
  unfold sizeof_vm_region. rewrite E1. cbn [rbind]. change (u64 16 =? 16) with true.
  cbn [negb d_fd d_size d_ckpt d_rest]. rewrite vm_region_of_bytes by done.
  rewrite (proj2 (Z.ltb_ge _ _)), vm_region_valid_fits by (done || lia). cbn [Z.eqb].
  destruct (compress_read_stored lz4 zstd MAX_VM_REGION_SIZE rd wr (algo cfg) data f1 c buf Hfit)
    as (f2 & E & Hf2); [lia|done|].
  unfold compress_rd. rewrite <- Hd, E. cbn [rbind]. rewrite (proj2 (Z.ltb_ge _ _)), (proj2 (Z.ltb_lt _ _)), andb_true_r by lia.
  rewrite ztake_overlay. eauto.
Qed.

(** The end of the dump. *)
Lemma read_vm_region_eof st v0 buf :
  dc_reader rd wr (d_fd st) [] ->
  exists fd,
    read_vm_region cfg lz4 zstd evp rd v0 buf st
      = Ret (0, v0, buf, DumpState fd (d_size st) (d_ckpt st) (d_rest st))
    /\ dc_reader rd wr fd [].
Proof.
  intros Hf. unfold read_vm_region.
  destruct (dc_eof (d_fd st) sizeof_vm_region) as (f1 & -> & Hf1); [done|unfold sizeof_vm_region; lia|].
  cbn [rbind]. change (u64 0 =? sizeof_vm_region) with false. eauto.
Qed.

(** C4: a region written to the dump by [write_vm_region] is read back by
    [read_vm_region] with the same address, length and bytes, for every
    compression; the read takes off the account [dumped_vm_size] what the write
    added to it, and feeds the restore digest exactly what the checkpoint digest
    was fed. *)
Theorem vm_region_roundtrip v data st c :
  region_saved v data -> is_u64 (d_size st + vmr_len v) -> dc_writer rd wr (d_fd st) c ->
  exists st' img,
    write_vm_region cfg lz4 zstd evp wr v data st = Ret (vmr_len v, st')
    /\ dc_writer rd wr (d_fd st') (c ++ img)
    /\ forall str rest v0 buf,
         dc_reader rd wr (d_fd str) (img ++ rest) -> d_size str = d_size st' ->
         0 <= d_size st -> d_rest str = d_ckpt st ->
         exists str',
           read_vm_region cfg lz4 zstd evp rd v0 buf str
             = Ret (vmr_len v, v, overlay data buf, str')
           /\ dc_reader rd wr (d_fd str') rest
           /\ d_size str' = d_size st
           /\ d_rest str' = d_ckpt st'.
Proof.
  intros Hs Hu Hf. destruct (write_vm_region_ok v data st c) as (fd & E & Hf'); [done..|].
  eexists _, (region_img v data). split_and!; [exact E|done|].
  cbn [d_fd d_size d_ckpt d_rest]. rewrite u64_small by done.
  intros str rest v0 buf Hr Hsz H0 Hctx.
  destruct (read_vm_region_ok v data str rest v0 buf) as (fd' & E' & Hf''); [done..|lia|].
  eexists. split; [exact E'|]. cbn [d_fd d_size d_ckpt d_rest].
  split_and!; [done|lia|by rewrite Hctx].
Qed.

(** [read_vm_region] puts no bound on a region's length but the account:
    with an uncompressed dump, a record longer than the [MAX_VM_REGION_SIZE]
    bytes of the caller's buffer is read whole into that buffer. *)
Theorem read_vm_region_unbounded v data st c v0 buf :
  algo cfg = Plain -> region_fits (page_size cfg) v -> blen data = vmr_len v ->
  MAX_VM_REGION_SIZE < vmr_len v < 2 ^ 30 -> vmr_len v <= d_size st ->
  dc_reader rd wr (d_fd st) (dc_enc rd wr (vm_region_bytes v) ++ dc_enc rd wr data ++ c) ->
  exists st', read_vm_region cfg lz4 zstd evp rd v0 buf st = Ret (vmr_len v, v, overlay data buf, st').
Proof.
  intros Halgo (Hok & Ha & Hl) Hd Hlen Hsz Hf. unfold read_vm_region.
  destruct (dc_read _ _ _ Hf) as (f1 & E1 & Hf1); [blia|]. rewrite blen_vm_region_bytes in E1.
  unfold sizeof_vm_region. rewrite E1. cbn [rbind]. change (u64 16 =? 16) with true.
  cbn [negb d_fd d_size d_ckpt d_rest]. rewrite vm_region_of_bytes by done.
  rewrite (proj2 (Z.ltb_ge _ _)), vm_region_valid_fits by (done || lia). cbn [Z.eqb].
  destruct (dc_read f1 c data Hf1) as (f2 & E2 & Hf2); [unfold MAX_VM_REGION_SIZE in *; lia|].
  unfold compress_rd. rewrite Halgo. cbn [compress_read]. unfold plain_read.
  rewrite <- Hd, E2. cbn [rbind]. unfold MAX_VM_REGION_SIZE in *. width. rewrite Z.eqb_refl. cbn [rbind negb].
  rewrite (proj2 (Z.ltb_ge _ _)) by lia. eauto.
Qed.
End Specs.

(** memcr's own read loop on any descriptor, asked for a header: it returns the
    whole of it, 0 or -1. *)
Lemma dump_read_header {S} `{Fd S} (fd : S) r b fd' :
  dump_read None sizeof_vm_region fd = Ret (r, b, fd') -> r = sizeof_vm_region \/ r <= 0.
Proof.
  intros E. unfold dump_read, _read, __read in E. cbn [Z.eqb sizeof_vm_region] in E.
  apply __read_loop_values in E as [E|E]; [left; by rewrite E|right; lia].
Qed.

(** C30: whatever bytes the dump holds and however the file and the compression
    behave, as long as the read function asked for the 16 bytes of a header
    returns 16 or nothing positive (which memcr's own read loop does on every
    descriptor), a region [read_vm_region] accepts is page aligned, a whole
    number of pages long, and within the account, which goes down by its length
    and never below zero. *)
Theorem read_vm_region_guard cfg lz4 zstd {C F} (evp : evp_api C)
    (rd : Z -> F -> run (Z * bytes * F)) v0 buf st r v buf' st' :
  page_size_ok (page_size cfg) ->
  (forall f r b f', rd sizeof_vm_region f = Ret (r, b, f') -> r = sizeof_vm_region \/ r <= 0) ->
  read_vm_region cfg lz4 zstd evp rd v0 buf st = Ret (r, v, buf', st') ->
  0 < r ->
  vmr_addr v mod page_size cfg = 0 /\ vmr_len v mod page_size cfg = 0
  /\ 0 <= vmr_len v <= d_size st /\ d_size st' = d_size st - vmr_len v.
Proof.
  intros Hps Hrd. unfold read_vm_region. intros E Hr.
  apply rbind_ret in E as ([[n b] fd] & E1 & E). case_match eqn:Hn; tests.
  { simplify_eq. apply Hrd in E1. destruct E1 as [->|]; [done|lia]. }
  cbn [d_size] in E. case_match eqn:Hsz; tests; [simplify_eq; lia|].
  case_match eqn:Hv; tests; [simplify_eq; lia|].
  apply vm_region_valid_1 in Hv as [Ha Hl]; [|done].
  apply rbind_ret in E as ([[n2 b2] fd2] & E2 & E). cbn [d_size d_rest] in E.
  assert (0 <= vmr_len (vm_region_of b))
    by (unfold vm_region_of; cbn [vmr_len]; apply le_combine_bound).
  case_match; simplify_eq; cbn [d_size]; tests; [lia|]. split_and!; done || lia.
Qed.

(** * Witnesses *)

(** A digest that keeps everything it was fed. *)
Definition log_evp : evp_api bytes := {|
  EVP_DigestInit := Some [];
  EVP_DigestUpdate c d := Some (c ++ d);
  EVP_DigestFinal c := Some c;
|}.

Definition small_cfg (a : algorithm) : dump_cfg := {| page_size := 4; checksum := true; algo := a |}.

Lemma small_cfg_page a : page_size_ok (page_size (small_cfg a)).
Proof. exists 2. split; [lia|reflexivity]. Qed.

Definition four_bytes : bytes := [Byte.x0a; Byte.x0b; Byte.x0c; Byte.x0d].

Lemma vm_region_roundtrip_witness :
  exists st' img,
    write_vm_region (small_cfg Zstd) store_lz4 store_zstd log_evp (dump_write None)
      (VmRegion 64 4) four_bytes (DumpState (Stream [] [HShort 3]) 8 (Some []) None) = Ret (4, st')
    /\ dc_writer (dump_read None) (dump_write None) (d_fd st') ([] ++ img)
    /\ forall str rest v0 buf,
         dc_reader (dump_read None) (dump_write None) (d_fd str) (img ++ rest) -> d_size str = d_size st' ->
         0 <= 8 -> d_rest str = Some [] ->
         exists str',
           read_vm_region (small_cfg Zstd) store_lz4 store_zstd log_evp (dump_read None) v0 buf str
             = Ret (4, VmRegion 64 4, overlay four_bytes buf, str')
           /\ dc_reader (dump_read None) (dump_write None) (d_fd str') rest
           /\ d_size str' = 8 /\ d_rest str' = d_ckpt st'.
Proof.
  apply (vm_region_roundtrip (small_cfg Zstd) store_lz4 store_zstd log_evp (dump_read None) (dump_write None)
    (small_cfg_page Zstd) ltac:(ground) (VmRegion 64 4) four_bytes (DumpState (Stream [] [HShort 3]) 8 (Some []) None));
    [ground|ground|].
  split; [done|repeat constructor].
Defined.

Lemma read_vm_region_unbounded_witness :
  exists st', read_vm_region (small_cfg Plain) store_lz4 store_zstd log_evp (dump_read None) (VmRegion 0 0) []
      (DumpState (Stream (vm_region_bytes (VmRegion 64 2097152)
                          ++ replicate (Z.to_nat 2097152) Byte.x00 ++ []) []) 2097152 None None)
    = Ret (2097152, VmRegion 64 2097152, overlay (replicate (Z.to_nat 2097152) Byte.x00) [], st').
Proof.
  apply (read_vm_region_unbounded (small_cfg Plain) store_lz4 store_zstd log_evp (dump_read None) (dump_write None)
    (small_cfg_page Plain) (VmRegion 64 2097152) (replicate (Z.to_nat 2097152) Byte.x00)
    (DumpState _ 2097152 None None) []); [done|ground| |ground|ground|].
  - rewrite blen_replicate, Z2Nat.id by lia. reflexivity.
  - cbn [dc_reader dc_enc plain_channel d_fd st_data st_hints].
    generalize (replicate (Z.to_nat 2097152) Byte.x00). intros zeros. split; [done|constructor].
Defined.

Lemma read_vm_region_guard_witness :
  64 mod 4 = 0 /\ 4 mod 4 = 0 /\ 0 <= 4 <= 8 /\ 4 = 8 - 4.
Proof.
  apply (read_vm_region_guard (small_cfg Plain) store_lz4 store_zstd log_evp
    (dump_read (S := stream) None)
    (VmRegion 0 0) [] (DumpState (Stream (vm_region_bytes (VmRegion 64 4) ++ four_bytes) []) 8 None None)
    4 (VmRegion 64 4) four_bytes (DumpState (Stream [] []) 4 None None)).
  - apply small_cfg_page.
  - intros f r b f'. apply dump_read_header.
  - reflexivity.
  - lia.
Defined.
