(* ===== verification/Encrypt.v ===== *)
(** libencrypt.c: the library that can be preloaded to encrypt the dump file.
    It replaces the dump operations of memcr.c ([lib__open], [lib__close],
    [lib__read], [lib__write]); each record is encrypted on its own, with
    padding, so that the record of a given length has a known place in the file.

    OpenSSL's cipher functions are a parameter ([evp_cipher_api]); the class
    [CbcSpec] states what its documentation promises of a block cipher in CBC
    mode with padding.  Under it the library is another [DumpChannel]. *)
From Stdlib Require Import Ascii String.
From stdpp Require Import base list.
From S2P Require Import Prelude Io.
#[local] Open Scope Z_scope.

(** The functions of OpenSSL the library calls: a NULL pointer or a return value
    other than 1 is [None]. *)
Record evp_cipher_api (Cph X : Type) := {
  EVP_aes_128_cbc : option Cph;
  EVP_aes_192_cbc : option Cph;
  EVP_aes_256_cbc : option Cph;
  EVP_CIPHER_block_size : Cph -> Z;
  EVP_CIPHER_key_length : Cph -> Z;
  EVP_CIPHER_CTX_new : option X;
  EVP_EncryptInit_ex : X -> Cph -> bytes -> bytes -> option X;
  EVP_EncryptUpdate : X -> bytes -> option (bytes * X);
  EVP_EncryptFinal_ex : X -> option (bytes * X);
  EVP_DecryptInit_ex : X -> Cph -> bytes -> bytes -> option X;
  EVP_DecryptUpdate : X -> bytes -> option (bytes * X);
  EVP_DecryptFinal_ex : X -> option (bytes * X);
}.
Arguments EVP_aes_128_cbc {Cph X} _.
Arguments EVP_aes_192_cbc {Cph X} _.
Arguments EVP_aes_256_cbc {Cph X} _.
Arguments EVP_CIPHER_block_size {Cph X} _ _.
Arguments EVP_CIPHER_key_length {Cph X} _ _.
Arguments EVP_CIPHER_CTX_new {Cph X} _.
Arguments EVP_EncryptInit_ex {Cph X} _ _ _ _ _.
Arguments EVP_EncryptUpdate {Cph X} _ _ _.
Arguments EVP_EncryptFinal_ex {Cph X} _ _.
Arguments EVP_DecryptInit_ex {Cph X} _ _ _ _ _.
Arguments EVP_DecryptUpdate {Cph X} _ _ _.
Arguments EVP_DecryptFinal_ex {Cph X} _ _.

Definition IO_SIZE : Z := 4096.
(** [(n + m) & ~(m - 1)]: the length of [n] bytes with their padding. *)
Definition ROUND_UP (n m : Z) : Z := u64 (Z.land (n + m) (Z.lnot (m - 1))).

(** The globals of the library. *)
Record crypt (Cph X : Type) := Crypt {
  cipher : option Cph;
  cctx : option X;                 (** ctx *)
  block_size : Z;
  ckey : bytes;                    (** key[16] *)
  civ : bytes;                     (** iv[16] *)
}.
Arguments Crypt {Cph X} _ _ _ _ _.
Arguments cipher {Cph X} _.
Arguments cctx {Cph X} _.
Arguments block_size {Cph X} _.
Arguments ckey {Cph X} _.
Arguments civ {Cph X} _.

(** * The functions *)

Section Encrypt.
Context {Cph X : Type} (api : evp_cipher_api Cph X).
Context {S : Type} `{Fd S}.
#[local] Abbreviation crypt := (crypt Cph X).

Definition set_ctx (x : option X) (g : crypt) : crypt :=
  Crypt (cipher g) x (block_size g) (ckey g) (civ g).

(** [opened] is what open(2) answers: a descriptor or -1. *)
Definition lib__open (opened : option S) (g : crypt) : option S * crypt :=
  match cipher g with
  | None => (opened, g)
  | Some _ =>
      match EVP_CIPHER_CTX_new api with
      | None => (None, set_ctx None g)
      | Some x => (opened, set_ctx (Some x) g)
      end
  end.

Definition lib__close (g : crypt) : crypt :=
  match cipher g with
  | None => g
  | Some _ => set_ctx None g
  end.

(** The loop of [lib__read]: whether it ended without an error, what it stored
    at [buf] so far ([p - buf] bytes) and [bytes_read]. *)
Fixpoint crypt_read_loop (fuel : nat) (count bytes_todo : Z) (x : X) (buf : bytes) (bytes_read : Z) (fd : S)
    : run (bool * bytes * Z * X * S) :=
  match fuel with
  | O => OutOfFuel
  | Datatypes.S fuel =>
      if negb (blen buf <? count) then Ret (true, buf, bytes_read, x, fd)
      else
        let size := if bytes_todo - bytes_read <? IO_SIZE then bytes_todo - bytes_read else IO_SIZE in
        match sys_read (u64 size) fd with
        | (RdGot [], fd) => Ret (true, buf, bytes_read, x, fd)
        | (RdFail _, fd) => Ret (false, buf, bytes_read, x, fd)
        | (RdGot data, fd) =>
            let bytes_read := bytes_read + blen data in
            match EVP_DecryptUpdate api x data with
            | None => Ret (false, buf, bytes_read, x, fd)
            | Some (dec_buf, x) => crypt_read_loop fuel count bytes_todo x (buf ++ dec_buf) bytes_read fd
            end
        end
  end.

Definition crypt_read (count : Z) (f : crypt * S) : run (Z * bytes * (crypt * S)) :=
  let '(g, fd) := f in
  let bytes_todo := i32 (ROUND_UP count (block_size g)) in
  match cipher g, cctx g with
  | None, _ =>
      match sys_read count fd with
      | (RdGot bs, fd) => Ret (i32 (blen bs), bs, (g, fd))
      | (RdFail _, fd) => Ret (-1, [], (g, fd))
      end
  | Some _, None => Ret (-1, [], (g, fd))
  | Some c, Some x =>
      match EVP_DecryptInit_ex api x c (ckey g) (civ g) with
      | None => Ret (-1, [], (g, fd))
      | Some x =>
          let! (ok, buf, bytes_read, x, fd) :=
            crypt_read_loop (Z.to_nat bytes_todo + 2) count bytes_todo x [] 0 fd in
          let g := set_ctx (Some x) g in
          if negb ok then Ret (-1, buf, (g, fd))
          else if bytes_read =? 0 then Ret (0, buf, (g, fd))
          else
            match EVP_DecryptFinal_ex api x with
            | None => Ret (-1, buf, (g, fd))
            | Some (dec_buf, x) => Ret (i32 count, buf ++ dec_buf, (set_ctx (Some x) g, fd))
            end
      end
  end.

(** The loop of [lib__write], at offset [p] of the buffer. *)
Fixpoint crypt_write_loop (fuel : nat) (buf : bytes) (p : Z) (x : X) (fd : S) : run (bool * X * S) :=
  let count := blen buf in
  match fuel with
  | O => OutOfFuel
  | Datatypes.S fuel =>
      if negb (p <? count) then Ret (true, x, fd)
      else
        let size := if count - IO_SIZE <? p then count mod IO_SIZE else IO_SIZE in
        match EVP_EncryptUpdate api x (ztake size (zdrop p buf)) with
        | None => Ret (false, x, fd)
        | Some (data, x) =>
            match sys_write data fd with
            | (WrFail _, fd) => Ret (false, x, fd)
            | (WrGot _, fd) => crypt_write_loop fuel buf (p + IO_SIZE) x fd
            end
        end
  end.

Definition crypt_write (buf : bytes) (f : crypt * S) : run (Z * (crypt * S)) :=
  let '(g, fd) := f in
  let count := blen buf in
  match cipher g, cctx g with
  | None, _ =>
      match sys_write buf fd with
      | (WrGot n, fd) => Ret (i32 n, (g, fd))
      | (WrFail _, fd) => Ret (-1, (g, fd))
      end
  | Some _, None => Ret (-1, (g, fd))
  | Some c, Some x =>
      match EVP_EncryptInit_ex api x c (ckey g) (civ g) with
      | None => Ret (-1, (g, fd))
      | Some x =>
          let! (ok, x, fd) := crypt_write_loop (Z.to_nat (count / IO_SIZE) + 2) buf 0 x fd in
          let g := set_ctx (Some x) g in
          if negb ok then Ret (-1, (g, fd))
          else
            match EVP_EncryptFinal_ex api x with
            | None => Ret (-1, (g, fd))
            | Some (data, x) =>
                let g := set_ctx (Some x) g in
                match sys_write data fd with
                | (WrFail _, fd) => Ret (-1, (g, fd))
                | (WrGot _, fd) => Ret (i32 count, (g, fd))
                end
            end
      end
  end.

(** The operations memcr finds when the library is preloaded. *)
Definition encrypt_lib : dump_lib (crypt * S) := {|
  lib__read := crypt_read;
  lib__write := crypt_write;
|}.

(** [rand_key] and [rand_iv]: what RAND_bytes puts into the two arrays. *)
Definition lib__init (enable : bool) (arg : option string) (rand_key rand_iv : option bytes) (g : crypt)
    : Z * crypt :=
  if negb enable then (0, g)
  else
    let choice :=
      match arg with
      | None => Some (EVP_aes_128_cbc api)
      | Some a =>
          if (a =? "aes-128-cbc")%string then Some (EVP_aes_128_cbc api)
          else if (a =? "aes-192-cbc")%string then Some (EVP_aes_192_cbc api)
          else if (a =? "aes-256-cbc")%string then Some (EVP_aes_256_cbc api)
          else None
      end in
    match choice with
    | None => (-1, g)
    | Some None => (-1, Crypt None (cctx g) (block_size g) (ckey g) (civ g))
    | Some (Some c) =>
        let g := Crypt (Some c) (cctx g) (block_size g) (ckey g) (civ g) in
        match rand_key with
        | None => (-1, g)
        | Some key =>
            let g := Crypt (Some c) (cctx g) (block_size g) key (civ g) in
            match rand_iv with
            | None => (-1, g)
            | Some iv =>
                let bs := EVP_CIPHER_block_size api c in
                (if bs <=? 0 then -1 else 0, Crypt (Some c) (cctx g) bs key iv)
            end
        end
    end.

Definition lib__fini : Z := 0.
End Encrypt.

(** A descriptor with the library's globals beside it. *)
#[export] Instance crypt_fd {Cph X S} `{Fd S} : Fd (crypt Cph X * S) := {|
  sys_read n f := let '(r, fd) := sys_read n f.2 in (r, (f.1, fd));
  sys_write b f := let '(r, fd) := sys_write b f.2 in (r, (f.1, fd));
  fd_patience f := fd_patience f.2;
|}.

(** * What OpenSSL promises

    CBC with PKCS padding and blocks of 16 bytes: [cbc_enc key iv m] is the
    encryption of the message [m].  [enc_at key iv x m out]: the context [x] was
    initialised for encryption, was fed [m] and gave [out]; [dec_at] likewise.
    The functions read as many bytes of [key] as the cipher's key is long, so
    nothing is promised of a shorter array.  EVP_DecryptUpdate holds back the
    last complete block until more input shows that it is not the padding;
    EVP_EncryptUpdate gives every complete block at once. *)
Class CbcSpec {Cph X} (api : evp_cipher_api Cph X) (c : Cph) := {
  cbc_block : EVP_CIPHER_block_size api c = 16;
  cbc_enc : bytes -> bytes -> bytes -> bytes;
  enc_at : bytes -> bytes -> X -> bytes -> bytes -> Prop;
  dec_at : bytes -> bytes -> X -> bytes -> bytes -> Prop;
  cbc_len key iv m : blen (cbc_enc key iv m) = 16 * (blen m / 16 + 1);
  enc_init key iv x : EVP_CIPHER_key_length api c <= blen key -> blen iv = 16 ->
    exists x', EVP_EncryptInit_ex api x c key iv = Some x' /\ enc_at key iv x' [] [];
  enc_update key iv x m out d : enc_at key iv x m out ->
    exists o x', EVP_EncryptUpdate api x d = Some (o, x') /\ enc_at key iv x' (m ++ d) (out ++ o)
      /\ blen (out ++ o) = 16 * (blen (m ++ d) / 16);
  enc_final key iv x m out : enc_at key iv x m out ->
    exists o x', EVP_EncryptFinal_ex api x = Some (o, x') /\ out ++ o = cbc_enc key iv m;
  dec_init key iv x : EVP_CIPHER_key_length api c <= blen key -> blen iv = 16 ->
    exists x', EVP_DecryptInit_ex api x c key iv = Some x' /\ dec_at key iv x' [] [];
  dec_update key iv x c0 out d m rest : dec_at key iv x c0 out -> cbc_enc key iv m = c0 ++ d ++ rest ->
    0 < blen d ->
    exists o x', EVP_DecryptUpdate api x d = Some (o, x') /\ dec_at key iv x' (c0 ++ d) (out ++ o)
      /\ blen (out ++ o) = 16 * ((blen (c0 ++ d) - 1) / 16);
  dec_final key iv x m out : dec_at key iv x (cbc_enc key iv m) out ->
    exists o x', EVP_DecryptFinal_ex api x = Some (o, x') /\ out ++ o = m;
}.
Arguments cbc_enc {Cph X} api c {_} _ _ _.
Arguments enc_at {Cph X} api c {_} _ _ _ _ _.
Arguments dec_at {Cph X} api c {_} _ _ _ _ _.

(** * Lemmas *)

Lemma ROUND_UP_16 n : 0 <= n < 2 ^ 63 -> ROUND_UP n 16 = 16 * (n / 16 + 1).
Proof.
  intros Hn. unfold ROUND_UP. change (Z.lnot (16 - 1)) with (- 2 ^ 4).
  assert (Hl : Z.land (n + 16) (- 2 ^ 4) = 2 ^ 4 * ((n + 16) / 2 ^ 4)).
  { replace (- 2 ^ 4) with (Z.lnot (Z.ones 4)) by reflexivity.
    rewrite <- Z.ldiff_land, Z.ldiff_ones_r by lia. rewrite Z.shiftl_mul_pow2, Z.shiftr_div_pow2 by lia. lia. }
  rewrite Hl. change (2 ^ 4) with 16. replace ((n + 16) / 16) with (n / 16 + 1)
    by (rewrite <- (Z.div_add n 1 16) by lia; f_equal; lia).
  apply u64_small. pose proof (Z.mul_div_le n 16). pose proof (Z.div_pos n 16). unfold is_u64. lia.
Qed.

(** A kernel the library copes with: it does not retry, and it cannot go on
    after a read that stops in the middle of a block. *)
Definition block_hint (h : hint) : Prop :=
  match h with HShort n => 0 < n /\ n mod 16 = 0 | HErr _ => False end.

Section Channel.
Context {Cph X : Type} (api : evp_cipher_api Cph X) (c : Cph) `{!CbcSpec api c}.
#[local] Abbreviation crypt := (crypt Cph X).

(** The library is ready: initialised with a cipher whose key fits the array,
    the file opened. *)
Definition crypt_ready (g : crypt) : Prop :=
  cipher g = Some c /\ is_Some (cctx g) /\ block_size g = 16
  /\ EVP_CIPHER_key_length api c <= blen (ckey g) /\ blen (civ g) = 16.

Lemma crypt_ready_ctx g x : crypt_ready g -> crypt_ready (set_ctx (Some x) g).
Proof. intros (? & ? & ? & ? & ?). by split_and!. Qed.

Lemma crypt_write_loop_ok fuel buf p x m out data key iv :
  enc_at api c key iv x m out -> 0 <= p -> p mod IO_SIZE = 0 ->
  (Z.to_nat ((blen buf - p) / IO_SIZE + 1) < fuel)%nat ->
  exists o x', crypt_write_loop api fuel buf p x (Stream data []) = Ret (true, x', Stream (data ++ o) [])
    /\ enc_at api c key iv x' (m ++ zdrop p buf) (out ++ o).
Proof.
  revert p x m out data. induction fuel as [|fuel IH]; intros p x m out data Hx Hp Hm Hf; [lia|].
  cbn [crypt_write_loop]. destruct (p <? blen buf) eqn:E; tests; cbn [negb].
  2: { exists [], x. rewrite zdrop_all, !app_nil_r by lia. done. }
  set (size := if _ <? _ then _ else _).
  assert (Hs : ztake size (zdrop p buf) ++ zdrop (p + IO_SIZE) buf = zdrop p buf).
  { unfold size. case_match; tests.
    - assert (Hb : blen buf mod IO_SIZE = blen buf - p).
      { apply Z.mod_divide in Hm as [k ->]; [|done]. unfold IO_SIZE in *.
        symmetry. apply (Z.mod_unique _ _ k); lia. }
      rewrite Hb, ztake_all, (zdrop_all (p + _)), app_nil_r by (unfold IO_SIZE in *; blia). done.
    - rewrite <- zdrop_zdrop, ztake_zdrop by (done || lia). done. }
  destruct (enc_update key iv x m out (ztake size (zdrop p buf)) Hx) as (o & x' & -> & Hx' & _).
  cbn [sys_write stream_fd st_hints st_data].
  destruct (IH (p + IO_SIZE) x' _ _ (data ++ o) Hx') as (o2 & x2 & -> & Hx2).
  { unfold IO_SIZE; lia. }
  { by rewrite <- Z.add_mod_idemp_r, Z_mod_same_full, Z.add_0_r by done. }
  { replace (blen buf - (p + IO_SIZE)) with (blen buf - p + (-1) * IO_SIZE) by lia.
    rewrite Z.div_add by done. assert (0 <= (blen buf - p) / IO_SIZE) by (apply Z.div_pos; unfold IO_SIZE in *; lia).
    lia. }
  exists (o ++ o2), x2. rewrite <- !app_assoc in *. rewrite Hs in Hx2. done.
Qed.

Lemma crypt_write_ok g data buf :
  crypt_ready g -> blen buf < 2 ^ 30 ->
  exists x, crypt_write api buf (g, Stream data [])
    = Ret (blen buf, (set_ctx (Some x) g, Stream (data ++ cbc_enc api c (ckey g) (civ g) buf) [])).
Proof.
  intros (Hc & [x0 Hx] & Hb & Hk & Hi) Hl. unfold crypt_write. rewrite Hc, Hx.
  destruct (enc_init (ckey g) (civ g) x0 Hk Hi) as (x1 & -> & H1).
  destruct (crypt_write_loop_ok (Z.to_nat (blen buf / IO_SIZE) + 2) buf 0 x1 [] [] data _ _ H1)
    as (o & x2 & -> & H2); [done|done| |].
  { rewrite Z.sub_0_r. assert (0 <= blen buf / IO_SIZE) by (apply Z.div_pos; unfold IO_SIZE; blia). lia. }
  cbn [rbind negb app] in *. destruct (enc_final _ _ _ _ _ H2) as (o2 & x3 & -> & E).
  cbn [sys_write stream_fd st_hints st_data]. rewrite zdrop_0 in E. cbn [app] in E.
  exists x3. rewrite i32_small by blia. rewrite <- app_assoc, E. done.
Qed.

(** One read(2) on such a kernel moves some blocks. *)
Lemma block_read size rest more hints :
  0 < size <= blen rest -> size mod 16 = 0 -> Forall block_hint hints ->
  exists k hs, sys_read size (Stream (rest ++ more) hints) = (RdGot (ztake k rest), Stream (zdrop k rest ++ more) hs)
    /\ 0 < k <= size /\ k mod 16 = 0 /\ Forall block_hint hs.
Proof.
  intros Hs Hs16 Hh. cbn [sys_read stream_fd st_hints st_data]. destruct hints as [|[h|e] hs].
  - exists size, []. rewrite ztake_app_le, zdrop_app_le by lia. split_and!; done || lia.
  - apply Forall_cons in Hh as [[Hh1 Hh2] Hhs]. exists (clip h size), hs.
    assert (Hk : 0 < clip h size <= size /\ clip h size mod 16 = 0).
    { unfold clip. destruct (Z.min_spec size (Z.max 1 h)) as [[? ->]|[? ->]]; [split; [lia|done]|].
      rewrite Z.max_r by lia. split; [lia|done]. }
    rewrite ztake_app_le, zdrop_app_le by lia. tauto.
  - by inversion_clear Hh.
Qed.

Lemma block_read_0 data hints :
  Forall block_hint hints ->
  exists hs, sys_read 0 (Stream data hints) = (RdGot [], Stream data hs) /\ Forall block_hint hs.
Proof.
  intros Hh. cbn [sys_read stream_fd st_hints st_data]. destruct hints as [|[h|e] hs]; [by eauto| |by inversion_clear Hh].
  inversion_clear Hh. replace (clip h 0) with 0 by (unfold clip; lia). eauto.
Qed.

Lemma crypt_read_loop_step {S} `{Fd S} fuel count todo x buf n (fd fd' : S) data o x' :
  blen buf < count -> data <> [] ->
  sys_read (u64 (if todo - n <? IO_SIZE then todo - n else IO_SIZE)) fd = (RdGot data, fd') ->
  EVP_DecryptUpdate api x data = Some (o, x') ->
  crypt_read_loop api (Datatypes.S fuel) count todo x buf n fd
    = crypt_read_loop api fuel count todo x' (buf ++ o) (n + blen data) fd'.
Proof.
  intros Hb Hd E Eu. cbn [crypt_read_loop]. rewrite (proj2 (Z.ltb_lt _ _)) by done. cbn [negb].
  rewrite E. destruct data; [done|]. cbv zeta. by rewrite Eu.
Qed.

Lemma padded_bounds n : 16 * (n / 16) <= n < 16 * (n / 16) + 16.
Proof. pose proof (Z.div_mod n 16); pose proof (Z.mod_pos_bound n 16); lia. Qed.

(** The loop at a block boundary of the record: [c0] was read, [rest] is left. *)
Lemma crypt_read_loop_ok fuel count m x c0 out rest more hints key iv :
  cbc_enc api c key iv m = c0 ++ rest -> dec_at api c key iv x c0 out ->
  blen out = Z.max 0 (blen c0 - 16) -> blen c0 mod 16 = 0 ->
  0 < count < 2 ^ 30 -> count / 16 = blen m / 16 ->
  Forall block_hint hints -> (Z.to_nat (blen rest) + 1 < fuel)%nat ->
  exists out' x' hints',
    crypt_read_loop api fuel count (16 * (count / 16 + 1)) x out (blen c0) (Stream (rest ++ more) hints)
      = Ret (true, out', 16 * (count / 16 + 1), x', Stream more hints')
    /\ dec_at api c key iv x' (cbc_enc api c key iv m) out' /\ Forall block_hint hints'.
Proof.
  revert x c0 out rest hints. induction fuel as [|fuel IH]; intros x c0 out rest hints He Hx Ho Hc0 Hcn Hcm Hh Hf; [lia|].
  assert (Htot : blen c0 + blen rest = 16 * (count / 16 + 1)) by (rewrite Hcm, <- blen_app, <- He; apply cbc_len).
  pose proof (padded_bounds count) as Hd.
  destruct (decide (rest = [])) as [->|Hr].
  { rewrite app_nil_r in He. rewrite blen_nil in Htot. cbn [app crypt_read_loop].
    assert (Hc : blen c0 = 16 * (count / 16 + 1)) by lia. rewrite Hc, <- He in *.
    case_match; [eauto 7|]. rewrite Z.sub_diag. change (u64 (if 0 <? IO_SIZE then 0 else IO_SIZE)) with 0.
    destruct (block_read_0 more hints Hh) as (hs & -> & ?). eauto 7. }
  apply Z.mod_divide in Hc0 as [a Ha]; [|lia].
  assert (Hrb : blen rest = (count / 16 + 1 - a) * 16) by lia.
  assert (Hpos : 16 <= blen rest) by (destruct rest; [done|blia]).
  set (size := if 16 * (count / 16 + 1) - blen c0 <? IO_SIZE then 16 * (count / 16 + 1) - blen c0 else IO_SIZE).
  assert (Hsz : 0 < size <= blen rest /\ size mod 16 = 0).
  { unfold size. case_match; tests; split; [lia| |unfold IO_SIZE in *; lia|done].
    replace (16 * (count / 16 + 1) - blen c0) with (blen rest) by lia. rewrite Hrb. apply Z_mod_mult. }
  destruct (block_read size rest more hints) as (k & hs & E & Hk & [b ->]%Z.mod_divide & Hhs); [tauto..| |lia].
  assert (Hbk : blen (ztake (b * 16) rest) = b * 16) by blia.
  destruct (dec_update key iv x c0 out (ztake (b * 16) rest) m (zdrop (b * 16) rest) Hx)
    as (o & x' & Eu & Hx' & Hl); [by rewrite ztake_zdrop|lia|].
  erewrite crypt_read_loop_step; [|blia| |rewrite u64_small by (unfold is_u64; blia); exact E|exact Eu].
  2: { intros E0. rewrite E0, blen_nil in Hbk. lia. }
  rewrite <- blen_app. apply IH; [by rewrite <- app_assoc, ztake_zdrop|done| | |done..|].
  - rewrite Hl, blen_app, Hbk, Ha. replace ((a * 16 + b * 16 - 1) / 16) with (a + b - 1); [blia|].
    apply (Z.div_unique _ _ _ 15); lia.
  - rewrite blen_app, Hbk, Ha, <- Z.mul_add_distr_r. apply Z_mod_mult.
  - blia.
Qed.

(** [lib__read] on a record: it takes the whole record of the message [m]
    whenever [m] is as many blocks long as the count asked for. *)
Lemma crypt_read_record g count m more hints :
  crypt_ready g -> 0 < count < 2 ^ 30 -> count / 16 = blen m / 16 -> Forall block_hint hints ->
  exists x hints', crypt_read api count (g, Stream (cbc_enc api c (ckey g) (civ g) m ++ more) hints)
    = Ret (count, m, (set_ctx (Some x) g, Stream more hints')) /\ Forall block_hint hints'.
Proof.
  intros (Hc & [x0 Hx] & Hb & Hk & Hi) Hn Hm Hh. unfold crypt_read. rewrite Hc, Hx, Hb, ROUND_UP_16 by lia.
  pose proof (padded_bounds count) as Hd. rewrite (i32_small (16 * _)) by lia.
  destruct (dec_init (ckey g) (civ g) x0 Hk Hi) as (x1 & -> & H1).
  destruct (crypt_read_loop_ok (Z.to_nat (16 * (count / 16 + 1)) + 2) count m x1 [] []
    (cbc_enc api c (ckey g) (civ g) m) more hints (ckey g) (civ g)) as (out & x2 & h' & E & H2 & Hh');
    [done..| |].
  { rewrite cbc_len. lia. }
  rewrite blen_nil in E. rewrite E. cbn [rbind negb]. rewrite (proj2 (Z.eqb_neq _ _)) by lia.
  destruct (dec_final _ _ _ _ _ H2) as (o & x3 & -> & Eo). rewrite Eo, i32_small by lia.
  exists x3, h'. done.
Qed.

Lemma crypt_read_eof g n hints :
  crypt_ready g -> 0 < n -> Forall block_hint hints ->
  exists x hints', crypt_read api n (g, Stream [] hints) = Ret (0, [], (set_ctx (Some x) g, Stream [] hints'))
    /\ Forall block_hint hints'.
Proof.
  intros (Hc & [x0 Hx] & Hb & Hk & Hi) Hn Hh. unfold crypt_read. rewrite Hc, Hx.
  destruct (dec_init (ckey g) (civ g) x0 Hk Hi) as (x1 & -> & H1).
  rewrite Nat.add_comm. cbn [Nat.add crypt_read_loop]. rewrite blen_nil, (proj2 (Z.ltb_lt 0 n)) by lia.
  cbn [negb sys_read stream_fd st_hints st_data].
  assert (Hnil : forall k, ztake k (@nil byte) = [] /\ zdrop k (@nil byte) = [])
    by (intros k; split; [apply take_nil|apply drop_nil]).
  destruct hints as [|[h|e] hs]; [| |by inversion_clear Hh].
  - destruct (Hnil (u64 (if i32 (ROUND_UP n (block_size g)) - 0 <? IO_SIZE
      then i32 (ROUND_UP n (block_size g)) - 0 else IO_SIZE))) as [-> ->]. cbn [rbind negb]. eauto.
  - inversion_clear Hh. destruct (Hnil (clip h (u64 (if i32 (ROUND_UP n (block_size g)) - 0 <? IO_SIZE
      then i32 (ROUND_UP n (block_size g)) - 0 else IO_SIZE)))) as [-> ->]. cbn [rbind negb]. eauto.
Qed.
(** The library as a channel, for the key and the iv it was initialised with. *)
Definition crypt_file (key iv : bytes) (f : crypt * stream) (data : bytes) : Prop :=
  crypt_ready f.1 /\ ckey f.1 = key /\ civ f.1 = iv /\ st_data f.2 = data.

Definition crypt_channel (key iv : bytes)
  : DumpChannel (dump_read (Some (encrypt_lib api (S := stream)))) (dump_write (Some (encrypt_lib api))).
Proof.
  refine {|
    dc_enc := cbc_enc api c key iv;
    dc_writer := fun f data => crypt_file key iv f data /\ st_hints f.2 = [];
    dc_reader := fun f data => crypt_file key iv f data /\ Forall block_hint (st_hints f.2);
  |}.
  - intros [g [d h]] ct data [(Hg & <- & <- & E) Hh] Hl. simpl in *. subst.
    destruct (crypt_write_ok g ct data) as (x & E); [done|lia|].
    eexists. split; [exact E|]. split; [|done]. split_and!; [by apply crypt_ready_ctx|done..].
  - intros [g [d h]] ct data [(Hg & <- & <- & E) Hh] Hl. simpl in *. subst.
    destruct (crypt_read_record g (blen data) data ct h) as (x & h' & E & Hh'); [done..|].
    eexists. split; [exact E|]. split; [|done]. split_and!; [by apply crypt_ready_ctx|done..].
  - intros [g [d h]] n [(Hg & <- & <- & E) Hh] Hl. simpl in *. subst.
    destruct (crypt_read_eof g n h) as (x & h' & E & Hh'); [done..|].
    eexists. split; [exact E|]. split; [|done]. split_and!; [by apply crypt_ready_ctx|done..].
Defined.
End Channel.

(** A sequence of records written to a channel, and read back. *)
Section Records.
Context {F : Type} (rd : Z -> F -> run (Z * bytes * F)) (wr : bytes -> F -> run (Z * F)).

Fixpoint write_records (rs : list bytes) (f : F) : run (list Z * F) :=
  match rs with
  | [] => Ret ([], f)
  | r :: rs => let! (n, f) := wr r f in let! (ns, f) := write_records rs f in Ret (n :: ns, f)
  end.

Fixpoint read_records (ns : list Z) (f : F) : run (list (Z * bytes) * F) :=
  match ns with
  | [] => Ret ([], f)
  | n :: ns => let! (k, b, f) := rd n f in let! (rs, f) := read_records ns f in Ret ((k, b) :: rs, f)
  end.

Context `{!DumpChannel rd wr}.
#[local] Abbreviation record_ok := (fun r : bytes => 0 < blen r < 2 ^ 30).

Lemma write_records_ok rs f ct :
  dc_writer rd wr f ct -> Forall record_ok rs ->
  exists f', write_records rs f = Ret (map blen rs, f') /\ dc_writer rd wr f' (ct ++ concat (map (dc_enc rd wr) rs)).
Proof.
  revert f ct. induction rs as [|r rs IH]; intros f ct Hf Hrs; cbn.
  - rewrite app_nil_r. eauto.
  - apply Forall_cons in Hrs as [Hr Hrs]. destruct (dc_write f ct r) as (f1 & -> & Hf1); [done..|].
    destruct (IH f1 _ Hf1 Hrs) as (f2 & E & Hf2). cbn. rewrite E. cbn. rewrite app_assoc. eauto.
Qed.

Lemma read_records_ok rs f ct :
  dc_reader rd wr f (concat (map (dc_enc rd wr) rs) ++ ct) -> Forall record_ok rs ->
  exists f', read_records (map blen rs) f = Ret (map (fun r => (blen r, r)) rs, f') /\ dc_reader rd wr f' ct.
Proof.
  revert f. induction rs as [|r rs IH]; intros f Hf Hrs; cbn in *; [eauto|].
  apply Forall_cons in Hrs as [Hr Hrs]. rewrite <- app_assoc in Hf.
  destruct (dc_read f _ r Hf) as (f1 & -> & Hf1); [done|].
  destruct (IH f1 Hf1 Hrs) as (f2 & E & Hf2). cbn. rewrite E. cbn. eauto.
Qed.
End Records.

(** * Theorems *)

Section Theorems.
Context {Cph X : Type} (api : evp_cipher_api Cph X) (c : Cph) `{!CbcSpec api c}.
#[local] Abbreviation crypt := (crypt Cph X).

(** C19: the encryption library, initialised for AES-128 and put in place of
    memcr's file operations, is transparent: when write(2) takes all it is
    given, a dump written as a sequence of records of any lengths (positive, below
    2^30), closed, opened again and read with the same lengths, in pieces of whole
    cipher blocks, gives the records back and ends where the file ends. *)
Theorem encrypted_dump_roundtrip arg key iv records (g0 : crypt) x0 :
  arg = None \/ arg = Some "aes-128-cbc"%string ->
  EVP_aes_128_cbc api = Some c -> EVP_CIPHER_CTX_new api = Some x0 ->
  EVP_CIPHER_key_length api c = 16 -> blen key = 16 -> blen iv = 16 ->
  Forall (fun r => 0 < blen r < 2 ^ 30) records ->
  exists g g1 g2 file,
    lib__init api true arg (Some key) (Some iv) g0 = (0, g)
    /\ lib__open api (Some (Stream [] [])) g = (Some (Stream [] []), g1)
    /\ write_records (dump_write (Some (encrypt_lib api))) records (g1, Stream [] [])
         = Ret (map blen records, (g2, Stream file []))
    /\ forall hints, Forall block_hint hints ->
         exists g3 g4 hints',
           lib__open api (Some (Stream file hints)) (lib__close g2) = (Some (Stream file hints), g3)
           /\ read_records (dump_read (Some (encrypt_lib api))) (map blen records) (g3, Stream file hints)
                = Ret (map (fun r => (blen r, r)) records, (g4, Stream [] hints')).
Proof.
  intros Harg Hc Hx Hkl Hk Hi Hrs. pose (CH := crypt_channel api c key iv).
  eexists _, _.
  assert (Hinit : lib__init api true arg (Some key) (Some iv) g0 = (0, Crypt (Some c) (cctx g0) 16 key iv)).
  { destruct Harg as [-> | ->]; unfold lib__init; simpl; rewrite Hc, cbc_block; done. }
  destruct (write_records_ok (dump_read (Some (encrypt_lib api))) (dump_write (Some (encrypt_lib api)))
    records (Crypt (Some c) (Some x0) 16 key iv, Stream [] []) []) as ([g2 [d h]] & E & Hw); [|done|].
  { split; [|done]. split_and!; try done. split_and!; simpl; [done|by eexists|done|lia|done]. }
  cbn in Hw. destruct Hw as [(Hg2 & Hk2 & Hi2 & Hd) Hh]. cbn [fst snd st_data st_hints] in Hg2, Hk2, Hi2, Hd, Hh. subst d h.
  eexists g2, _. split; [exact Hinit|]. split; [unfold lib__open; cbn; by rewrite Hx|].
  split; [exact E|]. intros hints Hhints.
  destruct (read_records_ok (dump_read (Some (encrypt_lib api))) (dump_write (Some (encrypt_lib api)))
    records (set_ctx (Some x0) (lib__close g2), Stream (concat (map (cbc_enc api c key iv) records)) hints) [])
    as ([g4 [d h]] & E4 & Hr); [|done|].
  { destruct Hg2 as (G1 & G2 & G3 & G4 & G5). split; [|done]. unfold lib__close. simpl. rewrite G1. simpl.
    rewrite app_nil_r. unfold crypt_file, crypt_ready. cbn. split_and!; by try eexists. }
  cbn in Hr. destruct Hr as [(_ & _ & _ & Hd) _]. simpl in Hd. subst d.
  eexists _, g4, h. split; [|exact E4].
  destruct Hg2 as (G1 & _). simpl in G1. unfold lib__open, lib__close. rewrite G1. simpl. by rewrite G1, Hx.
Qed.

(** C40: [lib__read] does not check what it decrypts against what was asked for:
    a record of any length with the same number of blocks is taken, [count] is
    returned and all of the record is stored; when the record is longer, up to
    15 bytes are written behind the caller's buffer, when it is shorter the
    buffer is reported full although it is not. *)
Theorem record_length_unchecked g count m more hints :
  crypt_ready api c g -> 0 < count < 2 ^ 30 -> count / 16 = blen m / 16 -> Forall block_hint hints ->
  exists f', dump_read (Some (encrypt_lib api)) count
      (g, Stream (cbc_enc api c (ckey g) (civ g) m ++ more) hints) = Ret (count, m, f').
Proof.
  intros Hg Hn Hm Hh. destruct (crypt_read_record api c g count m more hints) as (x & h' & E & _); [done..|].
  eexists. exact E.
Qed.

(** [lib__write] takes a short write for a complete one: when the disk
    takes only one byte of the last block of a record, the record's length is
    returned all the same, and the dump lacks 15 bytes. *)
Theorem short_write_unnoticed g data buf :
  crypt_ready api c g -> 0 < blen buf < IO_SIZE ->
  exists g', dump_write (Some (encrypt_lib api)) buf (g, Stream data [HShort IO_SIZE; HShort 1])
    = Ret (blen buf, (g', Stream (data ++ ztake (16 * (blen buf / 16) + 1) (cbc_enc api c (ckey g) (civ g) buf)) [])).
Proof.
  intros (Hc & [x0 Hx] & Hb & Hk & Hi) Hl. unfold dump_write, encrypt_lib, lib__write, crypt_write. rewrite Hc, Hx.
  destruct (enc_init (ckey g) (civ g) x0 Hk Hi) as (x1 & -> & H1).
  rewrite Z.div_small by lia. change (Z.to_nat 0 + 2)%nat with 2%nat. cbn [crypt_write_loop].
  rewrite (proj2 (Z.ltb_lt 0 _)), (proj2 (Z.ltb_lt (_ - _) 0)), Z.mod_small by (unfold IO_SIZE in *; lia).
  cbn [negb]. rewrite zdrop_0, ztake_all by lia.
  destruct (enc_update _ _ _ _ _ buf H1) as (o & x2 & -> & H2 & Ho). cbn [app] in *.
  destruct (enc_final _ _ _ _ _ H2) as (o2 & x3 & Ef & Eo).
  pose proof (cbc_len (ckey g) (civ g) buf) as Hlen. pose proof (padded_bounds (blen buf)) as Hpb.
  assert (Ho2 : blen o2 = 16) by (rewrite <- Eo, blen_app in Hlen; lia).
  cbn [sys_write stream_fd st_hints st_data]. rewrite (proj2 (Z.ltb_ge (0 + _) _)) by (unfold IO_SIZE in *; lia).
  cbn [rbind negb]. rewrite Ef. eexists. f_equal. rewrite i32_small by (unfold IO_SIZE in *; lia). do 3 f_equal.
  cbn [st_data]. rewrite <- app_assoc. f_equal. rewrite <- Eo.
  rewrite (ztake_all (clip _ _) o) by (unfold clip, IO_SIZE in *; lia).
  rewrite <- Ho, ztake_add, ztake_app_exact, zdrop_app_exact by (done || blia).
  unfold clip. by rewrite Ho2.
Qed.
End Theorems.

(** "aes-192-cbc" and "aes-256-cbc" are accepted and initialised, with a
    random key of the 16 bytes of the array: OpenSSL then reads the rest of the
    longer key from behind the array. *)
Theorem long_keys_not_filled {Cph X} (api : evp_cipher_api Cph X) c arg key iv g0 :
  arg = "aes-192-cbc"%string /\ EVP_aes_192_cbc api = Some c /\ EVP_CIPHER_key_length api c = 24
  \/ arg = "aes-256-cbc"%string /\ EVP_aes_256_cbc api = Some c /\ EVP_CIPHER_key_length api c = 32 ->
  EVP_CIPHER_block_size api c = 16 -> blen key = 16 ->
  exists g, lib__init api true (Some arg) (Some key) (Some iv) g0 = (0, g)
    /\ cipher g = Some c /\ ckey g = key /\ blen (ckey g) < EVP_CIPHER_key_length api c.
Proof.
  intros [(-> & Hc & Hl)|(-> & Hc & Hl)] Hb Hk; unfold lib__init; simpl; rewrite Hc, Hb; eexists;
    (split; [done|]); cbn; rewrite Hl, Hk; done.
Qed.

(** * A cipher that pads

    The padding and the buffering of CBC with the identity in place of the
    block function: shows that [CbcSpec] can hold, and evaluates. *)
Definition pad (m : bytes) : bytes :=
  let k := (16 - length m mod 16)%nat in replicate k (byte.of_Z (Z.of_nat k)).

(** Complete blocks of [m] that encryption gives, that decryption gives. *)
Definition enc_given (m : bytes) : nat := (16 * (length m / 16))%nat.
Definition dec_given (m : bytes) : nat := (16 * ((length m - 1) / 16))%nat.

Definition given (f : bytes -> nat) (x d : bytes) : bytes := drop (f x) (take (f (x ++ d)) (x ++ d)).

Definition pad_api : evp_cipher_api unit bytes := {|
  EVP_aes_128_cbc := Some tt;
  EVP_aes_192_cbc := Some tt;
  EVP_aes_256_cbc := Some tt;
  EVP_CIPHER_block_size _ := 16;
  EVP_CIPHER_key_length _ := 16;
  EVP_CIPHER_CTX_new := Some [];
  EVP_EncryptInit_ex _ _ _ _ := Some [];
  EVP_EncryptUpdate x d := Some (given enc_given x d, x ++ d);
  EVP_EncryptFinal_ex x := Some (drop (enc_given x) x ++ pad x, x);
  EVP_DecryptInit_ex _ _ _ _ := Some [];
  EVP_DecryptUpdate x d := Some (given dec_given x d, x ++ d);
  EVP_DecryptFinal_ex x :=
    let k := Z.to_nat (byte.unsigned (List.last x Byte.x00)) in
    if bool_decide (0 < length x)%nat && bool_decide (length x mod 16 = 0)%nat
       && bool_decide (1 <= k <= 16)%nat
    then Some (take (16 - k) (drop (dec_given x) x), x) else None;
|}.

Lemma given_app f (x d : bytes) :
  (f x <= f (x ++ d))%nat -> (f (x ++ d) <= length (x ++ d))%nat -> (f x <= length x)%nat ->
  take (f x) x ++ given f x d = take (f (x ++ d)) (x ++ d).
Proof.
  intros H1 H2 H3. unfold given. rewrite <- (take_drop (f x) (take (f (x ++ d)) (x ++ d))) at 2. f_equal.
  rewrite take_take, Nat.min_l by done. by rewrite take_app_le.
Qed.

Lemma enc_given_le (m : bytes) : (enc_given m <= length m)%nat.
Proof. apply Nat.Div0.mul_div_le. Qed.
Lemma dec_given_le (m : bytes) : (dec_given m <= length m)%nat.
Proof. unfold dec_given. pose proof (Nat.Div0.mul_div_le (length m - 1) 16). lia. Qed.
Lemma enc_given_mono (m d : bytes) : (enc_given m <= enc_given (m ++ d))%nat.
Proof. unfold enc_given. rewrite length_app. apply Nat.mul_le_mono_l, Nat.Div0.div_le_mono. lia. Qed.
Lemma dec_given_mono (m d : bytes) : (dec_given m <= dec_given (m ++ d))%nat.
Proof. unfold dec_given. rewrite length_app. apply Nat.mul_le_mono_l, Nat.Div0.div_le_mono. lia. Qed.

Lemma length_pad (m : bytes) : length (pad m) = (16 - length m mod 16)%nat.
Proof. apply length_replicate. Qed.

Lemma length_padded (m : bytes) : length (m ++ pad m) = (16 * (length m / 16 + 1))%nat.
Proof.
  rewrite length_app, length_pad. pose proof (Nat.div_mod_eq (length m) 16).
  pose proof (Nat.mod_upper_bound (length m) 16). lia.
Qed.

Lemma dec_given_padded (m : bytes) : dec_given (m ++ pad m) = enc_given m.
Proof.
  unfold dec_given, enc_given. rewrite length_padded. f_equal. symmetry.
  apply (Nat.div_unique _ _ _ 15); lia.
Qed.

Lemma last_pad (m : bytes) : List.last (m ++ pad m) Byte.x00 = byte.of_Z (16 - Z.of_nat (length m mod 16)).
Proof.
  pose proof (Nat.mod_upper_bound (length m) 16). unfold pad.
  destruct (16 - length m mod 16)%nat as [|k] eqn:E; [lia|].
  replace (16 - Z.of_nat (length m mod 16)) with (Z.of_nat (S k)) by lia.
  rewrite replicate_S_end, app_assoc. apply List.last_last.
Qed.

Lemma pad_final (m : bytes) :
  EVP_DecryptFinal_ex pad_api (m ++ pad m) = Some (drop (enc_given m) m, m ++ pad m).
Proof.
  cbn [EVP_DecryptFinal_ex pad_api]. rewrite last_pad, length_padded, dec_given_padded.
  pose proof (Nat.mod_upper_bound (length m) 16) as Hr. pose proof (Nat.div_mod_eq (length m) 16) as Hdm.
  rewrite byte.unsigned_of_Z. unfold byte.wrap. rewrite Z.mod_small by lia.
  rewrite !bool_decide_true; [|lia| |lia].
  2: { rewrite Nat.mul_comm. apply Nat.Div0.mod_mul. }
  cbn [andb]. f_equal. f_equal. pose proof (enc_given_le m).
  rewrite drop_app_le by done. apply take_app_length'. rewrite length_drop. unfold enc_given. lia.
Qed.

#[export] Instance pad_spec : CbcSpec pad_api tt.
Proof.
  refine {|
    cbc_enc := fun _ _ m => m ++ pad m;
    enc_at := fun _ _ x m out => x = m /\ out = take (enc_given m) m;
    dec_at := fun _ _ x ct out => x = ct /\ out = take (dec_given ct) ct;
  |}; try done.
  - intros key iv m. unfold blen. rewrite length_padded. rewrite Nat2Z.inj_mul, Nat2Z.inj_add, Nat2Z.inj_div. lia.
  - intros key iv x _ _. by exists [].
  - intros key iv x m out d [-> ->]. eexists _, _. split; [done|].
    rewrite given_app by (apply enc_given_mono || apply enc_given_le). split; [done|].
    unfold blen. rewrite length_take, Nat.min_l by apply enc_given_le.
    unfold enc_given. rewrite Nat2Z.inj_mul, Nat2Z.inj_div. done.
  - intros key iv x m out [-> ->]. eexists _, _. split; [done|]. by rewrite app_assoc, take_drop.
  - intros key iv x _ _. by exists [].
  - intros key iv x ct out d m rest [-> ->] E Hd. eexists _, _. split; [done|].
    rewrite given_app by (apply dec_given_mono || apply dec_given_le). split; [done|].
    unfold blen in *. rewrite length_take, Nat.min_l by apply dec_given_le.
    unfold dec_given. rewrite Nat2Z.inj_mul, Nat2Z.inj_div, Nat2Z.inj_sub by (rewrite length_app; lia). done.
  - intros key iv x m out [-> ->]. exists (drop (enc_given m) m), (m ++ pad m). split; [apply pad_final|].
    rewrite dec_given_padded, take_app_le by apply enc_given_le. apply take_drop.
Defined.

(** ** Witnesses *)

Definition wit_key : bytes := replicate 16 Byte.x07.
Definition wit_crypt : crypt unit bytes := Crypt (Some tt) (Some []) 16 wit_key wit_key.

Lemma wit_crypt_ready : crypt_ready pad_api tt wit_crypt.
Proof. split_and!; try done; by eexists. Qed.

Lemma encrypted_dump_roundtrip_witness :
  let records := [[Byte.x01; Byte.x02]; replicate 5000 Byte.x03; replicate 32 Byte.x04] in
  exists g g1 g2 file,
    lib__init pad_api true None (Some wit_key) (Some wit_key) (Crypt None None 0 [] []) = (0, g)
    /\ lib__open pad_api (Some (Stream [] [])) g = (Some (Stream [] []), g1)
    /\ write_records (dump_write (Some (encrypt_lib pad_api))) records (g1, Stream [] [])
         = Ret (map blen records, (g2, Stream file []))
    /\ forall hints, Forall block_hint hints ->
         exists g3 g4 hints',
           lib__open pad_api (Some (Stream file hints)) (lib__close g2) = (Some (Stream file hints), g3)
           /\ read_records (dump_read (Some (encrypt_lib pad_api))) (map blen records) (g3, Stream file hints)
                = Ret (map (fun r => (blen r, r)) records, (g4, Stream [] hints')).
Proof.
  intros records. apply (encrypted_dump_roundtrip pad_api tt None wit_key wit_key records (Crypt None None 0 [] []) []);
    try done; [by left|]. repeat constructor; ground.
Defined.

Lemma record_length_unchecked_witness :
  exists f', dump_read (Some (encrypt_lib pad_api)) 4
      (wit_crypt, Stream (cbc_enc pad_api tt wit_key wit_key (replicate 15 Byte.x01) ++ []) [])
    = Ret (4, replicate 15 Byte.x01, f').
Proof.
  apply (record_length_unchecked pad_api tt wit_crypt 4 (replicate 15 Byte.x01) [] []);
    [apply wit_crypt_ready|lia|reflexivity|constructor].
Defined.

Lemma short_write_unnoticed_witness :
  exists g', dump_write (Some (encrypt_lib pad_api)) [Byte.x01; Byte.x02] (wit_crypt, Stream [] [HShort IO_SIZE; HShort 1])
    = Ret (2, (g', Stream ([] ++ ztake (16 * (2 / 16) + 1) (cbc_enc pad_api tt wit_key wit_key [Byte.x01; Byte.x02])) [])).
Proof.
  apply (short_write_unnoticed pad_api tt wit_crypt [] [Byte.x01; Byte.x02]);
    [apply wit_crypt_ready|split; reflexivity].
Defined.
