(* ===== verification/Target.v ===== *)
(** The address space of the frozen process, as the parasite and memcr use it
    through the kernel: the class [AddrSpace] has the operations and what can be
    observed, [AddrSpaceSpec] states the documented behaviour the program relies
    on, and [simple_as] is a concrete address space that satisfies it. *)
From stdpp Require Import base list.
From Stdlib Require Import Setoid Morphisms.
From S2P Require Import Prelude Dump.

Definition PROT_NONE : Z := 0.
Definition PROT_READ : Z := 1.
Definition PROT_WRITE : Z := 2.
Definition PROT_EXEC : Z := 4.

Class AddrSpace (T : Type) := {
  (** what the process would read at an address *)
  as_byte : T -> Z -> byte;
  (** the protection of the mapping at an address; [None]: nothing is mapped *)
  as_prot : T -> Z -> option Z;
  (** what the address reads once its page was dropped: zero in anonymous
      memory, the file's contents in a file mapping *)
  as_dropped : T -> Z -> byte;
  (** the address lies in locked memory, which madvise(2) refuses to drop *)
  as_locked : T -> Z -> bool;
  (** the 64-bit /proc/pid/pagemap entry of a page number *)
  as_pagemap : T -> Z -> Z;
  (** a system call reads ([None]: EFAULT) or writes the process's memory *)
  copy_from_user : T -> Z -> Z -> option bytes;
  copy_to_user : T -> Z -> bytes -> option T;
  (** mprotect(2) and madvise(2) with MADV_DONTNEED: 0 or a negative errno *)
  k_mprotect : T -> Z -> Z -> Z -> Z * T;
  k_madvise_dontneed : T -> Z -> Z -> Z * T;
  (** lseek(2) in the pagemap file, and read(2) of [n] bytes at an offset: the
      return value and the bytes delivered *)
  k_pagemap_seek : T -> Z -> Z;
  k_pagemap_read : T -> Z -> Z -> Z * bytes;
}.

(** [n] bytes of memory from [a]. *)
Definition mem_bytes {T} `{AddrSpace T} (t : T) (a n : Z) : bytes :=
  map (fun i => as_byte t (a + Z.of_nat i)) (seq 0 (Z.to_nat n)).

(** The entries of the pagemap file from byte offset [off] on, [n] bytes. *)
Definition pagemap_bytes {T} `{AddrSpace T} (t : T) (off n : Z) : bytes :=
  flat_map (fun i => le_split 8 (as_pagemap t (off / 8 + Z.of_nat i))) (seq 0 (Z.to_nat (n / 8))).

Definition in_range (a n x : Z) : Prop := a <= x < a + n.
Definition in_rangeb (a n x : Z) : bool := (a <=? x) && (x <? a + n).

Definition can (bit : Z) {T} `{AddrSpace T} (t : T) (x : Z) : Prop :=
  exists p, as_prot t x = Some p /\ Z.land p bit = bit.

Definition mapped {T} `{AddrSpace T} (t : T) (x : Z) : Prop := is_Some (as_prot t x).

Class AddrSpaceSpec (T : Type) `{AddrSpace T} (page_size : Z) := {
  copy_from_user_ok t a n :
    0 <= n -> (forall x, in_range a n x -> can PROT_READ t x) ->
    copy_from_user t a n = Some (mem_bytes t a n);
  copy_to_user_ok t a bs :
    (forall x, in_range a (blen bs) x -> can PROT_WRITE t x) ->
    exists t', copy_to_user t a bs = Some t'
      /\ (forall x, as_byte t' x = if in_rangeb a (blen bs) x
                                   then nth (Z.to_nat (x - a)) bs Byte.x00 else as_byte t x)
      /\ (forall x, as_prot t' x = as_prot t x) /\ (forall x, as_dropped t' x = as_dropped t x)
      /\ (forall x, as_locked t' x = as_locked t x);
  k_mprotect_ok t a n p :
    a mod page_size = 0 -> n mod page_size = 0 -> 0 <= n ->
    (forall x, in_range a n x -> mapped t x) ->
    exists t', k_mprotect t a n p = (0, t')
      /\ (forall x, as_prot t' x = if in_rangeb a n x then Some p else as_prot t x)
      /\ (forall x, as_byte t' x = as_byte t x) /\ (forall x, as_dropped t' x = as_dropped t x)
      /\ (forall x, as_locked t' x = as_locked t x)
      /\ (forall x, as_pagemap t' x = as_pagemap t x);
  k_madvise_ok t a n :
    a mod page_size = 0 -> n mod page_size = 0 -> 0 <= n ->
    (forall x, in_range a n x -> mapped t x /\ as_locked t x = false) ->
    exists t', k_madvise_dontneed t a n = (0, t')
      /\ (forall x, as_byte t' x = if in_rangeb a n x then as_dropped t x else as_byte t x)
      /\ (forall x, as_prot t' x = as_prot t x) /\ (forall x, as_dropped t' x = as_dropped t x)
      /\ (forall x, as_locked t' x = as_locked t x)
      /\ (forall pg, ~ in_range a n (pg * page_size) -> as_pagemap t' pg = as_pagemap t pg);
  k_pagemap_seek_ok t off : 0 <= off < 2 ^ 63 -> k_pagemap_seek t off = off;
  k_pagemap_read_ok t off n :
    off mod 8 = 0 -> n mod 8 = 0 -> 0 <= off -> 0 <= n < 2 ^ 31 ->
    k_pagemap_read t off n = (n, pagemap_bytes t off n);
  as_pagemap_u64 t pg : is_u64 (as_pagemap t pg);
}.

(** * Equality of address spaces up to what can be observed *)

Section Equality.
Context {T : Type} `{AddrSpace T}.

Definition same_bytes (t1 t2 : T) : Prop := forall x, as_byte t1 x = as_byte t2 x.
Definition same_prot (t1 t2 : T) : Prop := forall x, as_prot t1 x = as_prot t2 x.

#[export] Instance same_bytes_equiv : Equivalence same_bytes.
Proof. split; repeat intro; unfold same_bytes in *; congruence. Qed.

#[export] Instance same_prot_equiv : Equivalence same_prot.
Proof. split; repeat intro; unfold same_prot in *; congruence. Qed.

#[export] Instance mem_bytes_proper : Proper (same_bytes ==> eq ==> eq ==> eq) mem_bytes.
Proof. intros t1 t2 Ht a ? <- n ? <-. unfold mem_bytes. apply map_ext. intros; apply Ht. Qed.

#[export] Instance can_proper bit : Proper (same_prot ==> eq ==> iff) (can bit).
Proof. intros t1 t2 Ht x ? <-. unfold can. by rewrite Ht. Qed.

#[export] Instance mapped_proper : Proper (same_prot ==> eq ==> iff) mapped.
Proof. intros t1 t2 Ht x ? <-. unfold mapped. by rewrite Ht. Qed.

Lemma blen_mem_bytes (t : T) a n : 0 <= n -> blen (mem_bytes t a n) = n.
Proof. intros. unfold mem_bytes, blen. rewrite length_map, length_seq. lia. Qed.

Lemma nth_mem_bytes (t : T) a n x :
  in_range a n x -> nth (Z.to_nat (x - a)) (mem_bytes t a n) Byte.x00 = as_byte t x.
Proof.
  unfold in_range. intros Hx. unfold mem_bytes.
  rewrite (nth_indep _ _ (as_byte t (a + Z.of_nat 0))) by (rewrite length_map, length_seq; lia).
  rewrite (map_nth (fun i => as_byte t (a + Z.of_nat i))), seq_nth by lia.
  f_equal. lia.
Qed.

Lemma blen_pagemap_bytes (t : T) off n :
  0 <= n -> n mod 8 = 0 -> blen (pagemap_bytes t off n) = n.
Proof.
  intros Hn Hm. unfold pagemap_bytes, blen.
  assert (E : forall f (l : list nat), length (flat_map (fun i => le_split 8 (f i)) l) = (8 * length l)%nat)
    by (intros f l; induction l as [|x l IH]; simpl; [done|rewrite IH; lia]).
  rewrite E, length_seq. apply Z.mod_divide in Hm as [k ->]; [|lia]. rewrite Z.div_mul; lia.
Qed.

Lemma pagemap_bytes_add (t : T) off a b :
  0 <= a -> 0 <= b -> a mod 8 = 0 -> b mod 8 = 0 ->
  pagemap_bytes t off (a + b) = pagemap_bytes t off a ++ pagemap_bytes t (off + a) b.
Proof.
  intros Ha Hb Hma Hmb. apply Z.mod_divide in Hma as [i ->], Hmb as [j ->]; [|lia..].
  unfold pagemap_bytes. rewrite <- Z.mul_add_distr_r, Z.div_add, !Z.div_mul by lia.
  rewrite Z2Nat.inj_add, seq_app, flat_map_app by lia. f_equal.
  rewrite <- (Nat.add_0_r (0 + _)), <- fmap_add_seq. rewrite !flat_map_concat_map, map_map. f_equal.
  apply map_ext. intros k. do 2 f_equal. lia.
Qed.

Lemma pagemap_bytes_nth (t : T) off n i :
  0 <= i -> 8 * i + 8 <= n -> n mod 8 = 0 -> off mod 8 = 0 ->
  ztake 8 (zdrop (8 * i) (pagemap_bytes t off n)) = le_split 8 (as_pagemap t (off / 8 + i)).
Proof.
  intros Hi Hn Hm Ho. apply Z.mod_divide in Hm as [k ->]; [|lia].
  replace (k * 8) with (8 * i + (8 + (k - i - 1) * 8)) by lia.
  rewrite pagemap_bytes_add, zdrop_app_exact.
  - rewrite pagemap_bytes_add, ztake_app_exact.
    + unfold pagemap_bytes. change (seq 0 (Z.to_nat (8 / 8))) with [0%nat]. cbn [flat_map].
      rewrite app_nil_r. do 2 f_equal. replace (off + 8 * i) with (off + i * 8) by lia. rewrite Z.div_add by lia. lia.
    + by rewrite blen_pagemap_bytes.
    + lia.
    + lia.
    + done.
    + by rewrite Z.mod_mul.
  - rewrite blen_pagemap_bytes; [done|lia|]. rewrite Z.mul_comm. by rewrite Z.mod_mul.
  - lia.
  - lia.
  - rewrite Z.mul_comm. by rewrite Z.mod_mul.
  - replace (8 + (k - i - 1) * 8) with ((k - i) * 8) by lia. by rewrite Z.mod_mul.
Qed.

Lemma can_mapped bit (t : T) x : can bit t x -> mapped t x.
Proof. intros (p & Hp & _). unfold mapped. rewrite Hp. eauto. Qed.
End Equality.

Lemma in_rangeb_true a n x : in_rangeb a n x = true <-> in_range a n x.
Proof. unfold in_rangeb, in_range. rewrite andb_true_iff, Z.leb_le, Z.ltb_lt. done. Qed.

Lemma in_rangeb_false a n x : in_rangeb a n x = false <-> ~ in_range a n x.
Proof. rewrite <- in_rangeb_true. by destruct (in_rangeb a n x). Qed.

#[export] Instance in_range_dec a n x : Decision (in_range a n x).
Proof. unfold in_range; apply _. Defined.

(** * A concrete address space *)

Record simple_as := SimpleAs {
  sa_byte : Z -> byte;
  sa_prot : Z -> option Z;
  sa_dropped : Z -> byte;
  sa_locked : Z -> bool;
  sa_pagemap : Z -> Z;
}.

Definition all_in_range (a n : Z) (f : Z -> bool) : bool :=
  forallb (fun i => f (a + Z.of_nat i)) (seq 0 (Z.to_nat n)).

Definition has_bit (bit : Z) (o : option Z) : bool :=
  match o with Some p => Z.land p bit =? bit | None => false end.

Definition on_range {A} (a n : Z) (f g : Z -> A) (x : Z) : A :=
  if in_rangeb a n x then f x else g x.

Definition ENOMEM : Z := 12.

#[export] Instance simple_addr_space : AddrSpace simple_as := {|
  as_byte := sa_byte;
  as_prot := sa_prot;
  as_dropped := sa_dropped;
  as_locked := sa_locked;
  as_pagemap t pg := u64 (sa_pagemap t pg);
  copy_from_user t a n :=
    if all_in_range a n (fun x => has_bit PROT_READ (sa_prot t x))
    then Some (map (fun i => sa_byte t (a + Z.of_nat i)) (seq 0 (Z.to_nat n))) else None;
  copy_to_user t a bs :=
    if all_in_range a (blen bs) (fun x => has_bit PROT_WRITE (sa_prot t x))
    then Some (SimpleAs (on_range a (blen bs) (fun x => nth (Z.to_nat (x - a)) bs Byte.x00) (sa_byte t))
                 (sa_prot t) (sa_dropped t) (sa_locked t) (sa_pagemap t))
    else None;
  k_mprotect t a n p :=
    if all_in_range a n (fun x => bool_decide (is_Some (sa_prot t x)))
    then (0, SimpleAs (sa_byte t) (on_range a n (fun _ => Some p) (sa_prot t))
               (sa_dropped t) (sa_locked t) (sa_pagemap t))
    else (- ENOMEM, t);
  k_madvise_dontneed t a n :=
    if all_in_range a n (fun x => bool_decide (is_Some (sa_prot t x)) && negb (sa_locked t x))
    then (0, SimpleAs (on_range a n (sa_dropped t) (sa_byte t)) (sa_prot t)
               (sa_dropped t) (sa_locked t) (sa_pagemap t))
    else (- EINVAL, t);
  k_pagemap_seek _ off := off;
  k_pagemap_read t off n :=
    (n, flat_map (fun i => le_split 8 (u64 (sa_pagemap t (off / 8 + Z.of_nat i)))) (seq 0 (Z.to_nat (n / 8))));
|}.

Lemma all_in_range_true a n f : (forall x, in_range a n x -> f x = true) -> all_in_range a n f = true.
Proof.
  intros Hf. unfold all_in_range. apply forallb_forall. intros i Hi%in_seq.
  apply Hf. unfold in_range. lia.
Qed.

Lemma can_has_bit bit (t : simple_as) x : can bit t x -> has_bit bit (sa_prot t x) = true.
Proof. intros (p & Hp & Hb). simpl in Hp. rewrite Hp. simpl. by apply Z.eqb_eq. Qed.

#[export] Instance simple_as_spec ps : AddrSpaceSpec simple_as ps.
Proof.
  split.
  - intros t a n Hn Hc. simpl. rewrite all_in_range_true; [done|]. intros; by apply can_has_bit, Hc.
  - intros t a bs Hc. simpl. rewrite all_in_range_true; [|intros; by apply can_has_bit, Hc]. eauto 10.
  - intros t a n p _ _ Hn Hm. simpl. rewrite all_in_range_true; [eauto 10|].
    intros x Hx. by apply bool_decide_eq_true, Hm.
  - intros t a n _ _ Hn Hm. simpl. rewrite all_in_range_true; [eauto 10|].
    intros x Hx. destruct (Hm x Hx) as [H1 H2]. simpl in H2. rewrite H2, andb_true_r.
    by apply bool_decide_eq_true.
  - done.
  - done.
  - intros t pg. apply u64_range.
Qed.
