(* ===== verification/Parasite.v ===== *)
(** parasite.c: the service memcr injects into the target.  It runs in the
    target's address space, accepts one connection after the other on its UNIX
    socket, and executes one command per connection.

    The service is a deterministic process that blocks only in accept(2) and in
    reads from the connection, so it is written as a machine: [parasite_step]
    does what the code does between two such points, [parasite_run] runs it
    until it blocks.  [p_in] is what memcr has written to the connection and the
    service has not read, [p_out] what the service has written and memcr has not
    read. *)
From stdpp Require Import base list.
From S2P Require Import Prelude Dump Target.

(** * Protocol structures of memcr.h *)

Definition CMD_MPROTECT : Z := 1.
Definition CMD_GET_PAGES : Z := 2.
Definition CMD_SET_PAGES : Z := 3.
Definition CMD_END : Z := 4.

Definition cmd_byte (c : Z) : bytes := [byte.of_Z c].

Record vm_mprotect := VmMprotect { mp_addr : Z; mp_len : Z; mp_prot : Z }.

Definition sizeof_vm_mprotect : Z := 24.
Definition vm_mprotect_bytes (m : vm_mprotect) : bytes :=
  le_split 8 (mp_addr m) ++ le_split 8 (mp_len m) ++ le_split 8 (mp_prot m).
Definition vm_mprotect_of (b : bytes) : vm_mprotect :=
  VmMprotect (le_combine (ztake 8 b)) (le_combine (ztake 8 (zdrop 8 b)))
    (le_combine (ztake 8 (zdrop 16 b))).

Definition VM_REGION_TX : Z := 1.
Definition REGION_REQ_MEM : Z := 0.
Definition REGION_REQ_PAGEMAP : Z := 1.

(** [struct vm_region_req]: the union seen through its [type].  The [mem] member
    is 24 bytes long (a region, a flag byte and padding), the [pagemap] member 16. *)
Inductive vm_region_req :=
| ReqMem (vmr : vm_region) (flags : Z)
| ReqPagemap (seek len : Z).

Definition sizeof_vm_region_req : Z := 28.
Definition vm_region_req_bytes (r : vm_region_req) : bytes :=
  match r with
  | ReqMem vmr flags =>
      vm_region_bytes vmr ++ le_split 8 (u8 flags) ++ le_split 4 REGION_REQ_MEM
  | ReqPagemap seek len =>
      le_split 8 seek ++ le_split 8 len ++ le_split 8 0 ++ le_split 4 REGION_REQ_PAGEMAP
  end.
Definition vm_region_req_of (b : bytes) : vm_region_req :=
  if le_combine (ztake 4 (zdrop 24 b)) =? REGION_REQ_PAGEMAP
  then ReqPagemap (le_combine (ztake 8 b)) (le_combine (ztake 8 (zdrop 8 b)))
  else ReqMem (vm_region_of (ztake 16 b)) (le_combine (ztake 1 (zdrop 16 b))).

(** * The service *)

Inductive pmode :=
| PAccept                    (** in sys_accept() *)
| PCommand                   (** in handle_connection(): reading the command byte *)
| PMprotect                  (** in cmd_mprotect(): reading the next request *)
| PGetPages                  (** in cmd_get_pages(): reading the next request *)
| PSetPages                  (** in cmd_set_pages(): reading the next request *)
| PSetData (addr n : Z)      (** in cmd_set_pages(): [n] more bytes go to [addr] *)
| PExited                    (** sys_exit(0) *)
| PTrapped.                  (** die(): __builtin_trap() *)

#[export] Instance pmode_eq_dec : EqDecision pmode.
Proof. solve_decision. Defined.

(** [p_req] is the memory of the local variable [req], which keeps the previous
    request; [p_fpage]: /proc/self/pagemap is open. *)
Record parasite (T : Type) := Parasite {
  p_mode : pmode;
  p_in : bytes;
  p_closed : bool;           (** memcr has closed its end *)
  p_out : bytes;
  p_req : bytes;
  p_fpage : bool;
  p_as : T;
}.
Arguments Parasite {T} _ _ _ _ _ _ _.
Arguments p_mode {T} _.
Arguments p_in {T} _.
Arguments p_closed {T} _.
Arguments p_out {T} _.
Arguments p_req {T} _.
Arguments p_fpage {T} _.
Arguments p_as {T} _.

Section Service.
Context {T : Type} `{AddrSpace T}.
#[local] Abbreviation parasite := (parasite T).

Definition set_mode (m : pmode) (p : parasite) : parasite :=
  Parasite m (p_in p) (p_closed p) (p_out p) (p_req p) (p_fpage p) (p_as p).

Definition die (p : parasite) : parasite := set_mode PTrapped p.

(** The service has not ended: memcr's parasite_watch.changed is still 0. *)
Definition alive (p : parasite) : bool :=
  match p_mode p with PExited | PTrapped => false | _ => true end.

(** write() to the connection; it fails when memcr has closed its end. *)
Definition write (b : bytes) (p : parasite) : parasite :=
  if p_closed p && negb (blen b =? 0) then die p
  else Parasite (p_mode p) (p_in p) (p_closed p) (p_out p ++ b) (p_req p) (p_fpage p) (p_as p).

Definition PAGEMAP_BUF_SIZE : Z := 4096 / 8.

(** The copy loop of cmd_get_pages(): at most [PAGEMAP_BUF_SIZE] bytes per
    iteration, and at least one, so [len] iterations are enough. *)
Fixpoint send_pagemap (fuel : nat) (off len : Z) (p : parasite) : parasite :=
  match fuel with
  | O => p
  | S fuel =>
      if len =? 0 then p
      else
        let read_len := if PAGEMAP_BUF_SIZE <? len then PAGEMAP_BUF_SIZE else len in
        let '(ret, buf) := k_pagemap_read (p_as p) off read_len in
        if negb (u64 ret =? read_len) then die (write [byte.of_Z ret] p)
        else send_pagemap fuel (off + read_len) (len - read_len) (write buf p)
  end.

(** One request of cmd_mprotect(). *)
Definition cmd_mprotect (req : vm_mprotect) (p : parasite) : parasite :=
  let '(ret, t) := k_mprotect (p_as p) (mp_addr req) (mp_len req) (mp_prot req) in
  let p := Parasite (p_mode p) (p_in p) (p_closed p) (p_out p) (p_req p) (p_fpage p) t in
  if i32 ret <? 0 then die p else p.

(** One request of cmd_get_pages(). *)
Definition cmd_get_pages (req : vm_region_req) (p : parasite) : parasite :=
  match req with
  | ReqPagemap seek len =>
      if negb (p_fpage p) then die p
      else if negb (u64 (k_pagemap_seek (p_as p) seek) =? seek)
      then die (write [byte.of_Z sizeof_vm_region_req] p)
      else send_pagemap (Z.to_nat len) seek len p
  | ReqMem vmr flags =>
      let sent :=
        if negb (Z.land flags VM_REGION_TX =? 0)
        then copy_from_user (p_as p) (vmr_addr vmr) (Z.max 0 (i32 (vmr_len vmr)))
        else Some [] in
      match sent with
      | None => die p
      | Some b =>
          let p := write b p in
          if negb (alive p) then p
          else
            let '(ret, t) := k_madvise_dontneed (p_as p) (vmr_addr vmr) (vmr_len vmr) in
            let p := Parasite (p_mode p) (p_in p) (p_closed p) (p_out p) (p_req p) (p_fpage p) t in
            if i32 ret <? 0 then die p else p
      end
  end.

(** One request of cmd_set_pages(): read(cd, addr, len) follows. *)
Definition cmd_set_pages (req : vm_region_req) (p : parasite) : parasite :=
  match req with
  | ReqMem vmr _ => set_mode (PSetData (vmr_addr vmr) (i32 (vmr_len vmr))) p
  | ReqPagemap seek len => set_mode (PSetData seek (i32 len)) p
  end.

(** A byte of the data of cmd_set_pages() arrives. *)
Definition set_data (addr n : Z) (b : byte) (p : parasite) : parasite :=
  match copy_to_user (p_as p) addr [b] with
  | None => die p
  | Some t =>
      Parasite (PSetData (addr + 1) (n - 1)) (p_in p) (p_closed p) (p_out p)
        (p_req p) (p_fpage p) t
  end.

(** handle_connection() once the command byte is there. *)
Definition handle_connection (cmd : Z) (p : parasite) : parasite :=
  if cmd =? CMD_MPROTECT then set_mode PMprotect p
  else if cmd =? CMD_GET_PAGES then set_mode PGetPages p
  else if cmd =? CMD_SET_PAGES then set_mode PSetPages p
  else if cmd =? CMD_END then
    (* finish = 1; the connection is closed and service() leaves its loop *)
    set_mode PExited p
  else die p.

(** read(): the loop over sys_read(), whose results are a list here: bytes (none
    at the end of the connection) or an error. *)
Inductive read_result :=
| ReadDone (buf : bytes)               (** read() returns their number *)
| ReadDied                             (** ret < 0: die() *)
| ReadBlocks.                          (** sys_read() has nothing to return yet *)

Fixpoint read (rets : list (bytes + Z)) (size : Z) (buf : bytes) : read_result :=
  if size <=? blen buf then ReadDone buf
  else
    match rets with
    | [] => ReadBlocks
    | inl [] :: _ => ReadDone buf
    | inl b :: rets => read rets size (buf ++ b)
    | inr _ :: _ => ReadDied
    end.

(** What sys_read() returns once the connection's bytes are used up: the end, or
    an error when memcr closed its end with bytes of the service unread
    (ECONNRESET of unix(7)). *)
Definition ECONNRESET : Z := 104.
Definition conn_end (p : parasite) : list (bytes + Z) :=
  if negb (p_closed p) then [] else if blen (p_out p) =? 0 then [inl []] else [inr (- ECONNRESET)].

(** read() of a request of [size] bytes into [req], on the connection's bytes
    ([read_chunks]: however sys_read() cuts them). *)
Definition chunk (b : bytes) : list (bytes + Z) := if blen b =? 0 then [] else [inl b].

Definition read_req (size : Z) (p : parasite) : read_result * parasite :=
  let got := ztake size (p_in p) in
  (read (chunk got ++ conn_end p) size [],
   Parasite (p_mode p) (zdrop size (p_in p)) (p_closed p) (p_out p) (overlay got (p_req p)) (p_fpage p) (p_as p)).

(** The loop of a command: leave it at the end of the connection, else execute
    the request now in [p_req]. *)
Definition command_loop (size : Z) (body : bytes -> parasite -> parasite) (p : parasite)
    : option parasite :=
  match read_req size p with
  | (ReadBlocks, _) => None
  | (ReadDied, p) => Some (die p)
  | (ReadDone [], p) => Some (set_mode PAccept p)
  | (ReadDone _, p) => Some (body (p_req p) p)
  end.

Definition parasite_step (p : parasite) : option parasite :=
  match p_mode p with
  | PAccept | PExited | PTrapped => None
  | PCommand =>
      match p_in p with
      | [] => if p_closed p then Some (die p) else None
      | b :: rest =>
          Some (handle_connection (byte.unsigned b)
            (Parasite PCommand rest (p_closed p) (p_out p) (p_req p) (p_fpage p) (p_as p)))
      end
  | PMprotect => command_loop sizeof_vm_mprotect (fun b => cmd_mprotect (vm_mprotect_of b)) p
  | PGetPages => command_loop sizeof_vm_region_req (fun b => cmd_get_pages (vm_region_req_of b)) p
  | PSetPages => command_loop sizeof_vm_region_req (fun b => cmd_set_pages (vm_region_req_of b)) p
  | PSetData addr n =>
      if n <=? 0 then Some (set_mode PSetPages p)
      else match p_in p with
           | [] => match read (conn_end p) n [] with
                   | ReadBlocks => None
                   | ReadDied => Some (die p)
                   | ReadDone _ => Some (set_mode PSetPages p)
                   end
           | b :: rest =>
               Some (set_data addr n b
                 (Parasite (p_mode p) rest (p_closed p) (p_out p) (p_req p) (p_fpage p) (p_as p)))
           end
  end.

(** Steps that read nothing are bounded by this weight of the mode. *)
Definition mode_weight (m : pmode) : nat :=
  match m with
  | PAccept | PExited | PTrapped => 0
  | PSetData _ _ => 2
  | _ => 1
  end.

Definition parasite_measure (p : parasite) : nat :=
  (2 * length (p_in p) + mode_weight (p_mode p))%nat.

Fixpoint parasite_iter (fuel : nat) (p : parasite) : parasite :=
  match fuel with
  | O => p
  | S fuel => match parasite_step p with Some p => parasite_iter fuel p | None => p end
  end.

(** Runs the service until it blocks or ends. *)
Definition parasite_run (p : parasite) : parasite := parasite_iter (parasite_measure p) p.

(** memcr writes to the connection, closes it, or opens a new one. *)
Definition feed (b : bytes) (p : parasite) : parasite :=
  Parasite (p_mode p) (p_in p ++ b) (p_closed p) (p_out p) (p_req p) (p_fpage p) (p_as p).

Definition hang_up (p : parasite) : parasite :=
  parasite_run (Parasite (p_mode p) (p_in p) true (p_out p) (p_req p) (p_fpage p) (p_as p)).

(** sys_accept() returns with a new connection; a service that is not waiting in
    it, or has ended, goes on as it was. *)
Definition accept (p : parasite) : parasite :=
  match p_mode p with
  | PAccept => Parasite PCommand [] false [] (p_req p) (p_fpage p) (p_as p)
  | _ => p
  end.
End Service.

(** * Running to the next blocking point *)

Section Facts.
Context {T : Type} `{AddrSpace T}.
#[local] Abbreviation parasite := (parasite T).
Implicit Types p : parasite.

(** Executing a request reads nothing more from the connection, does not close
    it, and does not depend on what memcr has already written next. *)
Definition quiet (f : parasite -> parasite) : Prop :=
  forall p, p_in (f p) = p_in p /\ p_closed (f p) = p_closed p /\ forall b, f (feed b p) = feed b (f p).

Lemma quiet_set_mode m : quiet (set_mode m).
Proof. done. Qed.

Lemma quiet_write b : quiet (write b).
Proof. intros p. unfold write. simpl. by destruct (p_closed p && _). Qed.

Lemma quiet_mprotect req : quiet (cmd_mprotect req).
Proof. intros p. unfold cmd_mprotect. simpl. destruct (k_mprotect _ _ _ _). by case_match. Qed.

Lemma quiet_send_pagemap fuel off len : quiet (send_pagemap fuel off len).
Proof.
  revert off len. induction fuel as [|fuel IH]; intros off len p; simpl; [done|].
  case_match; [done|]. destruct (k_pagemap_read _ _ _) as [r buf]. case_match.
  - destruct (quiet_write [byte.of_Z r] p) as (? & ? & E). unfold die. split_and!; [done..|].
    intros b. by rewrite E.
  - match goal with |- context [send_pagemap fuel ?o ?l (write buf p)] =>
      destruct (IH o l (write buf p)) as (-> & -> & E) end.
    destruct (quiet_write buf p) as (-> & -> & E'). split_and!; [done..|].
    intros b. by rewrite E', E.
Qed.

Lemma quiet_get_pages req : quiet (cmd_get_pages req).
Proof.
  intros p. destruct req as [vmr flags|seek len]; cbn [cmd_get_pages].
  - change (p_as (feed ?b p)) with (p_as p).
    destruct (if negb (Z.land flags VM_REGION_TX =? 0) then _ else _) as [sent|]; [|done].
    destruct (quiet_write sent p) as (Ein & Ecl & Ef). split_and!.
    + case_match; [done|]. destruct (k_madvise_dontneed _ _ _). by case_match.
    + case_match; [done|]. destruct (k_madvise_dontneed _ _ _). by case_match.
    + intros b. rewrite Ef. change (alive (feed b ?q)) with (alive q).
      case_match; [done|]. change (p_as (feed b ?q)) with (p_as q).
      destruct (k_madvise_dontneed _ _ _). by case_match.
  - change (p_as (feed ?b p)) with (p_as p). change (p_fpage (feed ?b p)) with (p_fpage p).
    case_match; [done|]. case_match; [|apply quiet_send_pagemap].
    destruct (quiet_write [byte.of_Z sizeof_vm_region_req] p) as (? & ? & E). unfold die.
    split_and!; [done..|]. intros b. by rewrite E.
Qed.

Lemma quiet_set_pages req : quiet (cmd_set_pages req).
Proof. by destruct req. Qed.

Lemma quiet_set_data a n b : quiet (set_data a n b).
Proof. intros p. unfold set_data. simpl. by case_match. Qed.

Lemma quiet_handle cmd : quiet (handle_connection cmd).
Proof. intros p. unfold handle_connection. by repeat case_match. Qed.

#[local] Hint Resolve quiet_set_mode quiet_write quiet_mprotect quiet_get_pages quiet_set_pages
  quiet_set_data quiet_handle : memcr.

Lemma mode_weight_le m : (mode_weight m <= 2)%nat.
Proof. destruct m; simpl; lia. Qed.

Lemma read_pieces size tail cs buf :
  blen buf + blen (concat cs) <= size -> Forall (fun b => b <> []) cs ->
  read (map inl cs ++ tail) size buf = read tail size (buf ++ concat cs).
Proof.
  intros Hle Hne. revert buf Hle. induction Hne as [|c cs Hc Hne IH]; intros buf Hle; [by rewrite app_nil_r|].
  cbn [map app concat read] in *. pose proof (blen_nonneg (concat cs)). destruct c as [|x c]; [done|].
  rewrite (proj2 (Z.leb_gt _ _)) by blia. rewrite IH by blia. by rewrite <- app_assoc.
Qed.

Lemma read_chunk size tail got buf :
  blen buf + blen got <= size -> read (chunk got ++ tail) size buf = read tail size (buf ++ got).
Proof.
  intros Hle. unfold chunk. destruct got as [|x got]; [by rewrite app_nil_r|].
  rewrite (proj2 (Z.eqb_neq _ _)) by blia. rewrite (read_pieces size tail [x :: got]); cbn [concat]; rewrite ?app_nil_r; [done..|].
  by apply Forall_singleton.
Qed.

(** However sys_read() cuts the bytes of a request that are there, [read_req] is
    what the loop of read() comes to. *)
Lemma read_chunks size cs p :
  0 < size -> Forall (fun b => b <> []) cs -> concat cs = ztake size (p_in p) ->
  read (map inl cs ++ conn_end p) size [] = (read_req size p).1.
Proof.
  intros Hs Hne Hc. cbn [read_req fst]. rewrite read_pieces, read_chunk by (rewrite ?Hc; done || blia). by rewrite Hc.
Qed.

(** The three ways the read of a request goes. *)
Lemma read_req_spec size p :
  0 < size ->
  (read_req size p).1 =
    if size <=? blen (p_in p) then ReadDone (ztake size (p_in p))
    else if negb (p_closed p) then ReadBlocks
    else if blen (p_out p) =? 0 then ReadDone (p_in p) else ReadDied.
Proof.
  intros Hs. cbn [read_req fst]. rewrite read_chunk by blia. cbn [app]. pose proof (blen_nonneg (p_in p)).
  case_match eqn:E; tests.
  - assert (Hl : blen (ztake size (p_in p)) = size) by blia. unfold conn_end.
    repeat case_match; cbn [read]; by rewrite (proj2 (Z.leb_le _ _)) by lia.
  - rewrite ztake_all by lia. unfold conn_end. repeat case_match; cbn [read]; by rewrite (proj2 (Z.leb_gt _ _)) by lia.
Qed.

(** The state after the read of a request. *)
Definition after_read (size : Z) (p : parasite) : parasite := (read_req size p).2.

Lemma command_loop_eq size body p :
  0 < size ->
  command_loop size body p =
    let q := after_read size p in
    if size <=? blen (p_in p) then Some (body (p_req q) q)
    else if negb (p_closed p) then None
    else if negb (blen (p_out p) =? 0) then Some (die q)
    else if blen (p_in p) =? 0 then Some (set_mode PAccept q)
    else Some (body (p_req q) q).
Proof.
  intros Hs. pose proof (read_req_spec size p Hs) as E. unfold command_loop, after_read.
  destruct (read_req size p) as [r q]. cbn [fst snd] in *. subst r. destruct (size <=? blen (p_in p)) eqn:El; tests.
  - destruct (ztake size (p_in p)) eqn:Et; [|done]. apply (f_equal blen) in Et. blia.
  - destruct (p_closed p); [|done]. cbn [negb]. destruct (blen (p_out p) =? 0); cbn [negb]; [|done].
    destruct (p_in p) eqn:Ei; [done|]. by rewrite (proj2 (Z.eqb_neq _ _)) by blia.
Qed.

(** A request that is there, and nothing else. *)
Lemma command_loop_whole size body p req :
  0 < size -> p_in p = req -> blen req = size ->
  command_loop size body p =
    let r := overlay req (p_req p) in
    Some (body r (Parasite (p_mode p) [] (p_closed p) (p_out p) r (p_fpage p) (p_as p))).
Proof.
  intros Hs Hi Hl. rewrite command_loop_eq, Hi, (proj2 (Z.leb_le _ _)) by (done || lia).
  unfold after_read, read_req. cbn [snd p_req]. rewrite Hi, ztake_all, zdrop_all by lia. done.
Qed.

(** A request read: either the service leaves the loop at the end of the
    connection, or some input is gone. *)
Lemma command_loop_progress size body p p' :
  0 < size -> (forall b, quiet (body b)) -> command_loop size body p = Some p' ->
  p_closed p' = p_closed p /\
  (mode_weight (p_mode p') = 0%nat /\ p_in p' = [] \/ (length (p_in p') < length (p_in p))%nat).
Proof.
  intros Hs Hq. rewrite command_loop_eq by done. cbn zeta. set (q := after_read size p).
  assert (Hin : p_in q = zdrop size (p_in p)) by done. assert (Hcl : p_closed q = p_closed p) by done.
  assert (Hbody : p_in p <> [] -> p_closed (body (p_req q) q) = p_closed p
    /\ (length (p_in (body (p_req q) q)) < length (p_in p))%nat).
  { intros Hne. destruct (Hq (p_req q) q) as (-> & -> & _). split; [done|]. rewrite Hin. unfold zdrop. rewrite length_drop.
    destruct (p_in p); [done|simpl; lia]. }
  assert (Hshort : (size <=? blen (p_in p)) = false -> p_in q = []).
  { intros E. tests. rewrite Hin. apply zdrop_all. lia. }
  case_match eqn:E1.
  - intros [= <-]. destruct Hbody as [? ?]; [|auto]. intros E. rewrite E, blen_nil in E1. tests. lia.
  - destruct (p_closed p); [|done]. cbn [negb]. case_match; [intros [= <-]; cbn; auto|]. case_match eqn:E2; tests.
    + intros [= <-]. cbn. auto.
    + intros [= <-]. destruct Hbody as [? ?]; [|auto]. intros E. by rewrite E, blen_nil in E2.
Qed.

Lemma command_loop_measure size body p p' :
  0 < size -> (forall b, quiet (body b)) -> mode_weight (p_mode p) = 1%nat ->
  command_loop size body p = Some p' ->
  p_closed p' = p_closed p /\ (parasite_measure p' < parasite_measure p)%nat.
Proof.
  intros Hs Hq Hw E. apply command_loop_progress in E as (Hc & Hp); [|done..].
  split; [done|]. unfold parasite_measure. rewrite Hw.
  destruct Hp as [[-> ->]|Hl]; [simpl; lia|]. pose proof (mode_weight_le (p_mode p')). lia.
Qed.

Lemma parasite_step_progress p p' :
  parasite_step p = Some p' ->
  p_closed p' = p_closed p /\ (parasite_measure p' < parasite_measure p)%nat.
Proof.
  unfold parasite_step. destruct (p_mode p) eqn:Em; try done.
  - unfold parasite_measure. rewrite Em. destruct (p_in p) as [|b rest] eqn:Ei.
    + destruct (p_closed p) eqn:Ec; intros [= <-]. simpl. rewrite Ei, Ec. simpl. auto with lia.
    + intros [= <-]. edestruct (quiet_handle (byte.unsigned b)) as (-> & -> & _). simpl.
      split; [done|]. match goal with |- context [mode_weight ?m] => pose proof (mode_weight_le m) end. lia.
  - apply command_loop_measure; [done|auto with memcr|by rewrite Em].
  - apply command_loop_measure; [done|auto with memcr|by rewrite Em].
  - apply command_loop_measure; [done|auto with memcr|by rewrite Em].
  - unfold parasite_measure. rewrite Em. case_match; [intros [= <-]; simpl; auto with lia|].
    destruct (p_in p) as [|b rest] eqn:Ei.
    + destruct (read _ _ _); intros [= <-]; cbn; rewrite Ei; cbn; auto with lia.
    + intros [= <-]. edestruct (quiet_set_data addr n b) as (-> & -> & _). simpl.
      split; [done|]. match goal with |- context [mode_weight ?m] => pose proof (mode_weight_le m) end. lia.
Qed.

Lemma parasite_iter_enough fuel p :
  (parasite_measure p <= fuel)%nat -> parasite_iter fuel p = parasite_run p.
Proof.
  unfold parasite_run. remember (parasite_measure p) as m eqn:Em.
  revert fuel p Em. induction m as [m IH] using lt_wf_ind; intros fuel p Em Hf.
  destruct (parasite_step p) as [p'|] eqn:E.
  - apply parasite_step_progress in E as E'. destruct E' as [_ Hlt].
    destruct m as [|m]; [lia|]. destruct fuel as [|fuel]; [lia|]. simpl. rewrite E.
    rewrite (IH (parasite_measure p')), <- (IH (parasite_measure p') ltac:(lia) m p') by lia. done.
  - destruct fuel, m; simpl; rewrite ?E; done.
Qed.

Lemma parasite_run_step p p' : parasite_step p = Some p' -> parasite_run p = parasite_run p'.
Proof.
  intros E. apply parasite_step_progress in E as E'. destruct E' as [_ Hlt].
  unfold parasite_run at 1. destruct (parasite_measure p) as [|m] eqn:Em; [lia|].
  simpl. rewrite E. apply parasite_iter_enough. lia.
Qed.

Lemma parasite_run_blocked p : parasite_step p = None -> parasite_run p = p.
Proof. intros E. unfold parasite_run. destruct (parasite_measure p); simpl; by rewrite ?E. Qed.

(** Induction along a run. *)
Lemma parasite_run_ind (P : parasite -> parasite -> Prop) :
  (forall p, parasite_step p = None -> P p p) ->
  (forall p p', parasite_step p = Some p' -> P p' (parasite_run p') -> P p (parasite_run p)) ->
  forall p, P p (parasite_run p).
Proof.
  intros Hb Hs p. remember (parasite_measure p) as m eqn:Em. revert p Em.
  induction m as [m IH] using lt_wf_ind; intros p Em.
  destruct (parasite_step p) as [p'|] eqn:E; [|rewrite parasite_run_blocked by done; auto].
  apply (Hs p p' E). apply parasite_step_progress in E as [_ Hlt]. eapply IH; [|done]. lia.
Qed.

Lemma parasite_run_stuck p : parasite_step (parasite_run p) = None.
Proof.
  apply (parasite_run_ind (fun _ q => parasite_step q = None)); [done|].
  intros p0 p' E Hq. by rewrite (parasite_run_step p0 p').
Qed.

(** ** Input that arrives later *)

Lemma feed_feed a b p : feed b (feed a p) = feed (a ++ b) p.
Proof. unfold feed; simpl. by rewrite app_assoc. Qed.

Lemma feed_nil p : feed [] p = p.
Proof. unfold feed. rewrite app_nil_r. by destruct p. Qed.

Lemma command_loop_feed size body p p' b :
  0 < size -> p_closed p = false -> (forall r, quiet (body r)) ->
  command_loop size body p = Some p' -> command_loop size body (feed b p) = Some (feed b p').
Proof.
  intros Hs Hc Hq. rewrite !command_loop_eq by done. cbn zeta. change (p_closed (feed b p)) with (p_closed p). rewrite Hc.
  destruct (size <=? blen (p_in p)) eqn:E; [|done]. tests. cbn [p_in feed].
  rewrite (proj2 (Z.leb_le _ _)) by blia. intros [= <-].
  assert (Ea : after_read size (feed b p) = feed b (after_read size p)).
  { unfold after_read, read_req, feed. cbn [snd p_in p_mode p_closed p_out p_req p_fpage p_as].
    by rewrite ztake_app_le, zdrop_app_le by blia. }
  rewrite Ea. destruct (Hq (p_req (after_read size p)) (after_read size p)) as (_ & _ & Hf). by rewrite <- Hf.
Qed.

Lemma parasite_step_feed p p' b :
  p_closed p = false -> parasite_step p = Some p' -> parasite_step (feed b p) = Some (feed b p').
Proof.
  intros Hc. unfold parasite_step. change (p_mode (feed b p)) with (p_mode p).
  destruct (p_mode p) eqn:Em; try done.
  - simpl. destruct (p_in p) as [|x rest]; [by rewrite Hc|]. intros [= <-]. simpl.
    f_equal. edestruct (quiet_handle (byte.unsigned x)) as (_ & _ & Hf). by rewrite <- Hf.
  - apply command_loop_feed; [done|done|auto with memcr].
  - apply command_loop_feed; [done|done|auto with memcr].
  - apply command_loop_feed; [done|done|auto with memcr].
  - case_match eqn:En; [intros [= <-]; done|]. tests. simpl. change (conn_end (feed b p)) with (conn_end p).
    destruct (p_in p) as [|x rest].
    { unfold conn_end. rewrite Hc. cbn [negb read]. by rewrite (proj2 (Z.leb_gt _ _)) by (rewrite blen_nil; lia). } intros [= <-]. simpl.
    f_equal. edestruct (quiet_set_data addr n x) as (_ & _ & Hf). by rewrite <- Hf.
Qed.

Lemma parasite_run_feed b p :
  p_closed p = false -> parasite_run (feed b (parasite_run p)) = parasite_run (feed b p).
Proof.
  apply (parasite_run_ind (fun p q => p_closed p = false -> parasite_run (feed b q) = parasite_run (feed b p)));
    [done|].
  intros p0 p' E IH Hc. apply parasite_step_progress in E as E'. destruct E' as [Hcl _].
  rewrite (parasite_run_step p0 p') by done. rewrite IH by congruence.
  symmetry. apply parasite_run_step. by apply parasite_step_feed.
Qed.

Lemma parasite_run_closed p : p_closed (parasite_run p) = p_closed p.
Proof.
  apply (parasite_run_ind (fun p q => p_closed q = p_closed p)); [done|].
  intros p0 p' E IH. apply parasite_step_progress in E as E'. destruct E' as [Hcl _].
  rewrite (parasite_run_step p0 p') by done. congruence.
Qed.

(** C20: the service cannot tell how memcr's writes are split or when they
    arrive: running it after every chunk of a connection's input ends in the
    same state (memory, replies, mode) as running it once on the whole input. *)
Theorem parasite_chunks chunks p :
  p_closed p = false ->
  foldl (fun q c => parasite_run (feed c q)) (parasite_run p) chunks
    = parasite_run (feed (concat chunks) p).
Proof.
  revert p. induction chunks as [|c chunks IH]; intros p Hc; simpl.
  - by rewrite feed_nil.
  - rewrite parasite_run_feed, IH, feed_feed by done. done.
Qed.

(** Between two blocking points the service always comes to rest: a run
    ends in accept(2), in a read with nothing to read, or ended. *)
Theorem parasite_run_rests p : parasite_step (parasite_run p) = None.
Proof. apply parasite_run_stuck. Qed.
End Facts.

(** * Witness *)

(** 16 bytes of writable memory at 4096 and a service waiting for a command. *)
Definition demo_as : simple_as :=
  SimpleAs (fun _ => Byte.x07) (fun x => if in_rangeb 4096 16 x then Some 3 else None)
    (fun _ => Byte.x00) (fun _ => false) (fun _ => 0).

Definition demo_parasite : parasite simple_as :=
  Parasite PCommand [] false [] (replicate 28 Byte.x00) true demo_as.

(** A set-pages request cut in three places. *)
Lemma parasite_chunks_witness :
  let req := vm_region_req_bytes (ReqMem (VmRegion 4098 2) 0) in
  foldl (fun q c => parasite_run (feed c q)) (parasite_run demo_parasite)
    [cmd_byte CMD_SET_PAGES ++ take 5 req; drop 5 req ++ [Byte.x01]; [Byte.x02]]
  = parasite_run (feed (concat [cmd_byte CMD_SET_PAGES ++ take 5 req; drop 5 req ++ [Byte.x01]; [Byte.x02]])
      demo_parasite).
Proof. intros req. apply (parasite_chunks _ demo_parasite). reflexivity. Defined.
