(* ===== verification/Link.v ===== *)
(** memcr's end of the connection to the parasite: [parasite_connect],
    [parasite_read], [parasite_write] and [parasite_write_read] of memcr.c over
    a non-blocking socket whose other end is the service of Parasite.v.

    The service runs as soon as bytes reach it.  Theorem [parasite_chunks] of
    Parasite.v shows that when exactly it runs makes no difference to it. *)
From stdpp Require Import base list.
From S2P Require Import Prelude Io Dump Target Parasite.
#[local] Set Warnings "-clear-no-such-hyp".

Definition EPIPE : Z := 32.

(** A connected socket: the service, and what the kernel does to memcr's next
    calls on the socket. *)
Record link (T : Type) := Link {
  lk_para : parasite T;
  lk_hints : list hint;
}.
Arguments Link {T} _ _.
Arguments lk_para {T} _.
Arguments lk_hints {T} _.

(** What the kernel answers while memcr opens one connection and uses it:
    socket(2), the successive connect(2) calls, then reads and writes. *)
Record conn_env := ConnEnv {
  ce_socket : bool;
  ce_connects : list bool;
  ce_hints : list hint;
}.

Section Link.
Context {T : Type} `{AddrSpace T}.

(** memcr takes [n] bytes of what the service has sent. *)
Definition take_out (n : Z) (p : parasite T) : parasite T :=
  Parasite (p_mode p) (p_in p) (p_closed p) (zdrop n (p_out p)) (p_req p) (p_fpage p) (p_as p).

Definition link_recv (n : Z) (p : parasite T) (hs : list hint) : rd_result * link T :=
  match p_out p with
  | [] => if alive p then (RdFail EAGAIN, Link p hs) else (RdGot [], Link p hs)
  | _ => (RdGot (ztake n (p_out p)), Link (take_out n p) hs)
  end.

Definition link_send (b : bytes) (p : parasite T) (hs : list hint) : wr_result * link T :=
  if alive p then (WrGot (blen b), Link (parasite_run (feed b p)) hs)
  else (WrFail EPIPE, Link p hs).

#[export] Instance link_fd : Fd (link T) := {|
  sys_read n l :=
    match lk_hints l with
    | [] => link_recv n (lk_para l) []
    | HShort h :: hs => link_recv (clip h n) (lk_para l) hs
    | HErr e :: hs => (RdFail e, Link (lk_para l) hs)
    end;
  sys_write b l :=
    match lk_hints l with
    | [] => link_send b (lk_para l) []
    | HShort h :: hs => link_send (ztake (clip h (blen b)) b) (lk_para l) hs
    | HErr e :: hs => (WrFail e, Link (lk_para l) hs)
    end;
  fd_patience l := length (lk_hints l);
|}.

Definition parasite_status_ok (l : link T) : bool := alive (lk_para l).

Definition parasite_read (count : Z) (l : link T) : run (Z * bytes * link T) :=
  __read count (Some parasite_status_ok) l.

Definition parasite_write (buf : bytes) (l : link T) : run (Z * link T) :=
  __write buf (Some parasite_status_ok) l.

Definition parasite_write_read (req : vm_region_req) (read_len : Z) (l : link T)
    : run (Z * bytes * link T) :=
  let! (ret, l) := parasite_write (vm_region_req_bytes req) l in
  if negb (u64 ret =? sizeof_vm_region_req) then Ret (-1, [], l)
  else parasite_read read_len l.

(** The [retry] loop: [cnt] connects have failed before this one. *)
Fixpoint connect_retry (fuel : nat) (cnt : Z) (answers : list bool) : bool :=
  match fuel with
  | O => false
  | S fuel =>
      match answers with
      | false :: answers => if cnt <? 100 then connect_retry fuel (cnt + 1) answers else false
      | _ => true
      end
  end.

(** What connect(2) answers: once the service has ended nobody listens on its
    socket any more. *)
Definition connects (env : conn_env) (p : parasite T) : list bool :=
  if alive p then ce_connects env else replicate 101 false.

(** [None]: it returned -1. *)
Definition parasite_connect (env : conn_env) (p : parasite T) : option (link T) :=
  if negb (ce_socket env) then None
  else if connect_retry 101 0 (connects env p)
  then Some (Link (accept p) (ce_hints env))
  else None.

(** close(cd) *)
Definition link_close (l : link T) : parasite T := hang_up (lk_para l).
End Link.

(** Kernel behaviours the loops survive on this socket while the service is
    alive. *)
Definition link_benign (h : hint) : Prop := match h with HShort _ => True | HErr e => e = EAGAIN end.

Definition env_ok (env : conn_env) : Prop :=
  ce_socket env = true /\ take 101 (ce_connects env) <> replicate 101 false
  /\ Forall link_benign (ce_hints env).

Section Facts.
Context {T : Type} `{AddrSpace T}.
Implicit Types p : parasite T.

(** A service at rest with an open connection, and a well-behaved socket. *)
Definition link_ready (l : link T) : Prop :=
  p_closed (lk_para l) = false /\ parasite_run (lk_para l) = lk_para l
  /\ alive (lk_para l) = true /\ Forall link_benign (lk_hints l).

Lemma connect_retry_spec fuel cnt answers :
  cnt + Z.of_nat fuel = 101 ->
  connect_retry fuel cnt answers = negb (bool_decide (take fuel answers = replicate fuel false)).
Proof.
  revert cnt answers. induction fuel as [|fuel IH]; intros cnt answers Hc; [done|].
  destruct answers as [|[] answers]; [done..|]. simpl. case_match; tests.
  - rewrite IH by lia. f_equal. apply bool_decide_ext. split; [congruence|by intros [=]].
  - assert (fuel = 0%nat) as -> by lia. done.
Qed.

(** [parasite_connect] gives up exactly when it got no socket, when 101
    connects in a row failed, or when the service has ended; otherwise memcr holds
    a fresh connection on which a service that waits in accept(2) waits for a
    command. *)
Theorem parasite_connect_spec env p :
  parasite_connect env p =
    if decide (alive p = true /\ ce_socket env = true /\ take 101 (ce_connects env) <> replicate 101 false)
    then Some (Link (accept p) (ce_hints env)) else None.
Proof.
  unfold parasite_connect, connects. rewrite connect_retry_spec by done.
  destruct (ce_socket env); cbn [negb]; [|by rewrite decide_False by naive_solver].
  destruct (alive p); [|by rewrite decide_False by naive_solver].
  destruct (decide (take 101 (ce_connects env) = replicate 101 false)) as [E|E].
  - rewrite bool_decide_true by done. by rewrite decide_False by naive_solver.
  - rewrite bool_decide_false by done. by rewrite decide_True by done.
Qed.

Lemma parasite_connect_ok env p :
  env_ok env -> alive p = true -> parasite_connect env p = Some (Link (accept p) (ce_hints env)).
Proof.
  intros (Hs & Ht & _) Ha. unfold parasite_connect, connects.
  by rewrite Ha, Hs, connect_retry_spec, bool_decide_false by done.
Qed.

(** The service waits for a connection. *)
Definition at_accept p : Prop := p_mode p = PAccept.

Lemma at_accept_alive p : at_accept p -> alive p = true.
Proof. unfold at_accept, alive. by intros ->. Qed.

Lemma accept_at p : at_accept p -> accept p = Parasite PCommand [] false [] (p_req p) (p_fpage p) (p_as p).
Proof. unfold at_accept, accept. by intros ->. Qed.

Lemma accept_ready env p : env_ok env -> at_accept p -> link_ready (Link (accept p) (ce_hints env)).
Proof. intros (_ & _ & ?) Ha. rewrite accept_at by done. done. Qed.

(** An ended service stays ended, whatever is written to it. *)
Lemma dead_run b p : alive p = false -> parasite_run (feed b p) = feed b p.
Proof.
  intros Hd. apply parasite_run_blocked. unfold alive, parasite_step in *.
  change (p_mode (feed b p)) with (p_mode p). by destruct (p_mode p).
Qed.

Lemma alive_prefix a b p :
  p_closed p = false -> alive (parasite_run (feed (a ++ b) p)) = true ->
  alive (parasite_run (feed a p)) = true.
Proof.
  intros Hc Ha. destruct (alive (parasite_run (feed a p))) eqn:E; [done|].
  rewrite <- feed_feed, <- parasite_run_feed, dead_run in Ha by done.
  unfold alive in *. simpl in Ha. congruence.
Qed.

(** The write loop on a socket whose service stays alive until the last byte. *)
Lemma link_write_loop fuel buf off p hs :
  p_closed p = false -> parasite_run p = p -> alive p = true ->
  0 <= off < blen buf -> Forall link_benign hs ->
  alive (parasite_run (feed (zdrop off buf) p)) = true ->
  (Z.to_nat (blen buf - off) + length hs < fuel)%nat ->
  exists hs',
    __write_loop fuel buf off (Some parasite_status_ok) (Link p hs)
      = Ret (i32 (blen buf), Link (parasite_run (feed (zdrop off buf) p)) hs')
    /\ Forall link_benign hs'.
Proof.
  revert off p hs. induction fuel as [|fuel IH]; intros off p hs Hc Hrun Hal Hoff Hb Hfin Hf; [lia|].
  cbn [__write_loop sys_write link_fd lk_hints lk_para].
  destruct hs as [|[h|e] hs].
  - unfold link_send. rewrite Hal. case_match; tests; [blia|]. eauto.
  - inversion_clear Hb. unfold link_send. rewrite Hal.
    set (k := clip h (blen (zdrop off buf))).
    assert (1 <= k <= blen buf - off) by (unfold k, clip; blia).
    assert (Hk : blen (ztake k (zdrop off buf)) = k) by blia. rewrite Hk.
    assert (Hsplit : zdrop off buf = ztake k (zdrop off buf) ++ zdrop (off + k) buf)
      by (rewrite <- zdrop_zdrop, ztake_zdrop by lia; done).
    case_match; tests.
    + rewrite Hsplit in Hfin.
      destruct (IH (off + k) (parasite_run (feed (ztake k (zdrop off buf)) p)) hs) as (hs' & -> & ?).
      * by rewrite parasite_run_closed.
      * apply parasite_run_blocked, parasite_run_stuck.
      * by apply alive_prefix in Hfin.
      * lia.
      * done.
      * by rewrite parasite_run_feed, feed_feed.
      * simpl in Hf; lia.
      * exists hs'. split; [|done]. rewrite parasite_run_feed, feed_feed, <- Hsplit by done. done.
    + exists hs. split; [|done]. rewrite ztake_all by blia. done.
  - inversion_clear Hb as [|? ? He]. simpl in He; subst e.
    unfold parasite_status_ok; simpl. rewrite Hal.
    change (EAGAIN =? EAGAIN) with true. cbn [andb].
    apply IH; try done. simpl in Hf; lia.
Qed.

Lemma parasite_write_ok buf l :
  link_ready l -> 0 < blen buf < 2 ^ 31 ->
  alive (parasite_run (feed buf (lk_para l))) = true ->
  exists l', parasite_write buf l = Ret (blen buf, l')
    /\ lk_para l' = parasite_run (feed buf (lk_para l)) /\ link_ready l'.
Proof.
  intros (Hc & Hr & Hal & Hb) Hl Hfin. unfold parasite_write, __write.
  case_match; tests; [lia|]. destruct l as [p hs]; simpl in *.
  destruct (link_write_loop (io_fuel (blen buf) (Link p hs)) buf 0 p hs) as (hs' & E & Hb');
    try done; [lia|unfold io_fuel; simpl; lia|].
  rewrite E, i32_small, zdrop_0 by lia. eexists. split; [done|]. split; [done|].
  split_and!; simpl; [by rewrite parasite_run_closed|apply parasite_run_blocked, parasite_run_stuck|done..].
Qed.

Lemma link_read_loop fuel count off buf p hs :
  alive p = true -> 0 <= off < count -> count - off <= blen (p_out p) ->
  Forall link_benign hs -> (Z.to_nat (count - off) + length hs < fuel)%nat ->
  exists hs',
    __read_loop fuel count off buf (Some parasite_status_ok) (Link p hs)
      = Ret (i32 count, buf ++ ztake (count - off) (p_out p), Link (take_out (count - off) p) hs')
    /\ Forall link_benign hs'.
Proof.
  revert off buf p hs. induction fuel as [|fuel IH]; intros off buf p hs Hal Hoff Hout Hb Hf; [lia|].
  cbn [__read_loop sys_read link_fd lk_hints lk_para].
  assert (Hne : forall k, 1 <= k -> exists x r, ztake k (p_out p) = x :: r /\ p_out p <> []).
  { intros k Hk. destruct (p_out p) as [|x r] eqn:E; [blia|].
    destruct (ztake k (x :: r)) as [|y r'] eqn:E'; [apply (f_equal blen) in E'; blia|]. eauto. }
  destruct hs as [|[h|e] hs].
  - unfold link_recv. destruct (Hne (count - off)) as (x & r & E & Hn); [lia|].
    destruct (p_out p) eqn:Eo; [done|]. rewrite <- Eo in *. rewrite E, <- E.
    case_match; tests; [blia|]. eauto.
  - inversion_clear Hb. unfold link_recv. set (k := clip h (count - off)).
    assert (1 <= k <= count - off) by (unfold k, clip; lia).
    destruct (Hne k) as (x & r & E & Hn); [lia|].
    destruct (p_out p) eqn:Eo; [done|]. rewrite <- Eo in *. rewrite E, <- E.
    assert (Hk : blen (ztake k (p_out p)) = k) by blia. rewrite Hk.
    case_match; tests.
    + destruct (IH (off + k) (buf ++ ztake k (p_out p)) (take_out k p) hs) as (hs' & -> & ?);
        [done|lia|simpl; blia|done|simpl in Hf; lia|].
      exists hs'. split; [|done]. simpl.
      replace (count - (off + k)) with (count - off - k) by lia.
      rewrite <- app_assoc, <- ztake_add by lia. unfold take_out; simpl. rewrite zdrop_zdrop by lia.
      by replace (k + (count - off - k)) with (count - off) by lia.
    + assert (k = count - off) as -> by lia. eauto.
  - inversion_clear Hb as [|? ? He]. simpl in He; subst e.
    change (EAGAIN =? EAGAIN) with true. unfold parasite_status_ok at 1; simpl. rewrite Hal.
    apply IH; try done. simpl in Hf; lia.
Qed.

(** Whether the service is blocked does not depend on what it has sent. *)
Lemma take_out_rests n p : parasite_run p = p -> parasite_run (take_out n p) = take_out n p.
Proof.
  intros Hr. apply parasite_run_blocked. assert (E := parasite_run_stuck p). rewrite Hr in E.
  revert E. unfold parasite_step, take_out. cbn [p_mode p_in p_closed].
  destruct (p_mode p); try done; rewrite ?command_loop_eq by done; cbn [p_in p_closed]; cbn zeta.
  1-4: by repeat case_match.
  unfold conn_end. cbn [p_closed p_out]. case_match eqn:En; [done|]. destruct (p_in p); [|done].
  assert (En' : (n0 <=? blen ([] : bytes)) = false) by (rewrite blen_nil; tests; lia).
  destruct (p_closed p); cbn [negb read]; [|by rewrite En'].
  destruct (blen (p_out p) =? 0), (blen (zdrop n (p_out p)) =? 0); cbn [read]; by rewrite En'.
Qed.

Lemma parasite_read_ok count l :
  link_ready l -> 0 < count < 2 ^ 31 -> count <= blen (p_out (lk_para l)) ->
  exists l', parasite_read count l = Ret (count, ztake count (p_out (lk_para l)), l')
    /\ lk_para l' = take_out count (lk_para l) /\ link_ready l'.
Proof.
  intros (Hc & Hr & Hal & Hb) Hl Hout. unfold parasite_read, __read.
  case_match; tests; [lia|]. destruct l as [p hs]; simpl in *.
  destruct (link_read_loop (io_fuel count (Link p hs)) count 0 [] p hs) as (hs' & E & Hb');
    try done; [lia|lia|unfold io_fuel; simpl; lia|].
  rewrite E, i32_small, Z.sub_0_r by lia. eexists. split; [done|]. split; [done|].
  split_and!; simpl; [done|by apply take_out_rests|done..].
Qed.
End Facts.
