(* ===== verification/Vmas.v ===== *)
(** Virtual memory areas: [scan_target_vmas] of memcr.c, which fills the table
    of areas from the text of /proc/pid/maps, with the parts of the C library
    it uses (fgets and the directives of its sscanf format). *)
From Stdlib Require Import Ascii String.
From stdpp Require Import base list.
From S2P Require Import Prelude Target.
#[local] Set Warnings "-clear-no-such-hyp".

Definition FLAG_NONE : Z := 0.
Definition FLAG_STACK : Z := 1.
Definition FLAG_HEAP : Z := 2.
Definition FLAG_ANON : Z := 3.
Definition FLAG_FILE : Z := 4.

Record vm_area := VmArea {
  vma_start : Z;
  vma_end : Z;
  vma_prot : Z;
  vma_flags : Z;
}.

#[export] Instance vm_area_eq_dec : EqDecision vm_area.
Proof. solve_decision. Defined.

Definition MAX_VMAS : Z := 3 * 4096.

(** * Text *)

Abbreviation text := (list ascii).
Definition txt (s : string) : text := list_ascii_of_string s.

Definition newline : ascii := "010".
(** isspace(3) in the C locale: tab to carriage return, and the blank. *)
Definition is_space (c : ascii) : bool :=
  let n := Z.of_nat (nat_of_ascii c) in ((9 <=? n) && (n <=? 13)) || (n =? 32).

(** The value of a digit of strtoul(3), in any base up to 36. *)
Definition digit_value (c : ascii) : Z :=
  let n := Z.of_nat (nat_of_ascii c) in
  if (48 <=? n) && (n <=? 57) then n - 48
  else if (97 <=? n) && (n <=? 122) then n - 87
  else if (65 <=? n) && (n <=? 90) then n - 55
  else 36.

Definition is_digit (base : Z) (c : ascii) : bool := digit_value c <? base.

(** The longest prefix whose characters satisfy [p], and the rest. *)
Fixpoint span (p : ascii -> bool) (s : text) : text * text :=
  match s with
  | c :: s' => if p c then let '(a, b) := span p s' in (c :: a, b) else ([], s)
  | [] => ([], [])
  end.

Definition skip_spaces (s : text) : text := (span is_space s).2.

Definition digits_value (base : Z) (ds : text) : Z :=
  foldl (fun acc c => acc * base + digit_value c) 0 ds.

Definition ULONG_MAX : Z := 2 ^ 64 - 1.

(** ** sscanf *)

Inductive directive :=
| DNum (base : Z)       (** %lx, %x and %lu *)
| DChar                 (** %c *)
| DStr (width : Z)      (** %<width>s *)
| DLit (c : ascii)      (** an ordinary character *)
| DSpace.               (** white space *)

Inductive value := VNum (z : Z) | VChar (c : ascii) | VStr (s : text).

Inductive scanned :=
| Assign (v : value) (rest : text)
| Match (rest : text)          (** no assignment *)
| Mismatch                     (** matching failure *)
| Eof.                         (** input failure *)

Definition scan_sign (s : text) : bool * text :=
  match s with
  | "-"%char :: s => (true, s)
  | "+"%char :: s => (false, s)
  | _ => (false, s)
  end.

Definition scan_0x (base : Z) (s : text) : text :=
  match s with
  | "0"%char :: ("x"%char | "X"%char) :: s' => if base =? 16 then s' else s
  | _ => s
  end.

Definition scan_num (base : Z) (s : text) : scanned :=
  match skip_spaces s with
  | [] => Eof
  | s =>
      let '(neg, s) := scan_sign s in
      let '(ds, rest) := span (is_digit base) (scan_0x base s) in
      match ds with
      | [] => Mismatch
      | _ =>
          let v := digits_value base ds in
          Assign (VNum (if ULONG_MAX <? v then ULONG_MAX else if neg then u64 (- v) else v)) rest
      end
  end.

Definition scan_directive (d : directive) (s : text) : scanned :=
  match d with
  | DNum base => scan_num base s
  | DChar => match s with [] => Eof | c :: s => Assign (VChar c) s end
  | DStr width =>
      match skip_spaces s with
      | [] => Eof
      | s =>
          let word := ztake width (span (fun c => negb (is_space c)) s).1 in
          Assign (VStr word) (zdrop (blen word) s)
      end
  | DLit c => match s with [] => Eof | c' :: s => if Ascii.eqb c c' then Match s else Mismatch end
  | DSpace => Match (skip_spaces s)
  end.

Definition EOF : Z := -1.

(** The return value and the values assigned; [n] values were assigned so far. *)
Fixpoint sscanf_from (n : Z) (s : text) (fmt : list directive) : Z * list value :=
  match fmt with
  | [] => (n, [])
  | d :: fmt =>
      match scan_directive d s with
      | Assign v s => let '(ret, vs) := sscanf_from (n + 1) s fmt in (ret, v :: vs)
      | Match s => sscanf_from n s fmt
      | Mismatch => (n, [])
      | Eof => (if n =? 0 then EOF else n, [])
      end
  end.

Definition sscanf : text -> list directive -> Z * list value := sscanf_from 0.

(** ["%lx-%lx %c%c%c%c %lx %x:%x %lu %123s"] *)
Definition maps_format : list directive :=
  [DNum 16; DLit "-"; DNum 16; DSpace; DChar; DChar; DChar; DChar; DSpace; DNum 16; DSpace;
   DNum 16; DLit ":"; DNum 16; DSpace; DNum 10; DSpace; DStr 123].

(** ** fgets(buf, size, f): at most [size - 1] characters, up to a newline *)

Fixpoint fgets (room : nat) (f : text) : text * text :=
  match room, f with
  | S room, c :: f =>
      if Ascii.eqb c newline then ([c], f)
      else let '(a, b) := fgets room f in (c :: a, b)
  | _, _ => ([], f)
  end.

(** strncmp(s, p, strlen(p)) == 0 *)
Definition starts_with (p : string) (s : text) : bool :=
  if decide (take (length (txt p)) s = txt p) then true else false.

(** * The scan *)

Section Scan.
(** [ctx.blob], the address of the parasite in the target, and [page_size]. *)
Context (blob ps : Z).

Definition should_skip_range (start end_ : Z) : bool := (start <=? blob) && (blob <? end_).

(** What becomes of an entry of /proc/pid/maps. *)
Inductive line_verdict :=
| LSkip
| LArea (vma : vm_area)
| LAssert.                (** assert(s == 'p') *)

(** The body of the loop once the line was parsed, up to the [MAX_VMAS] test. *)
Definition scan_entry (start end_ : Z) (r w x s : ascii) (file_path : text) : line_verdict :=
  if should_skip_range start (u64 (end_ + ps)) then LSkip
  else
    let flags :=
      match file_path with
      | "/"%char :: _ => Some FLAG_FILE
      | [] => Some FLAG_ANON
      | _ =>
          if starts_with "[stack" file_path then Some FLAG_STACK
          else if starts_with "[heap" file_path then Some FLAG_HEAP
          else None
      end in
    match flags with
    | None => LSkip
    | Some flags =>
        if Ascii.eqb s "s" then LSkip
        else if negb (Ascii.eqb s "p") then LAssert
        else
          let prot := PROT_NONE in
          let prot := if Ascii.eqb r "r" then Z.lor prot PROT_READ else prot in
          let prot := if Ascii.eqb w "w" then Z.lor prot PROT_WRITE else prot in
          let prot := if Ascii.eqb x "x" then Z.lor prot PROT_EXEC else prot in
          LArea (VmArea start end_ prot flags)
    end.

(** One line: the value to return, or the areas after it.  With ten values
    [file_path] keeps the zeroes it was initialised with. *)
Definition scan_line (buf : text) (vmas : list vm_area) : run (Z + list vm_area) :=
  let '(ret, vals) := sscanf buf maps_format in
  if ret <? 10 then Ret (inl ret)
  else
    match vals with
    | VNum start :: VNum end_ :: VChar r :: VChar w :: VChar x :: VChar s :: _ :: _ :: _ :: _ :: path =>
        let file_path := match path with VStr p :: _ => p | _ => [] end in
        match scan_entry start end_ r w x s file_path with
        | LSkip => Ret (inr vmas)
        | LAssert => AssertFail
        | LArea vma => Ret (inr (if blen vmas =? MAX_VMAS then vmas else vmas ++ [vma]))
        end
    | _ => Ret (inl ret)     (* unreachable: ten assignments have these shapes *)
    end.

(** Every iteration takes at least one character off the file. *)
Fixpoint scan_loop (fuel : nat) (maps : text) (vmas : list vm_area) : run (Z * list vm_area) :=
  match fuel with
  | O => OutOfFuel
  | S fuel =>
      match fgets 1023 maps with
      | ([], _) => Ret (0, vmas)
      | (buf, maps) =>
          let! r := scan_line buf vmas in
          match r with
          | inl ret => Ret (ret, vmas)
          | inr vmas => scan_loop fuel maps vmas
          end
      end
  end.

(** [maps] is the text of /proc/pid/maps, [None] when it cannot be opened;
    [vmas] is the table with its [nr_vmas] entries. *)
Definition scan_target_vmas (maps : option text) (vmas : list vm_area) : run (Z * list vm_area) :=
  match maps with
  | None => Ret (-1, vmas)
  | Some maps => scan_loop (S (length maps)) maps vmas
  end.
End Scan.

(** * Lines of /proc/pid/maps as the kernel writes them *)

(** [s] is a way to write [z]: digits of the base, leading zeroes allowed. *)
Definition renders (base z : Z) (s : text) : Prop :=
  s <> [] /\ Forall (fun c => is_digit base c = true) s /\ digits_value base s = z /\ z <= ULONG_MAX.

Record maps_entry := MapsEntry {
  me_start : Z; me_end : Z;
  me_r : ascii; me_w : ascii; me_x : ascii; me_s : ascii;
  me_path : text;           (** the first word of the pathname; empty: none *)
}.

(** [line] is the entry [e] written out: address range, permissions, offset,
    device, inode, blanks, the pathname and whatever follows its first word. *)
Definition maps_line (e : maps_entry) (line : text) : Prop :=
  exists a b off maj min ino pad rest,
    line = a ++ "-"%char :: b ++ " "%char :: me_r e :: me_w e :: me_x e :: me_s e :: " "%char ::
             off ++ " "%char :: maj ++ ":"%char :: min ++ " "%char :: ino ++
             replicate pad " "%char ++ me_path e ++ rest ++ [newline]
    /\ renders 16 (me_start e) a /\ renders 16 (me_end e) b
    /\ (exists z, renders 16 z off) /\ (exists z, renders 16 z maj) /\ (exists z, renders 16 z min)
    /\ (exists z, renders 10 z ino)
    /\ is_space (me_r e) = false
    /\ Forall (fun c => is_space c = false) (me_path e)
    /\ Forall (fun c => c <> newline) (me_r e :: me_w e :: me_x e :: me_s e :: rest)
    /\ (me_path e = [] -> rest = []) /\ (me_path e <> [] -> (0 < pad)%nat)
    /\ (rest = [] \/ exists r, rest = " "%char :: r).

(** What memcr is to make of an entry. *)
Definition path_kind (path : text) : option Z :=
  if decide (path = []) then Some FLAG_ANON
  else if decide (take 1 path = txt "/") then Some FLAG_FILE
  else if decide (take 6 path = txt "[stack") then Some FLAG_STACK
  else if decide (take 5 path = txt "[heap") then Some FLAG_HEAP
  else None.

(** The parasite's address is in the area, or less than a page above its end (the
    code leaves such an area out too). *)
Definition holds_parasite (blob : Z) (e : maps_entry) : Prop := me_start e <= blob < me_end e.
Definition below_parasite (blob ps : Z) (e : maps_entry) : Prop := me_start e <= blob /\ me_end e <= blob < me_end e + ps.

Definition entry_area (blob ps : Z) (e : maps_entry) : option vm_area :=
  if decide (holds_parasite blob e \/ below_parasite blob ps e \/ me_s e = "s"%char) then None
  else
    let bit (c yes : ascii) (n : Z) := if decide (c = yes) then n else 0 in
    VmArea (me_start e) (me_end e)
      (bit (me_r e) "r"%char PROT_READ + bit (me_w e) "w"%char PROT_WRITE + bit (me_x e) "x"%char PROT_EXEC)
    <$> path_kind (me_path e).

(** ** Lemmas *)

(** The text does not go on with a digit in any base. *)
Definition no_digit_ahead (s : text) : Prop :=
  match s with [] => True | c :: _ => digit_value c = 36 end.

Lemma span_app p a b :
  Forall (fun c => p c = true) a -> match b with [] => True | c :: _ => p c = false end ->
  span p (a ++ b) = (a, b).
Proof.
  intros Ha Hb. induction Ha as [|c a Hc Ha IH]; simpl.
  - destruct b as [|c b]; [done|]. simpl. by rewrite Hb.
  - by rewrite Hc, IH.
Qed.

Lemma digit_bound c : 0 <= digit_value c \/ digit_value c = 36.
Proof. unfold digit_value. repeat case_match; lia. Qed.

Lemma digit_not_space base c : base <= 36 -> is_digit base c = true -> is_space c = false.
Proof.
  unfold is_digit, is_space, digit_value. intros Hb Hd. repeat case_match; lia.
Qed.

Lemma digit_plain base c :
  base <= 16 -> is_digit base c = true ->
  c <> "-"%char /\ c <> "+"%char /\ c <> "x"%char /\ c <> "X"%char.
Proof.
  unfold is_digit. intros Hb Hd. tests.
  split_and!; intros ->;
    match type of Hd with ?d < _ => let v := eval vm_compute in d in change (v < base) in Hd end; lia.
Qed.

Lemma skip_spaces_word c s : is_space c = false -> skip_spaces (c :: s) = c :: s.
Proof. intros H. unfold skip_spaces. simpl. by rewrite H. Qed.

Lemma scan_sign_plain c s : c <> "-"%char -> c <> "+"%char -> scan_sign (c :: s) = (false, c :: s).
Proof. intros H1 H2. destruct c as [[] [] [] [] [] [] [] []]; done. Qed.

Lemma scan_0x_plain base s :
  match s with _ :: c :: _ => c <> "x"%char /\ c <> "X"%char | _ => True end -> scan_0x base s = s.
Proof.
  destruct s as [|c [|c2 s]]; [done| |intros [H1 H2]].
  - by destruct c as [[] [] [] [] [] [] [] []].
  - destruct c as [[] [] [] [] [] [] [] []]; try done.
    destruct c2 as [[] [] [] [] [] [] [] []]; done.
Qed.

Lemma digits_value_nonneg base acc ds :
  0 <= base <= 16 -> 0 <= acc -> Forall (fun c => is_digit base c = true) ds ->
  0 <= foldl (fun acc c => acc * base + digit_value c) acc ds.
Proof.
  intros Hb Ha Hd. revert acc Ha. induction Hd as [|c ds Hc Hd IH]; intros acc Ha; simpl; [done|].
  apply IH. unfold is_digit in Hc. tests. pose proof (digit_bound c). nia.
Qed.

Lemma scan_num_ok base z a b :
  0 <= base <= 16 -> renders base z a -> no_digit_ahead b -> scan_num base (a ++ b) = Assign (VNum z) b.
Proof.
  intros Hb (Hne & Hd & Hv & Hz) Hn.
  destruct a as [|c a]; [done|]. inversion Hd as [|? ? Hc Ha]; subst.
  destruct (digit_plain base c) as (H1 & H2 & _); [lia|done|].
  unfold scan_num. cbn [app]. rewrite skip_spaces_word by (apply (digit_not_space base); [lia|done]).
  rewrite scan_sign_plain by done. rewrite scan_0x_plain.
  - change (c :: a ++ b) with ((c :: a) ++ b). rewrite span_app; [|done|].
    + by rewrite (proj2 (Z.ltb_ge _ _)) by done.
    + destruct b as [|c' b]; [done|]. simpl in Hn. unfold is_digit. rewrite Hn. apply Z.ltb_ge. lia.
  - destruct a as [|c2 a]; simpl.
    + destruct b as [|c2 b]; [done|]. simpl in Hn. split; intros ->; vm_compute in Hn; lia.
    + inversion Ha; subst. by destruct (digit_plain base c2) as (_ & _ & ? & ?); [lia|done|].
Qed.

Lemma skip_blanks n s : skip_spaces (replicate n " "%char ++ s) = skip_spaces s.
Proof.
  induction n as [|n IH]; [done|]. unfold skip_spaces in *. simpl.
  destruct (span is_space (replicate n " "%char ++ s)) eqn:E. simpl in *. done.
Qed.

Lemma skip_spaces_num base z a b : base <= 16 -> renders base z a -> skip_spaces (a ++ b) = a ++ b.
Proof.
  intros Hb (Hne & Hd & _). destruct a as [|c a]; [done|]. inversion Hd; subst.
  apply skip_spaces_word, (digit_not_space base); [lia|done].
Qed.

Lemma sscanf_num n base z a b fmt :
  0 <= base <= 16 -> renders base z a -> no_digit_ahead b ->
  sscanf_from n (a ++ b) (DNum base :: fmt)
    = let '(ret, vs) := sscanf_from (n + 1) b fmt in (ret, VNum z :: vs).
Proof. intros. cbn [sscanf_from scan_directive]. by rewrite (scan_num_ok base z). Qed.

Lemma sscanf_blank_num n base z a b fmt :
  base <= 16 -> renders base z a ->
  sscanf_from n (" "%char :: a ++ b) (DSpace :: fmt) = sscanf_from n (a ++ b) fmt.
Proof.
  intros Hb Hr. cbn [sscanf_from scan_directive].
  change (" "%char :: a ++ b) with (replicate 1 " "%char ++ a ++ b).
  by rewrite skip_blanks, (skip_spaces_num base z).
Qed.

Lemma sscanf_lit n c s fmt : sscanf_from n (c :: s) (DLit c :: fmt) = sscanf_from n s fmt.
Proof. cbn [sscanf_from scan_directive]. by rewrite Ascii.eqb_refl. Qed.

Lemma sscanf_mismatch n s d fmt : scan_directive d s = Mismatch -> sscanf_from n s (d :: fmt) = (n, []).
Proof. intros E. cbn [sscanf_from]. by rewrite E. Qed.

Lemma sscanf_char n c s fmt :
  sscanf_from n (c :: s) (DChar :: fmt)
    = let '(ret, vs) := sscanf_from (n + 1) s fmt in (ret, VChar c :: vs).
Proof. done. Qed.

Lemma sscanf_blank_word n c s fmt :
  is_space c = false -> sscanf_from n (" "%char :: c :: s) (DSpace :: fmt) = sscanf_from n (c :: s) fmt.
Proof. intros. cbn [sscanf_from scan_directive]. rewrite (skip_blanks 1 (c :: s) : skip_spaces (_ :: _) = _). by rewrite skip_spaces_word. Qed.

(** The blanks after the inode, and the pathname. *)
Lemma sscanf_path pad path rest :
  Forall (fun c => is_space c = false) path -> (path = [] -> rest = []) ->
  (rest = [] \/ exists r, rest = " "%char :: r) ->
  sscanf_from 10 (replicate pad " "%char ++ path ++ rest ++ [newline]) [DSpace; DStr 123]
    = if decide (path = []) then (10, []) else (11, [VStr (ztake 123 path)]).
Proof.
  intros Hp Hr Hrest. cbn [sscanf_from scan_directive]. rewrite skip_blanks. case_decide as Hd.
  - rewrite Hd, Hr by done. done.
  - destruct path as [|c path]; [done|]. cbn [app].
    inversion Hp; subst. rewrite !skip_spaces_word by done.
    change (c :: path ++ rest ++ [newline]) with ((c :: path) ++ rest ++ [newline]).
    rewrite span_app; [done| |].
    + eapply Forall_impl; [done|]. intros x Hx. simpl in Hx. by rewrite Hx.
    + destruct Hrest as [-> | [r ->]]; done.
Qed.

Lemma sscanf_line e line :
  maps_line e line ->
  exists z1 z2 z3 z4 p,
    sscanf line maps_format
      = (if decide (me_path e = []) then 10 else 11,
         VNum (me_start e) :: VNum (me_end e) :: VChar (me_r e) :: VChar (me_w e) :: VChar (me_x e)
         :: VChar (me_s e) :: VNum z1 :: VNum z2 :: VNum z3 :: VNum z4 :: p)
    /\ p = if decide (me_path e = []) then [] else [VStr (ztake 123 (me_path e))].
Proof.
  intros (a & b & off & maj & min & ino & pad & rest & -> & Ha & Hb & [z1 H1] & [z2 H2] & [z3 H3]
    & [z4 H4] & Hr & Hp & _ & Hn & Hpad & Hrest).
  exists z1, z2, z3, z4. eexists. split; [|done]. unfold sscanf, maps_format.
  rewrite (sscanf_num _ 16 (me_start e)), sscanf_lit, (sscanf_num _ 16 (me_end e)) by done.
  rewrite sscanf_blank_word, !sscanf_char by done.
  rewrite (sscanf_blank_num _ 16 z1), (sscanf_num _ 16 z1) by done.
  rewrite (sscanf_blank_num _ 16 z2), (sscanf_num _ 16 z2), sscanf_lit, (sscanf_num _ 16 z3) by done.
  rewrite (sscanf_blank_num _ 10 z4), (sscanf_num _ 10 z4); [|done|done| |done|done].
  - change (0 + 1 + 1 + 1 + 1 + 1 + 1 + 1 + 1 + 1 + 1) with 10.
    rewrite sscanf_path by done. by case_decide.
  - destruct pad; [|done]. simpl. destruct (me_path e) eqn:E; [|naive_solver lia].
    rewrite Hn by done. done.
Qed.

Lemma starts_with_take p w path :
  (length (txt p) <= w)%nat ->
  starts_with p (take w path) = bool_decide (take (length (txt p)) path = txt p).
Proof.
  intros Hw. unfold starts_with. rewrite take_take, Nat.min_l by done.
  case_decide; [by rewrite bool_decide_true|by rewrite bool_decide_false].
Qed.

Lemma slash_case {A} (x y : A) c :
  match c with "/"%char => x | _ => y end = if decide (c = "/"%char) then x else y.
Proof. by destruct c as [[] [] [] [] [] [] [] []]. Qed.

Lemma eqb_decide a b : Ascii.eqb a b = if decide (a = b) then true else false.
Proof. case_decide; [by apply Ascii.eqb_eq|by apply Ascii.eqb_neq]. Qed.

(** The classification agrees with the specification. *)
Lemma scan_entry_ok blob ps e :
  0 <= ps -> is_u64 (me_end e + ps) -> me_s e = "s"%char \/ me_s e = "p"%char ->
  scan_entry blob ps (me_start e) (me_end e) (me_r e) (me_w e) (me_x e) (me_s e)
    (ztake 123 (me_path e))
  = match entry_area blob ps e with Some vma => LArea vma | None => LSkip end.
Proof.
  intros Hps Hu Hs. unfold scan_entry, entry_area. rewrite u64_small by done.
  unfold should_skip_range. destruct ((me_start e <=? blob) && _) eqn:Er; tests.
  { rewrite decide_True; [done|]. unfold holds_parasite, below_parasite. lia. }
  assert (Hnr : ~ holds_parasite blob e /\ ~ below_parasite blob ps e)
    by (unfold holds_parasite, below_parasite; rewrite !Z.leb_gt, !Z.ltb_ge in Er; lia).
  assert (Hk : match ztake 123 (me_path e) with
      | [] => Some FLAG_ANON
      | "/"%char :: _ => Some FLAG_FILE
      | _ => if starts_with "[stack" (ztake 123 (me_path e)) then Some FLAG_STACK
             else if starts_with "[heap" (ztake 123 (me_path e)) then Some FLAG_HEAP else None
      end = path_kind (me_path e)).
  { unfold ztake. rewrite !starts_with_take by (simpl; lia). unfold path_kind.
    destruct (me_path e) as [|c path]; [done|].
    change (take (Z.to_nat 123) (c :: path)) with (c :: take 122 path).
    rewrite decide_False by done. change (take 1 (c :: path)) with ([c] : text).
    destruct (decide ([c] = txt "/")) as [[= ->]|Hc]; [done|].
    etransitivity; [apply slash_case|]. rewrite decide_False by (by intros ->).
    unfold bool_decide. by repeat case_decide. }
  rewrite Hk. destruct (decide (me_s e = "s"%char)) as [Es|Es].
  - rewrite decide_True by auto. rewrite Es. by destruct (path_kind _).
  - rewrite decide_False by naive_solver. destruct Hs as [|Hs]; [done|]. rewrite Hs.
    destruct (path_kind (me_path e)) as [k|]; [|done]. simpl. f_equal.
    f_equal. rewrite !eqb_decide. by repeat case_decide.
Qed.

Lemma fgets_app room line rest :
  Forall (fun c => c <> newline) line -> (length line < room)%nat ->
  fgets room (line ++ newline :: rest) = (line ++ [newline], rest).
Proof.
  intros Hl. revert room. induction Hl as [|c line Hc Hl IH]; intros [|room] Hr; simpl in Hr; try lia.
  - done.
  - simpl. rewrite (proj2 (Ascii.eqb_neq _ _)) by done. by rewrite IH by lia.
Qed.

Lemma fgets_consumes room f buf rest :
  fgets room f = (buf, rest) -> length f = (length buf + length rest)%nat.
Proof.
  revert f buf. induction room as [|room IH]; intros [|c f] buf; simpl; try by intros [= <- <-].
  case_match; [by intros [= <- <-]|]. destruct (fgets room f) as [a b] eqn:E.
  intros [= <- <-]. simpl. by rewrite (IH f a).
Qed.

Lemma scan_loop_total blob ps fuel maps vmas :
  (length maps < fuel)%nat -> scan_loop blob ps fuel maps vmas <> OutOfFuel.
Proof.
  revert maps vmas. induction fuel as [|fuel IH]; intros maps vmas Hf; [lia|]. cbn [scan_loop].
  destruct (fgets 1023 maps) as [[|c buf] rest] eqn:E; [done|].
  apply fgets_consumes in E. simpl in E.
  destruct (scan_line blob ps (c :: buf) vmas) as [[ret|vmas']| |] eqn:El; simpl; try done.
  - apply IH. lia.
  - unfold scan_line in El. repeat case_match; done.
Qed.

Lemma render_no_newline base z s : base <= 16 -> renders base z s -> Forall (fun c => c <> newline) s.
Proof.
  intros Hb (_ & Hd & _). eapply Forall_impl; [done|]. intros c Hc ->. simpl in Hc.
  unfold is_digit in Hc. change (digit_value newline) with 36 in Hc. lia.
Qed.

Lemma maps_line_newline e line :
  maps_line e line -> exists l, line = l ++ [newline] /\ Forall (fun c => c <> newline) l.
Proof.
  intros (a & b & off & maj & min & ino & pad & rest & -> & Ha & Hb & [z1 H1] & [z2 H2] & [z3 H3]
    & [z4 H4] & Hr & Hp & Hnl & _). apply render_no_newline in Ha, Hb, H1, H2, H3, H4; [|done..].
  inversion_clear Hnl as [|? ? N1 N]. inversion_clear N as [|? ? N2 N']. inversion_clear N' as [|? ? N3 N].
  inversion_clear N as [|? ? N4 N5].
  eexists. split.
  - rewrite !(app_comm_cons _ _ _), !app_assoc. done.
  - assert (Forall (fun c => c <> newline) (me_path e))
      by (eapply Forall_impl; [done|]; intros c Hc ->; done).
    assert (Forall (fun c => c <> newline) (replicate pad " "%char)) by by apply Forall_replicate.
    repeat (rewrite ?Forall_app, ?Forall_cons; split_and!); done.
Qed.

(** * Theorems *)

Definition entry_ok (ps : Z) (e : maps_entry) : Prop :=
  is_u64 (me_end e + ps) /\ (me_s e = "s"%char \/ me_s e = "p"%char).

Lemma omap_list_cons {A B} (f : A -> option B) x l : omap f (x :: l) = option_list (f x) ++ omap f l.
Proof. simpl. by destruct (f x). Qed.

Lemma blen_omap {A B} (f : A -> option B) l : blen (omap f l) <= blen l.
Proof.
  induction l as [|x l IH]; [done|]. rewrite omap_list_cons, blen_app, blen_cons.
  destruct (f x); simpl; autorewrite with blen; lia.
Qed.

Lemma scan_line_ok blob ps e line vmas :
  0 <= ps -> maps_line e line -> entry_ok ps e -> blen vmas <= MAX_VMAS ->
  scan_line blob ps line vmas
    = Ret (inr (ztake MAX_VMAS (vmas ++ option_list (entry_area blob ps e)))).
Proof.
  intros Hps Hl [Hu Hs] Hv. destruct (sscanf_line e line Hl) as (z1 & z2 & z3 & z4 & p & E & ->).
  unfold scan_line. rewrite E, (proj2 (Z.ltb_ge _ _)) by (case_decide; lia).
  assert (Hp : match (if decide (me_path e = []) then [] else [VStr (ztake 123 (me_path e))]) with
      | VStr p :: _ => p | _ => [] end = ztake 123 (me_path e))
    by (case_decide as Hd; [by rewrite Hd|done]).
  rewrite Hp, scan_entry_ok by done.
  destruct (entry_area blob ps e) as [vma|]; simpl; [|by rewrite app_nil_r, ztake_all].
  destruct (blen vmas =? MAX_VMAS) eqn:?; tests.
  - by rewrite ztake_app_exact by lia.
  - rewrite ztake_all by blia. done.
Qed.

Lemma scan_loop_lines blob ps fuel entries lines rest vmas :
  0 <= ps -> Forall2 maps_line entries lines -> Forall (fun l => blen l < 1024) lines ->
  Forall (entry_ok ps) entries -> blen vmas <= MAX_VMAS ->
  (length (concat lines) < fuel)%nat ->
  exists fuel', (fuel - length (concat lines) <= fuel')%nat /\
  scan_loop blob ps fuel (concat lines ++ rest) vmas
    = scan_loop blob ps fuel' rest (ztake MAX_VMAS (vmas ++ omap (entry_area blob ps) entries)).
Proof.
  intros Hps Hl. revert fuel vmas. induction Hl as [|e line entries lines He Hl IH];
    intros fuel vmas Hlen Hok Hv Hf.
  - exists fuel. simpl. rewrite app_nil_r, ztake_all by done. split; [lia|done].
  - inversion_clear Hlen. inversion_clear Hok. simpl in Hf. rewrite length_app in Hf.
    destruct (maps_line_newline e line He) as (l & -> & Hn).
    destruct fuel as [|fuel]; [lia|]. cbn [scan_loop concat].
    rewrite <- !app_assoc. cbn [app].
    rewrite fgets_app; [|done|match goal with H : blen (l ++ _) < _ |- _ => unfold blen in H;
      rewrite length_app in H; simpl in H; lia end].
    destruct (l ++ [newline]) as [|c buf] eqn:El; [by destruct l|]. rewrite <- El.
    rewrite (scan_line_ok blob ps e) by (by rewrite ?El). cbn [rbind].
    destruct (IH fuel (ztake MAX_VMAS (vmas ++ option_list (entry_area blob ps e))))
      as (fuel' & Hf' & E); [done|done|blia|simpl in Hf; lia|].
    exists fuel'. rewrite E. split; [|f_equal].
    + rewrite length_app. apply (f_equal length) in El. rewrite length_app in El. simpl in *. lia.
    + by rewrite ztake_app_twice, omap_list_cons, app_assoc.
Qed.

(** C29: on the text of /proc/pid/maps as the kernel writes it, for any
    lines shorter than the line buffer, [scan_target_vmas] succeeds and fills
    the table with exactly the private areas that are anonymous, heap, stack or
    file mapped and neither hold the parasite's address nor end at it or less
    than a page below it (an area of the target that lies right under the
    parasite is left out with it), in order, with the protection bits the line
    shows; what exceeds [MAX_VMAS] is left out. *)
Theorem scan_target_vmas_spec blob ps entries lines :
  0 <= ps -> Forall2 maps_line entries lines -> Forall (fun l => blen l < 1024) lines ->
  Forall (entry_ok ps) entries ->
  scan_target_vmas blob ps (Some (concat lines)) []
    = Ret (0, ztake MAX_VMAS (omap (entry_area blob ps) entries)).
Proof.
  intros Hps Hl Hlen Hok. unfold scan_target_vmas.
  destruct (scan_loop_lines blob ps (S (length (concat lines))) entries lines [] [])
    as (fuel & Hf & E); try done; [lia|]. rewrite app_nil_r in E. rewrite E.
  destruct fuel; [lia|]. done.
Qed.

(** The scan ends on every text: each round takes a line, or part of one,
    off the file. *)
Theorem scan_target_vmas_total blob ps maps vmas :
  scan_target_vmas blob ps maps vmas <> OutOfFuel.
Proof. destruct maps; [|done]. apply scan_loop_total. lia. Qed.

Lemma fgets_full room long rest :
  Forall (fun c => c <> newline) long -> length long = room ->
  fgets room (long ++ rest) = (long, rest).
Proof.
  intros Hl. revert room. induction Hl as [|c long Hc Hl IH]; intros room <-; simpl; [done|].
  rewrite (proj2 (Ascii.eqb_neq _ _)) by done. by rewrite IH.
Qed.

Lemma scan_line_mismatch blob ps c s vmas :
  16 <= digit_value c -> is_space c = false -> c <> "-"%char -> c <> "+"%char ->
  scan_line blob ps (c :: s) vmas = Ret (inl 0).
Proof.
  intros Hd Hs H1 H2. assert (E : scan_num 16 (c :: s) = Mismatch).
  { unfold scan_num. rewrite skip_spaces_word, scan_sign_plain by done.
    assert (H0 : scan_0x 16 (c :: s) = c :: s).
    { destruct (decide (c = "0"%char)) as [-> |Hc]; [by destruct Hd|].
      clear -Hc. by destruct c as [[] [] [] [] [] [] [] []]. }
    rewrite H0. unfold is_digit. simpl span. by rewrite (proj2 (Z.ltb_ge _ _)) by lia. }
  unfold scan_line, sscanf, maps_format. by rewrite sscanf_mismatch.
Qed.

(** A line that does not fit the buffer can end the scan with success.
    When the part of an overlong line (a path of about a thousand characters)
    that follows the first 1023 characters begins like no hexadecimal number, sscanf
    assigns nothing, and the 0 it returns is handed to the caller as success:
    every area listed after that line is left out of the checkpoint. *)
Theorem scan_stops_silently blob ps entries lines long area c rest :
  0 <= ps -> Forall2 maps_line entries lines -> Forall (fun l => blen l < 1024) lines ->
  Forall (entry_ok ps) entries ->
  Forall (fun c => c <> newline) long -> blen long = 1023 ->
  (forall vmas, blen vmas < MAX_VMAS -> scan_line blob ps long vmas = Ret (inr (vmas ++ [area]))) ->
  16 <= digit_value c -> is_space c = false -> c <> "-"%char -> c <> "+"%char ->
  blen entries < MAX_VMAS ->
  scan_target_vmas blob ps (Some (concat lines ++ long ++ c :: rest)) []
    = Ret (0, omap (entry_area blob ps) entries ++ [area]).
Proof.
  intros Hps Hl Hlen Hok Hn Hlong Harea Hd Hs H1 H2 Hmax. unfold scan_target_vmas.
  pose proof (blen_omap (entry_area blob ps) entries) as Hom.
  destruct (scan_loop_lines blob ps (S (length (concat lines ++ long ++ c :: rest))) entries lines
    (long ++ c :: rest) []) as (fuel & Hf & E); try done; [rewrite length_app; lia|]. rewrite E.
  rewrite !length_app in Hf. unfold blen in Hlong. cbn [app length] in *.
  destruct fuel as [|[|fuel]]; [lia..|]. rewrite ztake_all by (cbn [app]; lia). cbn [scan_loop].
  rewrite fgets_full by (done || lia).
  destruct long as [|d long]; [simpl in Hlong; lia|]. rewrite Harea by lia. cbn [rbind scan_loop].
  assert (Hc : c <> newline) by by intros ->.
  assert (fgets 1023 (c :: rest) = (c :: (fgets 1022 rest).1, (fgets 1022 rest).2)) as ->.
  { change (fgets 1023 (c :: rest)) with
      (if Ascii.eqb c newline then ([c], rest) else let '(a, b) := fgets 1022 rest in (c :: a, b)).
    rewrite (proj2 (Ascii.eqb_neq _ _)) by done. by destruct (fgets 1022 rest). }
  by rewrite scan_line_mismatch by done.
Qed.

(** * Witnesses *)

Definition sample_entries : list maps_entry :=
  [MapsEntry 0x400000 0x452000 "r" "-" "x" "p" (txt "/usr/bin/dbus");
   MapsEntry 0xe03000 0xe24000 "r" "w" "-" "p" (txt "[heap]");
   MapsEntry 0x35b1a21000 0x35b1a22000 "r" "w" "-" "p" []].

Definition sample_lines : list text :=
  [txt "00400000-00452000 r-xp 00000000 08:02 173521      /usr/bin/dbus" ++ [newline];
   txt "00e03000-00e24000 rw-p 00000000 00:00 0           [heap]" ++ [newline];
   txt "35b1a21000-35b1a22000 rw-p 00000000 00:00 0" ++ [newline]].

Ltac render := split; [done|split; [repeat constructor|split; [reflexivity|by vm_compute]]].

Lemma sample_lines_ok : Forall2 maps_line sample_entries sample_lines.
Proof.
  repeat constructor.
  - exists (txt "00400000"), (txt "00452000"), (txt "00000000"), (txt "08"), (txt "02"), (txt "173521"), 6%nat, [].
    split; [reflexivity|]. split_and!; try render; try (eexists; render); try done;
      [by repeat constructor|by repeat constructor|lia|by left].
  - exists (txt "00e03000"), (txt "00e24000"), (txt "00000000"), (txt "00"), (txt "00"), (txt "0"), 11%nat, [].
    split; [reflexivity|]. split_and!; try render; try (eexists; render); try done;
      [by repeat constructor|by repeat constructor|lia|by left].
  - exists (txt "35b1a21000"), (txt "35b1a22000"), (txt "00000000"), (txt "00"), (txt "00"), (txt "0"), 0%nat, [].
    split; [reflexivity|]. split_and!; try render; try (eexists; render); try done;
      [by repeat constructor|by left].
Qed.

Lemma scan_target_vmas_spec_witness :
  scan_target_vmas 0x7000 4096 (Some (concat sample_lines)) []
    = Ret (0, [VmArea 0x400000 0x452000 5 FLAG_FILE; VmArea 0xe03000 0xe24000 3 FLAG_HEAP;
               VmArea 0x35b1a21000 0x35b1a22000 3 FLAG_ANON]).
Proof.
  apply (scan_target_vmas_spec 0x7000 4096 sample_entries sample_lines).
  - lia.
  - apply sample_lines_ok.
  - repeat constructor.
  - repeat constructor; vm_compute; auto; congruence.
Defined.

(** A mapping whose path is a thousand characters long, then the heap. *)
Definition long_line : text :=
  txt "00400000-00452000 r-xp 00000000 08:02 173521 " ++ replicate 978 "/"%char.

Lemma scan_stops_silently_witness :
  scan_target_vmas 0x7000 4096
    (Some (concat (take 1 sample_lines) ++ long_line ++ "/"%char :: txt "lib" ++ newline :: concat sample_lines)) []
  = Ret (0, [VmArea 0x400000 0x452000 5 FLAG_FILE; VmArea 0x400000 0x452000 5 FLAG_FILE]).
Proof.
  apply (scan_stops_silently 0x7000 4096 (take 1 sample_entries) (take 1 sample_lines) long_line
    (VmArea 0x400000 0x452000 5 FLAG_FILE)); try done.
  - apply (Forall2_take _ _ _ 1), sample_lines_ok.
  - repeat constructor.
  - repeat constructor; vm_compute; auto; congruence.
  - unfold long_line. apply Forall_app. split; [by repeat constructor|by apply Forall_replicate].
  - intros vmas Hv. unfold scan_line.
    assert (E : sscanf long_line maps_format =
      (11, [VNum 0x400000; VNum 0x452000; VChar "r"; VChar "-"; VChar "x"; VChar "p"; VNum 0; VNum 8; VNum 2;
            VNum 173521; VStr (replicate 123 "/"%char)])) by (vm_compute; reflexivity).
    rewrite E. simpl. by rewrite (proj2 (Z.eqb_neq _ _)) by lia.
Defined.
