(* ===== verification/Rss.v ===== *)
(** The sizes memcr.c reports around a checkpoint: [get_target_rss] reads them
    from /proc/pid/status, [show_target_rss] and [print_target_vmas] say which
    are printed. *)
From Stdlib Require Import Ascii String.
From stdpp Require Import base list.
From S2P Require Import Prelude Vmas.
#[local] Open Scope Z_scope.

Record vm_stats := VmStats { VmRSS : Z; RssAnon : Z; RssFile : Z; RssShmem : Z }.

(** strstr(s, p) != NULL *)
Fixpoint strstr (s p : text) : bool :=
  (if decide (take (length p) s = p) then true else false) || match s with [] => false | _ :: s => strstr s p end.

(** ["<key> %lu kB"] *)
Definition rss_format (key : string) : list directive :=
  map DLit (txt key) ++ [DSpace; DNum 10; DSpace; DLit "k"; DLit "B"].

(** The value sscanf() stores, or what the variable held. *)
Definition scan_rss (key : string) (buf : text) (old : Z) : Z :=
  match (sscanf buf (rss_format key)).2 with VNum z :: _ => z | _ => old end.

(** One line. *)
Definition rss_line (buf : text) (v : vm_stats) : vm_stats :=
  if strstr buf (txt "VmRSS:") then VmStats (scan_rss "VmRSS:" buf (VmRSS v)) (RssAnon v) (RssFile v) (RssShmem v)
  else if strstr buf (txt "RssAnon:") then VmStats (VmRSS v) (scan_rss "RssAnon:" buf (RssAnon v)) (RssFile v) (RssShmem v)
  else if strstr buf (txt "RssFile:") then VmStats (VmRSS v) (RssAnon v) (scan_rss "RssFile:" buf (RssFile v)) (RssShmem v)
  else if strstr buf (txt "RssShmem:") then VmStats (VmRSS v) (RssAnon v) (RssFile v) (scan_rss "RssShmem:" buf (RssShmem v))
  else v.

Fixpoint rss_loop (fuel : nat) (f : text) (v : vm_stats) : run vm_stats :=
  match fgets 1023 f, fuel with
  | ([], _), _ => Ret v
  | (_, _), O => OutOfFuel
  | (buf, rest), S fuel => rss_loop fuel rest (rss_line buf v)
  end.

(** [status]: the file, if it can be opened. *)
Definition get_target_rss (status : option text) : run vm_stats :=
  match status with
  | None => Ret (VmStats 0 0 0 0)
  | Some f => rss_loop (length f) f (VmStats 0 (u64 (-1)) 0 0)
  end.

(** The lines show_target_rss() logs: a name, the size before, and the size
    after with the difference where both are shown. *)
Definition show_target_rss (rss_file : bool) (a b : vm_stats) : list (string * Z * option (Z * Z)) :=
  let both name x y := (name, x, Some (y, u64 (x - y))) in
  both "VmRSS"%string (VmRSS a) (VmRSS b) ::
  if RssAnon a =? u64 (-1) then []
  else [both "RssAnon"%string (RssAnon a) (RssAnon b);
        if rss_file then both "RssFile"%string (RssFile a) (RssFile b) else ("RssFile"%string, RssFile a, None);
        ("RssShmem"%string, RssShmem a, None)].

Definition get_vmas_size (vmas : list vm_area) : Z :=
  foldl (fun size v => u64 (size + u64 (vma_end v - vma_start v))) 0 vmas.

(** The number of areas, their size in kB and RSS. *)
Definition print_target_vmas (vmas : list vm_area) (RSS : Z) : Z * Z * Z := (blen vmas, get_vmas_size vmas / 1024, RSS).

(** * Lemmas *)

Lemma get_vmas_size_sum vmas :
  get_vmas_size vmas = u64 (foldr (fun v n => vma_end v - vma_start v + n) 0 vmas).
Proof.
  unfold get_vmas_size. assert (E : forall acc, foldl (fun size v => u64 (size + u64 (vma_end v - vma_start v))) (u64 acc) vmas
    = u64 (acc + foldr (fun v n => vma_end v - vma_start v + n) 0 vmas)).
  { induction vmas as [|v vmas IH]; intros acc; cbn [foldl foldr]; [by rewrite Z.add_0_r|].
    replace (u64 (u64 acc + u64 (vma_end v - vma_start v))) with (u64 (acc + (vma_end v - vma_start v)))
      by (unfold u64; by rewrite <- Zplus_mod). rewrite IH. f_equal. lia. }
  exact (E 0).
Qed.

Lemma rss_loop_total fuel f v : (length f <= fuel)%nat -> exists r, rss_loop fuel f v = Ret r.
Proof.
  revert f v. induction fuel as [|fuel IH]; intros f v Hf.
  - destruct f; [by eexists|cbn in Hf; lia].
  - cbn [rss_loop]. destruct (fgets 1023 f) as [[|c buf] rest] eqn:E; [by eexists|].
    apply fgets_consumes in E. cbn in E. apply IH. lia.
Qed.

(** What strstr() finds is made of characters of the line. *)
Lemma strstr_chars s p c : strstr s p = true -> c ∈ p -> c ∈ s.
Proof.
  induction s as [|a s IH]; cbn [strstr]; intros [E|E]%orb_true_iff Hc.
  - case_decide as H; [|done]. destruct p; [by apply not_elem_of_nil in Hc|done].
  - done.
  - case_decide as H; [|done]. rewrite <- H in Hc. apply elem_of_take in Hc as (i & Hi & _). by eapply list_elem_of_lookup_2.
  - right. auto.
Qed.

Lemma strstr_prefix p s : strstr (p ++ s) p = true.
Proof.
  assert (E : forall t, strstr t p = (if decide (take (length p) t = p) then true else false)
    || match t with [] => false | _ :: t => strstr t p end) by (by intros []).
  rewrite E, decide_True; [done|]. apply take_app_length.
Qed.

(** ** Lines of /proc/pid/status as the kernel writes them *)

(** A key, white space, a number and the unit; [None]: another line. *)
Definition rss_keys : list string := ["VmRSS:"; "RssAnon:"; "RssFile:"; "RssShmem:"]%string.

Inductive status_line : option (string * Z) -> text -> Prop :=
| status_rss key pad n num : key ∈ rss_keys -> Forall (fun c => is_space c = true /\ c <> newline) pad -> renders 10 n num ->
    status_line (Some (key, n)) (txt key ++ pad ++ num ++ txt " kB")
| status_other line : Forall (fun key => strstr (line ++ [newline]) (txt key) = false) rss_keys ->
    Forall (fun c => c <> newline) line -> status_line None line.

(** What a line sets. *)
Definition set_rss (v : vm_stats) (l : option (string * Z)) : vm_stats :=
  match l with
  | Some (key, n) =>
      if (key =? "VmRSS:")%string then VmStats n (RssAnon v) (RssFile v) (RssShmem v)
      else if (key =? "RssAnon:")%string then VmStats (VmRSS v) n (RssFile v) (RssShmem v)
      else if (key =? "RssFile:")%string then VmStats (VmRSS v) (RssAnon v) n (RssShmem v)
      else VmStats (VmRSS v) (RssAnon v) (RssFile v) n
  | None => v
  end.

Lemma sscanf_lits n cs s fmt : sscanf_from n (cs ++ s) (map DLit cs ++ fmt) = sscanf_from n s fmt.
Proof. induction cs as [|c cs IH]; [done|]. cbn [app map]. by rewrite sscanf_lit. Qed.

Lemma skip_spaces_app pad s : Forall (fun c => is_space c = true) pad -> skip_spaces (pad ++ s) = skip_spaces s.
Proof.
  unfold skip_spaces. induction 1 as [|c pad Hc Hp IH]; [done|]. cbn [app span]. rewrite Hc.
  destruct (span is_space (pad ++ s)) eqn:E. cbn in *. done.
Qed.

Lemma scan_rss_ok key pad n num old :
  Forall (fun c => is_space c = true /\ c <> newline) pad -> renders 10 n num ->
  scan_rss key ((txt key ++ pad ++ num ++ txt " kB") ++ [newline]) old = n.
Proof.
  intros Hp Hn. unfold scan_rss, sscanf, rss_format. rewrite <- !app_assoc, sscanf_lits.
  change (sscanf_from 0 ?s (DSpace :: ?fmt)) with (sscanf_from 0 (skip_spaces s) fmt).
  rewrite skip_spaces_app by (eapply Forall_impl; [done|]; by intros c []).
  rewrite (skip_spaces_num 10 n); [|lia|done]. rewrite (sscanf_num 0 10 n); [|lia|done|reflexivity].
  by destruct (sscanf_from _ _ _).
Qed.

(** No key stands in the line of another. *)
Lemma strstr_other_key key key' pad n num :
  key ∈ rss_keys -> key' ∈ rss_keys -> key <> key' ->
  Forall (fun c => is_space c = true /\ c <> newline) pad -> renders 10 n num ->
  strstr ((txt key ++ pad ++ num ++ txt " kB") ++ [newline]) (txt key') = false.
Proof.
  intros Hk Hk' Hne Hp (_ & Hd & _). apply not_true_iff_false. intros E.
  assert (Hin : forall c, c ∈ txt key' -> is_space c = false -> is_digit 10 c = false -> c ∈ txt key ++ txt " kB" ++ [newline]).
  { intros c Hc Hs Hdg. pose proof (strstr_chars _ _ c E Hc) as H. rewrite !elem_of_app. rewrite !elem_of_app in H.
    destruct_or! H; auto.
    - rewrite Forall_forall in Hp. destruct (Hp c H). congruence.
    - rewrite Forall_forall in Hd. specialize (Hd c H). cbn in Hd. congruence. }
  assert (Hno : exists c, c ∈ txt key' /\ is_space c = false /\ is_digit 10 c = false /\ c ∉ txt key ++ txt " kB" ++ [newline]).
  { clear -Hk Hk' Hne. assert (Hc : forall c, bool_decide (c ∈ txt key' /\ is_space c = false /\ is_digit 10 c = false
      /\ c ∉ txt key ++ txt " kB" ++ [newline]) = true -> exists c, c ∈ txt key' /\ is_space c = false
      /\ is_digit 10 c = false /\ c ∉ txt key ++ txt " kB" ++ [newline]) by (intros c Hc; exists c; by apply bool_decide_eq_true in Hc).
    unfold rss_keys in *. rewrite !elem_of_cons, elem_of_nil in Hk, Hk'.
    destruct_or! Hk; destruct_or! Hk'; subst; try done;
      first [by apply (Hc "V"%char) | by apply (Hc "A"%char) | by apply (Hc "F"%char) | by apply (Hc "h"%char)]. }
  destruct Hno as (c & H1 & H2 & H3 & H4). by apply H4, Hin.
Qed.

Lemma rss_line_ok l line v : status_line l line -> rss_line (line ++ [newline]) v = set_rss v l.
Proof.
  intros Hl. unfold rss_line. destruct Hl as [key pad n num Hk Hp Hn|line Ho _].
  - assert (Hyes : strstr ((txt key ++ pad ++ num ++ txt " kB") ++ [newline]) (txt key) = true)
      by (rewrite <- !app_assoc; apply strstr_prefix).
    assert (Hno : forall key', key' ∈ rss_keys -> key <> key' ->
      strstr ((txt key ++ pad ++ num ++ txt " kB") ++ [newline]) (txt key') = false)
      by (intros; by eapply strstr_other_key).
    assert (Hv : forall old, scan_rss key ((txt key ++ pad ++ num ++ txt " kB") ++ [newline]) old = n)
      by (intros; by apply scan_rss_ok).
    unfold rss_keys in *. rewrite !elem_of_cons, elem_of_nil in Hk.
    destruct_or! Hk; subst key; try done; rewrite ?(Hno "VmRSS:"%string), ?(Hno "RssAnon:"%string), ?(Hno "RssFile:"%string) by
      (done || (rewrite !elem_of_cons; auto)); rewrite Hyes, Hv; done.
  - unfold rss_keys in Ho. rewrite !Forall_cons in Ho. by destruct Ho as (-> & -> & -> & -> & _).
Qed.

Lemma status_line_no_newline l line : status_line l line -> Forall (fun c => c <> newline) line.
Proof.
  intros [key pad n num Hk Hp Hn|line' _ Hl]; [|done]. repeat apply Forall_app_2.
  - unfold rss_keys in Hk. rewrite !elem_of_cons, elem_of_nil in Hk. destruct_or! Hk; subst; try done; repeat constructor; done.
  - eapply Forall_impl; [done|]. by intros c [].
  - by apply (render_no_newline 10 n).
  - repeat constructor; done.
Qed.

(** On the status file as the kernel writes it, [get_target_rss] ends with the
    numbers of the four lines; RssAnon stays at its largest value when the
    kernel has no such line. *)
Theorem get_target_rss_spec ls lines :
  Forall2 status_line ls lines -> Forall (fun line => (length line < 1023)%nat) lines ->
  get_target_rss (Some (concat (map (fun line => line ++ [newline]) lines)))
  = Ret (foldl set_rss (VmStats 0 (u64 (-1)) 0 0) ls).
Proof.
  intros Hs Hl. unfold get_target_rss. generalize (VmStats 0 (u64 (-1)) 0 0).
  assert (Hf : (length (concat (map (fun line => line ++ [newline]) lines))
    <= length (concat (map (fun line => line ++ [newline]) lines)))%nat) by done.
  revert Hf. generalize (length (concat (map (fun line => line ++ [newline]) lines))) at 2 3.
  induction Hs as [|l line ls lines Hll Hs IH]; intros fuel Hf v; [by destruct fuel|].
  inversion_clear Hl as [|? ? Hlen Hl']. cbn [map concat] in *. rewrite <- app_assoc in *. cbn [app] in *.
  assert (E : fgets 1023 (line ++ newline :: concat (map (fun line => line ++ [newline]) lines))
    = (line ++ [newline], concat (map (fun line => line ++ [newline]) lines)))
    by (apply fgets_app; [by eapply status_line_no_newline|done]).
  rewrite length_app in Hf. cbn in Hf. destruct fuel as [|fuel]; [lia|]. cbn [rss_loop]. rewrite E.
  rewrite (rss_line_ok l) by done. destruct (line ++ [newline]) eqn:E2; [by destruct line|]. cbn [foldl]. apply IH; [done|lia].
Qed.
