(* ===== verification/Pages.v ===== *)
(** Moving pages between the target and the dump (memcr.c): which pages of an
    area are saved, the requests to the parasite that save, drop, write back and
    re-protect them, and the loops over areas and over the dump. *)
From stdpp Require Import base list.
From S2P Require Import Prelude Io Compress Dump Target Parasite Link Vmas.

(** * Bits of /proc/pid/pagemap and /proc/kpageflags entries *)

Definition BIT (x : Z) : Z := Z.shiftl 1 x.
Definition PM_PAGE_FRAME_NUMBER_MASK : Z := 0x007fffffffffffff.
Definition PM_PAGE_FILE_OR_SHARED_ANON : Z := 61.
Definition PM_PAGE_SWAPPED : Z := 62.
Definition PM_PAGE_PRESENT : Z := 63.
Definition KPF_UNEVICTABLE : Z := 18.

(** C truth of [x & mask]. *)
Definition has (x mask : Z) : bool := negb (Z.land x mask =? 0).

(** * Which pages are saved *)

(** Options of memcr.c on top of those of the dump. *)
Record mem_cfg := {
  proc_mem : bool;
  rss_file : bool;
}.

(** What the body of the loop of [get_vma_pages] decides to do at a page. *)
Inductive page_action :=
| ANone
| AGet (start len : Z)      (** get_vm_region() *)
| AFree (start len : Z).    (** free_vm_region() *)

#[export] Instance page_action_eq_dec : EqDecision page_action.
Proof. solve_decision. Defined.

(** [region_start] and [region_length]. *)
Definition region : Type := Z * Z.

Section Decide.
Context (ps : Z) (mc : mem_cfg).
(** pread(kpageflags_fd, ..., offset): the 8 bytes read, or a failure. *)
Context (kpageflags : Z -> option Z).

Definition page_unevictable (pfn : Z) : Z :=
  match kpageflags (u64 (pfn * 8)) with
  | None => 0
  | Some flags => if has flags (BIT KPF_UNEVICTABLE) then 1 else 0
  end.

(** The page at [addr] joins the region being collected. *)
Definition region_grow (addr : Z) (r : region) : region :=
  (if r.1 =? 0 then addr else r.1, u64 (r.2 + ps)).

(** The body of the loop for page [idx] with pagemap entry [map]: the action
    and the region variables after a successful action. *)
Definition page_decide (vma : vm_area) (nrpages idx map : Z) (r : region) : page_action * region :=
  let addr := u64 (vma_start vma + idx * ps) in
  if has (vma_flags vma) (Z.lor FLAG_ANON (Z.lor FLAG_HEAP FLAG_STACK)) then
    let flush r := if r.1 =? 0 then (ANone, r) else (AGet r.1 r.2, (0, 0)) in
    if has map (Z.lor (BIT PM_PAGE_PRESENT) (BIT PM_PAGE_SWAPPED)) then
      if has map (BIT PM_PAGE_PRESENT)
         && negb (page_unevictable (Z.land map PM_PAGE_FRAME_NUMBER_MASK) =? 0)
      then (ANone, r)
      else
        let r := region_grow addr r in
        if (idx + 1 <? nrpages) && (r.2 <? MAX_VM_REGION_SIZE) then (ANone, r) else flush r
    else flush r
  else if rss_file mc && has (vma_flags vma) FLAG_FILE then
    let flush r := if r.1 =? 0 then (ANone, r) else (AFree r.1 r.2, (0, 0)) in
    if has map (BIT PM_PAGE_FILE_OR_SHARED_ANON) then
      let r := region_grow addr r in
      if idx + 1 <? nrpages then (ANone, r) else flush r
    else flush r
  else (ANone, r).
End Decide.

(** * The checkpoint of an area *)

(** memcr while it downloads pages: the connection, the dump, the file offset of
    the pagemap descriptor, and what the kernel does to the next reads of
    /proc/pid/mem and of the pagemap ([true]: 8 bytes are read). *)
Record ckpt (T F C : Type) := Ckpt {
  ck_link : link T;
  ck_dump : dump_state F C;
  ck_md_hints : list hint;
  ck_pd_reads : list bool;
  ck_pd_off : Z;
}.
Arguments Ckpt {T F C} _ _ _ _ _.
Arguments ck_link {T F C} _.
Arguments ck_dump {T F C} _.
Arguments ck_md_hints {T F C} _.
Arguments ck_pd_reads {T F C} _.
Arguments ck_pd_off {T F C} _.

(** Kernel answers that do not change while memcr runs. *)
Record kernel := {
  kpageflags : Z -> option Z;
  k_mem_seek : Z -> Z;          (** lseek(md, addr, SEEK_SET) *)
  k_pd_seek : Z -> Z;           (** lseek(pd, off, SEEK_SET) *)
  k_calloc : Z -> bool;         (** calloc() of so many bytes succeeds *)
}.

Section Pages.
Context {T : Type} `{AddrSpace T}.
Context (cfg : dump_cfg) (mc : mem_cfg) (kern : kernel).
Context (lz4 : lz4_api) (zstd : zstd_api).
Context {C : Type} (evp : evp_api C).
Context {F : Type} (dump_read : Z -> F -> run (Z * bytes * F)) (dump_write : bytes -> F -> run (Z * F)).
#[local] Abbreviation ckpt := (ckpt T F C).
#[local] Abbreviation dump_state := (dump_state F C).

Definition set_link (l : link T) (s : ckpt) : ckpt :=
  Ckpt l (ck_dump s) (ck_md_hints s) (ck_pd_reads s) (ck_pd_off s).

Definition ck_as (s : ckpt) : T := p_as (lk_para (ck_link s)).

(** [md] and [pd] are descriptor numbers, -1 when the file is not open. *)
Definition get_vm_region (md addr len : Z) (s : ckpt) : run (Z * ckpt) :=
  let proc_mem_available := proc_mem mc && (-1 <? md) in
  let vmr := VmRegion addr len in
  let! (ret, buf, s) :=
    if proc_mem_available then
      if negb (k_mem_seek kern addr =? addr) then Ret (-1, [], s)
      else
        let! (ret, buf, st) := _read len (Stream (mem_bytes (ck_as s) addr len) (ck_md_hints s)) in
        let s := Ckpt (ck_link s) (ck_dump s) (st_hints st) (ck_pd_reads s) (ck_pd_off s) in
        if negb (u64 ret =? len) then Ret (-1, [], s) else Ret (0, buf, s)
    else Ret (0, [], s) in
  if negb (ret =? 0) then Ret (-1, s)
  else
    let req := ReqMem vmr (if proc_mem_available then 0 else VM_REGION_TX) in
    let! (ret, l) := parasite_write (vm_region_req_bytes req) (ck_link s) in
    let s := set_link l s in
    if negb (u64 ret =? sizeof_vm_region_req) then Ret (-1, s)
    else
      let! (ret, buf, s) :=
        if negb proc_mem_available then
          let! (ret, buf, l) := parasite_read len (ck_link s) in
          let s := set_link l s in
          if negb (u64 ret =? len) then Ret (-1, [], s) else Ret (0, buf, s)
        else Ret (0, buf, s) in
      if negb (ret =? 0) then Ret (-1, s)
      else
        let! (ret, d) := write_vm_region cfg lz4 zstd evp dump_write vmr buf (ck_dump s) in
        Ret (ret, Ckpt (ck_link s) d (ck_md_hints s) (ck_pd_reads s) (ck_pd_off s)).

Definition free_vm_region (addr len : Z) (s : ckpt) : run (Z * ckpt) :=
  let req := ReqMem (VmRegion addr len) 0 in
  let! (ret, l) := parasite_write (vm_region_req_bytes req) (ck_link s) in
  let s := set_link l s in
  if negb (u64 ret =? sizeof_vm_region_req) then Ret (-1, s) else Ret (0, s).

(** read(pd, &map, 8): a read that fails leaves the file offset where it is. *)
Definition pd_read (s : ckpt) : option Z * ckpt :=
  let adv := Ckpt (ck_link s) (ck_dump s) (ck_md_hints s) (tail (ck_pd_reads s)) in
  match ck_pd_reads s with
  | false :: _ => (None, adv (ck_pd_off s))
  | _ => (Some (as_pagemap (ck_as s) (ck_pd_off s / 8)), adv (ck_pd_off s + 8))
  end.

(** The entry of page [idx]: from [pd], or from the buffer the parasite filled. *)
Definition pagemap_entry (pd idx : Z) (map_buf : bytes) (s : ckpt) : option Z * ckpt :=
  if 0 <? pd then pd_read s
  else (Some (le_combine (ztake 8 (zdrop (8 * idx) map_buf))), s).

Definition page_do (md : Z) (a : page_action) (s : ckpt) : run (option Z * ckpt) :=
  match a with
  | ANone => Ret (None, s)
  | AGet start len =>
      let! (ret, s) := get_vm_region md start len s in
      Ret (if ret <=? 0 then Some ret else None, s)
  | AFree start len =>
      let! (ret, s) := free_vm_region start len s in
      Ret (if negb (ret =? 0) then Some ret else None, s)
  end.

(** The loop from page [idx] on, [n] pages left.  A page whose entry cannot be
    read is skipped. *)
Fixpoint pages_loop (n : nat) (pd md : Z) (vma : vm_area) (nrpages idx : Z) (map_buf : bytes)
    (r : region) (s : ckpt) : run (Z * ckpt) :=
  match n with
  | O => Ret (0, s)
  | S n =>
      let '(entry, s) := pagemap_entry pd idx map_buf s in
      match entry with
      | None => pages_loop n pd md vma nrpages (idx + 1) map_buf r s
      | Some map =>
          let '(a, r) := page_decide (page_size cfg) mc (kpageflags kern) vma nrpages idx map r in
          let! (stop, s) := page_do md a s in
          match stop with
          | Some ret => Ret (ret, s)
          | None => pages_loop n pd md vma nrpages (idx + 1) map_buf r s
          end
      end
  end.

Definition get_vma_pages (pd md : Z) (vma : vm_area) (s : ckpt) : run (Z * ckpt) :=
  let nrpages := u64 (vma_end vma - vma_start vma) / page_size cfg in
  let off := u64 (vma_start vma / page_size cfg * 8) in
  if 0 <? pd then
    let off' := k_pd_seek kern off in
    if negb (off' =? off) then Ret (-1, s)
    else
      pages_loop (Z.to_nat nrpages) pd md vma nrpages 0 [] (0, 0)
        (Ckpt (ck_link s) (ck_dump s) (ck_md_hints s) (ck_pd_reads s) off')
  else
    let len := u64 (nrpages * 8) in
    if negb (k_calloc kern len) then Ret (-1, s)
    else if nrpages =? 0 then Ret (0, s)
    else
      (* the request of the first iteration *)
      let! (ret, map_buf, l) := parasite_write_read (ReqPagemap off len) len (ck_link s) in
      let s := set_link l s in
      if negb (u64 ret =? len) then Ret (-1, s)
      else pages_loop (Z.to_nat nrpages) pd md vma nrpages 0 map_buf (0, 0) s.

(** The loop over the areas; [aborted] are the answers of
    [is_checkpoint_aborted], false once the list is used up. *)
Fixpoint vmas_loop (pd md : Z) (aborted : list bool) (vmas : list vm_area) (s : ckpt) : run (Z * ckpt) :=
  match vmas with
  | [] => Ret (0, s)
  | vma :: vmas =>
      if hd false aborted then Ret (0, s)
      else
        let! (ret, s) := get_vma_pages pd md vma s in
        if negb (ret =? 0) then Ret (ret, s)
        else vmas_loop pd md (tail aborted) vmas s
  end.

(** What the kernel answers while [get_target_pages] runs: the descriptors of
    the pagemap and of /proc/pid/mem (-1: open failed), the dump file, the
    connection, and the abort requests. *)
Record get_env := GetEnv {
  ge_pd : Z;
  ge_fd : option F;
  ge_md : Z;
  ge_conn : conn_env;
  ge_md_hints : list hint;
  ge_pd_reads : list bool;
  ge_aborted : list bool;
}.

Definition with_fd (fd : F) (d : dump_state) : dump_state :=
  DumpState fd (d_size d) (d_ckpt d) (d_rest d).

(** The dump state holds the globals; its descriptor is the one just opened. *)
Definition get_target_pages (env : get_env) (vmas : list vm_area) (p : parasite T) (d : dump_state)
    : run (Z * parasite T * dump_state) :=
  match ge_fd env with
  | None => Ret (-1, p, d)
  | Some fd =>
      let d := with_fd fd d in
      let md := if proc_mem mc then ge_md env else -1 in
      if proc_mem mc && (md <? 0) then Ret (-1, p, d)
      else
        match parasite_connect (ge_conn env) p with
        | None => Ret (-1, p, d)
        | Some l =>
            let! (ret, l) := parasite_write (cmd_byte CMD_GET_PAGES) l in
            if negb (ret =? 1) then Ret (-1, link_close l, d)
            else
              let! (ret, s) := vmas_loop (ge_pd env) md (ge_aborted env) vmas
                (Ckpt l d (ge_md_hints env) (ge_pd_reads env) 0) in
              Ret (ret, link_close (ck_link s), ck_dump s)
        end
  end.

(** * Protections *)

Definition target_mprotect (addr len prot : Z) (l : link T) : run (Z * link T) :=
  let! (ret, l) := parasite_write (vm_mprotect_bytes (VmMprotect addr len prot)) l in
  if negb (u64 ret =? sizeof_vm_mprotect) then Ret (-1, l) else Ret (0, l).

(** The loop shared by [target_mprotect_off] and [target_mprotect_on]; [new]
    is the protection they ask for. *)
Fixpoint mprotect_loop (new : Z -> Z) (vmas : list vm_area) (ret : Z) (l : link T) : run (Z * link T) :=
  match vmas with
  | [] => Ret (ret, l)
  | vma :: vmas =>
      if has (vma_prot vma) PROT_READ && has (vma_prot vma) PROT_WRITE
      then mprotect_loop new vmas ret l
      else
        let! (ret, l) :=
          target_mprotect (vma_start vma) (u64 (vma_end vma - vma_start vma)) (new (vma_prot vma)) l in
        if negb (ret =? 0) then Ret (ret, l) else mprotect_loop new vmas ret l
  end.

Definition mprotect_command (new : Z -> Z) (env : conn_env) (vmas : list vm_area) (p : parasite T)
    : run (Z * parasite T) :=
  match parasite_connect env p with
  | None => Ret (-1, p)
  | Some l =>
      let! (ret, l) := parasite_write (cmd_byte CMD_MPROTECT) l in
      if negb (ret =? 1) then Ret (-1, link_close l)
      else
        let! (ret, l) := mprotect_loop new vmas ret l in
        Ret (ret, link_close l)
  end.

Definition target_mprotect_off : conn_env -> list vm_area -> parasite T -> run (Z * parasite T) :=
  mprotect_command (fun prot => Z.lor prot (Z.lor PROT_READ PROT_WRITE)).

Definition target_mprotect_on : conn_env -> list vm_area -> parasite T -> run (Z * parasite T) :=
  mprotect_command (fun prot => prot).

(** * Restoring *)

(** The loop of [target_set_pages]: every round that goes on takes at least one
    byte off [dumped_vm_size], which therefore bounds the rounds.  [vmr] and
    [buf] are the loop's local variables. *)
Fixpoint set_pages_loop (fuel : nat) (vmr : vm_region) (buf : bytes) (l : link T) (d : dump_state)
    : run (Z * link T * dump_state) :=
  match fuel with
  | O => OutOfFuel
  | S fuel =>
      let! (ret, vmr, buf, d) := read_vm_region cfg lz4 zstd evp dump_read vmr buf d in
      if ret <=? 0 then Ret (ret, l, d)
      else
        let! (ret, l) := parasite_write (vm_region_req_bytes (ReqMem vmr 0)) l in
        if negb (u64 ret =? sizeof_vm_region_req) then Ret (-1, l, d)
        else
          let! (ret, l) := parasite_write (ztake (vmr_len vmr) buf) l in
          if negb (ret =? i32 (vmr_len vmr)) then Ret (-1, l, d)
          else set_pages_loop fuel vmr buf l d
  end.

Definition set_pages_fuel (d : dump_state) : nat := S (Z.to_nat (d_size d)).

Record set_env := SetEnv {
  se_fd : option F;
  se_conn : conn_env;
  se_vmr : vm_region;     (** what the local variables hold before the loop *)
  se_buf : bytes;
}.

Definition target_set_pages (env : set_env) (p : parasite T) (d : dump_state)
    : run (Z * parasite T * dump_state) :=
  match se_fd env with
  | None => Ret (-1, p, d)
  | Some fd =>
      let d := with_fd fd d in
      match parasite_connect (se_conn env) p with
      | None => Ret (-1, p, d)
      | Some l =>
          let! (ret, l) := parasite_write (cmd_byte CMD_SET_PAGES) l in
          if negb (ret =? 1) then Ret (-1, link_close l, d)
          else
            let! (ret, l, d) := set_pages_loop (set_pages_fuel d) (se_vmr env) (se_buf env) l d in
            Ret (ret, link_close l, d)
      end
  end.

Definition target_cmd_end (env : conn_env) (p : parasite T) : run (Z * parasite T) :=
  match parasite_connect env p with
  | None => Ret (-1, p)
  | Some l =>
      let! (ret, l) := parasite_write (cmd_byte CMD_END) l in
      Ret (if negb (ret =? 1) then -1 else ret, link_close l)
  end.
End Pages.
