(* ===== verification/PageFacts.v ===== *)
(** Which pages [get_vma_pages] saves and drops: the regions it forms are page
    aligned, bounded, disjoint and ascending for every pagemap; when no page is
    unevictable they cover exactly the pages the pagemap selects. *)
From stdpp Require Import base list.
From S2P Require Import Prelude Dump Target Parasite Link Vmas Pages.
#[local] Set Warnings "-clear-no-such-hyp".

(** The actions of the loop on a sequence of pagemap entries. *)
Fixpoint decide_all (ps : Z) (mc : mem_cfg) (kpf : Z -> option Z) (vma : vm_area)
    (nrpages idx : Z) (entries : list Z) (r : region) : list page_action :=
  match entries with
  | [] => []
  | map :: entries =>
      let '(a, r) := page_decide ps mc kpf vma nrpages idx map r in
      a :: decide_all ps mc kpf vma nrpages (idx + 1) entries r
  end.

Definition is_anon (vma : vm_area) : bool :=
  has (vma_flags vma) (Z.lor FLAG_ANON (Z.lor FLAG_HEAP FLAG_STACK)).

(** The pagemap entry makes the page one to save or to drop. *)
Definition selected (mc : mem_cfg) (vma : vm_area) (map : Z) : bool :=
  if is_anon vma then has map (Z.lor (BIT PM_PAGE_PRESENT) (BIT PM_PAGE_SWAPPED))
  else rss_file mc && has (vma_flags vma) FLAG_FILE && has map (BIT PM_PAGE_FILE_OR_SHARED_ANON).

Definition unevictable (kpf : Z -> option Z) (map : Z) : bool :=
  has map (BIT PM_PAGE_PRESENT)
  && negb (page_unevictable kpf (Z.land map PM_PAGE_FRAME_NUMBER_MASK) =? 0).

(** The addresses of the pages of a region. *)
Definition region_pages (ps start len : Z) : list Z :=
  map (fun i => start + Z.of_nat i * ps) (seq 0 (Z.to_nat (len / ps))).

Definition action_pages (ps : Z) (a : page_action) : list Z :=
  match a with
  | ANone => []
  | AGet s l | AFree s l => region_pages ps s l
  end.

(** The addresses of the selected pages from page [idx] on. *)
Fixpoint selected_pages (ps : Z) (mc : mem_cfg) (vma : vm_area) (idx : Z) (entries : list Z) : list Z :=
  match entries with
  | [] => []
  | map :: entries =>
      (if selected mc vma map then [vma_start vma + idx * ps] else [])
      ++ selected_pages ps mc vma (idx + 1) entries
  end.

(** An area as the kernel lists it. *)
Definition vma_ok (ps : Z) (vma : vm_area) : Prop :=
  0 < vma_start vma /\ vma_start vma <= vma_end vma /\ vma_end vma < 2 ^ 63
  /\ vma_start vma mod ps = 0 /\ vma_end vma mod ps = 0.

Section Decide.
Context (ps : Z) (mc : mem_cfg) (kpf : Z -> option Z) (vma : vm_area) (nrpages : Z).
Context (Hps : page_size_ok ps) (Hvma : vma_ok ps vma)
  (Hn : vma_start vma + nrpages * ps <= vma_end vma).

(** The region variables at page address [cur], the last region emitted having
    ended at or before [lo]. *)
Definition region_inv (lo cur : Z) (r : region) : Prop :=
  r = (0, 0) \/
  (lo <= r.1 /\ 0 < r.1 /\ r.1 mod ps = 0 /\ 0 < r.2 /\ r.2 mod ps = 0 /\ r.1 + r.2 <= cur
   /\ (is_anon vma = true -> r.2 < MAX_VM_REGION_SIZE)).

Definition action_ok (lo cur : Z) (a : page_action) : Prop :=
  match a with
  | ANone => True
  | AGet s l =>
      is_anon vma = true /\ l <= MAX_VM_REGION_SIZE /\
      lo <= s /\ 0 < s /\ s mod ps = 0 /\ 0 < l /\ l mod ps = 0 /\ s + l <= cur
  | AFree s l =>
      is_anon vma = false /\
      lo <= s /\ 0 < s /\ s mod ps = 0 /\ 0 < l /\ l mod ps = 0 /\ s + l <= cur
  end.

Lemma multiple_gap a b : a mod ps = 0 -> b mod ps = 0 -> a < b -> a + ps <= b.
Proof.
  intros Ha Hb Hlt. pose proof (page_size_pos ps Hps).
  apply Z.mod_divide in Ha as [k ->], Hb as [m ->]; [|lia..].
  assert (k < m) by nia. nia.
Qed.

Lemma add_mod_0 a b : a mod ps = 0 -> b mod ps = 0 -> (a + b) mod ps = 0.
Proof. intros Ha Hb. rewrite Z.add_mod, Ha, Hb by (pose proof (page_size_pos ps Hps); lia). done. Qed.

Lemma max_mod : MAX_VM_REGION_SIZE mod ps = 0.
Proof. apply Z.mod_divide; [pose proof (page_size_pos ps Hps); lia|]. by apply page_size_divides. Qed.

(** The page at [cur] joins the region. *)
Lemma region_grow_inv lo cur r :
  region_inv lo cur r -> lo <= cur -> 0 < cur -> cur mod ps = 0 -> cur + ps < 2 ^ 63 ->
  let r' := region_grow ps cur r in
  lo <= r'.1 /\ 0 < r'.1 /\ r'.1 mod ps = 0 /\ 0 < r'.2 /\ r'.2 mod ps = 0
  /\ r'.1 + r'.2 <= cur + ps /\ (is_anon vma = true -> r'.2 <= MAX_VM_REGION_SIZE).
Proof.
  intros Hr Hlo Hcur Hmod Hb. pose proof (page_size_pos ps Hps) as Hp.
  assert (Hpp : ps mod ps = 0) by (apply Z.mod_same; lia).
  unfold region_grow. destruct Hr as [->|(H1 & H2 & H3 & H4 & H5 & H6 & H7)]; simpl.
  - rewrite u64_small by (unfold is_u64; lia).
    pose proof (Z.divide_pos_le ps MAX_VM_REGION_SIZE ltac:(done) (page_size_divides ps Hps)).
    split_and!; try done; lia.
  - rewrite u64_small by (unfold is_u64; lia). rewrite (proj2 (Z.eqb_neq _ _)) by lia.
    split_and!; try done; try lia; [by apply add_mod_0|].
    intros Ha. apply multiple_gap; [done|apply max_mod|auto].
Qed.

Lemma page_decide_inv lo idx entry r a r' :
  0 <= idx < nrpages ->
  let cur := vma_start vma + idx * ps in
  region_inv lo cur r -> lo <= cur ->
  page_decide ps mc kpf vma nrpages idx entry r = (a, r') ->
  action_ok lo (cur + ps) a /\
  match a with
  | ANone => region_inv lo (cur + ps) r'
  | _ => r' = (0, 0)
  end.
Proof.
  intros Hidx cur Hr Hlo. destruct Hvma as (V1 & V2 & V3 & V4 & V5).
  pose proof (page_size_pos ps Hps) as Hp.
  assert (Hcur : vma_start vma <= cur /\ cur + ps <= vma_end vma) by (unfold cur; nia).
  assert (Hcmod : cur mod ps = 0) by (unfold cur; rewrite Z.mod_add by lia; done).
  assert (Hgrow := region_grow_inv lo cur r Hr Hlo ltac:(lia) Hcmod ltac:(lia)). cbv zeta in Hgrow.
  assert (Hup : region_inv lo (cur + ps) r)
    by (destruct Hr as [->|(? & ? & ? & ? & ? & ? & ?)]; [by left|right; split_and!; try done; lia]).
  unfold page_decide. fold (is_anon vma). rewrite u64_small by (unfold is_u64; lia).
  fold cur. destruct (is_anon vma) eqn:Ea.
  - assert (Hflush : forall q, region_inv lo (cur + ps) q \/
        (lo <= q.1 /\ 0 < q.1 /\ q.1 mod ps = 0 /\ 0 < q.2 /\ q.2 mod ps = 0
         /\ q.1 + q.2 <= cur + ps /\ q.2 <= MAX_VM_REGION_SIZE) ->
        (if q.1 =? 0 then (ANone, q) else (AGet q.1 q.2, (0, 0))) = (a, r') ->
        action_ok lo (cur + ps) a /\ match a with ANone => region_inv lo (cur + ps) r' | _ => r' = (0, 0) end).
    { intros q Hq. case_match; tests; intros [= <- <-]; simpl.
      - split; [done|]. destruct Hq as [Hq|Hq]; [done|lia].
      - split; [|done]. destruct Hq as [[->|Hq]|Hq]; [done|naive_solver lia|naive_solver lia]. }
    destruct (has entry _) eqn:Es; [|apply Hflush; by left].
    destruct (has entry _ && _) eqn:Eu; [by intros [= <- <-]|].
    destruct ((idx + 1 <? nrpages) && _) eqn:El; tests.
    + intros [= <- <-]. split; [done|]. right. rewrite Ea. naive_solver lia.
    + apply Hflush. right. naive_solver.
  - destruct (rss_file mc && _); [|by intros [= <- <-]].
    assert (Hflush : forall q, region_inv lo (cur + ps) q ->
        (if q.1 =? 0 then (ANone, q) else (AFree q.1 q.2, (0, 0))) = (a, r') ->
        action_ok lo (cur + ps) a /\ match a with ANone => region_inv lo (cur + ps) r' | _ => r' = (0, 0) end).
    { intros q Hq. case_match; tests; intros [= <- <-]; simpl; [done|].
      split; [|done]. destruct Hq as [->|Hq]; [done|naive_solver lia]. }
    assert (Hg : region_inv lo (cur + ps) (region_grow ps cur r)) by (right; rewrite Ea; naive_solver).
    destruct (has entry _); [|by apply Hflush].
    destruct (idx + 1 <? nrpages); [by intros [= <- <-]|by apply Hflush].
Qed.

(** ** Exactness when every page can be evicted *)

Definition pending (r : region) : list Z :=
  if r.1 =? 0 then [] else region_pages ps r.1 r.2.

Definition handled : bool := is_anon vma || (rss_file mc && has (vma_flags vma) FLAG_FILE).

(** The region being collected ends right before page address [cur]. *)
Definition region_tight (cur : Z) (r : region) : Prop :=
  r = (0, 0) \/
  (handled = true /\ 0 < r.1 /\ 0 < r.2 /\ r.2 mod ps = 0 /\ r.1 + r.2 = cur
   /\ (is_anon vma = true -> r.2 < MAX_VM_REGION_SIZE)).

Lemma region_pages_snoc s l :
  0 <= l -> l mod ps = 0 -> region_pages ps s (l + ps) = region_pages ps s l ++ [s + l].
Proof.
  intros Hl Hm. pose proof (page_size_pos ps Hps) as Hp. unfold region_pages.
  replace ((l + ps) / ps) with (l / ps + 1)
    by (rewrite <- (Z.mul_1_l ps) at 2; rewrite Z.div_add by lia; lia).
  pose proof (Z.div_pos l ps Hl ltac:(lia)).
  rewrite Z2Nat.inj_add, seq_app, map_app by lia. simpl. do 3 f_equal.
  rewrite Z2Nat.id by lia. apply Z.mod_divide in Hm as [k ->]; [|lia]. by rewrite Z.div_mul by lia.
Qed.

Lemma pending_grow cur r :
  region_tight cur r -> 0 < cur -> cur + ps < 2 ^ 63 ->
  let r' := region_grow ps cur r in
  pending r' = pending r ++ [cur] /\ 0 < r'.1 /\ 0 < r'.2 /\ r'.2 mod ps = 0
  /\ r'.1 + r'.2 = cur + ps.
Proof.
  intros Hr Hc Hb. pose proof (page_size_pos ps Hps) as Hp. unfold region_grow, pending.
  destruct Hr as [->|(_ & H1 & H2 & H3 & H4 & _)]; simpl.
  - rewrite u64_small by (unfold is_u64; lia). rewrite (proj2 (Z.eqb_neq cur 0)) by lia.
    split_and!; try lia; [|apply Z.mod_same; lia].
    rewrite (region_pages_snoc cur 0) by (done || lia). unfold region_pages. simpl. by rewrite Z.add_0_r.
  - rewrite u64_small by (unfold is_u64; lia). rewrite (proj2 (Z.eqb_neq r.1 0)) by lia.
    rewrite (proj2 (Z.eqb_neq r.1 0)) by lia.
    split_and!; try lia; [|apply add_mod_0; [done|apply Z.mod_same; lia]].
    rewrite region_pages_snoc by lia. by rewrite H4.
Qed.

Lemma page_decide_exact idx entry r a r' :
  0 <= idx < nrpages ->
  let cur := vma_start vma + idx * ps in
  region_tight cur r -> (is_anon vma = true -> unevictable kpf entry = false) ->
  page_decide ps mc kpf vma nrpages idx entry r = (a, r') ->
  action_pages ps a ++ pending r' = pending r ++ (if selected mc vma entry then [cur] else [])
  /\ region_tight (cur + ps) r' /\ (idx + 1 = nrpages -> r' = (0, 0)).
Proof.
  intros Hidx cur Hr Hev. destruct Hvma as (V1 & V2 & V3 & V4 & V5).
  pose proof (page_size_pos ps Hps) as Hp.
  assert (Hcur : vma_start vma <= cur /\ cur + ps <= vma_end vma) by (unfold cur; nia).
  destruct (pending_grow cur r Hr) as (Hpend & G1 & G2 & G3 & G4); [lia..|].
  assert (Hmax : is_anon vma = true -> (region_grow ps cur r).2 <= MAX_VM_REGION_SIZE).
  { intros Ha. unfold region_grow; simpl. destruct Hr as [->|(_ & H1 & H2 & H3 & H4 & H5)]; simpl;
      rewrite u64_small by (unfold is_u64; lia); [|apply multiple_gap; [done|apply max_mod|auto]].
    apply (Z.divide_pos_le ps MAX_VM_REGION_SIZE ltac:(done) (page_size_divides ps Hps)). }
  (* a flush turns the pending pages into one action *)
  assert (Hflush : forall act q, (forall s l, action_pages ps (act s l) = region_pages ps s l) ->
      0 < q.1 \/ q = (0, 0) ->
      (if q.1 =? 0 then (ANone, q) else (act q.1 q.2, (0, 0))) = (a, r') ->
      action_pages ps a ++ pending r' = pending q /\ r' = (0, 0)).
  { intros act q Hact Hq. unfold pending. destruct Hq as [Hq| ->]; [|by intros [= <- <-]].
    rewrite (proj2 (Z.eqb_neq q.1 0)) by lia. intros [= <- <-]. by rewrite Hact, app_nil_r. }
  assert (Hq : 0 < r.1 \/ r = (0, 0)) by (destruct Hr as [->|(_ & H1 & _)]; auto).
  unfold page_decide, selected, handled in *. fold (is_anon vma). rewrite u64_small by (unfold is_u64; lia).
  fold cur. unfold region_tight, handled. destruct (is_anon vma) eqn:Ea; cbn [orb].
  - specialize (Hev eq_refl). unfold unevictable in Hev. rewrite Hev.
    destruct (has entry (Z.lor (BIT PM_PAGE_PRESENT) (BIT PM_PAGE_SWAPPED))) eqn:Es; [|intros E; apply (Hflush AGet) in E as [E1 ->]; rewrite ?E1, ?app_nil_r; auto].
    destruct ((idx + 1 <? nrpages) && _) eqn:El; tests.
    + intros [= <- <-]. split; [done|]. split; [|lia]. right. split_and!; auto; lia.
    + intros E; apply (Hflush AGet) in E as [E1 ->]; rewrite ?E1; auto.
  - destruct (rss_file mc && has (vma_flags vma) FLAG_FILE) eqn:Ef; cbn [andb].
    + destruct (has entry (BIT PM_PAGE_FILE_OR_SHARED_ANON)) eqn:Es; [|intros E; apply (Hflush AFree) in E as [E1 ->]; rewrite ?E1, ?app_nil_r; auto].
      destruct (idx + 1 <? nrpages) eqn:El; tests.
      * intros [= <- <-]. split; [done|]. split; [|lia]. right. split_and!; auto; done.
      * intros E; apply (Hflush AFree) in E as [E1 ->]; rewrite ?E1; auto.
    + intros [= <- <-]. unfold region_tight, handled in Hr. rewrite Ea, Ef in Hr.
      destruct Hr as [->|[? _]]; [|done]. rewrite app_nil_r. auto.
Qed.

Lemma decide_all_exact idx entries r :
  0 <= idx -> idx + blen entries = nrpages ->
  region_tight (vma_start vma + idx * ps) r -> (idx = nrpages -> r = (0, 0)) ->
  Forall (fun e => is_anon vma = true -> unevictable kpf e = false) entries ->
  flat_map (action_pages ps) (decide_all ps mc kpf vma nrpages idx entries r)
    = pending r ++ selected_pages ps mc vma idx entries.
Proof.
  revert idx r. induction entries as [|e entries IH]; intros idx r Hi Hlen Hr Hend Hev; simpl.
  - rewrite Hend by (rewrite blen_nil in Hlen; lia). done.
  - inversion_clear Hev. rewrite blen_cons in Hlen. pose proof (blen_nonneg entries).
    destruct (page_decide _ _ _ _ _ _ _ _) as [a r'] eqn:E.
    apply page_decide_exact in E as (Hact & Hr' & Hend'); [|lia|done..].
    simpl. rewrite IH; [|lia|lia| |intros; apply Hend'; lia|done].
    + by rewrite app_assoc, Hact, <- app_assoc.
    + replace (vma_start vma + (idx + 1) * ps) with (vma_start vma + idx * ps + ps) by lia. done.
Qed.
End Decide.

(** C5: [get_vma_pages] saves or drops exactly the pages it selects: when no
    selected page of the area is unevictable, the regions it forms, taken in
    order and page by page, are the selected pages of the area in address
    order, each once. *)
Theorem regions_cover ps mc kpf vma entries :
  page_size_ok ps -> vma_ok ps vma ->
  vma_start vma + blen entries * ps = vma_end vma ->
  Forall (fun e => unevictable kpf e = false) entries ->
  flat_map (action_pages ps) (decide_all ps mc kpf vma (blen entries) 0 entries (0, 0))
    = selected_pages ps mc vma 0 entries.
Proof.
  intros Hps Hv Hn Hev. rewrite decide_all_exact; try done; [lia|by left|].
  eapply Forall_impl; [done|]. auto.
Qed.

Lemma action_ok_weaken ps vma lo cur cur' a :
  action_ok ps vma lo cur a -> cur <= cur' -> action_ok ps vma lo cur' a.
Proof. destruct a; simpl; [done|intuition lia..]. Qed.

Lemma decide_all_ok ps mc kpf vma nrpages idx entries r lo :
  page_size_ok ps -> vma_ok ps vma -> vma_start vma + nrpages * ps <= vma_end vma ->
  0 <= idx -> idx + blen entries <= nrpages ->
  lo <= vma_start vma + idx * ps -> vma_start vma <= lo ->
  region_inv ps vma lo (vma_start vma + idx * ps) r ->
  forall before a after,
    decide_all ps mc kpf vma nrpages idx entries r = before ++ a :: after ->
    action_ok ps vma lo (vma_end vma) a.
Proof.
  intros Hps Hv Hn. revert idx r. induction entries as [|e entries IH];
    intros idx r Hi Hlen Hlo Hlo2 Hr before a after; [by destruct before|].
  rewrite blen_cons in Hlen. pose proof (blen_nonneg entries). pose proof (page_size_pos ps Hps).
  simpl. destruct (page_decide _ _ _ _ _ _ _ _) as [a0 r0] eqn:E.
  apply (page_decide_inv ps mc kpf vma nrpages Hps Hv Hn lo) in E as [Hact Hr']; [|lia|done|lia].
  assert (vma_start vma + idx * ps + ps <= vma_end vma) by nia.
  destruct before as [|b before]; intros [= -> Eq].
  - by apply (action_ok_weaken _ _ _ (vma_start vma + idx * ps + ps)).
  - apply IH in Eq; [done|lia|lia|nia|lia|].
    replace (vma_start vma + (idx + 1) * ps) with (vma_start vma + idx * ps + ps) by lia.
    destruct b; [done|subst r0; by left..].
Qed.

(** C21: for every pagemap, unevictable pages included, the regions
    [get_vma_pages] asks the parasite to save or drop lie inside the area, are
    page aligned and whole pages long, and a region to save is at most
    [MAX_VM_REGION_SIZE] bytes: it fits the buffer of [get_vm_region]. *)
Theorem regions_bounded ps mc kpf vma entries start len :
  page_size_ok ps -> vma_ok ps vma ->
  vma_start vma + blen entries * ps = vma_end vma ->
  let acts := decide_all ps mc kpf vma (blen entries) 0 entries (0, 0) in
  (AGet start len ∈ acts \/ AFree start len ∈ acts) ->
  vma_start vma <= start /\ start + len <= vma_end vma /\ 0 < len
  /\ start mod ps = 0 /\ len mod ps = 0
  /\ (AGet start len ∈ acts -> len <= MAX_VM_REGION_SIZE).
Proof.
  intros Hps Hv Hn acts Hin.
  assert (Hok : forall a, a ∈ acts -> action_ok ps vma (vma_start vma) (vma_end vma) a).
  { intros a (before & after & E)%list_elem_of_split.
    apply (decide_all_ok ps mc kpf vma (blen entries) 0 entries (0, 0) (vma_start vma)) with before after;
      try done; try lia. by left. }
  destruct Hin as [Hin|Hin]; specialize (Hok _ Hin) as Ha; simpl in Ha.
  - intuition lia.
  - split_and!; try (intuition lia). intros Hg. apply Hok in Hg. simpl in Hg. intuition congruence.
Qed.

(** An unevictable page in the middle of a run is not left out of the run:
    the page counts as skipped, but the region keeps growing from its start, so
    it covers the unevictable page and misses the last page of the run. *)
Theorem unevictable_page_misplaces_region ps mc kpf start prot e1 e2 e3 :
  page_size_ok ps -> ps < MAX_VM_REGION_SIZE ->
  let vma := VmArea start (start + 3 * ps) prot FLAG_ANON in
  vma_ok ps vma ->
  selected mc vma e1 = true -> selected mc vma e2 = true -> selected mc vma e3 = true ->
  unevictable kpf e1 = false -> unevictable kpf e2 = true -> unevictable kpf e3 = false ->
  decide_all ps mc kpf vma 3 0 [e1; e2; e3] (0, 0) = [ANone; ANone; AGet start (2 * ps)].
Proof.
  intros Hps Hlt vma (V1 & V2 & V3 & V4 & V5) S1 S2 S3 U1 U2 U3.
  pose proof (page_size_pos ps Hps). assert (Ha : is_anon vma = true) by done.
  unfold unevictable, selected in *. rewrite Ha in *. cbn [decide_all].
  unfold page_decide. fold (is_anon vma). rewrite Ha, S1, S2, S3, U1, U2, U3.
  unfold region_grow. cbn [fst snd Z.eqb vma_start vma_end vma] in *.
  rewrite Z.mul_0_l, Z.add_0_r, !u64_small by (unfold is_u64; lia).
  change (0 + 1 <? 3) with true. rewrite (proj2 (Z.ltb_lt (0 + ps) _)) by lia. cbn [andb fst snd].
  rewrite (proj2 (Z.eqb_neq start 0)) by lia.
  change (0 + 1 + 1 + 1 <? 3) with false. cbn [andb].
  rewrite (proj2 (Z.eqb_neq start 0)), u64_small by (unfold is_u64; lia). do 4 f_equal. lia.
Qed.

(** * Witnesses *)

(** Page frame 5 is unevictable. *)
Definition kpf5 (off : Z) : option Z := Some (if off =? 40 then BIT KPF_UNEVICTABLE else 0).

Definition present (pfn : Z) : Z := Z.lor (BIT PM_PAGE_PRESENT) pfn.

Lemma page4_ok : page_size_ok 4096.
Proof. exists 12. split; [lia|reflexivity]. Qed.

Definition area4 (flags : Z) : vm_area := VmArea 8192 24576 3 flags.

Lemma regions_cover_witness :
  flat_map (action_pages 4096)
    (decide_all 4096 {| proc_mem := false; rss_file := false |} kpf5 (area4 FLAG_HEAP) 4 0
       [present 1; 0; BIT PM_PAGE_SWAPPED; present 2] (0, 0))
  = [8192; 16384; 20480].
Proof.
  apply (regions_cover 4096 {| proc_mem := false; rss_file := false |} kpf5 (area4 FLAG_HEAP)
    [present 1; 0; BIT PM_PAGE_SWAPPED; present 2]).
  - apply page4_ok.
  - ground.
  - ground.
  - repeat constructor.
Defined.

Lemma regions_bounded_witness :
  8192 <= 8192 /\ 8192 + 4096 <= 24576 /\ 0 < 4096 /\ 8192 mod 4096 = 0 /\ 4096 mod 4096 = 0
  /\ (AGet 8192 4096 ∈ decide_all 4096 {| proc_mem := false; rss_file := false |} kpf5 (area4 FLAG_HEAP) 4 0
         [present 1; 0; present 5; 0] (0, 0) -> 4096 <= MAX_VM_REGION_SIZE).
Proof.
  apply (regions_bounded 4096 {| proc_mem := false; rss_file := false |} kpf5 (area4 FLAG_HEAP)
    [present 1; 0; present 5; 0] 8192 4096).
  - apply page4_ok.
  - ground.
  - ground.
  - left. vm_compute. right. left.
Defined.

Lemma unevictable_page_misplaces_region_witness :
  decide_all 4096 {| proc_mem := false; rss_file := false |} kpf5 (VmArea 8192 (8192 + 3 * 4096) 3 FLAG_ANON) 3 0
    [present 1; present 5; present 2] (0, 0) = [ANone; ANone; AGet 8192 (2 * 4096)].
Proof.
  apply (unevictable_page_misplaces_region 4096 {| proc_mem := false; rss_file := false |} kpf5 8192 3);
    first [apply page4_ok | ground].
Defined.
