(* ===== verification/Serve.v ===== *)
(** One request of memcr against the service, seen from memcr: what the link
    holds after a request was written and its answer read, when the kernel
    grants what the service asks for. *)
From stdpp Require Import base list.
From S2P Require Import Prelude Io Dump Target Parasite Link Vmas Pages.
#[local] Set Warnings "-clear-no-such-hyp".

(** ** Encodings survive the request buffer *)

Lemma overlay_prefix_take (a b : bytes) n : 0 <= n <= blen a -> ztake n (overlay a b) = ztake n a.
Proof. intros H. unfold overlay. by rewrite ztake_app_le by lia. Qed.

Lemma overlay_field (a b : bytes) k n :
  0 <= k -> 0 <= n -> k + n <= blen a -> ztake n (zdrop k (overlay a b)) = ztake n (zdrop k a).
Proof. intros. unfold overlay. rewrite zdrop_app_le, ztake_app_le by blia. done. Qed.

Lemma blen_vm_region_req_bytes r : blen (vm_region_req_bytes r) = 28.
Proof. destruct r; cbn [vm_region_req_bytes]; blia. Qed.
#[export] Hint Rewrite blen_vm_region_req_bytes : blen.

Lemma blen_vm_mprotect_bytes m : blen (vm_mprotect_bytes m) = 24.
Proof. unfold vm_mprotect_bytes; blia. Qed.
#[export] Hint Rewrite blen_vm_mprotect_bytes : blen.

Lemma le_combine_1 z : 0 <= z < 256 -> le_combine (ztake 1 (le_split 8 z)) = z.
Proof.
  intros H. change (ztake 1 (le_split 8 z)) with (le_split 1 z).
  rewrite le_combine_split. apply Z.mod_small. simpl. lia.
Qed.

Definition req_ok (r : vm_region_req) : Prop :=
  match r with
  | ReqMem vmr flags => vm_region_ok vmr /\ 0 <= flags < 256
  | ReqPagemap seek len => is_u64 seek /\ is_u64 len
  end.

Lemma vm_region_req_of_bytes r old :
  req_ok r -> vm_region_req_of (overlay (vm_region_req_bytes r) old) = r.
Proof.
  intros Hr. unfold vm_region_req_of. rewrite !overlay_field, !overlay_prefix_take by blia.
  destruct r as [vmr flags|seek len]; cbn [vm_region_req_bytes req_ok] in *.
  - destruct Hr as [Hv Hf].
    assert (E : zdrop 24 (vm_region_bytes vmr ++ le_split 8 (u8 flags) ++ le_split 4 REGION_REQ_MEM)
      = le_split 4 REGION_REQ_MEM)
      by (rewrite app_assoc; apply zdrop_app_exact; blia).
    rewrite E, (ztake_all 4), le_combine_split_4 by (done || blia).
    change (REGION_REQ_MEM =? REGION_REQ_PAGEMAP) with false. cbn match.
    rewrite ztake_app_exact, zdrop_app_exact, ztake_app_le, vm_region_of_bytes by (done || blia).
    f_equal. unfold u8. rewrite Z.mod_small by lia. by apply le_combine_1.
  - destruct Hr as [Hs Hl].
    assert (E : zdrop 24 (le_split 8 seek ++ le_split 8 len ++ le_split 8 0 ++ le_split 4 REGION_REQ_PAGEMAP)
      = le_split 4 REGION_REQ_PAGEMAP)
      by (rewrite !app_assoc; apply zdrop_app_exact; blia).
    rewrite E, (ztake_all 4), le_combine_split_4 by (done || blia).
    change (REGION_REQ_PAGEMAP =? REGION_REQ_PAGEMAP) with true. cbn match.
    rewrite ztake_app_exact, zdrop_app_exact, ztake_app_exact by blia. by rewrite !le_combine_split_8.
Qed.

Lemma vm_mprotect_of_bytes m old :
  is_u64 (mp_addr m) -> is_u64 (mp_len m) -> is_u64 (mp_prot m) ->
  vm_mprotect_of (overlay (vm_mprotect_bytes m) old) = m.
Proof.
  intros Ha Hl Hp. unfold vm_mprotect_of. rewrite !overlay_field, !overlay_prefix_take by blia.
  destruct m as [a l p]; unfold vm_mprotect_bytes; cbn [mp_addr mp_len mp_prot] in *.
  assert (E : zdrop 16 (le_split 8 a ++ le_split 8 l ++ le_split 8 p) = le_split 8 p)
    by (rewrite app_assoc; apply zdrop_app_exact; blia).
  rewrite E, ztake_app_exact, zdrop_app_exact, ztake_app_exact, ztake_all by blia.
  by rewrite !le_combine_split_8.
Qed.

(** ** The service between two requests *)

Section Serve.
Context {T : Type} `{AddrSpace T}.
Implicit Types p : parasite T.

(** The service waits in mode [m] for the next request of an open connection,
    everything sent was received, and the socket behaves. *)
Definition serving (m : pmode) (l : link T) : Prop :=
  p_mode (lk_para l) = m /\ p_in (lk_para l) = [] /\ p_out (lk_para l) = []
  /\ p_closed (lk_para l) = false /\ Forall link_benign (lk_hints l).

Definition waiting (m : pmode) : bool :=
  match m with PCommand | PMprotect | PGetPages | PSetPages => true | _ => false end.

Lemma waiting_rests p : waiting (p_mode p) = true -> p_in p = [] -> p_closed p = false -> parasite_run p = p.
Proof.
  intros Hm Hi Hc. apply parasite_run_blocked. unfold parasite_step.
  destruct (p_mode p); rewrite ?command_loop_eq by done; by rewrite ?Hi, ?Hc.
Qed.

Lemma serving_ready m l : serving m l -> waiting m = true -> link_ready l.
Proof.
  intros (Hm & Hi & Ho & Hc & Hh) Hw. split_and!; [done| |unfold alive; rewrite Hm; by destruct m|done].
  apply waiting_rests; by rewrite ?Hm.
Qed.

(** A command opens its loop. *)
Lemma serve_command env p cmd m :
  env_ok env -> at_accept p -> handle_connection cmd = set_mode (T := T) m -> waiting m = true -> 0 <= cmd < 256 ->
  exists l, parasite_connect env p = Some (Link (accept p) (ce_hints env))
    /\ parasite_write (cmd_byte cmd) (Link (accept p) (ce_hints env)) = Ret (1, l)
    /\ serving m l /\ p_as (lk_para l) = p_as p /\ p_fpage (lk_para l) = p_fpage p.
Proof.
  intros He Hat Hh Hw Hcmd.
  assert (Hrun : parasite_run (feed (cmd_byte cmd) (accept p))
    = Parasite m [] false [] (p_req p) (p_fpage p) (p_as p)).
  { rewrite accept_at by done. erewrite parasite_run_step; [apply waiting_rests; try done|].
    cbn [parasite_step p_mode feed p_in app cmd_byte]. rewrite byte.unsigned_of_Z.
    unfold byte.wrap. rewrite Z.mod_small by lia. by rewrite Hh. }
  destruct (parasite_write_ok (cmd_byte cmd) (Link (accept p) (ce_hints env))) as (l & E & El & Hl).
  - by apply accept_ready.
  - done.
  - cbn [lk_para]. rewrite Hrun. unfold alive. simpl. by destruct m.
  - exists l. split; [by apply parasite_connect_ok, at_accept_alive|]. split; [exact E|].
    cbn [lk_para] in El. rewrite Hrun in El. unfold serving. rewrite El.
    destruct Hl as (_ & _ & _ & ?). done.
Qed.

(** A request whose execution leaves the service in its loop. *)
Lemma serve_request l m size body req p' :
  serving m l -> waiting m = true ->
  (forall p, p_mode p = m -> parasite_step p = command_loop size body p) ->
  blen req = size -> 0 < size < 2 ^ 31 ->
  (let p := lk_para l in
   body (overlay req (p_req p)) (Parasite m [] false [] (overlay req (p_req p)) (p_fpage p) (p_as p)) = p') ->
  p_mode p' = m -> p_in p' = [] -> p_closed p' = false ->
  exists l', parasite_write req l = Ret (size, l') /\ lk_para l' = p' /\ link_ready l'.
Proof.
  intros Hs Hw Hstep Hreq Hsize Hbody Hm Hi Hc.
  assert (Hready := serving_ready m l Hs Hw). destruct Hs as (Hlm & Hli & Hlo & Hlc & Hlh).
  assert (Hrun : parasite_run (feed req (lk_para l)) = p').
  { erewrite parasite_run_step.
    - apply waiting_rests; by rewrite ?Hm.
    - rewrite Hstep by done. rewrite (command_loop_whole size body _ req); [|lia|by cbn; rewrite Hli|done].
      cbn. rewrite Hlm, Hlc, Hlo. by rewrite <- Hbody. }
  destruct (parasite_write_ok req l) as (l' & E & El & Hl'); [done|lia| |].
  - rewrite Hrun. unfold alive. rewrite Hm. by destruct m.
  - rewrite Hreq in E. exists l'. rewrite El, Hrun. done.
Qed.
End Serve.

(** ** The requests *)

Section Requests.
Context {T : Type} `{AddrSpace T} (ps : Z) `{!AddrSpaceSpec T ps}.
Implicit Types p : parasite T.

(** The pages of a range were dropped: [t'] is [t] with them replaced. *)
Definition drops (a n : Z) (t t' : T) : Prop :=
  (forall x, as_byte t' x = if in_rangeb a n x then as_dropped t x else as_byte t x)
  /\ same_prot t' t /\ (forall x, as_dropped t' x = as_dropped t x)
  /\ (forall x, as_locked t' x = as_locked t x)
  /\ (forall pg, ~ in_range a n (pg * ps) -> as_pagemap t' pg = as_pagemap t pg).

Definition droppable (t : T) (v : vm_region) : Prop :=
  vm_region_ok v /\ vmr_addr v mod ps = 0 /\ vmr_len v mod ps = 0 /\ 0 < vmr_len v
  /\ forall x, in_range (vmr_addr v) (vmr_len v) x -> mapped t x /\ as_locked t x = false.

(** A memory request: with [VM_REGION_TX] the bytes wait to be read. *)
Lemma serve_mem l v flags :
  serving PGetPages l -> droppable (p_as (lk_para l)) v -> flags = 0 \/ flags = VM_REGION_TX ->
  (flags = VM_REGION_TX -> vmr_len v < 2 ^ 31 /\
   forall x, in_range (vmr_addr v) (vmr_len v) x -> can PROT_READ (p_as (lk_para l)) x) ->
  exists l' t', parasite_write (vm_region_req_bytes (ReqMem v flags)) l = Ret (28, l')
    /\ link_ready l' /\ drops (vmr_addr v) (vmr_len v) (p_as (lk_para l)) t'
    /\ lk_para l' = Parasite PGetPages [] false
         (if flags =? 0 then [] else mem_bytes (p_as (lk_para l)) (vmr_addr v) (vmr_len v))
         (p_req (lk_para l')) (p_fpage (lk_para l)) t'.
Proof.
  intros Hs (Hok & Ha & Hl & Hlen & Hm) Hf Hread.
  set (t := p_as (lk_para l)) in *.
  destruct (k_madvise_ok t (vmr_addr v) (vmr_len v)) as (t' & Et & Hb & Hp & Hd & Hk & Hpm);
    [done|done|lia|done|].
  assert (Hsent : (if negb (Z.land flags VM_REGION_TX =? 0)
      then copy_from_user t (vmr_addr v) (Z.max 0 (i32 (vmr_len v))) else Some [])
    = Some (if flags =? 0 then [] else mem_bytes t (vmr_addr v) (vmr_len v))).
  { destruct Hf as [-> | ->]; [done|]. destruct (Hread eq_refl). simpl. rewrite i32_small, Z.max_r by lia.
    apply copy_from_user_ok; [lia|auto]. }
  set (out := if flags =? 0 then [] else mem_bytes t (vmr_addr v) (vmr_len v)) in *.
  destruct (serve_request l PGetPages sizeof_vm_region_req (fun b => cmd_get_pages (vm_region_req_of b))
    (vm_region_req_bytes (ReqMem v flags))
    (Parasite PGetPages [] false out
       (overlay (vm_region_req_bytes (ReqMem v flags)) (p_req (lk_para l))) (p_fpage (lk_para l)) t'))
    as (l' & Ew & El & Hr); try done.
  - intros p Hp'. unfold parasite_step. by rewrite Hp'.
  - cbv zeta. rewrite vm_region_req_of_bytes by (split; [done|]; destruct Hf as [-> | ->]; unfold VM_REGION_TX; lia).
    cbn [cmd_get_pages p_as]. fold t. rewrite Hsent. unfold write. cbn [p_closed andb].
    cbn [alive p_mode negb p_as p_in p_out p_req p_fpage p_closed app]. by rewrite Et.
  - exists l', t'. rewrite El. done.
Qed.

(** Reading back everything the service sent. *)
Lemma serve_read l n out :
  link_ready l -> p_out (lk_para l) = out -> blen out = n -> 0 < n < 2 ^ 31 ->
  p_in (lk_para l) = [] -> waiting (p_mode (lk_para l)) = true ->
  exists l', parasite_read n l = Ret (n, out, l') /\ serving (p_mode (lk_para l)) l'
    /\ p_as (lk_para l') = p_as (lk_para l) /\ p_fpage (lk_para l') = p_fpage (lk_para l).
Proof.
  intros Hr Ho Hn Hb Hi Hw. destruct (parasite_read_ok n l) as (l' & E & El & Hl'); [done..|subst; lia|].
  rewrite Ho, ztake_all in E by lia. exists l'. split; [done|]. unfold serving. rewrite El.
  unfold take_out. simpl. rewrite Ho, zdrop_all by lia. destruct Hr as (Hc & _), Hl' as (_ & _ & _ & Hh).
  done.
Qed.

Lemma send_pagemap_ok fuel off len p :
  p_closed p = false -> off mod 8 = 0 -> len mod 8 = 0 -> 0 <= off -> 0 <= len -> (Z.to_nat len <= fuel)%nat ->
  send_pagemap fuel off len p
    = Parasite (p_mode p) (p_in p) false (p_out p ++ pagemap_bytes (p_as p) off len)
        (p_req p) (p_fpage p) (p_as p).
Proof.
  revert off len p. induction fuel as [|fuel IH]; intros off len p Hc Ho Hm Hoff Hlen Hf.
  - assert (len = 0) as -> by lia. simpl. rewrite app_nil_r, <- Hc. by destruct p.
  - cbn [send_pagemap]. destruct (len =? 0) eqn:E0; tests.
    { subst len. simpl. rewrite app_nil_r, <- Hc. by destruct p. }
    set (n := if PAGEMAP_BUF_SIZE <? len then PAGEMAP_BUF_SIZE else len).
    assert (Hn : 0 < n <= len /\ n <= 512 /\ n mod 8 = 0)
      by (unfold n; change PAGEMAP_BUF_SIZE with 512; case_match; tests; split_and!; done || lia).
    rewrite k_pagemap_read_ok by (intuition lia). rewrite u64_small by (unfold is_u64; lia).
    rewrite Z.eqb_refl. cbn [negb]. unfold write at 1. rewrite Hc. cbn [andb].
    assert ((off + n) mod 8 = 0 /\ (len - n) mod 8 = 0) as [? ?]
      by (rewrite Z.add_mod, Zminus_mod, Hm, Ho by lia; destruct Hn as (_ & _ & ->); done).
    rewrite IH by (done || lia). cbn [p_mode p_in p_out p_req p_fpage p_as].
    replace len with (n + (len - n)) at 2 by lia.
    by rewrite pagemap_bytes_add, app_assoc by (intuition lia).
Qed.

Lemma serve_pagemap l seek len :
  serving PGetPages l -> p_fpage (lk_para l) = true ->
  seek mod 8 = 0 -> len mod 8 = 0 -> 0 <= seek < 2 ^ 63 -> 0 < len < 2 ^ 31 ->
  exists l', parasite_write_read (ReqPagemap seek len) len l
      = Ret (len, pagemap_bytes (p_as (lk_para l)) seek len, l')
    /\ serving PGetPages l' /\ p_as (lk_para l') = p_as (lk_para l)
    /\ p_fpage (lk_para l') = true.
Proof.
  intros Hs Hfp Hms Hml Hseek Hlen. unfold parasite_write_read.
  destruct (serve_request l PGetPages sizeof_vm_region_req (fun b => cmd_get_pages (vm_region_req_of b))
    (vm_region_req_bytes (ReqPagemap seek len))
    (Parasite PGetPages [] false (pagemap_bytes (p_as (lk_para l)) seek len)
       (overlay (vm_region_req_bytes (ReqPagemap seek len)) (p_req (lk_para l))) true (p_as (lk_para l))))
    as (l' & Ew & El & Hr); try done.
  - intros p Hp'. unfold parasite_step. by rewrite Hp'.
  - cbv zeta. rewrite vm_region_req_of_bytes by (split; unfold is_u64; lia).
    cbn [cmd_get_pages p_as p_fpage]. rewrite Hfp. cbn [negb].
    rewrite k_pagemap_seek_ok, u64_small, Z.eqb_refl by (unfold is_u64; lia). cbn [negb].
    by rewrite send_pagemap_ok by (done || lia).
  - rewrite Ew. cbn [rbind]. change (u64 sizeof_vm_region_req =? sizeof_vm_region_req) with true. cbn [negb].
    destruct (serve_read l' len (pagemap_bytes (p_as (lk_para l)) seek len)) as (l2 & E2 & Hs2 & Ha2 & Hf2);
      try done; rewrite ?El; try done; [apply blen_pagemap_bytes; [lia|done]|].
    exists l2. rewrite El in Hs2, Ha2, Hf2. rewrite E2. done.
Qed.

(** A protection request. *)
Lemma serve_mprotect l a n prot :
  serving PMprotect l -> is_u64 a -> is_u64 n -> is_u64 prot -> a mod ps = 0 -> n mod ps = 0 ->
  (forall x, in_range a n x -> mapped (p_as (lk_para l)) x) ->
  exists l' t', target_mprotect a n prot l = Ret (0, l') /\ serving PMprotect l'
    /\ p_as (lk_para l') = t' /\ p_fpage (lk_para l') = p_fpage (lk_para l)
    /\ (forall x, as_prot t' x = if in_rangeb a n x then Some prot else as_prot (p_as (lk_para l)) x)
    /\ same_bytes t' (p_as (lk_para l)) /\ (forall x, as_dropped t' x = as_dropped (p_as (lk_para l)) x)
    /\ (forall x, as_locked t' x = as_locked (p_as (lk_para l)) x)
    /\ (forall x, as_pagemap t' x = as_pagemap (p_as (lk_para l)) x).
Proof.
  intros Hs Ha Hn Hp Hma Hmn Hm. set (t := p_as (lk_para l)) in *.
  destruct (k_mprotect_ok t a n prot) as (t' & Et & Hpr & Hb & Hd & Hk & Hpm);
    [done|done|unfold is_u64 in *; lia|done|].
  unfold target_mprotect.
  destruct (serve_request l PMprotect sizeof_vm_mprotect (fun b => cmd_mprotect (vm_mprotect_of b))
    (vm_mprotect_bytes (VmMprotect a n prot))
    (Parasite PMprotect [] false [] (overlay (vm_mprotect_bytes (VmMprotect a n prot)) (p_req (lk_para l)))
       (p_fpage (lk_para l)) t')) as (l' & Ew & El & Hr); try done.
  - intros p Hp'. unfold parasite_step. by rewrite Hp'.
  - cbv zeta. rewrite vm_mprotect_of_bytes by done. unfold cmd_mprotect. cbn [mp_addr mp_len mp_prot p_as].
    fold t. by rewrite Et.
  - rewrite Ew. exists l', t'. split; [done|]. unfold serving. rewrite El.
    destruct Hr as (_ & _ & _ & ?). done.
Qed.

(** Bytes were written: [t'] is [t] with [data] at [a]. *)
Definition writes (a : Z) (data : bytes) (t t' : T) : Prop :=
  (forall x, as_byte t' x = if in_rangeb a (blen data) x
                            then nth (Z.to_nat (x - a)) data Byte.x00 else as_byte t x)
  /\ same_prot t' t.

Lemma writes_cons a b data t t1 t2 :
  writes a [b] t t1 -> writes (a + 1) data t1 t2 -> writes a (b :: data) t t2.
Proof.
  intros [Hb1 Hp1] [Hb2 Hp2]. split; [|by rewrite Hp2].
  intros x. rewrite Hb2, Hb1, (blen_cons b data), (blen_cons b []), blen_nil. unfold in_rangeb. pose proof (blen_nonneg data).
  destruct (decide (x = a)) as [->|Hx].
  - rewrite Z.sub_diag. replace ((a + 1 <=? a)) with false by lia. cbn [andb].
    by replace ((a <=? a) && (a <? a + (1 + 0))) with true by lia;
      replace ((a <=? a) && (a <? a + (1 + blen data))) with true by lia.
  - replace ((a <=? x) && (x <? a + (1 + 0))) with false by lia.
    replace ((a <=? x) && (x <? a + (1 + blen data))) with ((a + 1 <=? x) && (x <? a + 1 + blen data)) by lia.
    destruct ((a + 1 <=? x) && _) eqn:E; [|done].
    replace (Z.to_nat (x - a)) with (S (Z.to_nat (x - (a + 1)))) by lia. done.
Qed.

(** The service stores the data of a region as it arrives. *)
Lemma run_set_data data a p t :
  p_mode p = PSetData a (blen data) -> p_in p = [] -> p_closed p = false -> p_as p = t ->
  (forall x, in_range a (blen data) x -> can PROT_WRITE t x) ->
  exists t', parasite_run (feed data p)
      = Parasite PSetPages [] false (p_out p) (p_req p) (p_fpage p) t'
    /\ writes a data t t'.
Proof.
  revert a p t. induction data as [|b data IH]; intros a p t Hm Hi Hc Ht Hw.
  - exists t. split.
    + rewrite feed_nil. erewrite parasite_run_step; [apply waiting_rests; try done|].
      * unfold parasite_step. rewrite Hm, blen_nil. simpl. by rewrite <- Hi, <- Hc, <- Ht.
    + split; [|done]. intros x. unfold in_rangeb. rewrite blen_nil.
      by replace ((a <=? x) && (x <? a + 0)) with false by lia.
  - rewrite blen_cons in *. pose proof (blen_nonneg data).
    destruct (copy_to_user_ok t a [b]) as (t1 & E1 & Hb1 & Hp1 & _).
    { intros x Hx. apply Hw. unfold in_range in *. rewrite blen_cons, blen_nil in Hx. lia. }
    destruct (IH (a + 1) (Parasite (PSetData (a + 1) (blen data)) [] false (p_out p) (p_req p) (p_fpage p) t1) t1)
      as (t' & E & Hw'); try done.
    { intros x Hx. unfold can. rewrite Hp1. apply Hw. unfold in_range in *. lia. }
    exists t'. split; [|by apply (writes_cons a b data t t1)].
    cbn [p_out p_req p_fpage] in E. rewrite <- E. apply parasite_run_step. unfold parasite_step. simpl p_mode. rewrite Hm.
    rewrite (proj2 (Z.leb_gt _ _)) by lia. simpl p_in. rewrite Hi. cbn [app]. f_equal.
    unfold set_data. cbn [p_as feed p_in p_closed p_out p_req p_fpage p_mode]. rewrite Ht, E1, Hc.
    unfold feed. cbn [p_as p_in p_closed p_out p_req p_fpage p_mode app].
    by replace (1 + blen data - 1) with (blen data) by lia.
Qed.

Lemma serve_set l v data :
  serving PSetPages l -> vm_region_ok v -> blen data = vmr_len v -> 0 < vmr_len v < 2 ^ 31 ->
  (forall x, in_range (vmr_addr v) (vmr_len v) x -> can PROT_WRITE (p_as (lk_para l)) x) ->
  exists l1 l2,
    parasite_write (vm_region_req_bytes (ReqMem v 0)) l = Ret (28, l1)
    /\ parasite_write data l1 = Ret (vmr_len v, l2)
    /\ serving PSetPages l2 /\ p_fpage (lk_para l2) = p_fpage (lk_para l)
    /\ writes (vmr_addr v) data (p_as (lk_para l)) (p_as (lk_para l2)).
Proof.
  intros Hs Hok Hd Hlen Hw. assert (Hr := serving_ready _ _ Hs eq_refl).
  destruct Hs as (Hm & Hi & Ho & Hc & Hh).
  assert (Hof := vm_region_req_of_bytes (ReqMem v 0) (p_req (lk_para l)) (conj Hok (conj (Z.le_refl 0) eq_refl))).
  assert (Hlr := blen_vm_region_req_bytes (ReqMem v 0)).
  generalize dependent (vm_region_req_bytes (ReqMem v 0)). intros req Hof Hlr.
  set (p1 := Parasite (PSetData (vmr_addr v) (vmr_len v)) [] false [] (overlay req (p_req (lk_para l)))
    (p_fpage (lk_para l)) (p_as (lk_para l))).
  assert (Hrun : parasite_run (feed req (lk_para l)) = p1).
  { erewrite parasite_run_step; [apply parasite_run_blocked|].
    2: { unfold parasite_step. simpl p_mode. rewrite Hm. rewrite (command_loop_whole _ _ _ req); [|done|by cbn; rewrite Hi|done].
      cbn zeta. change (p_req (feed _ _)) with (p_req (lk_para l)). rewrite Hof. cbn [cmd_set_pages]. rewrite i32_small by lia. unfold set_mode.
      cbn [p_in p_closed p_out p_req p_fpage p_as feed]. by rewrite Hc, Ho. }
    unfold p1, parasite_step. cbn [p_mode p_in]. rewrite (proj2 (Z.leb_gt _ _)) by lia. cbn [conn_end p_closed negb read].
    by rewrite (proj2 (Z.leb_gt _ _)) by (rewrite blen_nil; lia). }
  destruct (parasite_write_ok req l) as (l1 & E1 & El1 & Hr1); [done|lia|by rewrite Hrun|].
  rewrite Hrun in El1.
  destruct (run_set_data data (vmr_addr v) p1 (p_as (lk_para l))) as (t' & Et & Hwr);
    [by rewrite Hd|done..|by rewrite Hd|].
  destruct (parasite_write_ok data l1) as (l2 & E2 & El2 & Hr2); [done|lia|by rewrite El1, Et|].
  rewrite El1, Et in El2. exists l1, l2. rewrite Hlr in E1. rewrite Hd in E2.
  unfold serving. rewrite El2. destruct Hr2 as (_ & _ & _ & ?). done.
Qed.
End Requests.
