(* ===== verification/CkptFacts.v ===== *)
(** Downloading the pages: what [get_target_pages] leaves in the dump and in
    the target when the kernel grants its requests.  The invariant [progress]
    says that whatever was dropped so far is in the dump, byte for byte. *)
From stdpp Require Import base list.
From S2P Require Import Prelude Io Compress Dump Target Parasite Link Vmas Pages PageFacts Serve.
#[local] Set Warnings "-clear-no-such-hyp".

(** Kernel answers memcr can work with. *)
Definition kernel_ok (kern : kernel) : Prop :=
  (forall a, 0 <= a < 2 ^ 63 -> k_mem_seek kern a = a)
  /\ (forall off, 0 <= off < 2 ^ 63 -> k_pd_seek kern off = off)
  /\ (forall n, k_calloc kern n = true).

Section Checkpoint.
Context {T : Type} `{AddrSpace T}.
Context (cfg : dump_cfg) `{!AddrSpaceSpec T (page_size cfg)}.
Context (mc : mem_cfg) (kern : kernel) (Hkern : kernel_ok kern).
Context (lz4 : lz4_api) (zstd : zstd_api) `{!Lz4Spec lz4, !ZstdSpec zstd}.
Context {C : Type} (evp : evp_api C).
Context {F : Type} (rd : Z -> F -> run (Z * bytes * F)) (wr : bytes -> F -> run (Z * F)).
Context `{!DumpChannel rd wr}.
Context (Hps : page_size_ok (page_size cfg)) (Hfit : bounds_fit lz4 zstd MAX_VM_REGION_SIZE).
#[local] Abbreviation ps := (page_size cfg).
#[local] Abbreviation ckpt := (ckpt T F C).

(** The regions in the dump. *)
Abbreviation saved := (list (vm_region * bytes)).
Definition saved_img (rs : saved) : bytes :=
  flat_map (fun r => region_img cfg lz4 zstd rd wr r.1 r.2) rs.
Definition saved_size (rs : saved) : Z := foldr (fun r n => vmr_len r.1 + n) 0 rs.
Definition saved_digest (ctx : option C) (rs : saved) : option C :=
  foldl (fun ctx r => digest_region cfg evp ctx r.1 r.2) ctx rs.
Definition in_saved (rs : saved) (x : Z) : Prop :=
  Exists (fun r => in_range (vmr_addr r.1) (vmr_len r.1) x) rs.

(** A region of the dump holds what [t1] has there, below [hi], and can be
    written back. *)
Definition saved_ok (t1 : T) (hi : Z) (r : vm_region * bytes) : Prop :=
  region_saved cfg r.1 r.2 /\ r.2 = mem_bytes t1 (vmr_addr r.1) (vmr_len r.1)
  /\ vmr_addr r.1 + vmr_len r.1 <= hi
  /\ forall x, in_range (vmr_addr r.1) (vmr_len r.1) x -> can PROT_WRITE t1 x.

(** memcr has worked through the addresses below [lo] of a target that was
    [t1], and the dump holds [rs]. *)
Record progress (t1 : T) (ctx : option C) (fp : bool) (lo : Z) (rs : saved) (s : ckpt) : Prop := {
  pr_serving : serving PGetPages (ck_link s);
  pr_fpage : p_fpage (lk_para (ck_link s)) = fp;
  pr_prot : same_prot (ck_as s) t1;
  pr_dropped x : as_dropped (ck_as s) x = as_dropped t1 x;
  pr_locked x : as_locked (ck_as s) x = as_locked t1 x;
  pr_bytes x : as_byte (ck_as s) x = as_byte t1 x \/ in_saved rs x;
  pr_pagemap pg : lo <= pg * ps -> as_pagemap (ck_as s) pg = as_pagemap t1 pg;
  pr_saved : Forall (saved_ok t1 lo) rs;
  pr_writer : dc_writer rd wr (d_fd (ck_dump s)) (saved_img rs);
  pr_size : d_size (ck_dump s) = saved_size rs;
  pr_size_lo : saved_size rs <= lo;
  pr_digest : d_ckpt (ck_dump s) = saved_digest ctx rs;
  pr_md : Forall rd_benign (ck_md_hints s);
  pr_pd : Forall (eq true) (ck_pd_reads s);
}.

Lemma saved_size_nonneg rs t hi : Forall (saved_ok t hi) rs -> 0 <= saved_size rs.
Proof.
  induction 1 as [|r rs Hr _ IH]; simpl; [lia|]. destruct Hr as ((_ & _ & ?) & _). lia.
Qed.

Lemma saved_size_snoc rs r : saved_size (rs ++ [r]) = saved_size rs + vmr_len r.1.
Proof. induction rs as [|x rs IH]; simpl; lia. Qed.

Lemma saved_img_snoc rs r : saved_img (rs ++ [r]) = saved_img rs ++ region_img cfg lz4 zstd rd wr r.1 r.2.
Proof. unfold saved_img. rewrite flat_map_app. simpl. by rewrite app_nil_r. Qed.

Lemma saved_digest_snoc ctx rs r :
  saved_digest ctx (rs ++ [r]) = digest_region cfg evp (saved_digest ctx rs) r.1 r.2.
Proof. unfold saved_digest. by rewrite foldl_snoc. Qed.

Lemma saved_ok_weaken t hi hi' rs : hi <= hi' -> Forall (saved_ok t hi) rs -> Forall (saved_ok t hi') rs.
Proof.
  intros Hle Hf. eapply Forall_impl; [done|]. intros r (? & ? & ? & ?). split_and!; try done. lia.
Qed.

Lemma progress_weaken t1 ctx fp lo lo' rs s :
  lo <= lo' -> progress t1 ctx fp lo rs s -> progress t1 ctx fp lo' rs s.
Proof.
  intros Hle []. split; try done; [intros; apply pr_pagemap0; lia|by apply (saved_ok_weaken _ lo)|lia].
Qed.

(** Above [lo] the target is untouched. *)
Lemma progress_untouched t1 ctx fp lo rs s x :
  progress t1 ctx fp lo rs s -> lo <= x -> as_byte (ck_as s) x = as_byte t1 x.
Proof.
  intros Hp Hx. destruct (pr_bytes _ _ _ _ _ _ Hp x) as [|Hin]; [done|].
  apply Exists_exists in Hin as (r & Hr & Hin). apply (proj1 (Forall_forall _ _) (pr_saved _ _ _ _ _ _ Hp)) in Hr.
  destruct Hr as (_ & _ & ? & _). unfold in_range in Hin. lia.
Qed.

Lemma mem_bytes_ext t t' a n : (forall x, in_range a n x -> as_byte t x = as_byte t' x) ->
  mem_bytes t a n = mem_bytes t' a n.
Proof.
  intros Hx. unfold mem_bytes. apply map_ext_in. intros i Hi%in_seq. apply Hx. unfold in_range. lia.
Qed.

(** A range of an area whose pages may be saved. *)
Definition range_ok (t1 : T) (lo hi a n : Z) : Prop :=
  lo <= a /\ 0 < a /\ a mod ps = 0 /\ 0 < n /\ n mod ps = 0 /\ a + n <= hi /\ hi < 2 ^ 63
  /\ forall x, in_range a n x -> mapped t1 x /\ as_locked t1 x = false.

Lemma range_droppable t1 ctx fp lo rs s hi a n :
  progress t1 ctx fp lo rs s -> range_ok t1 lo hi a n -> droppable ps (ck_as s) (VmRegion a n).
Proof.
  intros Hp (H1 & H2 & H3 & H4 & H5 & H6 & H7 & H8). unfold droppable. cbn [vmr_addr vmr_len].
  split_and!; try done; try lia.
  - split; unfold is_u64; cbn [vmr_addr vmr_len]; lia.
  - intros x Hx. destruct (H8 x Hx) as [Hm Hk].
    split; [by apply (mapped_proper _ _ (pr_prot _ _ _ _ _ _ Hp) x x eq_refl)|]. by rewrite (pr_locked _ _ _ _ _ _ Hp).
Qed.

(** After a region was dropped and put into the dump. *)
Lemma progress_saved t1 ctx fp lo rs s hi a n t' s' :
  progress t1 ctx fp lo rs s -> range_ok t1 lo hi a n -> n <= MAX_VM_REGION_SIZE ->
  (forall x, in_range a n x -> can PROT_WRITE t1 x) ->
  drops ps a n (ck_as s) t' ->
  ck_as s' = t' -> serving PGetPages (ck_link s') -> p_fpage (lk_para (ck_link s')) = fp ->
  dc_writer rd wr (d_fd (ck_dump s')) (saved_img (rs ++ [(VmRegion a n, mem_bytes t1 a n)])) ->
  d_size (ck_dump s') = u64 (d_size (ck_dump s) + n) ->
  d_ckpt (ck_dump s') = digest_region cfg evp (d_ckpt (ck_dump s)) (VmRegion a n) (mem_bytes t1 a n) ->
  Forall rd_benign (ck_md_hints s') -> Forall (eq true) (ck_pd_reads s') ->
  progress t1 ctx fp hi (rs ++ [(VmRegion a n, mem_bytes t1 a n)]) s'.
Proof.
  intros Hp (H1 & H2 & H3 & H4 & H5 & H6 & H7 & H8) Hmax Hw (D1 & D2 & D3 & D4 & D5)
    Ht Hs Hf Hwr Hsz Hdg Hmd Hpd.
  destruct Hp. pose proof (saved_size_nonneg _ _ _ pr_saved0).
  split; try done; rewrite ?Ht.
  - by etransitivity.
  - intros x. by rewrite D3.
  - intros x. by rewrite D4.
  - intros x. rewrite D1. unfold in_saved. rewrite Exists_app, Exists_cons. cbn [fst vmr_addr vmr_len].
    destruct (in_rangeb a n x) eqn:E; [apply in_rangeb_true in E; auto|].
    destruct (pr_bytes0 x); auto.
  - intros pg Hpg. rewrite D5 by (unfold in_range; lia). apply pr_pagemap0. lia.
  - apply Forall_app. split; [by apply (saved_ok_weaken _ lo); [lia|]|]. apply Forall_singleton.
    unfold saved_ok, region_saved, region_fits, vm_region_ok, is_u64. cbn [fst snd vmr_addr vmr_len].
    rewrite blen_mem_bytes by lia. split_and!; try done; lia.
  - rewrite saved_size_snoc. cbn [fst vmr_len]. rewrite Hsz, pr_size0, u64_small; [done|unfold is_u64; lia].
  - rewrite saved_size_snoc. cbn [fst vmr_len]. lia.
  - rewrite saved_digest_snoc. cbn [fst snd]. by rewrite Hdg, pr_digest0.
Qed.

(** Saving a range: its bytes are still the original ones, and the region is
    appended to the dump. *)
Lemma range_saved t1 ctx fp lo rs s hi a n :
  progress t1 ctx fp lo rs s -> range_ok t1 lo hi a n -> n <= MAX_VM_REGION_SIZE ->
  mem_bytes (ck_as s) a n = mem_bytes t1 a n
  /\ exists fd,
    write_vm_region cfg lz4 zstd evp wr (VmRegion a n) (mem_bytes t1 a n) (ck_dump s)
      = Ret (n, DumpState fd (u64 (d_size (ck_dump s) + n))
                  (digest_region cfg evp (d_ckpt (ck_dump s)) (VmRegion a n) (mem_bytes t1 a n))
                  (d_rest (ck_dump s)))
    /\ dc_writer rd wr fd (saved_img (rs ++ [(VmRegion a n, mem_bytes t1 a n)])).
Proof.
  intros Hp (H1 & H2 & H3 & H4 & H5 & H6 & H7 & H8) Hmax.
  split; [apply mem_bytes_ext; intros x Hx; eapply progress_untouched; [done|]; unfold in_range in Hx; lia|].
  assert (Hsaved : region_saved cfg (VmRegion a n) (mem_bytes t1 a n)).
  { unfold region_saved, region_fits, vm_region_ok, is_u64. cbn [vmr_addr vmr_len].
    unfold MAX_VM_REGION_SIZE in Hmax. rewrite blen_mem_bytes by lia. split_and!; try done; lia. }
  destruct (write_vm_region_ok cfg lz4 zstd evp rd wr Hps Hfit (VmRegion a n) (mem_bytes t1 a n)
    (ck_dump s) (saved_img rs) Hsaved (pr_writer _ _ _ _ _ _ Hp)) as (fd & Ew & Hwr).
  exists fd. split; [exact Ew|]. rewrite saved_img_snoc. exact Hwr.
Qed.

(** The two ways of get_vm_region(): /proc/pid/mem ... *)
Lemma get_vm_region_mem t1 ctx fp lo rs s md hi a n :
  proc_mem mc && (-1 <? md) = true ->
  progress t1 ctx fp lo rs s -> range_ok t1 lo hi a n -> n <= MAX_VM_REGION_SIZE ->
  (forall x, in_range a n x -> can PROT_READ t1 x /\ can PROT_WRITE t1 x) ->
  exists s' rs', get_vm_region cfg mc kern lz4 zstd evp wr md a n s = Ret (n, s')
    /\ progress t1 ctx fp hi rs' s' /\ ck_pd_off s' = ck_pd_off s.
Proof.
  intros Hw Hp Hr Hmax Hrw. pose proof (range_droppable _ _ _ _ _ _ _ _ _ Hp Hr) as Hd.
  destruct (range_saved _ _ _ _ _ _ _ _ _ Hp Hr Hmax) as (Hmem & fd & Ew & Hwr).
  pose proof Hr as (H1 & H2 & H3 & H4 & H5 & H6 & H7 & H8).
  assert (Hn31 : n < 2 ^ 31) by (unfold MAX_VM_REGION_SIZE in Hmax; lia).
  unfold get_vm_region. rewrite Hw.
  destruct Hkern as (K1 & _). rewrite K1, Z.eqb_refl by lia. cbn [negb].
  destruct (_read_full n (mem_bytes (ck_as s) a n) (ck_md_hints s)) as (h' & Er & Hh');
    [lia|rewrite blen_mem_bytes; lia|apply (pr_md _ _ _ _ _ _ Hp)|].
  rewrite Er. cbn [rbind st_hints]. rewrite u64_small, Z.eqb_refl by (unfold is_u64; lia).
  cbn [negb rbind Z.eqb ck_link]. rewrite ztake_all, Hmem by (rewrite blen_mem_bytes; lia).
  destruct (serve_mem ps (ck_link s) (VmRegion a n) 0) as (l' & t' & El & Hl' & Hdr & Ep);
    [apply (pr_serving _ _ _ _ _ _ Hp)|done|by left|done|].
  rewrite El. cbn [rbind negb]. change (u64 28 =? sizeof_vm_region_req) with true.
  cbn [negb rbind Z.eqb ck_dump set_link ck_link ck_md_hints ck_pd_reads ck_pd_off].
  rewrite Ew. cbn [rbind]. eexists _, _. split; [done|]. split; [|done].
  eapply progress_saved; try done; cbn [ck_link ck_dump ck_md_hints ck_pd_reads d_size d_ckpt d_fd].
  - intros x Hx. by apply Hrw.
  - unfold ck_as. cbn [ck_link]. by rewrite Ep.
  - destruct Hl' as (_ & _ & _ & ?). unfold serving. by rewrite Ep.
  - rewrite Ep. apply (pr_fpage _ _ _ _ _ _ Hp).
  - apply (pr_pd _ _ _ _ _ _ Hp).
Qed.

(** ... and the VM_REGION_TX answer of the parasite. *)
Lemma get_vm_region_tx t1 ctx fp lo rs s md hi a n :
  proc_mem mc && (-1 <? md) = false ->
  progress t1 ctx fp lo rs s -> range_ok t1 lo hi a n -> n <= MAX_VM_REGION_SIZE ->
  (forall x, in_range a n x -> can PROT_READ t1 x /\ can PROT_WRITE t1 x) ->
  exists s' rs', get_vm_region cfg mc kern lz4 zstd evp wr md a n s = Ret (n, s')
    /\ progress t1 ctx fp hi rs' s' /\ ck_pd_off s' = ck_pd_off s.
Proof.
  intros Hw Hp Hr Hmax Hrw. pose proof (range_droppable _ _ _ _ _ _ _ _ _ Hp Hr) as Hd.
  destruct (range_saved _ _ _ _ _ _ _ _ _ Hp Hr Hmax) as (Hmem & fd & Ew & Hwr).
  pose proof Hr as (H1 & H2 & H3 & H4 & H5 & H6 & H7 & H8).
  assert (Hn31 : n < 2 ^ 31) by (unfold MAX_VM_REGION_SIZE in Hmax; lia).
  unfold get_vm_region. rewrite Hw.
  cbn [rbind negb Z.eqb].
  destruct (serve_mem ps (ck_link s) (VmRegion a n) VM_REGION_TX) as (l1 & t' & El & Hl' & Hdr & Ep);
    [apply (pr_serving _ _ _ _ _ _ Hp)|done|by right| |].
  { intros _. split; [done|].
    intros x Hx. apply (can_proper PROT_READ _ _ (pr_prot _ _ _ _ _ _ Hp) x x eq_refl). by apply Hrw. }
  rewrite El. cbn [rbind negb]. change (u64 28 =? sizeof_vm_region_req) with true. cbn [negb].
  change (VM_REGION_TX =? 0) with false in Ep. cbn match in Ep. cbn [vmr_addr vmr_len] in Ep.
  change (p_as (lk_para (ck_link s))) with (ck_as s) in *. rewrite Hmem in Ep.
  destruct (serve_read l1 n (mem_bytes t1 a n)) as (l2 & E2 & Hs2 & Ha2 & Hf2);
    [done|by rewrite Ep|apply blen_mem_bytes; lia|lia|by rewrite Ep|by rewrite Ep|].
  cbn [set_link ck_link]. rewrite E2. cbn [rbind]. rewrite u64_small, Z.eqb_refl by (unfold is_u64; lia).
  cbn [negb rbind Z.eqb ck_dump set_link ck_link ck_md_hints ck_pd_reads ck_pd_off].
  rewrite Ew. cbn [rbind]. eexists _, _. split; [done|]. split; [|done].
  eapply progress_saved; try done; cbn [ck_link ck_dump ck_md_hints ck_pd_reads d_size d_ckpt d_fd].
  - intros x Hx. by apply Hrw.
  - unfold ck_as. cbn [ck_link]. by rewrite Ha2, Ep.
  - by rewrite Ep in Hs2.
  - rewrite Hf2, Ep. apply (pr_fpage _ _ _ _ _ _ Hp).
  - apply (pr_md _ _ _ _ _ _ Hp).
  - apply (pr_pd _ _ _ _ _ _ Hp).
Qed.

Lemma get_vm_region_progress t1 ctx fp lo rs s md hi a n :
  progress t1 ctx fp lo rs s -> range_ok t1 lo hi a n -> n <= MAX_VM_REGION_SIZE ->
  (forall x, in_range a n x -> can PROT_READ t1 x /\ can PROT_WRITE t1 x) ->
  exists s' rs', get_vm_region cfg mc kern lz4 zstd evp wr md a n s = Ret (n, s')
    /\ progress t1 ctx fp hi rs' s' /\ ck_pd_off s' = ck_pd_off s.
Proof.
  destruct (proc_mem mc && (-1 <? md)) eqn:Hw; [by apply get_vm_region_mem|by apply get_vm_region_tx].
Qed.

Lemma free_vm_region_progress t1 ctx fp lo rs s hi a n :
  progress t1 ctx fp lo rs s -> range_ok t1 lo hi a n ->
  (forall x, in_range a n x -> as_dropped t1 x = as_byte t1 x) ->
  exists s', free_vm_region a n s = Ret (0, s')
    /\ progress t1 ctx fp hi rs s' /\ ck_pd_off s' = ck_pd_off s.
Proof.
  intros Hp Hr Hc. assert (Hd := range_droppable _ _ _ _ _ _ _ _ _ Hp Hr).
  destruct Hr as (H1 & H2 & H3 & H4 & H5 & H6 & H7 & H8). unfold free_vm_region.
  destruct (serve_mem ps (ck_link s) (VmRegion a n) 0) as (l' & t' & El & Hl' & (D1 & D2 & D3 & D4 & D5) & Ep);
    [apply (pr_serving _ _ _ _ _ _ Hp)|done|by left|done|].
  rewrite El. cbn [rbind]. change (u64 28 =? sizeof_vm_region_req) with true. cbn [negb].
  eexists. split; [done|]. split; [|done]. cbn [vmr_addr vmr_len] in *.
  change (p_as (lk_para (ck_link s))) with (ck_as s) in *.
  assert (Has : ck_as (set_link l' s) = t') by (unfold ck_as, set_link; cbn [ck_link]; by rewrite Ep).
  destruct Hp. split; rewrite ?Has; try done.
  - destruct Hl' as (_ & _ & _ & ?). unfold serving. cbn [set_link ck_link]. by rewrite Ep.
  - cbn [set_link ck_link]. by rewrite Ep.
  - by etransitivity.
  - intros x. by rewrite D3.
  - intros x. by rewrite D4.
  - intros x. rewrite D1. destruct (in_rangeb a n x) eqn:E; [|done]. apply in_rangeb_true in E.
    left. rewrite pr_dropped0. auto.
  - intros pg Hpg. rewrite D5 by (unfold in_range; lia). apply pr_pagemap0. lia.
  - apply (saved_ok_weaken _ lo); [lia|done].
  - lia.
Qed.

(** ** The pages of an area *)

Definition page_clean (t1 : T) (pg : Z) : Prop :=
  forall x, in_range pg ps x -> as_dropped t1 x = as_byte t1 x.

(** An area memcr can save: it can be read and written (target_mprotect_off()
    saw to that), none of it is locked, its file pages that were not written to
    read the same once dropped, its pagemap is not longer than an int, and it lies
    where user memory does. *)
Definition area_ok (t1 : T) (vma : vm_area) : Prop :=
  vma_ok ps vma
  /\ (forall x, vma_start vma <= x < vma_end vma ->
       can PROT_READ t1 x /\ can PROT_WRITE t1 x /\ as_locked t1 x = false)
  /\ (is_anon vma = false -> forall pg, vma_start vma <= pg * ps < vma_end vma ->
       selected mc vma (as_pagemap t1 pg) = true -> page_clean t1 (pg * ps))
  /\ vma_end vma - vma_start vma < 2 ^ 28 * ps /\ vma_end vma < 2 ^ 60.

Lemma region_pages_clean t1 s n :
  0 <= n -> n mod ps = 0 -> Forall (page_clean t1) (region_pages ps s n) ->
  forall x, in_range s n x -> as_dropped t1 x = as_byte t1 x.
Proof.
  intros Hn Hm Hf x Hx. pose proof (page_size_pos ps Hps) as Hp. unfold in_range in Hx.
  apply Z.mod_divide in Hm as [k ->]; [|lia].
  pose proof (Z.div_mod (x - s) ps ltac:(lia)). pose proof (Z.mod_pos_bound (x - s) ps ltac:(lia)).
  assert (0 <= (x - s) / ps < k) by (split; [apply Z.div_pos; lia|apply Z.div_lt_upper_bound; nia]).
  refine (proj1 (Forall_forall _ _) Hf (s + Z.of_nat (Z.to_nat ((x - s) / ps)) * ps) _ x _).
  - unfold region_pages. apply list_elem_of_In, in_map_iff. eexists. split; [done|].
    apply in_seq. rewrite Z.div_mul by lia. lia.
  - rewrite Z2Nat.id by lia. unfold in_range. nia.
Qed.

Section Area.
Context (t1 : T) (ctx : option C) (fp : bool) (vma : vm_area) (Harea : area_ok t1 vma).
#[local] Abbreviation nrpages := ((vma_end vma - vma_start vma) / ps).
#[local] Abbreviation at_page idx := (vma_start vma + idx * ps).

Lemma area_pages : vma_start vma + nrpages * ps = vma_end vma.
Proof.
  destruct Harea as ((V1 & V2 & V3 & V4 & V5) & _). pose proof (page_size_pos ps Hps) as Hp.
  apply Z.mod_divide in V4 as [i Ei], V5 as [j Ej]; [|lia..]. rewrite Ei, Ej.
  rewrite <- Z.mul_sub_distr_r, Z.div_mul by lia. lia.
Qed.

Lemma area_page_number idx : at_page idx = (vma_start vma / ps + idx) * ps.
Proof.
  destruct Harea as ((_ & _ & _ & V4 & _) & _). pose proof (page_size_pos ps Hps) as Hp.
  rewrite Z.mul_add_distr_r. f_equal. apply Z.mod_divide in V4 as [k Ek]; [|lia].
  rewrite Ek at 2. by rewrite Z.div_mul by lia.
Qed.

(** The region variables at page address [cur], [lo] being the end of what was
    handled; in a file area, the pages collected are clean. *)
Definition loop_inv (lo cur : Z) (r : region) : Prop :=
  region_inv ps vma lo cur r
  /\ (is_anon vma = false -> region_tight ps mc vma cur r /\ Forall (page_clean t1) (pending ps r)).

Lemma loop_inv_start lo cur : loop_inv lo cur (0, 0).
Proof. split; [by left|]. intros _. split; [by left|constructor]. Qed.

Lemma page_progress md lo rs s idx entry r a r' :
  progress t1 ctx fp lo rs s -> 0 <= idx < nrpages -> vma_start vma <= lo <= at_page idx -> loop_inv lo (at_page idx) r ->
  (is_anon vma = false -> entry = as_pagemap t1 (vma_start vma / ps + idx)) ->
  page_decide ps mc (kpageflags kern) vma nrpages idx entry r = (a, r') ->
  exists s' rs' lo', page_do cfg mc kern lz4 zstd evp wr md a s = Ret (None, s')
    /\ progress t1 ctx fp lo' rs' s' /\ ck_pd_off s' = ck_pd_off s
    /\ vma_start vma <= lo' <= at_page (idx + 1) /\ loop_inv lo' (at_page (idx + 1)) r'.
Proof.
  intros Hp Hidx Hlo [Hri Hcl] Hent Hdec.
  destruct Harea as (Hv & Hacc & Hclean & Hsz & _). assert (Hv' := Hv). destruct Hv' as (V1 & V2 & V3 & V4 & V5).
  pose proof (page_size_pos ps Hps) as Hpp. pose proof area_pages as Hend.
  assert (Hcur : at_page idx + ps <= vma_end vma) by nia.
  replace (at_page (idx + 1)) with (at_page idx + ps) by lia.
  assert (Hnr : at_page nrpages <= vma_end vma) by lia.
  destruct (page_decide_inv ps mc (kpageflags kern) vma nrpages Hps Hv Hnr lo idx entry r a r' Hidx Hri (proj2 Hlo) Hdec)
    as [Hact Hri'].
  assert (Hfile : is_anon vma = false ->
    Forall (page_clean t1) (action_pages ps a ++ pending ps r') /\ region_tight ps mc vma (at_page idx + ps) r').
  { intros Ha. destruct (Hcl Ha) as [Ht Hf].
    destruct (page_decide_exact ps mc (kpageflags kern) vma nrpages Hps Hv Hnr idx entry r a r' Hidx Ht
      ltac:(by rewrite Ha) Hdec) as (E & Ht' & _).
    split; [|done]. rewrite E. apply Forall_app. split; [done|].
    destruct (selected mc vma entry) eqn:Es; [|constructor]. apply Forall_singleton.
    pose proof (area_page_number idx) as Epg.
    rewrite Epg. apply Hclean; [done|rewrite <- Epg; nia|]. by rewrite <- (Hent Ha). }
  assert (Hrange : forall st n, lo <= st -> 0 < st -> st mod ps = 0 -> 0 < n -> n mod ps = 0 ->
      st + n <= at_page idx + ps -> range_ok t1 lo (at_page idx + ps) st n).
  { intros st n ? ? ? ? ? ?. unfold range_ok. split_and!; try done; try lia.
    intros x Hx. unfold in_range in Hx. destruct (Hacc x) as (? & ? & ?); [lia|].
    split; [by eapply can_mapped|done]. }
  destruct a as [|st n|st n]; cbn [page_do].
  - exists s, rs, lo. split_and!; try done; [lia..|]. split; [done|]. intros Ha. by destruct (Hfile Ha).
  - destruct Hact as (Ha & Hmax & Hact). destruct Hact as (A1 & A2 & A3 & A4 & A5 & A6). subst r'.
    destruct (get_vm_region_progress t1 ctx fp lo rs s md (at_page idx + ps) st n) as (s' & rs' & E & Hp' & Hoff);
      [done|auto|done| |].
    { intros x Hx. unfold in_range in Hx. destruct (Hacc x) as (? & ? & ?); [lia|done]. }
    rewrite E. cbn [rbind]. rewrite (proj2 (Z.leb_gt _ _)) by lia.
    exists s', rs', (at_page idx + ps). split_and!; try done; [lia..|apply loop_inv_start].
  - destruct Hact as (Ha & Hact). destruct Hact as (A1 & A2 & A3 & A4 & A5 & A6). subst r'.
    destruct (Hfile Ha) as [Hf _]. cbn [action_pages] in Hf. apply Forall_app in Hf as [Hf _].
    destruct (free_vm_region_progress t1 ctx fp lo rs s (at_page idx + ps) st n) as (s' & E & Hp' & Hoff);
      [done|auto|apply region_pages_clean; [lia|done..]|].
    rewrite E. exists s', rs, (at_page idx + ps). split_and!; try done; [lia..|apply loop_inv_start].
Qed.

(** Where the entries come from: the pagemap file at the right offset, or the
    buffer. *)
Definition entries_ok (pd idx : Z) (map_buf : bytes) (s : ckpt) : Prop :=
  if 0 <? pd then ck_pd_off s = (vma_start vma / ps + idx) * 8
  else forall i, 0 <= i < nrpages ->
    le_combine (ztake 8 (zdrop (8 * i) map_buf)) = as_pagemap t1 (vma_start vma / ps + i).

Lemma pagemap_entry_progress lo rs s pd idx map_buf :
  progress t1 ctx fp lo rs s -> entries_ok pd idx map_buf s -> 0 <= idx < nrpages -> lo <= at_page idx ->
  exists s', pagemap_entry pd idx map_buf s = (Some (as_pagemap t1 (vma_start vma / ps + idx)), s')
    /\ progress t1 ctx fp lo rs s'
    /\ (if 0 <? pd then ck_pd_off s' = (vma_start vma / ps + (idx + 1)) * 8 else s' = s).
Proof.
  intros Hp He Hidx Hlo. unfold pagemap_entry, entries_ok in *. destruct (0 <? pd).
  - pose proof (page_size_pos ps Hps).
    pose proof (area_page_number idx) as Epg.
    assert (Hmap : as_pagemap (ck_as s) (ck_pd_off s / 8) = as_pagemap t1 (vma_start vma / ps + idx)).
    { rewrite He, Z.div_mul by lia. apply (pr_pagemap _ _ _ _ _ _ Hp). lia. }
    unfold pd_read. destruct (ck_pd_reads s) as [|[] reads] eqn:Er.
    + rewrite Hmap. eexists. split; [done|]. split; [|cbn [ck_pd_off]; lia].
      destruct Hp. by split.
    + rewrite Hmap. eexists. split; [done|]. split; [|cbn [ck_pd_off]; lia].
      destruct Hp. rewrite Er in pr_pd0. inversion_clear pr_pd0. by split.
    + pose proof (pr_pd _ _ _ _ _ _ Hp) as Hf. rewrite Er in Hf. by inversion_clear Hf.
  - rewrite He by done. eauto.
Qed.

Lemma pages_loop_progress n pd md lo rs s idx map_buf r :
  progress t1 ctx fp lo rs s -> entries_ok pd idx map_buf s -> 0 <= idx -> idx + Z.of_nat n = nrpages ->
  vma_start vma <= lo <= at_page idx -> loop_inv lo (at_page idx) r ->
  exists s' rs', pages_loop cfg mc kern lz4 zstd evp wr n pd md vma nrpages idx map_buf r s = Ret (0, s')
    /\ progress t1 ctx fp (vma_end vma) rs' s'.
Proof.
  revert lo rs s idx r. induction n as [|n IH]; intros lo rs s idx r Hp He Hi Hn Hlo Hinv; cbn [pages_loop].
  - exists s, rs. split; [done|]. apply (progress_weaken _ _ _ lo); [|done].
    pose proof area_pages. assert (idx = nrpages) as -> by lia. lia.
  - destruct (pagemap_entry_progress lo rs s pd idx map_buf) as (s1 & -> & Hp1 & Hoff1); [done|done|lia|lia|].
    destruct (page_decide _ _ _ _ _ _ _ _) as [a r'] eqn:Ed.
    destruct (page_progress md lo rs s1 idx _ r a r' Hp1 ltac:(lia) Hlo Hinv (fun _ => eq_refl) Ed)
      as (s2 & rs2 & lo2 & -> & Hp2 & Hoff2 & Hlo2 & Hinv2).
    cbn [rbind]. apply (IH lo2 rs2 s2); try done; [|lia..].
    unfold entries_ok in *. destruct (0 <? pd); [congruence|done].
Qed.
End Area.

Lemma get_vma_pages_progress t1 ctx fp vma pd md lo rs s :
  area_ok t1 vma -> progress t1 ctx fp lo rs s -> lo <= vma_start vma -> ((0 <? pd) = false -> fp = true) ->
  exists s' rs', get_vma_pages cfg mc kern lz4 zstd evp wr pd md vma s = Ret (0, s')
    /\ progress t1 ctx fp (vma_end vma) rs' s'.
Proof.
  intros Harea Hp Hlo Hpd. assert (Hend := area_pages t1 vma Harea).
  assert (Ha := Harea). destruct Ha as ((V1 & V2 & V3 & V4 & V5) & _ & _ & Hsz & V6).
  pose proof (page_size_pos ps Hps) as Hpp.
  assert (Hnr : 0 <= (vma_end vma - vma_start vma) / ps < 2 ^ 28)
    by (split; [apply Z.div_pos; lia|apply Z.div_lt_upper_bound; lia]).
  assert (Hoff : 0 <= vma_start vma / ps * 8 < 2 ^ 63).
  { split; [apply Z.mul_nonneg_nonneg; [apply Z.div_pos|]; lia|].
    assert (vma_start vma / ps <= vma_start vma) by (apply Z.div_le_upper_bound; nia). lia. }
  apply (progress_weaken _ _ _ _ (vma_start vma)) in Hp; [|done].
  unfold get_vma_pages. rewrite !u64_small by (unfold is_u64; lia).
  destruct Hkern as (_ & K2 & K3). destruct (0 <? pd) eqn:Epd.
  - rewrite K2, Z.eqb_refl by done. cbn [negb].
    apply (pages_loop_progress t1 ctx fp vma Harea _ _ _ (vma_start vma) rs);
      [| |lia|rewrite Z2Nat.id; lia|lia|apply loop_inv_start].
    + destruct Hp; split; done.
    + unfold entries_ok. rewrite Epd. cbn [ck_pd_off]. lia.
  - rewrite K3. cbn [negb]. case_match eqn:E0; tests.
    { exists s, rs. split; [done|]. by apply (progress_weaken _ _ _ (vma_start vma)). }
    destruct (serve_pagemap ps (ck_link s) (vma_start vma / ps * 8) ((vma_end vma - vma_start vma) / ps * 8))
      as (l' & El & Hs' & Has & Hfp); try (rewrite Z.mod_mul; done); [apply Hp|rewrite (pr_fpage _ _ _ _ _ _ Hp); auto|lia|lia|].
    rewrite El. cbn [rbind]. rewrite u64_small, Z.eqb_refl by (unfold is_u64; lia). cbn [negb].
    apply (pages_loop_progress t1 ctx fp vma Harea _ _ _ (vma_start vma) rs);
      [| |lia|rewrite Z2Nat.id; lia|lia|apply loop_inv_start].
    + destruct Hp; split; unfold ck_as in *; cbn [set_link ck_link ck_dump] in *; rewrite ?Has; try done.
      by rewrite Hfp, Hpd.
    + unfold entries_ok. rewrite (proj2 (Z.ltb_ge _ _)) by done. intros i Hi.
      rewrite pagemap_bytes_nth by (rewrite ?Z.mod_mul by lia; done || lia).
      rewrite Z.div_mul, le_combine_split_8 by (lia || apply as_pagemap_u64).
      apply (pr_pagemap _ _ _ _ _ _ Hp).
      rewrite <- (area_page_number t1 vma Harea). nia.
Qed.

(** ** All areas *)

(** The areas lie one after the other, from [lo] on. *)
Fixpoint ascending (lo : Z) (vmas : list vm_area) : Prop :=
  match vmas with
  | [] => True
  | vma :: vmas => lo <= vma_start vma /\ ascending (vma_end vma) vmas
  end.

Lemma vmas_loop_progress t1 ctx fp pd md aborted vmas lo rs s :
  Forall (area_ok t1) vmas -> ascending lo vmas -> progress t1 ctx fp lo rs s ->
  ((0 <? pd) = false -> fp = true) ->
  exists s' rs' lo', vmas_loop cfg mc kern lz4 zstd evp wr pd md aborted vmas s = Ret (0, s')
    /\ progress t1 ctx fp lo' rs' s'.
Proof.
  intros Ha. revert aborted lo rs s. induction Ha as [|vma vmas Hv Ha IH]; intros aborted lo rs s Hasc Hp Hpd.
  - exists s, rs, lo. done.
  - destruct Hasc as [Hlo Hasc]. cbn [vmas_loop]. destruct (hd false aborted); [by exists s, rs, lo|].
    destruct (get_vma_pages_progress t1 ctx fp vma pd md lo rs s) as (s' & rs' & -> & Hp'); [done..|].
    cbn [rbind negb Z.eqb]. by apply (IH _ (vma_end vma) rs').
Qed.

(** What the connection, the dump file and /proc answer during the download. *)
Definition get_env_ok (fp : bool) (env : get_env (F := F)) (fd : F) : Prop :=
  ge_fd env = Some fd /\ dc_writer rd wr fd []
  /\ env_ok (ge_conn env) /\ (proc_mem mc = true -> 0 <= ge_md env)
  /\ Forall rd_benign (ge_md_hints env) /\ Forall (eq true) (ge_pd_reads env)
  /\ (0 < ge_pd env \/ fp = true).

(** The dump [rs] is complete for a target that was [t1] and now is [t]. *)
Definition dumped (t1 : T) (ctx : option C) (rs : saved) (t : T) (d : dump_state F C) : Prop :=
  same_prot t t1
  /\ (forall x, as_byte t x = as_byte t1 x \/ in_saved rs x)
  /\ (exists hi, Forall (saved_ok t1 hi) rs)
  /\ dc_writer rd wr (d_fd d) (saved_img rs)
  /\ d_size d = saved_size rs
  /\ d_ckpt d = saved_digest ctx rs.

Lemma hang_up_serving m l :
  serving m l -> m = PMprotect \/ m = PGetPages \/ m = PSetPages ->
  at_accept (link_close l) /\ p_as (link_close l) = p_as (lk_para l)
  /\ p_fpage (link_close l) = p_fpage (lk_para l).
Proof.
  intros (Hm & Hi & Ho & _) Hl. unfold link_close, hang_up.
  match goal with |- context [parasite_run ?q] =>
    assert (E : exists q', parasite_step q = Some q' /\ p_mode q' = PAccept
      /\ p_as q' = p_as (lk_para l) /\ p_fpage q' = p_fpage (lk_para l)) end.
  { unfold parasite_step. cbn [p_mode]. rewrite Hm, Hi, Ho.
    destruct Hl as [-> | [-> | ->]]; eexists; (split; [reflexivity|done]). }
  destruct E as (q' & E & Hq & Has & Hfp). rewrite (parasite_run_step _ q') by done.
  rewrite parasite_run_blocked by (unfold parasite_step; by rewrite Hq). done.
Qed.

Lemma get_target_pages_dumped env vmas p d fd t1 :
  get_env_ok (p_fpage p) env fd -> at_accept p -> p_as p = t1 -> d_size d = 0 ->
  Forall (area_ok t1) vmas -> ascending 0 vmas ->
  exists p' d' rs,
    get_target_pages cfg mc kern lz4 zstd evp wr env vmas p d = Ret (0, p', d')
    /\ at_accept p' /\ dumped t1 (d_ckpt d) rs (p_as p') d'.
Proof.
  intros (Hfd & Hwr & Henv & Hmd & Hh & Hpd & Hsrc) Hat Ht Hd Ha Hasc. unfold get_target_pages. rewrite Hfd.
  assert (Hmd' : proc_mem mc && ((if proc_mem mc then ge_md env else -1) <? 0) = false)
    by (destruct (proc_mem mc); [apply Z.ltb_ge; auto|done]).
  rewrite Hmd'.
  destruct (serve_command (ge_conn env) p CMD_GET_PAGES PGetPages) as (l & -> & -> & Hs & Has & Hfp);
    [done|done|done|done|unfold CMD_GET_PAGES; lia|].
  cbn [rbind negb Z.eqb Pos.eqb].
  destruct (vmas_loop_progress t1 (d_ckpt d) (p_fpage p) (ge_pd env) (if proc_mem mc then ge_md env else -1)
    (ge_aborted env) vmas 0 [] (Ckpt l (with_fd fd d) (ge_md_hints env) (ge_pd_reads env) 0))
    as (s' & rs & lo & -> & Hp); [done|done| |intros; tests; destruct Hsrc; [lia|done]|].
  { assert (Hck : p_as (lk_para l) = t1) by congruence.
    split; unfold ck_as; cbn [ck_link ck_dump ck_md_hints ck_pd_reads with_fd d_fd d_size d_ckpt];
      rewrite ?Hck; try done. by left. }
  cbn [rbind]. destruct (hang_up_serving PGetPages (ck_link s')) as (H1 & H2 & H3); [apply Hp|auto|].
  exists (link_close (ck_link s')), (ck_dump s'), rs. split; [done|]. split; [done|].
  destruct Hp. rewrite H2. split_and!; try done. by exists lo.
Qed.
End Checkpoint.
