(* ===== verification/RestFacts.v ===== *)
(** Uploading the pages and moving the protections: what [target_set_pages],
    [target_mprotect_off] and [target_mprotect_on] leave in the target. *)
From stdpp Require Import base list.
From S2P Require Import Prelude Io Compress Dump Target Parasite Link Vmas Pages PageFacts Serve CkptFacts.
#[local] Set Warnings "-clear-no-such-hyp".

Section Restore.
Context {T : Type} `{AddrSpace T}.
Context (cfg : dump_cfg) `{!AddrSpaceSpec T (page_size cfg)}.
Context (lz4 : lz4_api) (zstd : zstd_api) `{!Lz4Spec lz4, !ZstdSpec zstd}.
Context {C : Type} (evp : evp_api C).
Context {F : Type} (rd : Z -> F -> run (Z * bytes * F)) (wr : bytes -> F -> run (Z * F)).
Context `{!DumpChannel rd wr}.
Context (Hps : page_size_ok (page_size cfg)) (Hfit : bounds_fit lz4 zstd MAX_VM_REGION_SIZE).
#[local] Abbreviation ps := (page_size cfg).

#[export] Instance in_saved_dec rs x : Decision (in_saved rs x).
Proof. unfold in_saved. apply _. Defined.

(** [t'] is [t] with the regions of the dump as [t1] had them. *)
Definition restored (t1 : T) (rs : list (vm_region * bytes)) (t t' : T) : Prop :=
  same_prot t' t
  /\ forall x, as_byte t' x = if decide (in_saved rs x) then as_byte t1 x else as_byte t x.

(** Writing one region back. *)
Lemma restored_cons t1 hi r rs t t2 t' :
  saved_ok cfg t1 hi r -> writes (vmr_addr r.1) r.2 t t2 -> restored t1 rs t2 t' -> restored t1 (r :: rs) t t'.
Proof.
  intros (Hsv & Hdata & _) [Hb Hp] [Hp' Hb']. split; [by transitivity t2|].
  destruct Hsv as (_ & Hlen & Hpos). intros x. rewrite Hb'. unfold in_saved.
  destruct (decide (Exists _ rs)) as [He|He].
  - rewrite decide_True by (by apply Exists_cons_tl). done.
  - rewrite Hb, Hlen. destruct (in_rangeb _ _ x) eqn:E.
    + apply in_rangeb_true in E. rewrite decide_True by (by apply Exists_cons_hd).
      rewrite Hdata. by apply nth_mem_bytes.
    + apply in_rangeb_false in E. rewrite decide_False; [done|]. by rewrite Exists_cons; intros [].
Qed.

Lemma set_pages_loop_restored t1 hi rs fuel vmr buf l d :
  Forall (saved_ok cfg t1 hi) rs -> serving PSetPages l -> same_prot (p_as (lk_para l)) t1 ->
  dc_reader rd wr (d_fd d) (saved_img cfg lz4 zstd rd wr rs) -> saved_size rs <= d_size d ->
  (length rs < fuel)%nat ->
  exists l' d', set_pages_loop cfg lz4 zstd evp rd fuel vmr buf l d = Ret (0, l', d')
    /\ serving PSetPages l' /\ p_fpage (lk_para l') = p_fpage (lk_para l)
    /\ restored t1 rs (p_as (lk_para l)) (p_as (lk_para l'))
    /\ d_ckpt d' = d_ckpt d /\ d_rest d' = saved_digest cfg evp (d_rest d) rs.
Proof.
  intros Hrs. revert fuel vmr buf l d. induction Hrs as [|r rs Hr Hrs IH];
    intros fuel vmr buf l d Hs Hpr Hf Hsz Hfuel; (destruct fuel as [|fuel]; [simpl in Hfuel; lia|]); cbn [set_pages_loop].
  - destruct (read_vm_region_eof cfg lz4 zstd evp rd wr d vmr buf Hf) as (fd & -> & _).
    cbn [rbind Z.leb Z.compare]. eexists _, _. split; [done|]. split; [done|]. split; [done|]. split; [|done].
    split; [done|]. intros x. rewrite decide_False; [done|]. intros He. by apply Exists_nil in He.
  - pose proof (saved_size_nonneg _ _ _ _ Hrs). simpl in Hsz. assert (Hr' := Hr).
    destruct Hr' as (Hsv & Hdata & Hhi & Hw). assert (Hsv' := Hsv). destruct Hsv' as ((Hok & _) & Hlen & Hpos).
    destruct (read_vm_region_ok cfg lz4 zstd evp rd wr Hps Hfit r.1 r.2 d
      (saved_img cfg lz4 zstd rd wr rs) vmr buf Hsv Hf ltac:(lia)) as (fd & -> & Hf').
    cbn [rbind]. rewrite (proj2 (Z.leb_gt _ _)) by lia.
    assert (Hl31 : vmr_len r.1 < 2 ^ 31) by (unfold MAX_VM_REGION_SIZE in Hpos; lia).
    destruct (serve_set ps l r.1 r.2) as (l1 & l2 & -> & E2 & Hs2 & Hfp2 & Hwr); [done..|lia| |].
    { intros x Hx. apply (can_proper PROT_WRITE _ _ Hpr x x eq_refl). auto. }
    cbn [rbind]. change (u64 28 =? sizeof_vm_region_req) with true. cbn [negb].
    rewrite <- Hlen, ztake_overlay, Hlen, E2. cbn [rbind]. rewrite i32_small, Z.eqb_refl by lia. cbn [negb].
    destruct (IH fuel r.1 (overlay r.2 buf) l2
      (DumpState fd (d_size d - vmr_len r.1) (d_ckpt d) (digest_region cfg evp (d_rest d) r.1 r.2)))
      as (l' & d' & -> & Hs' & Hfp' & Hrest & Hck & Hdg);
      [done|by destruct Hwr as [_ ?]; transitivity (p_as (lk_para l))|done|cbn [d_size]; lia|simpl in Hfuel; lia|].
    exists l', d'. split; [done|]. split_and!; try done; [congruence|].
    by eapply restored_cons.
Qed.

Lemma saved_size_length t hi rs : Forall (saved_ok cfg t hi) rs -> Z.of_nat (length rs) <= saved_size rs.
Proof. induction 1 as [|r rs ((_ & _ & ?) & _) _ IH]; simpl; lia. Qed.

Lemma target_set_pages_restored t1 hi rs env p d fd :
  at_accept p -> Forall (saved_ok cfg t1 hi) rs -> same_prot (p_as p) t1 ->
  se_fd env = Some fd -> dc_reader rd wr fd (saved_img cfg lz4 zstd rd wr rs) -> env_ok (se_conn env) ->
  saved_size rs <= d_size d ->
  exists p' d', target_set_pages cfg lz4 zstd evp rd env p d = Ret (0, p', d')
    /\ at_accept p' /\ restored t1 rs (p_as p) (p_as p')
    /\ d_ckpt d' = d_ckpt d /\ d_rest d' = saved_digest cfg evp (d_rest d) rs.
Proof.
  intros Hat Hrs Hpr Hfd Hf Henv Hsz. unfold target_set_pages. rewrite Hfd.
  destruct (serve_command (se_conn env) p CMD_SET_PAGES PSetPages) as (l & -> & -> & Hs & Has & Hfp);
    [done|done|done|done|unfold CMD_SET_PAGES; lia|]. cbn [rbind negb Z.eqb Pos.eqb].
  pose proof (saved_size_length _ _ _ Hrs).
  destruct (set_pages_loop_restored t1 hi rs (set_pages_fuel (with_fd fd d)) (se_vmr env) (se_buf env) l (with_fd fd d))
    as (l' & d' & -> & Hs' & _ & Hrest & Hck & Hdg); [done|done|by rewrite Has|done|done| |].
  { unfold set_pages_fuel, with_fd. cbn [d_size]. lia. }
  cbn [rbind]. destruct (hang_up_serving PSetPages l') as (H1 & H2 & _); [done|auto|].
  rewrite Has in Hrest. exists (link_close l'), d'. rewrite H2. done.
Qed.

(** ** Protections *)

(** The loops leave areas alone that can be read and written already. *)
Definition rw_area (vma : vm_area) : bool := has (vma_prot vma) PROT_READ && has (vma_prot vma) PROT_WRITE.

Definition in_area (vma : vm_area) (x : Z) : Prop := vma_start vma <= x < vma_end vma.

(** The protections after the loop: an address in an area that was not left
    alone has the new protection of such an area, any other keeps its own. *)
Definition reprotected (new : Z -> Z) (vmas : list vm_area) (t t' : T) : Prop :=
  forall x,
    (exists vma, vma ∈ vmas /\ rw_area vma = false /\ in_area vma x
       /\ as_prot t' x = Some (new (vma_prot vma)))
    \/ (as_prot t' x = as_prot t x /\ forall vma, vma ∈ vmas -> rw_area vma = false -> ~ in_area vma x).

(** Nothing else changed. *)
Definition same_rest (t t' : T) : Prop :=
  same_bytes t' t /\ (forall x, as_dropped t' x = as_dropped t x)
  /\ (forall x, as_locked t' x = as_locked t x) /\ (forall pg, as_pagemap t' pg = as_pagemap t pg).

Definition area_mapped (t : T) (vma : vm_area) : Prop :=
  vma_ok ps vma /\ 0 <= vma_prot vma < 8 /\ forall x, in_area vma x -> mapped t x.

Lemma same_rest_refl t : same_rest t t.
Proof. done. Qed.

Lemma same_rest_trans t1 t2 t3 : same_rest t1 t2 -> same_rest t2 t3 -> same_rest t1 t3.
Proof.
  intros (B & D & L & P) (B' & D' & L' & P'). split; [by transitivity t2|].
  split_and!; intros; [rewrite D'|rewrite L'|rewrite P']; auto.
Qed.

Lemma reprotected_cons new vma vmas t t1 t' :
  rw_area vma = false ->
  (forall x, as_prot t1 x = if in_rangeb (vma_start vma) (vma_end vma - vma_start vma) x
                            then Some (new (vma_prot vma)) else as_prot t x) ->
  reprotected new vmas t1 t' -> reprotected new (vma :: vmas) t t'.
Proof.
  intros Hrw Hp Hr x. destruct (Hr x) as [(v & Hv & ?)|[Hx Hno]].
  - left. exists v. split; [by apply list_elem_of_further|done].
  - rewrite Hx, Hp. destruct (in_rangeb _ _ x) eqn:E.
    + left. exists vma. apply in_rangeb_true in E. unfold in_range in E.
      split_and!; [apply list_elem_of_here|done|unfold in_area; lia|done].
    + right. split; [done|]. apply in_rangeb_false in E. unfold in_range in E.
      intros v [->|Hv]%elem_of_cons; [unfold in_area; lia|auto].
Qed.

Lemma mprotect_loop_ok new vmas ret l :
  (forall p, 0 <= p < 8 -> is_u64 (new p)) ->
  serving PMprotect l -> Forall (area_mapped (p_as (lk_para l))) vmas ->
  exists r l', mprotect_loop new vmas ret l = Ret (r, l') /\ serving PMprotect l'
    /\ p_fpage (lk_para l') = p_fpage (lk_para l)
    /\ reprotected new vmas (p_as (lk_para l)) (p_as (lk_para l'))
    /\ same_rest (p_as (lk_para l)) (p_as (lk_para l')).
Proof.
  intros Hnew. revert ret l. induction vmas as [|vma vmas IH]; intros ret l Hs Hm; cbn [mprotect_loop].
  - exists ret, l. do 3 (split; [done|]). split; [|done]. intros x. right. split; [done|]. intros v Hv. by apply elem_of_nil in Hv.
  - apply Forall_cons_1 in Hm as [(Hv & Hp & Hmap) Hm']. fold (rw_area vma). destruct (rw_area vma) eqn:Erw.
    + destruct (IH ret l Hs Hm') as (r & l' & E & Hs' & Hf & Hr & Hsr). exists r, l'. do 3 (split; [done|]). split; [|done].
      intros x. destruct (Hr x) as [(v & Hv' & ?)|[Hx Hno]].
      * left. exists v. split; [by apply list_elem_of_further|done].
      * right. split; [done|]. intros v [->|Hv']%elem_of_cons; [by rewrite Erw|auto].
    + destruct Hv as (V1 & V2 & V3 & V4 & V5). pose proof (page_size_pos ps Hps).
      rewrite u64_small by (unfold is_u64; lia).
      destruct (serve_mprotect ps l (vma_start vma) (vma_end vma - vma_start vma) (new (vma_prot vma)))
        as (l1 & t1 & -> & Hs1 & Ht1 & Hf1 & Hp1 & Hb & Hd & Hk & Hpm);
        [done|unfold is_u64; lia|unfold is_u64; lia|auto|done|by rewrite Zminus_mod, V4, V5| |].
      { intros x Hx. apply Hmap. unfold in_range in Hx. unfold in_area. lia. }
      cbn [rbind negb Z.eqb]. subst t1.
      destruct (IH 0 l1 Hs1) as (r & l' & E & Hs' & Hf & Hr & Hsr).
      { eapply Forall_impl; [done|]. intros v (? & ? & Hx). split_and!; try done; [lia..|].
        intros x Hin. unfold mapped. rewrite Hp1. case_match; [done|]. by apply Hx. }
      exists r, l'. rewrite E. split_and!; try done; [congruence|by eapply reprotected_cons|].
      eapply same_rest_trans; [|done]. done.
Qed.

Lemma mprotect_command_ok new env vmas p :
  (forall p, 0 <= p < 8 -> is_u64 (new p)) -> env_ok env -> at_accept p -> Forall (area_mapped (p_as p)) vmas ->
  exists r p', mprotect_command new env vmas p = Ret (r, p') /\ at_accept p' /\ p_fpage p' = p_fpage p
    /\ reprotected new vmas (p_as p) (p_as p') /\ same_rest (p_as p) (p_as p').
Proof.
  intros Hnew He Hat Hm. unfold mprotect_command.
  destruct (serve_command env p CMD_MPROTECT PMprotect) as (l & -> & -> & Hs & Has & Hfp);
    [done|done|done|done|unfold CMD_MPROTECT; lia|]. cbn [rbind negb Z.eqb Pos.eqb].
  destruct (mprotect_loop_ok new vmas 1 l) as (r & l' & -> & Hs' & Hf & Hr & Hsr); [done|done|by rewrite Has|].
  cbn [rbind]. destruct (hang_up_serving PMprotect l') as (H1 & H2 & H3); [done|auto|].
  exists r, (link_close l'). rewrite H2, H3, <- Has, <- Hfp. done.
Qed.

(** ** The end *)

Lemma write_byte_ok b p hs fuel :
  alive p = true -> Forall link_benign hs -> (length hs < fuel)%nat ->
  exists hs', __write_loop fuel [b] 0 (Some parasite_status_ok) (Link p hs)
    = Ret (1, Link (parasite_run (feed [b] p)) hs').
Proof.
  intros Ha. revert hs. induction fuel as [|fuel IH]; intros hs Hb Hf; [lia|].
  cbn [__write_loop sys_write link_fd lk_hints lk_para]. rewrite zdrop_0.
  destruct hs as [|[h|e] hs].
  - unfold link_send. rewrite Ha. by eexists.
  - unfold link_send. rewrite Ha.
    assert (E : ztake (clip h (blen [b])) [b] = [b])
      by (apply ztake_all; unfold clip; rewrite blen_cons, blen_nil; lia).
    rewrite E. by eexists.
  - inversion_clear Hb as [|? ? He]. simpl in He; subst e. unfold parasite_status_ok at 1; simpl. rewrite Ha.
    change (EAGAIN =? EAGAIN) with true. cbn [andb]. apply IH; [done|simpl in Hf; lia].
Qed.

Lemma target_cmd_end_ok env p :
  env_ok env -> at_accept p -> exists p', target_cmd_end env p = Ret (1, p') /\ p_mode p' = PExited /\ p_as p' = p_as p.
Proof.
  intros He Hat. unfold target_cmd_end. rewrite parasite_connect_ok, accept_at by (done || by apply at_accept_alive). unfold parasite_write, __write.
  destruct He as (_ & _ & Hh).
  destruct (write_byte_ok (byte.of_Z CMD_END) (Parasite PCommand [] false [] (p_req p) (p_fpage p) (p_as p)) (ce_hints env)
    (io_fuel (blen (cmd_byte CMD_END)) (Link (Parasite PCommand [] false [] (p_req p) (p_fpage p) (p_as p)) (ce_hints env)))) as (hs' & E);
    [done|done|unfold io_fuel; simpl; lia|].
  case_match; tests; [done|]. change (cmd_byte CMD_END) with [byte.of_Z CMD_END] in *. rewrite E. cbn [rbind negb Z.eqb Pos.eqb].
  eexists. split; [done|]. unfold link_close, hang_up. cbn [lk_para].
  assert (Hrun : parasite_run (feed [byte.of_Z CMD_END] (Parasite PCommand [] false [] (p_req p) (p_fpage p) (p_as p)))
    = Parasite PExited [] false [] (p_req p) (p_fpage p) (p_as p)).
  { erewrite parasite_run_step by done. by rewrite parasite_run_blocked. }
  rewrite Hrun. by rewrite parasite_run_blocked.
Qed.
End Restore.
