(* ===== verification/Session.v ===== *)
(** [cmd_checkpoint] and [cmd_restore] of memcr.c: the two halves of a
    session with a target in which the parasite runs. *)
From stdpp Require Import base list.
From S2P Require Import Prelude Io Compress Dump Target Parasite Link Vmas Pages.

(** The globals the two functions work on. *)
Record session (T F C : Type) := Session {
  s_para : parasite T;
  s_dump : dump_state F C;         (** dumped_vm_size and the digest contexts *)
  s_vmas : list vm_area;           (** vmas[], nr_vmas *)
  s_ckpt_digest : bytes * Z;       (** md5_checkpoint_digest and its length *)
  s_rest_digest : bytes * Z;       (** md5_restore_digest and its length *)
}.
Arguments Session {T F C} _ _ _ _ _.
Arguments s_para {T F C} _.
Arguments s_dump {T F C} _.
Arguments s_vmas {T F C} _.
Arguments s_ckpt_digest {T F C} _.
Arguments s_rest_digest {T F C} _.

Section Session.
Context {T : Type} `{AddrSpace T}.
Context (cfg : dump_cfg) (mc : mem_cfg) (kern : kernel).
Context (lz4 : lz4_api) (zstd : zstd_api).
Context {C : Type} (evp : evp_api C).
Context {F : Type} (dump_read : Z -> F -> run (Z * bytes * F)) (dump_write : bytes -> F -> run (Z * F)).
(** [ctx.blob] *)
Context (blob : Z).
#[local] Abbreviation session := (session T F C).
#[local] Abbreviation dump_state := (dump_state F C).

Definition set_ckpt (ctx : option C) (d : dump_state) : dump_state :=
  DumpState (d_fd d) (d_size d) ctx (d_rest d).
Definition set_rest (ctx : option C) (d : dump_state) : dump_state :=
  DumpState (d_fd d) (d_size d) (d_ckpt d) ctx.

(** What the kernel answers during [cmd_checkpoint]. *)
Record ckpt_env := CkptEnv {
  e_maps : option text;            (** /proc/pid/maps *)
  e_off : conn_env;                (** the connection of target_mprotect_off() *)
  e_get : get_env (F := F);
}.

Definition cmd_checkpoint (env : ckpt_env) (s : session) : run (Z * session) :=
  let! (ret, vmas) := scan_target_vmas blob (page_size cfg) (e_maps env) (s_vmas s) in
  if negb (ret =? 0)
  then Ret (1, Session (s_para s) (s_dump s) vmas (s_ckpt_digest s) (s_rest_digest s))
  else
    let! (_, p) := target_mprotect_off (e_off env) vmas (s_para s) in
    let d := if checksum cfg then set_ckpt (md5_init evp) (s_dump s) else s_dump s in
    let! (ret, p, d) := get_target_pages cfg mc kern lz4 zstd evp dump_write (e_get env) vmas p d in
    let '(digest, d) :=
      if checksum cfg then
        let '(md, len, ctx) := md5_final evp (s_ckpt_digest s).1 (d_ckpt d) in
        ((md, len), set_ckpt ctx d)
      else (s_ckpt_digest s, d) in
    let s := Session p d vmas digest (s_rest_digest s) in
    Ret (if negb (ret =? 0) then ret else 0, s).

Record rest_env := RestEnv {
  e_set : set_env (F := F);
  e_on : conn_env;                 (** the connection of target_mprotect_on() *)
  e_end : conn_env;                (** the connection of target_cmd_end() *)
}.

(** The comparison of the digests. *)
Definition digests_differ (ckpt rest : bytes * Z) : bool :=
  (ckpt.2 =? 0) || (rest.2 =? 0) || negb (ckpt.2 =? rest.2)
  || negb (bool_decide (ztake rest.2 ckpt.1 = ztake rest.2 rest.1)).

Definition cmd_restore (env : rest_env) (s : session) : run (Z * session) :=
  if negb (alive (s_para s)) then Ret (1, s)
  else
    let d := if checksum cfg then set_rest (md5_init evp) (s_dump s) else s_dump s in
    let! (ret, p, d) := target_set_pages cfg lz4 zstd evp dump_read (e_set env) (s_para s) d in
    if negb (ret =? 0)
    then Ret (ret, Session p d (s_vmas s) (s_ckpt_digest s) (s_rest_digest s))
    else
      let '(digest, d) :=
        if checksum cfg then
          let '(md, len, ctx) := md5_final evp (s_rest_digest s).1 (d_rest d) in
          ((md, len), set_rest ctx d)
        else (s_rest_digest s, d) in
      if checksum cfg && digests_differ (s_ckpt_digest s) digest
      then Ret (1, Session p d (s_vmas s) (s_ckpt_digest s) digest)
      else
        let! (_, p) := target_mprotect_on (e_on env) (s_vmas s) p in
        let! (_, p) := target_cmd_end (e_end env) p in
        Ret (0, Session p d (s_vmas s) (s_ckpt_digest s) digest).
End Session.
