(* ===== verification/SessionFacts.v ===== *)
(** A checkpoint followed by a restore: the target gets back the memory and the
    protections it had, and what stands between the two functions and a damaged
    dump. *)
From Stdlib Require Import Ascii String.
From stdpp Require Import base list.
From S2P Require Import Prelude Io Compress Dump Target Parasite Link Vmas Pages PageFacts Serve CkptFacts RestFacts Session.
#[local] Set Warnings "-clear-no-such-hyp".

(** The digest functions succeed and a digest is not empty. *)
Class EvpOk {C} (evp : evp_api C) := {
  evp_init_ok : is_Some (EVP_DigestInit evp);
  evp_update_ok c d : is_Some (EVP_DigestUpdate evp c d);
  evp_final_ok c : exists d, EVP_DigestFinal evp c = Some d /\ 0 < blen d;
}.

(** Bits of a protection. *)
Lemma has_pow2 p k : 0 <= k -> has p (2 ^ k) = true -> Z.land p (2 ^ k) = 2 ^ k.
Proof.
  unfold has. intros Hk Hh. tests. destruct (Z.testbit p k) eqn:E.
  - apply Z.bits_inj'. intros i Hi. rewrite Z.land_spec, Z.pow2_bits_eqb by done.
    destruct (Z.eqb_spec k i) as [<-|]; [by rewrite E|by rewrite andb_false_r].
  - destruct Hh. apply Z.bits_inj'. intros i Hi. rewrite Z.land_spec, Z.pow2_bits_eqb, Z.bits_0 by done.
    destruct (Z.eqb_spec k i) as [<-|]; [by rewrite E|by rewrite andb_false_r].
Qed.

Definition rw_bits : Z := Z.lor PROT_READ PROT_WRITE.

Lemma lor_rw p bit : bit = PROT_READ \/ bit = PROT_WRITE -> Z.land (Z.lor p rw_bits) bit = bit.
Proof.
  intros Hb. rewrite Z.land_lor_distr_l. destruct Hb as [-> | ->].
  - change (Z.land rw_bits PROT_READ) with (2 ^ 0). apply Z.bits_inj'. intros i Hi.
    rewrite Z.lor_spec, Z.land_spec. change PROT_READ with (2 ^ 0). rewrite Z.pow2_bits_eqb by done.
    destruct (0 =? i); by rewrite ?andb_false_r, ?orb_true_r.
  - change (Z.land rw_bits PROT_WRITE) with (2 ^ 1). apply Z.bits_inj'. intros i Hi.
    rewrite Z.lor_spec, Z.land_spec. change PROT_WRITE with (2 ^ 1). rewrite Z.pow2_bits_eqb by done.
    destruct (1 =? i); by rewrite ?andb_false_r, ?orb_true_r.
Qed.

Lemma lor_rw_range p : 0 <= p < 8 -> is_u64 (Z.lor p rw_bits).
Proof.
  intros Hp. assert (p = 0 \/ p = 1 \/ p = 2 \/ p = 3 \/ p = 4 \/ p = 5 \/ p = 6 \/ p = 7) by lia.
  unfold is_u64. destruct_or!; subst p; vm_compute; split; congruence.
Qed.

Section Facts.
Context {T : Type} `{AddrSpace T}.
Context (cfg : dump_cfg) `{!AddrSpaceSpec T (page_size cfg)}.
Context (mc : mem_cfg) (kern : kernel) (Hkern : kernel_ok kern).
Context (lz4 : lz4_api) (zstd : zstd_api) `{!Lz4Spec lz4, !ZstdSpec zstd}.
Context {C : Type} (evp : evp_api C) `{!EvpOk evp}.
Context {F : Type} (rd : Z -> F -> run (Z * bytes * F)) (wr : bytes -> F -> run (Z * F)).
Context `{!DumpChannel rd wr}.
Context (Hps : page_size_ok (page_size cfg)) (Hfit : bounds_fit lz4 zstd MAX_VM_REGION_SIZE).
Context (blob : Z).
#[local] Abbreviation ps := (page_size cfg).

(** The areas of a target that was [t0] when it was stopped, as the scan found
    them: in address order, with the protections the kernel has for them; no
    page is locked, and a page of a file mapping that was not written to reads
    the same once dropped. *)
Definition area_of_target (t0 : T) (vma : vm_area) : Prop :=
  vma_ok ps vma /\ 0 <= vma_prot vma < 8
  /\ (forall x, in_area vma x -> as_prot t0 x = Some (vma_prot vma) /\ as_locked t0 x = false)
  /\ (is_anon vma = false -> forall pg, vma_start vma <= pg * ps < vma_end vma ->
       selected mc vma (as_pagemap t0 pg) = true -> page_clean cfg t0 (pg * ps))
  /\ vma_end vma - vma_start vma < 2 ^ 28 * ps /\ vma_end vma < 2 ^ 60.

Definition target_areas (t0 : T) (vmas : list vm_area) : Prop :=
  Forall (area_of_target t0) vmas /\ ascending 0 vmas.

Lemma area_of_target_mapped t0 vma : area_of_target t0 vma -> area_mapped cfg t0 vma.
Proof.
  intros (? & ? & Hx & _). split_and!; try done; [lia..|]. intros x Hin.
  destruct (Hx x Hin) as [E _]. unfold mapped. rewrite E. eauto.
Qed.

(** With protections off every area can be read and written. *)
Lemma area_rw t0 t1 vmas vma x :
  Forall (area_of_target t0) vmas -> vma ∈ vmas ->
  reprotected (fun p => Z.lor p rw_bits) vmas t0 t1 -> in_area vma x ->
  can PROT_READ t1 x /\ can PROT_WRITE t1 x.
Proof.
  intros Hall Hin Hre Hx. destruct (Hre x) as [(v & Hv & _ & Hxv & Hp)|[Hp Hno]].
  - split; (eexists; split; [exact Hp|apply lor_rw; auto]).
  - pose proof (proj1 (Forall_forall _ _) Hall vma Hin) as (_ & _ & Hacc & _).
    destruct (Hacc x Hx) as [E _]. rewrite E in Hp.
    destruct (rw_area vma) eqn:Erw; [|by destruct (Hno vma Hin Erw)].
    unfold rw_area in Erw. tests. split; (eexists; split; [exact Hp|]).
    + by apply (has_pow2 _ 0).
    + by apply (has_pow2 _ 1).
Qed.

Lemma area_off t0 t1 vmas :
  Forall (area_of_target t0) vmas -> reprotected (fun p => Z.lor p rw_bits) vmas t0 t1 -> same_rest t0 t1 ->
  Forall (area_ok cfg mc t1) vmas.
Proof.
  intros Hall Hre (Hb & Hd & Hl & Hpm). apply Forall_forall. intros vma Hin.
  pose proof (proj1 (Forall_forall _ _) Hall vma Hin) as (Hv & _ & Hacc & Hcl & Hsz & Hhi).
  split_and!; try done; try lia.
  - intros x Hx. destruct (area_rw t0 t1 vmas vma x Hall Hin Hre Hx). rewrite Hl.
    destruct (Hacc x Hx). done.
  - intros Ha pg Hpg. rewrite Hpm. intros Hs x Hx. rewrite Hd, Hb. by apply (Hcl Ha pg).
Qed.

(** Off and on again gives back the protections. *)
Lemma reprotect_back t0 t1 t2 t3 vmas :
  Forall (area_of_target t0) vmas -> reprotected (fun p => Z.lor p rw_bits) vmas t0 t1 -> same_prot t2 t1 ->
  reprotected (fun p => p) vmas t2 t3 -> same_prot t3 t0.
Proof.
  intros Hall Hoff H21 Hon x. destruct (Hon x) as [(v & Hv & _ & Hx & Hp)|[Hp Hno]].
  - pose proof (proj1 (Forall_forall _ _) Hall v Hv) as (_ & _ & Hacc & _).
    destruct (Hacc x Hx) as [E _]. congruence.
  - rewrite Hp, (H21 x). destruct (Hoff x) as [(v & Hv & Hrw & Hx & _)|[E _]]; [|done].
    by destruct (Hno v Hv Hrw).
Qed.

(** ** Digests *)

Lemma digest_region_some c v data : exists c', digest_region cfg evp (Some c) v data = Some c'.
Proof.
  unfold digest_region. destruct (checksum cfg); [|eauto]. simpl.
  destruct (evp_update_ok c (vm_region_bytes v)) as [c1 E1]. rewrite E1. simpl.
  destruct (evp_update_ok c1 data) as [c2 E2]. eauto.
Qed.

Lemma saved_digest_some rs c : exists c', saved_digest cfg evp (Some c) rs = Some c'.
Proof.
  revert c. induction rs as [|r rs IH]; intros c; [by eexists|].
  destruct (digest_region_some c r.1 r.2) as [c' E].
  unfold saved_digest in *. simpl. rewrite E. apply IH.
Qed.

(** Two digests of the same regions are found equal. *)
Lemma digests_agree rs md1 md2 :
  exists d, let ctx := saved_digest cfg evp (md5_init evp) rs in
    md5_final evp md1 ctx = (overlay d md1, blen d, None)
    /\ md5_final evp md2 ctx = (overlay d md2, blen d, None)
    /\ digests_differ (overlay d md1, blen d) (overlay d md2, blen d) = false.
Proof.
  destruct evp_init_ok as [c0 E0]. unfold md5_init. rewrite E0.
  destruct (saved_digest_some rs c0) as [c E]. rewrite E.
  destruct (evp_final_ok c) as (d & Ed & Hd). exists d. simpl. rewrite Ed. split_and!; try done.
  unfold digests_differ. cbn [fst snd]. rewrite !ztake_overlay, bool_decide_true by done.
  rewrite (proj2 (Z.eqb_neq _ _)) by lia. by rewrite Z.eqb_refl.
Qed.

(** The two halves, with the state between them. *)
Definition between (t0 : T) (vmas : list vm_area) (t1 : T) (rs : list (vm_region * bytes))
    (s : session T F C) : Prop :=
  reprotected (fun p => Z.lor p rw_bits) vmas t0 t1 /\ same_rest t0 t1
  /\ s_vmas s = vmas /\ at_accept (s_para s)
  /\ (exists ctx, dumped cfg lz4 zstd evp rd wr t1 ctx rs (p_as (s_para s))
        (DumpState (d_fd (s_dump s)) (d_size (s_dump s)) (saved_digest cfg evp ctx rs) None))
  /\ (checksum cfg = true -> exists md, s_ckpt_digest s =
        (md5_final evp md (saved_digest cfg evp (md5_init evp) rs)).1).

Lemma cmd_checkpoint_between env s vmas fd :
  at_accept (s_para s) ->
  scan_target_vmas blob ps (e_maps env) (s_vmas s) = Ret (0, vmas) ->
  target_areas (p_as (s_para s)) vmas ->
  env_ok (e_off env) -> get_env_ok mc rd wr (p_fpage (s_para s)) (e_get env) fd ->
  d_size (s_dump s) = 0 ->
  exists s1 t1 rs, cmd_checkpoint cfg mc kern lz4 zstd evp wr blob env s = Ret (0, s1)
    /\ between (p_as (s_para s)) vmas t1 rs s1.
Proof.
  intros Hat Hscan [Hall Hasc] Hoff Hget Hd. unfold cmd_checkpoint. rewrite Hscan. cbn [rbind negb Z.eqb].
  destruct (mprotect_command_ok cfg Hps (fun p => Z.lor p rw_bits) (e_off env) vmas (s_para s))
    as (r1 & p1 & E1 & Hacc1 & Hfp1 & Hre & Hsr); [apply lor_rw_range|done|done| |].
  { eapply Forall_impl; [done|]. apply area_of_target_mapped. }
  change (target_mprotect_off (e_off env) vmas (s_para s))
    with (mprotect_command (fun p => Z.lor p rw_bits) (e_off env) vmas (s_para s)). rewrite E1. cbn [rbind].
  set (d := if checksum cfg then set_ckpt (md5_init evp) (s_dump s) else s_dump s).
  assert (Hdd : d_size d = 0) by (unfold d; by destruct (checksum cfg)).
  destruct (get_target_pages_dumped cfg mc kern Hkern lz4 zstd evp rd wr Hps Hfit (e_get env) vmas p1 d fd (p_as p1))
    as (p2 & d2 & rs & E2 & Hacc2 & Hdump); [by rewrite Hfp1|done|done|done|by eapply area_off|done|].
  rewrite E2. cbn [rbind]. destruct Hdump as (D1 & D2 & D3 & D4 & D5 & D6).
  destruct (checksum cfg) eqn:Ec.
  - destruct (md5_final evp (s_ckpt_digest s).1 (d_ckpt d2)) as [[md len] ctx] eqn:Ef.
    eexists _, (p_as p1), rs. split; [done|]. do 4 (split; [done|]). split; [by exists (d_ckpt d)|].
    intros _. exists (s_ckpt_digest s).1. cbn [s_ckpt_digest]. rewrite D6 in Ef. unfold d in Ef.
    cbn [d_ckpt set_ckpt] in Ef. by rewrite Ef.
  - eexists _, (p_as p1), rs. split; [done|]. do 4 (split; [done|]). split; [by exists (d_ckpt d)|].
    by rewrite Ec.
Qed.

(** The end of [cmd_restore] once the pages are back: the protections are put
    back and the parasite leaves. *)
Lemma restore_end on end_ vmas p :
  at_accept p -> env_ok on -> env_ok end_ -> Forall (area_mapped cfg (p_as p)) vmas ->
  exists r p2 r' p3, target_mprotect_on on vmas p = Ret (r, p2) /\ target_cmd_end end_ p2 = Ret (r', p3)
    /\ p_mode p3 = PExited /\ same_bytes (p_as p3) (p_as p) /\ reprotected (fun p => p) vmas (p_as p) (p_as p3).
Proof.
  intros Hat He2 He3 Hm.
  destruct (mprotect_command_ok cfg Hps (fun p => p) on vmas p)
    as (r2 & p2 & E2 & Hat2 & _ & Hre & (Hb2 & _)); [unfold is_u64; lia|done..|].
  destruct (target_cmd_end_ok end_ p2) as (p3 & E3 & Hex & Has); [done..|].
  exists r2, p2, 1, p3. rewrite Has. done.
Qed.

Lemma area_mapped_same_prot t t' vma : same_prot t t' -> area_mapped cfg t' vma -> area_mapped cfg t vma.
Proof.
  intros Hp (? & ? & Hx). split_and!; try done; [lia..|]. intros x Hin. apply (mapped_proper _ _ Hp x x eq_refl). auto.
Qed.

(** The areas with the protections off are still mapped. *)
Lemma area_mapped_off t0 t1 vmas :
  Forall (area_of_target t0) vmas -> reprotected (fun p => Z.lor p rw_bits) vmas t0 t1 -> Forall (area_mapped cfg t1) vmas.
Proof.
  intros Hall Hre. eapply Forall_impl; [done|]. intros vma Hvma. destruct (area_of_target_mapped _ _ Hvma) as (? & ? & Hm).
  split_and!; try done; [lia..|]. intros x Hx. destruct (Hre x) as [(v & _ & _ & _ & E)|[E _]].
  - unfold mapped. rewrite E. eauto.
  - unfold mapped. rewrite E. by apply Hm.
Qed.

Lemma cmd_restore_between env s t0 vmas t1 rs fd :
  Forall (area_of_target t0) vmas -> between t0 vmas t1 rs s ->
  se_fd (e_set env) = Some fd -> dc_reader rd wr fd (saved_img cfg lz4 zstd rd wr rs) ->
  env_ok (se_conn (e_set env)) -> env_ok (e_on env) -> env_ok (e_end env) ->
  exists s2, cmd_restore cfg lz4 zstd evp rd env s = Ret (0, s2)
    /\ same_bytes (p_as (s_para s2)) t0 /\ same_prot (p_as (s_para s2)) t0 /\ p_mode (s_para s2) = PExited.
Proof.
  intros Hall (Hre & Hsr & Hv & Hacc & (ctx & D1 & D2 & [hi D3] & D4 & D5 & _) & Hdig) Hfd Hf He1 He2 He3.
  unfold cmd_restore. assert (Hal : alive (s_para s) = true) by (unfold alive; by rewrite Hacc).
  rewrite Hal. cbn [negb]. cbn [d_size] in D5.
  set (d := if checksum cfg then set_rest (md5_init evp) (s_dump s) else s_dump s).
  assert (Hdd : d_size d = saved_size rs) by (unfold d; by destruct (checksum cfg)).
  destruct (target_set_pages_restored cfg lz4 zstd evp rd wr Hps Hfit t1 hi rs (e_set env) (s_para s) d fd)
    as (p1 & d1 & -> & Hacc1 & [Rp Rb] & _ & Hrest); [done..|lia|].
  cbn [rbind negb Z.eqb].
  assert (Hbytes : same_bytes (p_as p1) t0).
  { intros x. rewrite Rb. destruct Hsr as (Hb & _). case_decide as Hin; [apply Hb|].
    destruct (D2 x) as [-> |]; [apply Hb|done]. }
  assert (Hp1 : same_prot (p_as p1) t1) by (by transitivity (p_as (s_para s))).
  destruct (restore_end (e_on env) (e_end env) vmas p1) as (r & p2 & r' & p3 & E2 & E3 & Hex & Hb & Hon); [done..| |].
  { eapply Forall_impl; [by eapply area_mapped_off|]. intros vma. by apply area_mapped_same_prot. }
  assert (Hdone : same_bytes (p_as p3) t0 /\ same_prot (p_as p3) t0 /\ p_mode p3 = PExited).
  { split_and!; [by transitivity (p_as p1)| |done]. by eapply (reprotect_back t0 t1 (p_as p1)). }
  rewrite Hv.
  destruct (checksum cfg) eqn:Ec; cbn [andb].
  - destruct (Hdig eq_refl) as [md Hmd].
    destruct (digests_agree rs md (s_rest_digest s).1) as (dg & F1 & F2 & F3).
    rewrite Hrest. unfold d. cbn [set_rest d_rest]. rewrite F2. rewrite Hmd, F1. cbn [fst].
    rewrite F3, E2. cbn [rbind]. rewrite E3. cbn [rbind]. eexists. split; [done|]. done.
  - rewrite E2. cbn [rbind]. rewrite E3. cbn [rbind]. eexists. split; [done|]. done.
Qed.

(** C3: a checkpoint followed by a restore is the identity on the target.
    For every compression, with or without digests, with /proc/pid/mem or
    through the parasite, with the pagemap read by memcr or by the parasite, for
    short reads and writes anywhere, and even when the checkpoint is aborted
    between areas: [cmd_checkpoint] succeeds, and a [cmd_restore] that reads the
    dump back succeeds and leaves every byte and every protection of the address
    space as they were before the checkpoint, with the parasite gone.  What this
    asks for: the parasite waits for a connection and the connections to it
    succeed; nothing was accounted as dumped before; and the areas scanned are the
    target's, which means that they are in ascending order with the protections
    the kernel has for them, hold no locked page (on one, the checkpoint fails),
    are smaller than 2^28 pages and end below 2^60, and that a page of a file
    mapping which is selected for dropping reads the same once it is dropped. *)
Theorem checkpoint_restore env s vmas fd :
  at_accept (s_para s) ->
  scan_target_vmas blob ps (e_maps env) (s_vmas s) = Ret (0, vmas) ->
  target_areas (p_as (s_para s)) vmas ->
  env_ok (e_off env) -> get_env_ok mc rd wr (p_fpage (s_para s)) (e_get env) fd ->
  d_size (s_dump s) = 0 ->
  exists s1 img, cmd_checkpoint cfg mc kern lz4 zstd evp wr blob env s = Ret (0, s1)
    /\ dc_writer rd wr (d_fd (s_dump s1)) img
    /\ forall renv rfd,
         se_fd (e_set renv) = Some rfd -> dc_reader rd wr rfd img ->
         env_ok (se_conn (e_set renv)) -> env_ok (e_on renv) -> env_ok (e_end renv) ->
         exists s2, cmd_restore cfg lz4 zstd evp rd renv s1 = Ret (0, s2)
           /\ same_bytes (p_as (s_para s2)) (p_as (s_para s))
           /\ same_prot (p_as (s_para s2)) (p_as (s_para s))
           /\ p_mode (s_para s2) = PExited.
Proof.
  intros Hat Hscan Htarget Hoff Hget Hd.
  destruct (cmd_checkpoint_between env s vmas fd) as (s1 & t1 & rs & E & Hbt); [done..|].
  exists s1, (saved_img cfg lz4 zstd rd wr rs). split; [done|]. split.
  { destruct Hbt as (_ & _ & _ & _ & (ctx & _ & _ & _ & D4 & _) & _). exact D4. }
  intros renv rfd Hfd Hf He1 He2 He3. destruct Htarget as [Hall _]. by eapply cmd_restore_between.
Qed.

(** C39: without digests a truncated dump is taken for a complete one.  A target
    [t0] was checkpointed ([t1]: with the protections off) and the records
    [rs1 ++ rs2] dumped; when the file ends after [rs1], nothing compares what was
    read with dumped_vm_size: [cmd_restore] reports success, puts the protections
    back and lets the target go; the addresses of [rs1] have their bytes again,
    and every other one, those of [rs2] among them, keeps what it reads after its
    page was dropped. *)
Theorem truncated_dump_accepted renv s t0 t1 hi rs1 rs2 rfd :
  checksum cfg = false -> at_accept (s_para s) ->
  Forall (area_of_target t0) (s_vmas s) -> reprotected (fun p => Z.lor p rw_bits) (s_vmas s) t0 t1 ->
  Forall (saved_ok cfg t1 hi) (rs1 ++ rs2) -> same_prot (p_as (s_para s)) t1 ->
  d_size (s_dump s) = saved_size (rs1 ++ rs2) ->
  se_fd (e_set renv) = Some rfd -> dc_reader rd wr rfd (saved_img cfg lz4 zstd rd wr rs1) ->
  env_ok (se_conn (e_set renv)) -> env_ok (e_on renv) -> env_ok (e_end renv) ->
  exists s2, cmd_restore cfg lz4 zstd evp rd renv s = Ret (0, s2) /\ p_mode (s_para s2) = PExited
    /\ same_prot (p_as (s_para s2)) t0
    /\ forall x, as_byte (p_as (s_para s2)) x = if decide (in_saved rs1 x) then as_byte t1 x else as_byte (p_as (s_para s)) x.
Proof.
  intros Hck Hat Hall Hoff Hrs Hpr Hsz Hfd Hf He1 He2 He3. apply Forall_app in Hrs as [Hrs1 Hrs2].
  assert (Hle : saved_size rs1 <= d_size (s_dump s)).
  { rewrite Hsz. pose proof (saved_size_nonneg _ _ _ _ Hrs2) as Hn. clear -Hn.
    induction rs1 as [|r rs1 IH]; simpl; [done|lia]. }
  unfold cmd_restore. rewrite at_accept_alive, Hck by done. cbn [negb andb].
  destruct (target_set_pages_restored cfg lz4 zstd evp rd wr Hps Hfit t1 hi rs1 (e_set renv) (s_para s) (s_dump s) rfd)
    as (p1 & d1 & -> & Hacc1 & [Rp Rb] & _); [done..|]. cbn [rbind negb Z.eqb].
  assert (Hp1 : same_prot (p_as p1) t1) by (by transitivity (p_as (s_para s))).
  destruct (restore_end (e_on renv) (e_end renv) (s_vmas s) p1) as (r & p2 & r' & p3 & -> & E3 & Hex & Hb & Hon); [done..| |].
  { eapply Forall_impl; [by eapply area_mapped_off|]. intros vma. by apply area_mapped_same_prot. }
  cbn [rbind]. rewrite E3. cbn [rbind]. eexists. split; [done|]. split; [done|]. cbn [s_para]. split.
  - by eapply (reprotect_back t0 t1 (p_as p1)).
  - intros x. by rewrite Hb, Rb.
Qed.

End Facts.

(** Whatever the dump file, the parasite and the kernel did, [cmd_restore] with
    digests on returns 0 only when a digest was taken on both sides and the two
    are equal. *)
Lemma cmd_restore_digests {T} `{AddrSpace T} cfg lz4 zstd {C} (evp : evp_api C) {F}
    (rd : Z -> F -> run (Z * bytes * F)) renv (s s2 : session T F C) :
  checksum cfg = true -> cmd_restore cfg lz4 zstd evp rd renv s = Ret (0, s2) ->
  alive (s_para s) = true /\
  let '(a, n) := s_ckpt_digest s in let '(b, m) := s_rest_digest s2 in
  n <> 0 /\ n = m /\ ztake n a = ztake n b.
Proof.
  intros Hck. unfold cmd_restore. destruct (alive (s_para s)); [|done]. rewrite Hck. cbn [negb andb].
  intros E. split; [done|]. apply rbind_ret in E as ([[ret p] d] & _ & E).
  case_match eqn:Er; tests; [by simplify_eq|].
  destruct (md5_final evp (s_rest_digest s).1 (d_rest d)) as [[md len] ctx].
  destruct (digests_differ (s_ckpt_digest s) (md, len)) eqn:Ed; [done|].
  apply rbind_ret in E as ([r1 p1] & _ & E). apply rbind_ret in E as ([r2 p2] & _ & E).
  simplify_eq. cbn [s_rest_digest]. unfold digests_differ in Ed. destruct (s_ckpt_digest s) as [a n].
  cbn [fst snd] in Ed. tests. apply bool_decide_eq_true in H1. subst. done.
Qed.

(** * Witnesses *)

(** A digest that keeps everything it was fed, after a tag byte. *)
Definition tag_evp : evp_api bytes := {|
  EVP_DigestInit := Some [Byte.x01];
  EVP_DigestUpdate c d := Some (c ++ d);
  EVP_DigestFinal c := Some (Byte.x01 :: c);
|}.

#[export] Instance tag_evp_ok : EvpOk tag_evp.
Proof. split; [by eexists|by eexists|]. intros c. eexists. split; [done|]. blia. Qed.

(** Two read-only pages and one writable page, all resident. *)
Definition wit_as : simple_as :=
  SimpleAs byte.of_Z
    (fun x => if in_rangeb 4096 8192 x then Some 1 else if in_rangeb 20480 4096 x then Some 3 else None)
    (fun _ => Byte.x00) (fun _ => false) (fun _ => BIT PM_PAGE_PRESENT).

Definition wit_maps : text :=
  txt "00001000-00003000 r--p 00000000 00:00 0" ++ newline ::
  txt "00005000-00006000 rw-p 00000000 00:00 0      [heap]" ++ [newline].

Definition wit_vmas : list vm_area := [VmArea 4096 12288 1 FLAG_ANON; VmArea 20480 24576 3 FLAG_HEAP].

Definition wit_cfg : dump_cfg := {| page_size := 4096; checksum := true; algo := Lz4 |}.
Definition wit_mc : mem_cfg := {| proc_mem := false; rss_file := false |}.
Definition wit_kern : kernel :=
  {| kpageflags _ := None; k_mem_seek a := a; k_pd_seek o := o; k_calloc _ := true |}.
Definition wit_para : parasite simple_as := Parasite PAccept [] true [] (replicate 28 Byte.x00) false wit_as.
Definition wit_conn : conn_env := ConnEnv true [false; true] [HErr EAGAIN; HShort 3].
Definition wit_session : session simple_as stream bytes :=
  Session wit_para (DumpState (Stream [] []) 0 None None) [] ([], 0) ([], 0).
Definition wit_env : ckpt_env (F := stream) :=
  CkptEnv (Some wit_maps) wit_conn (GetEnv 5 (Some (Stream [] [HShort 100])) (-1) wit_conn [] [] [false; true]).

Lemma wit_conn_ok : env_ok wit_conn.
Proof. split_and!; [done|done|repeat constructor]. Qed.

Lemma wit_target : target_areas wit_cfg wit_mc wit_as wit_vmas.
Proof.
  split; [|by repeat split]. repeat apply Forall_cons_2; [| |by apply Forall_nil_2].
  - split; [by repeat split|]. split; [by repeat split|]. split; [|by repeat split].
    intros x Hx. unfold in_area in Hx. simpl in *. unfold in_rangeb.
    by replace ((4096 <=? x) && (x <? 4096 + 8192)) with true by lia.
  - split; [by repeat split|]. split; [by repeat split|]. split; [|by repeat split].
    intros x Hx. unfold in_area in Hx. simpl in *. unfold in_rangeb.
    replace ((4096 <=? x) && (x <? 4096 + 8192)) with false by lia.
    by replace ((20480 <=? x) && (x <? 20480 + 4096)) with true by lia.
Qed.

Lemma checkpoint_restore_witness :
  exists s1 img,
    cmd_checkpoint wit_cfg wit_mc wit_kern store_lz4 store_zstd tag_evp (dump_write None) 0x7000 wit_env wit_session
      = Ret (0, s1)
    /\ dc_writer (dump_read None) (dump_write None) (d_fd (s_dump s1)) img
    /\ forall renv rfd,
         se_fd (e_set renv) = Some rfd -> dc_reader (dump_read None) (dump_write None) rfd img ->
         env_ok (se_conn (e_set renv)) -> env_ok (e_on renv) -> env_ok (e_end renv) ->
         exists s2, cmd_restore wit_cfg store_lz4 store_zstd tag_evp (dump_read None) renv s1 = Ret (0, s2)
           /\ same_bytes (p_as (s_para s2)) wit_as /\ same_prot (p_as (s_para s2)) wit_as
           /\ p_mode (s_para s2) = PExited.
Proof.
  apply (checkpoint_restore wit_cfg wit_mc wit_kern ltac:(by split) store_lz4 store_zstd tag_evp
    (dump_read None) (dump_write None) page4_ok ltac:(ground) 0x7000 wit_env wit_session wit_vmas
    (Stream [] [HShort 100])).
  - reflexivity.
  - vm_compute. reflexivity.
  - apply wit_target.
  - apply wit_conn_ok.
  - split_and!; try done; [repeat constructor|apply wit_conn_ok|by left].
  - reflexivity.
Defined.

Definition wit_empty : session simple_as stream bytes :=
  Session wit_para (DumpState (Stream [] []) 0 None None) [] ([Byte.x01; Byte.x01], 2) ([], 0).
Definition wit_renv : rest_env (F := stream) :=
  RestEnv (SetEnv (Some (Stream [] [])) wit_conn (VmRegion 0 0) []) wit_conn wit_conn.

(** The dump of the page at 20480, from which the file lost everything. *)
Lemma truncated_dump_accepted_witness :
  let cfg := {| page_size := 4096; checksum := false; algo := Plain |} in
  let off x := if in_rangeb 4096 8192 x then Some 3 else sa_prot wit_as x in
  let t1 := SimpleAs (sa_byte wit_as) off (sa_dropped wit_as) (sa_locked wit_as) (sa_pagemap wit_as) in
  let t := SimpleAs (sa_dropped wit_as) off (sa_dropped wit_as) (sa_locked wit_as) (sa_pagemap wit_as) in
  let s := Session (Parasite PAccept [] true [] (replicate 28 Byte.x00) false t)
    (DumpState (Stream [] []) 4096 None None) wit_vmas ([], 0) ([], 0) in
  exists s2, cmd_restore cfg store_lz4 store_zstd tag_evp (dump_read None) wit_renv s = Ret (0, s2)
    /\ p_mode (s_para s2) = PExited /\ same_prot (p_as (s_para s2)) wit_as
    /\ forall x, as_byte (p_as (s_para s2)) x = if decide (in_saved [] x) then as_byte t1 x else as_byte t x.
Proof.
  intros cfg off t1 t s.
  apply (truncated_dump_accepted cfg wit_mc store_lz4 store_zstd tag_evp (dump_read None) (dump_write None)
    page4_ok ltac:(ground) wit_renv s wit_as t1 24576 []
    [(VmRegion 20480 4096, mem_bytes t1 20480 4096)] (Stream [] [])); try done; try apply wit_conn_ok.
  - destruct wit_target as [Hall _]. exact Hall.
  - intros x. simpl. unfold off, in_rangeb. destruct ((4096 <=? x) && (x <? 4096 + 8192)) eqn:E.
    + left. exists (VmArea 4096 12288 1 FLAG_ANON). split_and!; [by left|done| |done]. unfold in_area. cbn. tests. lia.
    + right. split; [simpl; unfold in_rangeb; by rewrite E|]. intros v Hv Hrw. unfold wit_vmas in Hv. rewrite !elem_of_cons, elem_of_nil in Hv.
      destruct_or! Hv; subst; try done. unfold in_area. cbn. tests. lia.
  - apply Forall_singleton. split_and!; cbn [fst snd vmr_addr vmr_len].
    + split; [by split|]. split; [apply blen_mem_bytes; done|done].
    + done.
    + lia.
    + intros x Hx. exists 3. split; [|done]. unfold in_range in Hx. simpl. unfold off, in_rangeb. simpl. unfold in_rangeb.
      replace ((4096 <=? x) && (x <? 4096 + 8192)) with false by lia.
      by replace ((20480 <=? x) && (x <? 20480 + 4096)) with true by lia.
Defined.
