(* ===== verification/Proto.v ===== *)
(** The protocol between clients, service and workers (memcrclient_proto.h):
    the encodings of a command and a response, the functions of memcr.c that
    read and send them, the client library (libmemcrclient.c) and the client
    (memcr-client.c). *)
From Stdlib Require Import Ascii String.
From stdpp Require Import base list strings.
From S2P Require Import Prelude Io.
#[local] Open Scope Z_scope.

(** * memcrclient_proto.h *)

Definition MEMCR_CHECKPOINT : Z := 100.
Definition MEMCR_RESTORE : Z := 101.

(** The two fields are 32 bits wide, signed, packed. *)
Record service_command_t := SvcCmd { sc_cmd : Z; sc_pid : Z }.

Definition MEMCR_OK : Z := 0.
Definition MEMCR_ERROR_GENERAL : Z := -1.
Definition MEMCR_INVALID_PID : Z := -2.

Definition int_bytes (z : Z) : bytes := le_split 4 (u32 z).
Definition int_of (b : bytes) : Z := i32 (le_combine b).

Definition sizeof_service_command : Z := 8.
Definition sizeof_service_response : Z := 4.

Definition command_bytes (c : service_command_t) : bytes := int_bytes (sc_cmd c) ++ int_bytes (sc_pid c).
Definition command_of (b : bytes) : service_command_t := SvcCmd (int_of (ztake 4 b)) (int_of (ztake 4 (zdrop 4 b))).

Definition is_i32 (z : Z) : Prop := - 2 ^ 31 <= z < 2 ^ 31.

(** * The service's side (memcr.c) *)

Section Server.
Context {S : Type} `{Fd S}.

(** [svc_cmd] is the caller's struct, which a failed read leaves partly filled. *)
Definition read_command (svc_cmd : service_command_t) (cd : S) : run (Z * service_command_t * S) :=
  let! (ret, b, cd) := _read sizeof_service_command cd in
  let svc_cmd := command_of (overlay b (command_bytes svc_cmd)) in
  if negb (u64 ret =? sizeof_service_command) then Ret (-1, svc_cmd, cd)
  else Ret (ret, svc_cmd, cd).

Definition send_response_to_client (resp_code : Z) (cd : S) : run (Z * S) :=
  let! (ret, cd) := _write (int_bytes resp_code) cd in
  if negb (u64 ret =? sizeof_service_response) then Ret (-1, cd) else Ret (0, cd).

Definition send_response_to_service (status : Z) (fd : S) : run (Z * S) :=
  let resp_code := if negb (status =? 0) then MEMCR_ERROR_GENERAL else MEMCR_OK in
  let! (ret, fd) := _write (int_bytes resp_code) fd in
  if negb (u64 ret =? sizeof_service_response) then Ret (-1, fd) else Ret (0, fd).

(** [checkpoint_service_socket] is [None] when invalid; [svc_cmd] is the
    uninitialised local. *)
Definition is_checkpoint_aborted (interrupted service : bool) (svc_cmd : service_command_t) (sd : option S)
    : run (Z * option S) :=
  if interrupted then Ret (1, sd)
  else if service then
    match sd with
    | None => Ret (0, None)
    | Some fd =>
        let! (ret, b, fd) := _read sizeof_service_command fd in
        let svc_cmd := command_of (overlay b (command_bytes svc_cmd)) in
        Ret (if (u64 ret =? sizeof_service_command) && (sc_cmd svc_cmd =? MEMCR_RESTORE) then 1 else 0, Some fd)
    end
  else Ret (0, sd).
End Server.

(** * The client library (libmemcrclient.c) *)

(** A connected stream socket: what arrives from the other side, and what is
    sent to it. *)
Record socket := Socket { so_in : stream; so_out : stream }.

#[export] Instance socket_fd : Fd socket := {|
  sys_read n s := let '(r, i) := sys_read n (so_in s) in (r, Socket i (so_out s));
  sys_write b s := let '(r, o) := sys_write b (so_out s) in (r, Socket (so_in s) o);
  fd_patience s := (fd_patience (so_in s) + fd_patience (so_out s))%nat;
|}.

Section Client.
Context {S : Type} `{Fd S}.

(** One write(2), one read(2): the response's struct is zeroed first. *)
Definition send_cmd (cmd : service_command_t) (cd : S) : Z * S :=
  match sys_write (command_bytes cmd) cd with
  | (WrFail _, cd) => (-1, cd)
  | (WrGot n, cd) =>
      if negb (n =? sizeof_service_command) then (-1, cd)
      else
        match sys_read sizeof_service_response cd with
        | (RdFail _, cd) => (-1, cd)
        | (RdGot b, cd) =>
            if negb (blen b =? sizeof_service_response) then (-1, cd) else (int_of b, cd)
        end
  end.

(** [pid] is an unsigned int, the field a pid_t. *)
Definition memcr_client_checkpoint (cd : S) (pid : Z) : Z * S := send_cmd (SvcCmd MEMCR_CHECKPOINT (i32 pid)) cd.
Definition memcr_client_restore (cd : S) (pid : Z) : Z * S := send_cmd (SvcCmd MEMCR_RESTORE (i32 pid)) cd.
End Client.

(** ** Addresses *)

(** atoi(): blanks, a sign, digits; what follows is ignored. *)
Definition is_blank (c : ascii) : bool :=
  let n := nat_of_ascii c in bool_decide (n = 32)%nat || (bool_decide (9 <= n)%nat && bool_decide (n <= 13)%nat).

Definition digit (c : ascii) : option Z :=
  let n := Z.of_nat (nat_of_ascii c) in if (48 <=? n) && (n <=? 57) then Some (n - 48) else None.

Fixpoint digits (acc : Z) (s : string) : Z :=
  match s with
  | String c s => match digit c with Some d => digits (10 * acc + d) s | None => acc end
  | EmptyString => acc
  end.

Fixpoint atoi (s : string) : Z :=
  match s with
  | String c s' =>
      if is_blank c then atoi s'
      else if (c =? "-")%char then i32 (- digits 0 s')
      else if (c =? "+")%char then i32 (digits 0 s')
      else i32 (digits 0 s)
  | EmptyString => 0
  end.

(** sun_path has 108 bytes, so snprintf() keeps 107 characters. *)
Definition SUN_PATH_MAX : nat := 107.

Inductive sockaddr :=
| AF_UNIX (sun_path : string)
| AF_INET (s_addr sin_port : Z).

#[export] Instance sockaddr_eq_dec : EqDecision sockaddr.
Proof. solve_decision. Defined.

Definition INADDR_ANY : Z := 0.
Definition INADDR_LOOPBACK : Z := 2130706433.

(** sin_port is 16 bits wide. *)
Definition htons (port : Z) : Z := port mod 2 ^ 16.

Definition snprintf_path (path : string) : string := String.substring 0 SUN_PATH_MAX path.

Definition connect_unix (path : string) : sockaddr := AF_UNIX (snprintf_path path).
Definition connect_tcp (port : Z) : sockaddr := AF_INET INADDR_LOOPBACK (htons port).

(** Where [memcr_client_connect] connects to. *)
Definition client_addr (comm_location : string) : sockaddr :=
  let port := atoi comm_location in
  if 0 <? port then connect_tcp port else connect_unix comm_location.

(** [xconnect]: what socket(2) and connect(2) answer at the address. *)
Definition memcr_client_connect {S} (net : sockaddr -> option S) (comm_location : string) : option S :=
  net (client_addr comm_location).

(** ** The client (memcr-client.c) *)

(** An option as getopt_long() returns it. *)
Inductive copt :=
| OHelp | OLocation (optarg : string) | OPid (optarg : string) | OCheckpoint | ORestore | OVersion | OUnknown.

(** exit(status) in the loop over the options, or the values of the variables. *)
Record client_args := ClientArgs {
  ca_location : option string;
  ca_pid : Z;
  ca_checkpoint : bool;
  ca_restore : bool;
}.

Fixpoint client_options (opts : list copt) (a : client_args) : Z + client_args :=
  match opts with
  | [] => inr a
  | OHelp :: _ => inl 0
  | OLocation l :: opts => client_options opts (ClientArgs (Some l) (ca_pid a) (ca_checkpoint a) (ca_restore a))
  | OPid p :: opts => client_options opts (ClientArgs (ca_location a) (atoi p) (ca_checkpoint a) (ca_restore a))
  | OCheckpoint :: opts => client_options opts (ClientArgs (ca_location a) (ca_pid a) true (ca_restore a))
  | ORestore :: opts => client_options opts (ClientArgs (ca_location a) (ca_pid a) (ca_checkpoint a) true)
  | OVersion :: _ => inl 0
  | OUnknown :: _ => inl 1
  end.

(** The exit status and the socket at the end, if one was opened. *)
Definition client_main {S} `{Fd S} (net : sockaddr -> option S) (opts : list copt) : Z * option S :=
  match client_options opts (ClientArgs None 0 false false) with
  | inl status => (status, None)
  | inr a =>
      match ca_location a with
      | None => (1, None)
      | Some loc =>
          if ca_pid a =? 0 then (1, None)
          else if negb (ca_checkpoint a) && negb (ca_restore a) then (1, None)
          else
            match memcr_client_connect net loc with
            | None => (-1, None)
            | Some cd =>
                let '(ret, cd) := if ca_checkpoint a then memcr_client_checkpoint cd (u32 (ca_pid a)) else (0, cd) in
                let '(ret, cd) := if ca_restore a then memcr_client_restore cd (u32 (ca_pid a)) else (ret, cd) in
                (ret, Some cd)
            end
      end
  end.

(** * Lemmas *)

Lemma blen_int_bytes z : blen (int_bytes z) = 4.
Proof. unfold int_bytes; blia. Qed.
#[export] Hint Rewrite blen_int_bytes : blen.

Lemma int_of_bytes z : is_i32 z -> int_of (int_bytes z) = z.
Proof.
  unfold is_i32, int_of, int_bytes. intros Hz. rewrite le_combine_split_4 by apply u32_range.
  unfold i32, u32. rewrite Z.add_mod_idemp_l by lia. rewrite Z.mod_small; lia.
Qed.

Lemma i32_u32 z : is_i32 z -> i32 (u32 z) = z.
Proof. unfold is_i32. intros Hz. unfold i32, u32. rewrite Z.add_mod_idemp_l by lia. rewrite Z.mod_small; lia. Qed.

Definition command_ok (c : service_command_t) : Prop := is_i32 (sc_cmd c) /\ is_i32 (sc_pid c).

Lemma blen_command_bytes c : blen (command_bytes c) = 8.
Proof. unfold command_bytes; blia. Qed.
#[export] Hint Rewrite blen_command_bytes : blen.

Lemma command_of_bytes c : command_ok c -> command_of (command_bytes c) = c.
Proof.
  intros [H1 H2]. destruct c as [cmd pid]. unfold command_of, command_bytes. cbn [sc_cmd sc_pid] in *.
  rewrite ztake_app_exact, zdrop_app_exact, ztake_all by blia. by rewrite !int_of_bytes.
Qed.

Lemma read_command_ok c c0 data hints :
  command_ok c -> Forall rd_benign hints ->
  exists hints', read_command c0 (Stream (command_bytes c ++ data) hints) = Ret (8, c, Stream data hints')
    /\ Forall rd_benign hints'.
Proof.
  intros Hc Hh. unfold read_command, sizeof_service_command.
  destruct (_read_full 8 (command_bytes c ++ data) hints) as (h' & -> & Hh'); [lia|blia|done|].
  rewrite ztake_app_exact, zdrop_app_exact by blia. cbn [rbind]. rewrite overlay_all, command_of_bytes by (done || blia).
  eauto.
Qed.

Lemma send_response_ok code data hints :
  Forall wr_benign hints ->
  exists hints', send_response_to_client code (Stream data hints) = Ret (0, Stream (data ++ int_bytes code) hints')
    /\ Forall wr_benign hints'.
Proof.
  intros Hh. unfold send_response_to_client.
  destruct (_write_full (int_bytes code) data hints) as (h' & -> & Hh'); [blia|done|].
  rewrite blen_int_bytes. cbn [rbind]. eauto.
Qed.

(** A client whose kernel does not split eight bytes. *)
Lemma send_cmd_ok cmd code rest out :
  is_i32 code ->
  send_cmd cmd (Socket (Stream (int_bytes code ++ rest) []) (Stream out []))
    = (code, Socket (Stream rest []) (Stream (out ++ command_bytes cmd) [])).
Proof.
  intros Hc. unfold send_cmd, sizeof_service_response, sizeof_service_command.
  cbn [sys_write sys_read socket_fd stream_fd so_in so_out st_hints st_data].
  rewrite blen_command_bytes, ztake_app_exact, zdrop_app_exact by blia. cbn [Z.eqb Pos.eqb negb].
  rewrite blen_int_bytes, int_of_bytes by done. done.
Qed.

(** A peer that has closed the connection. *)
Lemma send_cmd_unanswered cmd rhints out :
  exists cd, send_cmd cmd (Socket (Stream [] rhints) out) = (-1, cd).
Proof.
  unfold send_cmd. cbn [sys_write socket_fd so_in so_out]. destruct (sys_write (command_bytes cmd) out) as [[n|e] o]; [|eauto].
  case_match; [eauto|]. cbn [sys_read socket_fd stream_fd so_in st_hints st_data].
  destruct rhints as [|[h|e] hs]; [| |eauto].
  - unfold ztake. rewrite take_nil. cbn. eauto.
  - unfold ztake. rewrite take_nil. cbn. eauto.
Qed.

(** [read_command] returns the size of a command or -1. *)
Lemma read_command_values {S} `{Fd S} svc_cmd (cd : S) r c cd' :
  read_command svc_cmd cd = Ret (r, c, cd') -> r = sizeof_service_command \/ r = -1.
Proof.
  unfold read_command. intros E. apply rbind_ret in E as ([[ret b] cd1] & E1 & E).
  unfold _read, __read in E1. cbn [Z.eqb sizeof_service_command] in E1.
  apply __read_loop_values in E1. case_match eqn:Er; simplify_eq; [by right|].
  destruct E1 as [-> | [-> | ->]]; [by left|done..].
Qed.

(** * Theorems *)

(** A client's request and its answer cross the socket unchanged: what
    [memcr_client_checkpoint] or [memcr_client_restore] sends for a process id
    is read by the service's [read_command] as that command for that process,
    in however many pieces it arrives, and the code the service gives
    [send_response_to_client] is the value the client's call returns. *)
Theorem client_service_exchange cmd pid code c0 rhints whints :
  cmd = MEMCR_CHECKPOINT \/ cmd = MEMCR_RESTORE -> is_i32 pid -> is_i32 code ->
  Forall rd_benign rhints -> Forall wr_benign whints ->
  exists request response rh wh cd,
    (if cmd =? MEMCR_CHECKPOINT then memcr_client_checkpoint else memcr_client_restore)
        (Socket (Stream response []) (Stream [] [])) (u32 pid) = (code, cd)
    /\ so_out cd = Stream request []
    /\ read_command c0 (Stream request rhints) = Ret (8, SvcCmd cmd pid, Stream [] rh)
    /\ send_response_to_client code (Stream [] whints) = Ret (0, Stream response wh).
Proof.
  intros Hcmd Hpid Hcode Hr Hw.
  assert (Hok : command_ok (SvcCmd cmd pid)) by (split; [destruct Hcmd as [-> | ->]; by split|done]).
  destruct (read_command_ok (SvcCmd cmd pid) c0 [] rhints Hok Hr) as (rh & Er & _). rewrite app_nil_r in Er.
  destruct (send_response_ok code [] whints Hw) as (wh & Ew & _).
  pose proof (send_cmd_ok (SvcCmd cmd pid) code [] [] Hcode) as Es. rewrite app_nil_r in Es. cbn [app] in *.
  exists (command_bytes (SvcCmd cmd pid)), (int_bytes code), rh, wh,
    (Socket (Stream [] []) (Stream (command_bytes (SvcCmd cmd pid)) [])).
  split_and!; [|done..]. destruct Hcmd as [-> | ->]; cbn [Z.eqb Pos.eqb MEMCR_CHECKPOINT MEMCR_RESTORE];
    unfold memcr_client_checkpoint, memcr_client_restore; rewrite i32_u32 by done; exact Es.
Qed.

Lemma client_service_exchange_witness :
  exists request response rh wh cd,
    memcr_client_restore (Socket (Stream response []) (Stream [] [])) (u32 4242) = (MEMCR_INVALID_PID, cd)
    /\ so_out cd = Stream request []
    /\ read_command (SvcCmd 0 0) (Stream request [HShort 3; HErr EINTR]) = Ret (8, SvcCmd MEMCR_RESTORE 4242, Stream [] rh)
    /\ send_response_to_client MEMCR_INVALID_PID (Stream [] [HShort 1]) = Ret (0, Stream response wh).
Proof.
  apply (client_service_exchange MEMCR_RESTORE 4242 MEMCR_INVALID_PID (SvcCmd 0 0) [HShort 3; HErr EINTR] [HShort 1]);
    [by right|by split|by split|repeat constructor..].
Defined.

(** [is_checkpoint_aborted] stops the worker exactly on SIGINT or when a
    complete restore command has arrived on its socket: no data, another
    command, an incomplete one or a failing socket do not stop it, and a worker
    without a socket never looks. *)
Theorem is_checkpoint_aborted_spec intr svc c0 data hints :
  Forall rd_benign hints ->
  exists sd, is_checkpoint_aborted intr svc c0 (Some (Stream data hints)) =
    Ret (if intr || svc && (8 <=? blen data) && (sc_cmd (command_of (ztake 8 data)) =? MEMCR_RESTORE) then 1 else 0, sd).
Proof.
  intros Hh. unfold is_checkpoint_aborted, sizeof_service_command. destruct intr; [eauto|].
  destruct svc; cbn [orb andb]; [|eauto]. destruct (8 <=? blen data) eqn:E; tests.
  - destruct (_read_full 8 data hints) as (h' & -> & _); [lia|lia|done|]. cbn [rbind].
    rewrite overlay_all by blia. eauto.
  - destruct (_read_truncated 8 data hints) as (h' & -> & _); [lia|lia|done|]. cbn [rbind]. eauto.
Qed.

(** memcr-client called with both -c and -r, as its usage text allows,
    reports failure whenever the checkpoint is answered: the service answers a
    connection once and closes it, so the restore that follows on the same
    connection gets no response. *)
Theorem client_both_fails net loc pid code rhints whints :
  atoi pid <> 0 ->
  net (client_addr loc) = Some (Socket (Stream (int_bytes code) (HShort 4 :: rhints)) (Stream [] (HShort 8 :: whints))) ->
  exists cd, client_main net [OLocation loc; OPid pid; OCheckpoint; ORestore] = (-1, Some cd).
Proof.
  intros Hpid Hnet. unfold client_main. cbn [client_options ca_location ca_pid ca_checkpoint ca_restore].
  rewrite (proj2 (Z.eqb_neq _ _)) by done. cbn [negb andb]. unfold memcr_client_connect. rewrite Hnet.
  unfold memcr_client_checkpoint, memcr_client_restore, send_cmd at 1, sizeof_service_response, sizeof_service_command.
  cbn [sys_write sys_read socket_fd stream_fd so_in so_out st_hints st_data].
  rewrite blen_command_bytes. change (clip 8 8) with 8. change (clip 4 4) with 4. cbn [Z.eqb Pos.eqb negb].
  rewrite (ztake_all 4 (int_bytes code)), (zdrop_all 4 (int_bytes code)), blen_int_bytes by blia. cbn [Z.eqb Pos.eqb negb].
  destruct (send_cmd_unanswered (SvcCmd MEMCR_RESTORE (i32 (u32 (atoi pid)))) rhints
    (Stream ([] ++ ztake 8 (command_bytes (SvcCmd MEMCR_CHECKPOINT (i32 (u32 (atoi pid)))))) whints)) as (cd & ->). eauto.
Qed.

Lemma client_both_fails_witness :
  exists cd, client_main (fun a => if decide (a = AF_UNIX "/run/memcr") then
      Some (Socket (Stream (int_bytes 0) [HShort 4]) (Stream [] [HShort 8])) else None)
    [OLocation "/run/memcr"; OPid "17"; OCheckpoint; ORestore] = (-1, Some cd).
Proof. apply (client_both_fails _ "/run/memcr" "17" 0 [] []); [done|reflexivity]. Defined.
