(* ===== verification/Paths.v ===== *)
(** The names memcr.c gives to what it creates for a process: the socket of the
    parasite, the socket on which a worker waits for the restore command, the
    dump file; and what [cleanup_pid] removes. *)
From Stdlib Require Import Ascii String.
From stdpp Require Import base list strings pretty sets.
From S2P Require Import Prelude Io Proto.
#[local] Open Scope Z_scope.

(** [%u] and [%d] of an int. *)
Definition fmt_u (pid : Z) : string := pretty (Z.to_N (u32 pid)).
Definition fmt_d (pid : Z) : string := pretty pid.

(** A path buffer has 4096 bytes. *)
Definition PATH_MAX : nat := 4096.
Definition snprintf_file (path : string) : string := String.substring 0 (PATH_MAX - 1) path.

(** The path of a file of /proc, in access_proc(), open_proc() and fopen_proc(). *)
Definition PROC_PATH_MAX : nat := 128.
Definition proc_path (pid : Z) (file_name : string) : string :=
  String.substring 0 (PROC_PATH_MAX - 1) ("/proc/" +:+ fmt_d pid +:+ "/" +:+ file_name).

(** An address in the file system, or an abstract one (first byte 0). *)
Inductive un_addr := UnPath (sun_path : string) | UnAbstract (name : string).

#[export] Instance un_addr_eq_dec : EqDecision un_addr.
Proof. solve_decision. Defined.

(** The '#' that snprintf() wrote is overwritten by the 0. *)
Definition drop_first (s : string) : string := match s with String _ s => s | EmptyString => EmptyString end.

Section Paths.
(** [parasite_socket_dir] and [dump_dir] *)
Context (parasite_socket_dir : option string) (dump_dir : string).

Definition parasite_socket_init (pid : Z) : un_addr :=
  match parasite_socket_dir with
  | Some dir => UnPath (snprintf_path (dir +:+ "/memcr" +:+ fmt_u pid))
  | None => UnAbstract (drop_first (snprintf_path ("#memcr" +:+ fmt_u pid)))
  end.

Definition make_restore_socket_address (pid : Z) : un_addr :=
  match parasite_socket_dir with
  | Some dir => UnPath (snprintf_path (dir +:+ "/memcrRestore" +:+ fmt_u pid))
  | None => UnAbstract (drop_first (snprintf_path ("#memcrRestore" +:+ fmt_u pid)))
  end.

(** The dump file of [get_target_pages] and [target_set_pages]. *)
Definition dump_path (pid : Z) : string := snprintf_file (dump_dir +:+ "/pages-" +:+ fmt_d pid +:+ ".img").

(** The paths it unlinks. *)
Definition cleanup_pid (pid : Z) : list string :=
  snprintf_file (dump_dir +:+ "/pages-" +:+ fmt_d pid +:+ ".img") ::
  match parasite_socket_dir with
  | None => []
  | Some dir => [snprintf_file (dir +:+ "/memcr" +:+ fmt_u pid); snprintf_file (dir +:+ "/memcrRestore" +:+ fmt_u pid)]
  end.

Definition remove_restore_socket_worker (pid : Z) : list string :=
  match make_restore_socket_address pid with UnPath p => [p] | UnAbstract _ => [] end.
End Paths.

(** * Lemmas *)

Lemma substring_all n s : (String.length s <= n)%nat -> String.substring 0 n s = s.
Proof.
  revert s. induction n as [|n IH]; intros [|a s] H; simpl in *; [done|lia|done|]. by rewrite IH by lia.
Qed.

Lemma length_append s t : String.length (s +:+ t) = (String.length s + String.length t)%nat.
Proof. induction s as [|a s IH]; simpl; [done|]. by rewrite IH. Qed.

Lemma append_assoc s t u : s +:+ t +:+ u = (s +:+ t) +:+ u.
Proof. induction s as [|a s IH]; [done|]. exact (f_equal (String a) IH). Qed.

Lemma substring_append_le n s t :
  (n <= String.length s)%nat -> String.substring 0 n (s +:+ t) = String.substring 0 n s.
Proof.
  revert n. induction s as [|a s IH]; intros [|n] H; simpl in *; try done; [by destruct t|lia|]. by rewrite IH by lia.
Qed.

(** A number below [10 ^ k] has at most [k] digits. *)
Lemma length_pretty_go k x s :
  (x < 10 ^ N.of_nat k)%N -> (String.length (pretty_N_go x s) <= k + String.length s)%nat.
Proof.
  revert x s. induction k as [|k IH]; intros x s Hx.
  - assert (x = 0%N) as -> by (simpl in Hx; lia). by rewrite pretty_N_go_0.
  - destruct (decide (0 < x)%N) as [H|H]; [|assert (x = 0%N) as -> by lia; rewrite pretty_N_go_0; lia].
    rewrite pretty_N_go_step by done. etrans; [apply IH|simpl; lia].
    rewrite Nat2N.inj_succ, N.pow_succ_r' in Hx. by apply N.Div0.div_lt_upper_bound.
Qed.

Lemma length_fmt_u pid : (String.length (fmt_u pid) <= 10)%nat.
Proof.
  unfold fmt_u. pose proof (u32_range pid) as [? ?]. unfold pretty, pretty_N. case_decide; [simpl; lia|].
  etrans; [apply (length_pretty_go 10)|simpl; lia]. simpl. lia.
Qed.

Lemma length_fmt_d pid : is_i32 pid -> (String.length (fmt_d pid) <= 11)%nat.
Proof.
  unfold is_i32, fmt_d. intros Hp. assert (Hn : forall n, (n < 10 ^ 10)%N -> (String.length (pretty n) <= 10)%nat).
  { intros n Hn. unfold pretty, pretty_N. case_decide; [simpl; lia|]. etrans; [by apply (length_pretty_go 10)|simpl; lia]. }
  unfold pretty, pretty_Z. destruct pid as [|p|p]; [simpl; lia|..].
  - etrans; [apply Hn|lia]. lia.
  - rewrite length_append. etrans; [apply Nat.add_le_mono_l, Hn|simpl; lia]. lia.
Qed.

(** The names of the files of /proc are not cut off. *)
Lemma proc_path_fits pid file_name :
  is_i32 pid -> (String.length file_name <= 109)%nat -> proc_path pid file_name = "/proc/" +:+ fmt_d pid +:+ "/" +:+ file_name.
Proof.
  intros Hp Hf. pose proof (length_fmt_d pid Hp). apply substring_all. rewrite !length_append. unfold PROC_PATH_MAX.
  cbn [String.length]. lia.
Qed.

Lemma fmt_u_inj p q : is_u32 p -> is_u32 q -> fmt_u p = fmt_u q -> p = q.
Proof. unfold fmt_u. intros Hp Hq E. apply (inj pretty) in E. rewrite !u32_small in E by done. destruct Hp, Hq. lia. Qed.

Lemma pretty_go_ne_R x s s' : s <> "R" +:+ s' -> pretty_N_go x s <> "R" +:+ s'.
Proof.
  revert s. induction (N.lt_wf_0 x) as [x _ IH]; intros s ?.
  destruct (decide (0 < x)%N) as [H1|H1]; [|assert (x = 0%N) as -> by lia; by rewrite pretty_N_go_0].
  rewrite pretty_N_go_step by done. apply IH; [by apply N.div_lt|]. unfold pretty_N_char. by repeat case_match.
Qed.

Lemma fmt_u_ne_R pid s : fmt_u pid <> "R" +:+ s.
Proof. unfold fmt_u, pretty, pretty_N. case_decide; [done|]. by apply pretty_go_ne_R. Qed.

Lemma append_inj_r s t u : s +:+ t = s +:+ u -> t = u.
Proof. apply (inj (String.append s)). Qed.

(** No name is cut off when the directory is at most 84 characters long. *)
Definition dir_fits (dir : option string) : Prop :=
  match dir with Some d => (String.length d <= 84)%nat | None => True end.

Lemma socket_name_fits dir name pid :
  (String.length dir <= 84)%nat -> (String.length name <= 13)%nat ->
  snprintf_path (dir +:+ name +:+ fmt_u pid) = dir +:+ name +:+ fmt_u pid
  /\ snprintf_file (dir +:+ name +:+ fmt_u pid) = dir +:+ name +:+ fmt_u pid.
Proof.
  intros Hd Hn. pose proof (length_fmt_u pid). unfold snprintf_path, snprintf_file, SUN_PATH_MAX, PATH_MAX.
  split; apply substring_all; rewrite !length_append; lia.
Qed.

(** * Theorems *)

(** C28: the sockets memcr makes for two processes never have the same address:
    with a socket directory of at most 84 characters or with abstract names,
    the address of the parasite's socket and that of the worker's restore socket
    both determine the process, and no process's parasite socket is another's
    (or its own) restore socket. *)
Theorem socket_addresses_distinct dir p q :
  dir_fits dir -> is_u32 p -> is_u32 q ->
  (parasite_socket_init dir p = parasite_socket_init dir q -> p = q)
  /\ (make_restore_socket_address dir p = make_restore_socket_address dir q -> p = q)
  /\ parasite_socket_init dir p <> make_restore_socket_address dir q.
Proof.
  intros Hd Hp Hq. unfold parasite_socket_init, make_restore_socket_address. destruct dir as [d|]; simpl in Hd.
  - destruct (socket_name_fits d "/memcr" p) as [-> _]; [done|simpl; lia|].
    destruct (socket_name_fits d "/memcr" q) as [-> _]; [done|simpl; lia|].
    destruct (socket_name_fits d "/memcrRestore" p) as [-> _]; [done|simpl; lia|].
    destruct (socket_name_fits d "/memcrRestore" q) as [-> _]; [done|simpl; lia|].
    split_and!; intros [= E]; apply append_inj_r in E; simplify_eq/=; [by apply fmt_u_inj..|].
    by apply fmt_u_ne_R in E.
  - destruct (socket_name_fits "" "#memcr" p) as [E1 _]; [simpl; lia..|].
    destruct (socket_name_fits "" "#memcr" q) as [E2 _]; [simpl; lia..|].
    destruct (socket_name_fits "" "#memcrRestore" p) as [E3 _]; [simpl; lia..|].
    destruct (socket_name_fits "" "#memcrRestore" q) as [E4 _]; [simpl; lia..|].
    change ("" +:+ ?s) with s in *. rewrite E1, E2, E3, E4.
    split_and!; intros [= E]; simplify_eq/=; [by apply fmt_u_inj..|]. by apply fmt_u_ne_R in E.
Qed.

Lemma socket_addresses_distinct_witness :
  (parasite_socket_init (Some "/run/memcr") 17 = parasite_socket_init (Some "/run/memcr") 170 -> 17 = 170)
  /\ (make_restore_socket_address (Some "/run/memcr") 17 = make_restore_socket_address (Some "/run/memcr") 170 -> 17 = 170)
  /\ parasite_socket_init (Some "/run/memcr") 17 <> make_restore_socket_address (Some "/run/memcr") 170.
Proof. apply (socket_addresses_distinct (Some "/run/memcr") 17 170); [simpl; lia|by split|by split]. Defined.

(** [cleanup_pid] removes what was made: the dump file by the very name it
    is written and read under, and, with a socket directory of at most 84
    characters, the files of both sockets; with abstract sockets there is
    nothing else to remove. *)
Theorem cleanup_pid_complete dir dump pid :
  dir_fits dir ->
  dump_path dump pid ∈ cleanup_pid dir dump pid
  /\ forall path, parasite_socket_init dir pid = UnPath path \/ make_restore_socket_address dir pid = UnPath path ->
       path ∈ cleanup_pid dir dump pid.
Proof.
  intros Hd. split; [by left|]. unfold parasite_socket_init, make_restore_socket_address, cleanup_pid.
  destruct dir as [d|]; simpl in Hd; [|by intros path [|]].
  destruct (socket_name_fits d "/memcr" pid) as [-> ->]; [done|simpl; lia|].
  destruct (socket_name_fits d "/memcrRestore" pid) as [-> ->]; [done|simpl; lia|].
  intros path [[= <-]|[= <-]]; set_solver.
Qed.

(** A socket directory of 101 characters or more leaves no room for the
    process id in the address: all processes get the same socket. *)
Theorem long_socket_dir_shared dir p q :
  (101 <= String.length dir)%nat ->
  parasite_socket_init (Some dir) p = parasite_socket_init (Some dir) q.
Proof.
  intros Hd. unfold parasite_socket_init, snprintf_path, SUN_PATH_MAX. f_equal.
  rewrite !append_assoc, !(substring_append_le 107 (dir +:+ "/memcr")) by (rewrite length_append; simpl; lia). done.
Qed.

