(* ===== verification/Seize.v ===== *)
(** Stopping and releasing the threads of the target: [iterate_pstree],
    [seize_pid], [seize_target], [unseize_target] and [update_parasite_pid] of
    memcr.c.  What ptrace(2), wait4(2) and the task directory of /proc answer
    are arguments. *)
From Stdlib Require Import Ascii String.
From stdpp Require Import base list strings pretty.
From S2P Require Import Prelude Io Proto.
#[local] Open Scope Z_scope.

Definition MAX_THREADS : Z := 1024.
Definition ESRCH : Z := 3.

(** [tids] and [nr_threads]: the model's list has as many entries as
    [nr_threads] counts.  The array has [MAX_THREADS]; the code does not check it,
    so that an entry of the list past that number is a write past the array
    ([seize_overflows]). *)
Abbreviation threads := (list Z).

(** * strtoul() with base 0 *)

Definition hex_digit (c : ascii) : option Z :=
  let n := Z.of_nat (nat_of_ascii c) in
  if (48 <=? n) && (n <=? 57) then Some (n - 48)
  else if (97 <=? n) && (n <=? 102) then Some (n - 87)
  else if (65 <=? n) && (n <=? 70) then Some (n - 55) else None.

Definition digit_of (base : Z) (c : ascii) : option Z :=
  match hex_digit c with Some d => if d <? base then Some d else None | None => None end.

(** The number and what follows it. *)
Fixpoint based_digits (base acc : Z) (s : string) : Z * string :=
  match s with
  | String c s' => match digit_of base c with Some d => based_digits base (base * acc + d) s' | None => (acc, s) end
  | EmptyString => (acc, EmptyString)
  end.

(** A string of digits with its base: [eptr] is the whole string when no digit
    is found. *)
Definition strtoul_abs (s : string) : option (Z * string) :=
  match s with
  | EmptyString => None
  | String c s' =>
      if (c =? "0")%char then
        match s' with
        | String x (String d _ as s'') =>
            if ((x =? "x")%char || (x =? "X")%char) && bool_decide (is_Some (digit_of 16 d))
            then Some (based_digits 16 0 s'') else Some (based_digits 8 0 s)
        | _ => Some (based_digits 8 0 s)
        end
      else if bool_decide (is_Some (digit_of 10 c)) then Some (based_digits 10 0 s) else None
  end.

Fixpoint strtoul (s : string) : option (Z * string) :=
  match s with
  | EmptyString => None
  | String c s' =>
      if is_blank c then strtoul s'
      else if (c =? "+")%char then strtoul_abs s'
      else if (c =? "-")%char then
        match strtoul_abs s' with Some (n, e) => Some (u64 (- n), e) | None => None end
      else strtoul_abs s
  end.

(** The thread id a directory entry names: [None] when something follows the
    number, or no number is there. *)
Definition entry_tid (d_name : string) : option Z :=
  match d_name with
  | EmptyString => Some 0
  | _ => match strtoul d_name with Some (n, EmptyString) => Some (i32 n) | _ => None end
  end.

(** * The loop over the threads *)

Section Pstree.
Context {St : Type}.

(** [nr_threads] is the function's own counter, which shadows the global and
    stays 0. *)
Fixpoint pstree_loop (pid : Z) (skip_self : bool) (max_threads : Z) (callback : Z -> St -> run (Z * St))
    (ents : list string) (ret : Z) (s : St) : run (Z * St) :=
  let nr_threads := 0 in
  match ents with
  | [] => Ret (ret, s)
  | ent :: ents =>
      match entry_tid ent with
      | None => pstree_loop pid skip_self max_threads callback ents 0 s
      | Some tid =>
          if max_threads <=? nr_threads then Ret (- EINVAL, s)
          else if skip_self && (tid =? pid) then pstree_loop pid skip_self max_threads callback ents 0 s
          else
            let! (ret, s) := callback tid s in
            if negb (ret =? 0) then Ret (ret, s)
            else pstree_loop pid skip_self max_threads callback ents ret s
      end
  end.

(** [task_dir]: the entries of /proc/pid/task in the order of readdir(), or the
    errno of opendir(). *)
Definition iterate_pstree (pid : Z) (skip_self : bool) (max_threads : Z) (callback : Z -> St -> run (Z * St))
    (task_dir : Z + list string) (s : St) : run (Z * St) :=
  match task_dir with
  | inl errno => Ret (- errno, s)
  | inr ents => pstree_loop pid skip_self max_threads callback ents (-1) s
  end.
End Pstree.

(** * One thread *)

(** One round of PTRACE_INTERRUPT, wait4() and PTRACE_GETSIGINFO. *)
Inductive seize_round :=
| InterruptFails
| WaitFails
| WaitOther                          (** wait4() returns another pid *)
| NotStopped
| SiginfoFails
| Signalled (si_signo : Z) (cont : bool)   (** a signal; PTRACE_CONT succeeds or not *)
| Stopped (setoptions : bool).       (** PTRACE_EVENT_STOP; PTRACE_SETOPTIONS succeeds or not *)

(** What happens when a thread is seized: the errno of PTRACE_SEIZE (0 when it
    succeeds), then the rounds. *)
Record thread_env := ThreadEnv { te_seize : Z; te_rounds : list seize_round }.

(** The label try_again; a thread that never stops uses up its rounds. *)
Fixpoint seize_rounds (rounds : list seize_round) (pid : Z) (tids : threads) : run (Z * threads) :=
  match rounds with
  | [] => OutOfFuel
  | r :: rounds =>
      match r with
      | InterruptFails | WaitFails | WaitOther | NotStopped | SiginfoFails => Ret (1, tids)
      | Signalled _ cont => if negb cont then Ret (1, tids) else seize_rounds rounds pid tids
      | Stopped setoptions => if negb setoptions then Ret (1, tids) else Ret (0, tids ++ [pid])
      end
  end.

Section Seize.
(** what the kernel does to each thread *)
Context (env : Z -> thread_env).

Definition seize_pid (pid : Z) (tids : threads) : run (Z * threads) :=
  let e := env pid in
  if negb (te_seize e =? 0) then
    if te_seize e =? ESRCH then Ret (0, tids) else Ret (1, tids)
  else seize_rounds (te_rounds e) pid tids.

(** [exists_]: access() finds /proc/pid. *)
Definition seize_target (exists_ : bool) (task_dir : Z + list string) (pid : Z) (tids : threads)
    : run (Z * threads) :=
  if negb exists_ then Ret (1, tids)
  else
    let! (ret, tids) := iterate_pstree pid false MAX_THREADS seize_pid task_dir tids in
    if negb (ret =? 0) then Ret (ret, tids) else Ret (0, tids).
End Seize.

(** [detach]: the return value of PTRACE_DETACH (0 or -1) for a thread.
    [calls]: the threads unseize_pid() was called for, in order. *)
Definition unseize_pid (detach : Z -> Z) (pid : Z) (calls : list Z) : Z * list Z := (detach pid, calls ++ [pid]).

(** The loop: [i] the index, [n] the iterations left until [nr_threads]. *)
Fixpoint unseize_loop (detach : Z -> Z) (n i : nat) (tids : threads) (ret : Z) (calls : list Z) : Z * list Z :=
  match n with
  | O => (ret, calls)
  | S n =>
      let '(r, calls) := unseize_pid detach (nth i tids 0) calls in
      unseize_loop detach n (S i) tids (Z.lor ret r) calls
  end.

(** The return value, the calls, and [tids] with [nr_threads] reset. *)
Definition unseize_target (detach : Z -> Z) (tids : threads) : Z * list Z * threads :=
  let nr_threads := length tids in
  let '(ret, calls) := unseize_loop detach nr_threads 0 tids 0 [] in
  (ret, calls, take 0 tids).

(** The callback that looks for the thread the parasite runs in: the state is
    [parasite_pid]. *)
Definition update_parasite_pid (tids : threads) (pid : Z) (parasite_pid : Z) : run (Z * Z) :=
  if existsb (Z.eqb pid) tids then Ret (0, parasite_pid) else Ret (0, pid).

(** * Lemmas *)

Lemma digit_of_pretty x : (x < 10)%N -> digit_of 10 (pretty_N_char x) = Some (Z.of_N x).
Proof.
  intros Hx. assert (H : (x = 0 \/ x = 1 \/ x = 2 \/ x = 3 \/ x = 4 \/ x = 5 \/ x = 6 \/ x = 7 \/ x = 8 \/ x = 9)%N) by lia.
  repeat destruct H as [-> |H]; by try subst.
Qed.

(** Reading back the decimal digits stdpp's [pretty] writes. *)
Lemma based_digits_pretty x s :
  (0 < x)%N -> based_digits 10 0 (pretty_N_go x s) = based_digits 10 (Z.of_N x) s.
Proof.
  revert s. induction (N.lt_wf_0 x) as [x _ IH]; intros s Hx.
  rewrite pretty_N_go_step by done. destruct (decide (x / 10 = 0)%N) as [E|E].
  - rewrite E, pretty_N_go_0. assert (x < 10)%N by (apply N.div_small_iff in E; lia).
    cbn [based_digits]. rewrite N.mod_small, digit_of_pretty by done. f_equal; lia.
  - rewrite IH; [|by apply N.div_lt|by apply N.neq_0_lt_0]. cbn [based_digits].
    rewrite digit_of_pretty by (apply N.mod_lt; lia). f_equal; pose proof (N.div_mod x 10); lia.
Qed.

Lemma pretty_first x s :
  (0 < x)%N -> exists y s', pretty_N_go x s = String (pretty_N_char y) s' /\ (0 < y < 10)%N.
Proof.
  revert s. induction (N.lt_wf_0 x) as [x _ IH]; intros s Hx.
  rewrite pretty_N_go_step by done. destruct (decide (x / 10 = 0)%N) as [E|E].
  - rewrite E, pretty_N_go_0. assert (x < 10)%N by (apply N.div_small_iff in E; lia).
    exists (x `mod` 10)%N. rewrite N.mod_small by done. eauto.
  - apply IH; [by apply N.div_lt|by apply N.neq_0_lt_0].
Qed.

Lemma strtoul_digit y s :
  (0 < y < 10)%N -> strtoul (String (pretty_N_char y) s) = Some (based_digits 10 0 (String (pretty_N_char y) s)).
Proof.
  intros Hy. assert (H : (y = 1 \/ y = 2 \/ y = 3 \/ y = 4 \/ y = 5 \/ y = 6 \/ y = 7 \/ y = 8 \/ y = 9)%N) by lia.
  cbn [strtoul]. unfold strtoul_abs.
  repeat destruct H as [-> |H]; try subst y;
    match goal with |- context [is_blank ?c] =>
      change (is_blank c) with false; change (c =? "+")%char with false; change (c =? "-")%char with false;
      change (c =? "0")%char with false; change (bool_decide (is_Some (digit_of 10 c))) with true
    end; reflexivity.
Qed.

Lemma entry_tid_pretty t : 0 < t < 2 ^ 31 -> entry_tid (pretty t) = Some t.
Proof.
  intros Ht. destruct t as [|p|p]; [lia| |lia]. change (pretty (Z.pos p)) with (pretty (N.pos p)).
  unfold pretty, pretty_N. rewrite decide_False by done.
  destruct (pretty_first (N.pos p) "") as (y & s' & E & Hy); [done|].
  pose proof (based_digits_pretty (N.pos p) "" ltac:(done)) as Hb. rewrite E in *.
  unfold entry_tid. rewrite strtoul_digit, Hb by done. cbn [based_digits]. by rewrite i32_small by lia.
Qed.

Section Threads.
Context (env : Z -> thread_env).

(** A thread that stops, after any number of signals. *)
Definition stops (t : Z) : Prop :=
  te_seize (env t) = 0 /\
  exists sigs rest, te_rounds (env t) = map (fun n => Signalled n true) sigs ++ Stopped true :: rest.

Definition vanished (t : Z) : bool := te_seize (env t) =? ESRCH.

Lemma seize_pid_stops t tids : stops t -> seize_pid env t tids = Ret (0, tids ++ [t]).
Proof.
  intros [H0 (sigs & rest & Hr)]. unfold seize_pid. rewrite H0, Hr. cbn [Z.eqb negb]. clear Hr.
  induction sigs as [|n sigs IH]; cbn [map app seize_rounds negb]; [done|]. apply IH.
Qed.

Lemma seize_pid_vanished t tids : vanished t = true -> seize_pid env t tids = Ret (0, tids).
Proof. unfold vanished, seize_pid. intros ->%Z.eqb_eq. done. Qed.

Lemma pstree_loop_seize pid ts ret tids :
  Forall (fun t => 0 < t < 2 ^ 31 /\ (stops t \/ vanished t = true)) ts -> ts <> [] \/ ret = 0 ->
  pstree_loop pid false MAX_THREADS (seize_pid env) (map pretty ts) ret tids
    = Ret (0, tids ++ filter (fun t => vanished t = false) ts).
Proof.
  revert ret tids. induction ts as [|t ts IH]; intros ret tids Hts Hr.
  - cbn. rewrite app_nil_r. destruct Hr as [| ->]; done.
  - apply Forall_cons in Hts as [[Ht Hs] Hts]. cbn [map pstree_loop]. rewrite entry_tid_pretty by done.
    change (MAX_THREADS <=? 0) with false. cbn [andb]. rewrite filter_cons. destruct Hs as [Hs|Hs].
    + rewrite seize_pid_stops by done. cbn [rbind Z.eqb negb]. rewrite IH by auto.
      rewrite decide_True; [by rewrite <- app_assoc|]. destruct Hs as [Hs _]. unfold vanished. by rewrite Hs.
    + rewrite seize_pid_vanished by done. cbn [rbind Z.eqb negb]. rewrite IH by auto.
      by rewrite decide_False by congruence.
Qed.
End Threads.

(** * Theorems *)

Lemma seize_target_ok env pid ts :
  Forall (fun t => 0 < t < 2 ^ 31 /\ (stops env t \/ vanished env t = true)) ts ->
  seize_target env true (inr (["."; ".."]%string ++ map pretty ts)) pid []
    = Ret (0, filter (fun t => vanished env t = false) ts).
Proof.
  intros Hts. unfold seize_target, iterate_pstree. cbn [negb app pstree_loop].
  change (entry_tid ".") with (@None Z). change (entry_tid "..") with (@None Z). cbn.
  by rewrite pstree_loop_seize by auto.
Qed.

Lemma unseize_loop_ok detach n i tids ret calls :
  (i + n = length tids)%nat ->
  exists r, unseize_loop detach n i tids ret calls = (r, calls ++ drop i tids)
    /\ (r = 0 <-> ret = 0 /\ Forall (fun t => detach t = 0) (drop i tids)).
Proof.
  revert i ret calls. induction n as [|n IH]; intros i ret calls Hi.
  - exists ret. rewrite drop_ge by lia. rewrite app_nil_r. split; [done|]. split; [done|tauto].
  - destruct (lookup_lt_is_Some_2 tids i) as [t Ht]; [lia|]. cbn. rewrite (nth_lookup_Some _ _ _ t Ht).
    destruct (IH (S i) (Z.lor ret (detach t)) (calls ++ [t])) as (r & -> & Hr); [lia|]. exists r.
    rewrite (drop_S tids t i Ht), <- app_assoc. split; [done|]. rewrite Hr, Z.lor_eq_0_iff, Forall_cons. tauto.
Qed.

(** C24: [seize_target] on a process with at most [MAX_THREADS] threads, each of
    which either is gone when PTRACE_SEIZE reaches it (ESRCH) or, once seized,
    stops after any number of signals, succeeds and leaves in [tids], within the
    bounds of the array, exactly the threads that were still there, in the order of
    the directory.  (A thread that exits after it was seized makes [seize_pid]
    fail.)  [unseize_target] then calls PTRACE_DETACH for each of them in that
    order, empties [tids], and returns 0 exactly when no call failed. *)
Theorem seize_unseize env pid ts detach :
  Forall (fun t => 0 < t < 2 ^ 31 /\ (stops env t \/ vanished env t = true)) ts -> blen ts <= MAX_THREADS ->
  exists tids ret,
    seize_target env true (inr (["."; ".."]%string ++ map pretty ts)) pid [] = Ret (0, tids)
    /\ tids = filter (fun t => vanished env t = false) ts /\ blen tids <= MAX_THREADS
    /\ unseize_target detach tids = (ret, tids, [])
    /\ (ret = 0 <-> Forall (fun t => detach t = 0) tids).
Proof.
  intros Hts Hl. set (tids := filter (fun t => vanished env t = false) ts).
  destruct (unseize_loop_ok detach (length tids) 0 tids 0 []) as (ret & E & Hr); [done|]. rewrite drop_0 in *.
  exists tids, ret. split_and!; [by apply seize_target_ok|done| | |tauto].
  - pose proof (length_filter (fun t => vanished env t = false) ts). unfold blen in *. fold tids in H. lia.
  - unfold unseize_target. by rewrite E.
Qed.

(** C37: the bound on the number of threads is never reached: [iterate_pstree]
    tests a counter it does not increment.  With more than [MAX_THREADS] threads
    [seize_target] succeeds with more entries than the array [tids] has. *)
Theorem seize_overflows env pid ts :
  Forall (fun t => 0 < t < 2 ^ 31 /\ stops env t) ts -> MAX_THREADS < blen ts ->
  exists tids, seize_target env true (inr (map pretty ts)) pid [] = Ret (0, tids) /\ MAX_THREADS < blen tids.
Proof.
  intros Hts Hl. exists (filter (fun t => vanished env t = false) ts). split.
  - unfold seize_target, iterate_pstree. cbn [negb]. rewrite pstree_loop_seize; [done| |].
    + eapply Forall_impl; [done|]. intros t [? ?]. auto.
    + left. intros ->. unfold MAX_THREADS in Hl. rewrite blen_nil in Hl. lia.
  - replace (filter _ ts) with ts; [done|]. clear Hl. induction Hts as [|t ts [_ [H0 _]] Hts IH]; [done|].
    rewrite filter_cons, decide_True; [by rewrite <- IH|]. unfold vanished. by rewrite H0.
Qed.

(** ** Witnesses *)

Definition wit_threads (t : Z) : thread_env :=
  if t =? 12 then ThreadEnv ESRCH [] else ThreadEnv 0 [Signalled 10 true; Stopped true].

Lemma wit_threads_stop t : t <> 12 -> stops wit_threads t.
Proof.
  intros Ht. unfold stops, wit_threads. rewrite (proj2 (Z.eqb_neq _ _)) by done. split; [done|]. by exists [10], [].
Qed.

(** PTRACE_DETACH fails for one thread. *)
Lemma seize_unseize_witness :
  exists tids ret,
    seize_target wit_threads true (inr (["."; ".."]%string ++ map pretty [10; 11; 12])) 10 [] = Ret (0, tids)
    /\ tids = filter (fun t => vanished wit_threads t = false) [10; 11; 12] /\ blen tids <= MAX_THREADS
    /\ unseize_target (fun t => if t =? 11 then -1 else 0) tids = (ret, tids, [])
    /\ (ret = 0 <-> Forall (fun t => (fun t => if t =? 11 then -1 else 0) t = 0) tids).
Proof.
  apply (seize_unseize wit_threads 10 [10; 11; 12] (fun t => if t =? 11 then -1 else 0)); [|done].
  repeat (apply Forall_cons; split); [split; [lia|]..|constructor]; [left; by apply wit_threads_stop..|by right].
Defined.

Lemma seize_overflows_witness :
  exists tids, seize_target wit_threads true (inr (map pretty (replicate 1025 7))) 7 [] = Ret (0, tids)
    /\ MAX_THREADS < blen tids.
Proof.
  apply (seize_overflows wit_threads 7 (replicate 1025 7)); [|reflexivity].
  apply Forall_replicate. split; [lia|by apply wit_threads_stop].
Defined.
