(* ===== verification/Watch.v ===== *)
(** The thread that watches the parasite and the wait for its end (memcr.c):
    [parasite_watch_thread], [parasite_status_signal] and
    [parasite_status_wait].  What ptrace(2), wait4(2) and
    pthread_cond_timedwait(3) return are arguments. *)
From stdpp Require Import base list.
From S2P Require Import Prelude.
#[local] Open Scope Z_scope.

(** [parasite_watch]; [status] is the status word of wait4(). *)
Record watch := Watch { pw_changed : bool; pw_status : Z }.

(** <sys/wait.h> *)
Definition WTERMSIG (status : Z) : Z := Z.land status 0x7f.
Definition WIFEXITED (status : Z) : bool := WTERMSIG status =? 0.
Definition WIFSIGNALED (status : Z) : bool := negb (WTERMSIG status =? 0) && negb (WTERMSIG status =? 0x7f).

Definition parasite_status_signal (status : Z) (w : watch) : watch := Watch true status.

(** [seize]: PTRACE_SEIZE returned 0; [waited]: the return value and the status
    of wait4(). *)
Definition parasite_watch_thread (pid : Z) (seize : bool) (waited : Z * Z) (w : watch) : watch :=
  if negb seize then w
  else
    let '(ret, status) := waited in
    if negb (ret =? pid) then w else parasite_status_signal status w.

(** [created]: what pthread_create() returned.  The return value, and what the
    thread will do to the data, if there is one.  Its caller,
    execute_parasite_checkpoint(), does not look at the return value. *)
Definition parasite_watch_start (pid created : Z) (seize : bool) (waited : Z * Z) : Z * (watch -> watch) :=
  (created, if created =? 0 then parasite_watch_thread pid seize waited else fun w => w).

(** One return of pthread_cond_timedwait(): its value, and the data the lock
    protects at that time. *)
Abbreviation wakeup := (Z * watch)%type.

(** The inner loop: it waits until the status changed or the wait failed.  It is
    still waiting when the wake-ups are used up. *)
Fixpoint status_wait_inner (env : list wakeup) (ret : Z) (w : watch) : run (Z * list wakeup * watch) :=
  if negb (pw_changed w) && ((ret =? 0) || (ret =? ETIMEDOUT)) then
    match env with
    | [] => OutOfFuel
    | (ret, w) :: env => status_wait_inner env ret w
    end
  else Ret (ret, env, w).

(** The outer loop, with one unit of fuel for each round; [status] is the
    caller's variable. *)
Fixpoint status_wait_loop (fuel : nat) (env : list wakeup) (ret status : Z) (w : watch) : run (Z * Z * watch) :=
  match fuel with
  | O => OutOfFuel
  | S fuel =>
      let! (ret, env, w) := status_wait_inner env ret w in
      let status := if ret =? 0 then pw_status w else status in
      if negb (ret =? ETIMEDOUT) then Ret (ret, status, w) else status_wait_loop fuel env ret status w
  end.

Definition parasite_status_wait (fuel : nat) (env : list wakeup) (status : Z) (w : watch) : run (Z * Z * watch) :=
  status_wait_loop fuel env 0 status w.

(** * Theorems *)

(** Woken before the deadline: any number of spurious wake-ups, then the
    signal of the watching thread. *)
Lemma parasite_status_wait_ok fuel n status status0 w :
  pw_changed w = false ->
  parasite_status_wait (S fuel) (replicate n (0, w) ++ [(0, parasite_status_signal status w)]) status0 w
    = Ret (0, status, parasite_status_signal status w).
Proof.
  intros Hw. unfold parasite_status_wait. cbn [status_wait_loop].
  assert (E : status_wait_inner (replicate n (0, w) ++ [(0, parasite_status_signal status w)]) 0 w
    = Ret (0, [], parasite_status_signal status w)).
  { induction n as [|n IH]; cbn; rewrite Hw; cbn; [done|]. exact IH. }
  rewrite E. done.
Qed.

(** C34: [parasite_status_wait] waits one second at most: once the wait has timed
    out, it never returns, even though the parasite ends and its end is signalled.
    The deadline is not renewed, so that each further wait times out at once,
    and the value ETIMEDOUT is kept when the change is finally seen: the status
    is not taken and the outer loop spins forever. *)
Theorem status_wait_livelocks fuel n late status0 w :
  pw_changed w = false -> pw_changed late = true ->
  parasite_status_wait fuel (replicate n (ETIMEDOUT, w) ++ [(ETIMEDOUT, late)]) status0 w = OutOfFuel.
Proof.
  intros Hw Hl. unfold parasite_status_wait.
  assert (Hspin : forall fuel status, status_wait_loop fuel [] ETIMEDOUT status late = OutOfFuel).
  { intros f. induction f as [|f IH]; intros status; [done|]. cbn [status_wait_loop status_wait_inner]. rewrite Hl. cbn. apply IH. }
  destruct fuel as [|fuel]; [done|]. cbn [status_wait_loop].
  assert (E : forall r, r = 0 \/ r = ETIMEDOUT ->
    status_wait_inner (replicate n (ETIMEDOUT, w) ++ [(ETIMEDOUT, late)]) r w = Ret (ETIMEDOUT, [], late)).
  { induction n as [|n IH]; intros r Hr; cbn; rewrite Hw; destruct Hr as [-> | ->]; cbn; rewrite ?Hl; cbn; auto. }
  rewrite E by auto. cbn [rbind]. apply Hspin.
Qed.

(** When the thread could not be created, or could not seize the parasite, or
    wait4() failed, nobody ever signals the parasite's end, and the wait for it
    never returns: [w] is the data as it stays. *)
Theorem unwatched_wait_never_ends pid created seize waited status0 w fuel rets :
  pw_changed w = false -> created <> 0 \/ seize = false \/ waited.1 <> pid ->
  Forall (fun r => r = 0 \/ r = ETIMEDOUT) rets ->
  let w' := (parasite_watch_start pid created seize waited).2 w in
  parasite_status_wait fuel ((fun r => (r, w')) <$> rets) status0 w = OutOfFuel.
Proof.
  intros Hw Hbad Hr w'. assert (E : w' = w).
  { subst w'. unfold parasite_watch_start, parasite_watch_thread. cbn. destruct waited as [ret status]. cbn in Hbad.
    destruct (Z.eqb_spec created 0), seize; cbn; try done. destruct (Z.eqb_spec ret pid); cbn; [|done].
    destruct Hbad as [?|[?|?]]; done. }
  rewrite E. unfold parasite_status_wait. destruct fuel as [|fuel]; [done|]. cbn [status_wait_loop].
  assert (Hi : forall r, r = 0 \/ r = ETIMEDOUT -> status_wait_inner ((fun r => (r, w)) <$> rets) r w = OutOfFuel).
  { clear -Hw Hr. induction Hr as [|x rets Hx Hr IH]; intros r H; cbn; rewrite Hw; destruct H as [-> | ->]; cbn; auto. }
  by rewrite Hi by auto.
Qed.

Lemma status_wait_livelocks_witness :
  parasite_status_wait 1000 (replicate 3 (ETIMEDOUT, Watch false 0) ++ [(ETIMEDOUT, Watch true 0)]) (-1) (Watch false 0)
    = OutOfFuel.
Proof. apply (status_wait_livelocks 1000 3 (Watch true 0) (-1) (Watch false 0)); reflexivity. Defined.

Lemma unwatched_wait_never_ends_witness :
  parasite_status_wait 1000 ((fun r => (r, Watch false 0)) <$> [0; 0; ETIMEDOUT; ETIMEDOUT]) (-1) (Watch false 0) = OutOfFuel.
Proof.
  apply (unwatched_wait_never_ends 43 11 true (43, 0) (-1) (Watch false 0) 1000 [0; 0; ETIMEDOUT; ETIMEDOUT]);
    [done|by left|].
  repeat (apply Forall_cons; split; [auto|]). by apply Forall_nil.
Defined.
