(* ===== verification/Arch.v ===== *)
(** The registers of a stopped thread and the functions of arch/*/cpu.c over
    them, per architecture.  [struct registers] is a function from its fields'
    names, in the order of the struct; the class [Cpu] is the interface cpu.h
    gives to memcr.c, [CpuSpec] what memcr.c relies on. *)
From Stdlib Require Import String.
From stdpp Require Import base list strings.
From S2P Require Import Prelude.
#[local] Open Scope Z_scope.

(** arch/cpu.h, with the size of unsigned long.  [cpu_arg0] and [cpu_arg1] are
    the registers the injected code takes its parameters from. *)
Class Cpu (R : Type) := {
  word_size : Z;
  set_cpu_regs : R -> Z -> Z -> Z -> R;
  get_cpu_regs_sp : R -> Z;
  get_cpu_regs_pc : R -> Z;
  get_cpu_syscall_ret : R -> Z;
  cpu_arg0 : R -> Z;
  cpu_arg1 : R -> Z;
}.

(** Conversions to unsigned long and to long. *)
Definition ulong {R} `{Cpu R} (z : Z) : Z := z mod 2 ^ (8 * word_size).
Definition slong {R} `{Cpu R} (z : Z) : Z :=
  (z + 2 ^ (8 * word_size - 1)) mod 2 ^ (8 * word_size) - 2 ^ (8 * word_size - 1).

(** An assignment to a field. *)
Definition set_reg {A} `{EqDecision A} (r : A) (v : Z) (regs : A -> Z) : A -> Z :=
  fun x => if decide (x = r) then v else regs x.

Lemma set_reg_eq {A} `{EqDecision A} (r : A) v regs : set_reg r v regs r = v.
Proof. unfold set_reg. by rewrite decide_True. Qed.

Lemma set_reg_ne {A} `{EqDecision A} (r x : A) v regs : x <> r -> set_reg r v regs x = regs x.
Proof. intros H. unfold set_reg. by rewrite decide_False. Qed.

(** Bits of the status register on the two ARM architectures (asm/ptrace.h). *)
Definition PSR_f : Z := 0xff000000.
Definition PSR_s : Z := 0x00ff0000.
Definition PSR_x : Z := 0x0000ff00.
Definition PSR_MODE32_BIT : Z := 0x00000010.

Module X86_64.
Inductive reg :=
  | r15 | r14 | r13 | r12 | rbp | rbx | r11 | r10 | r9 | r8 | rax | rcx | rdx | rsi | rdi
  | orig_rax | rip | cs | eflags | rsp | ss | fs_base | gs_base | ds | es | fs | gs.
#[global] Instance reg_eq_dec : EqDecision reg.
Proof. solve_decision. Defined.
End X86_64.

Module Arm.
Inductive reg :=
  | r0 | r1 | r2 | r3 | r4 | r5 | r6 | r7 | r8 | r9 | r10 | fp | ip | sp | lr | pc | cpsr
  | orig_r0.
#[global] Instance reg_eq_dec : EqDecision reg.
Proof. solve_decision. Defined.
End Arm.

Module Arm64.
Inductive reg :=
  | x0 | x1 | x2 | x3 | x4 | x5 | x6 | x7 | x8 | x9 | x10 | x11 | x12 | x13 | x14 | x15 | x16
  | x17 | x18 | x19 | x20 | x21 | x22 | x23 | x24 | x25 | x26 | x27 | x28 | x29 | x30 | sp | pc
  | pstate.
#[global] Instance reg_eq_dec : EqDecision reg.
Proof. solve_decision. Defined.
End Arm64.

Module Riscv64.
Inductive reg :=
  | pc | ra | sp | gp | tp | t0 | t1 | t2 | s0 | s1 | a0 | a1 | a2 | a3 | a4 | a5 | a6 | a7
  | s2 | s3 | s4 | s5 | s6 | s7 | s8 | s9 | s10 | s11 | t3 | t4 | t5 | t6.
#[global] Instance reg_eq_dec : EqDecision reg.
Proof. solve_decision. Defined.
End Riscv64.

(** ** x86_64 *)

Definition x86_64_registers : Type := X86_64.reg -> Z.

Definition x86_64_set_cpu_regs (regs : x86_64_registers) (pc arg0 arg1 : Z) : x86_64_registers :=
  set_reg X86_64.r14 arg1 (set_reg X86_64.r15 arg0 (set_reg X86_64.rip pc (set_reg X86_64.orig_rax (u64 (-1)) regs))).
Definition x86_64_get_cpu_regs_sp (regs : x86_64_registers) : Z := regs X86_64.rsp.
Definition x86_64_get_cpu_regs_pc (regs : x86_64_registers) : Z := regs X86_64.rip.
Definition x86_64_get_cpu_syscall_ret (regs : x86_64_registers) : Z := regs X86_64.rax.
Definition x86_64_get_cpu_syscall_arg0 (regs : x86_64_registers) : Z := regs X86_64.r15.
Arguments x86_64_get_cpu_syscall_arg0 _ /.

#[export] Instance x86_64_cpu : Cpu x86_64_registers := {|
  word_size := 8;
  set_cpu_regs := x86_64_set_cpu_regs;
  get_cpu_regs_sp := x86_64_get_cpu_regs_sp;
  get_cpu_regs_pc := x86_64_get_cpu_regs_pc;
  get_cpu_syscall_ret := x86_64_get_cpu_syscall_ret;
  cpu_arg0 := x86_64_get_cpu_syscall_arg0;
  cpu_arg1 regs := regs X86_64.r14;
|}.

(** ** arm *)

Definition arm_registers : Type := Arm.reg -> Z.

Definition arm_set_cpu_regs (regs : arm_registers) (pc arg0 arg1 : Z) : arm_registers :=
  let regs := set_reg Arm.r9 arg1 (set_reg Arm.r8 arg0 (set_reg Arm.pc pc (set_reg Arm.orig_r0 (u32 (-1)) regs))) in
  set_reg Arm.cpsr (Z.land (regs Arm.cpsr) (Z.lor (Z.lor (Z.lor PSR_f PSR_s) PSR_x) PSR_MODE32_BIT)) regs.
Definition arm_get_cpu_regs_sp (regs : arm_registers) : Z := regs Arm.sp.
Definition arm_get_cpu_regs_pc (regs : arm_registers) : Z := regs Arm.pc.
Definition arm_get_cpu_syscall_ret (regs : arm_registers) : Z := regs Arm.r0.
Definition arm_get_cpu_syscall_arg0 (regs : arm_registers) : Z := regs Arm.r8.
Arguments arm_get_cpu_syscall_arg0 _ /.

#[export] Instance arm_cpu : Cpu arm_registers := {|
  word_size := 4;
  set_cpu_regs := arm_set_cpu_regs;
  get_cpu_regs_sp := arm_get_cpu_regs_sp;
  get_cpu_regs_pc := arm_get_cpu_regs_pc;
  get_cpu_syscall_ret := arm_get_cpu_syscall_ret;
  cpu_arg0 := arm_get_cpu_syscall_arg0;
  cpu_arg1 regs := regs Arm.r9;
|}.

(** ** arm64 *)

Definition arm64_registers : Type := Arm64.reg -> Z.

Definition arm64_set_cpu_regs (regs : arm64_registers) (pc arg0 arg1 : Z) : arm64_registers :=
  let regs := set_reg Arm64.x11 arg1 (set_reg Arm64.x10 arg0 (set_reg Arm64.pc pc regs)) in
  set_reg Arm64.pstate (Z.land (regs Arm64.pstate) (Z.lor (Z.lor (Z.lor PSR_f PSR_s) PSR_x) PSR_MODE32_BIT)) regs.
Definition arm64_get_cpu_regs_sp (regs : arm64_registers) : Z := regs Arm64.sp.
Definition arm64_get_cpu_regs_pc (regs : arm64_registers) : Z := regs Arm64.pc.
Definition arm64_get_cpu_syscall_ret (regs : arm64_registers) : Z := regs Arm64.x0.
Definition arm64_get_cpu_syscall_arg0 (regs : arm64_registers) : Z := regs Arm64.x10.
Arguments arm64_get_cpu_syscall_arg0 _ /.

#[export] Instance arm64_cpu : Cpu arm64_registers := {|
  word_size := 8;
  set_cpu_regs := arm64_set_cpu_regs;
  get_cpu_regs_sp := arm64_get_cpu_regs_sp;
  get_cpu_regs_pc := arm64_get_cpu_regs_pc;
  get_cpu_syscall_ret := arm64_get_cpu_syscall_ret;
  cpu_arg0 := arm64_get_cpu_syscall_arg0;
  cpu_arg1 regs := regs Arm64.x11;
|}.

(** ** riscv64 *)

Definition riscv64_registers : Type := Riscv64.reg -> Z.

Definition riscv64_set_cpu_regs (regs : riscv64_registers) (pc arg0 arg1 : Z) : riscv64_registers :=
  set_reg Riscv64.s7 arg1 (set_reg Riscv64.s6 arg0 (set_reg Riscv64.pc pc regs)).
Definition riscv64_get_cpu_regs_sp (regs : riscv64_registers) : Z := regs Riscv64.sp.
Definition riscv64_get_cpu_regs_pc (regs : riscv64_registers) : Z := regs Riscv64.pc.
Definition riscv64_get_cpu_syscall_ret (regs : riscv64_registers) : Z := regs Riscv64.a0.

#[export] Instance riscv64_cpu : Cpu riscv64_registers := {|
  word_size := 8;
  set_cpu_regs := riscv64_set_cpu_regs;
  get_cpu_regs_sp := riscv64_get_cpu_regs_sp;
  get_cpu_regs_pc := riscv64_get_cpu_regs_pc;
  get_cpu_syscall_ret := riscv64_get_cpu_syscall_ret;
  cpu_arg0 regs := regs Riscv64.s6;
  cpu_arg1 regs := regs Riscv64.s7;
|}.

(** * What memcr.c relies on

    The thread runs at [pc] with the two parameters, on the stack it had. *)
Class CpuSpec (R : Type) `{Cpu R} := {
  cpu_word : word_size = 4 \/ word_size = 8;
  cpu_set_pc regs pc a0 a1 : get_cpu_regs_pc (set_cpu_regs regs pc a0 a1) = pc;
  cpu_set_sp regs pc a0 a1 : get_cpu_regs_sp (set_cpu_regs regs pc a0 a1) = get_cpu_regs_sp regs;
  cpu_set_arg0 regs pc a0 a1 : cpu_arg0 (set_cpu_regs regs pc a0 a1) = a0;
  cpu_set_arg1 regs pc a0 a1 : cpu_arg1 (set_cpu_regs regs pc a0 a1) = a1;
}.

#[export] Instance x86_64_spec : CpuSpec x86_64_registers.
Proof. split; [by right|done..]. Qed.
#[export] Instance arm_spec : CpuSpec arm_registers.
Proof. split; [by left|done..]. Qed.
#[export] Instance arm64_spec : CpuSpec arm64_registers.
Proof. split; [by right|done..]. Qed.
#[export] Instance riscv64_spec : CpuSpec riscv64_registers.
Proof. split; [by right|done..]. Qed.

(** * Printing them

    [print_cpu_regs] reads the struct as an array of words and a table of names
    beside it. *)
Section Print.
Context {A : Type} (rg_names : list string) (fields : list A).

(** One line per word: the name and the value; [None] when [rg_names] is read
    behind its end. *)
Definition print_cpu_regs (regs : A -> Z) : option (list (string * Z)) :=
  mapM (fun idx => match rg_names !! idx, fields !! idx with
                   | Some name, Some r => Some (name, regs r)
                   | _, _ => None
                   end) (seq 0 (length fields)).
End Print.

(** The fields of each struct in order, and the names. *)
Definition x86_64_fields : list X86_64.reg :=
  [X86_64.r15; X86_64.r14; X86_64.r13; X86_64.r12; X86_64.rbp; X86_64.rbx; X86_64.r11; X86_64.r10; X86_64.r9;
   X86_64.r8; X86_64.rax; X86_64.rcx; X86_64.rdx; X86_64.rsi; X86_64.rdi; X86_64.orig_rax; X86_64.rip;
   X86_64.cs; X86_64.eflags; X86_64.rsp; X86_64.ss; X86_64.fs_base; X86_64.gs_base; X86_64.ds; X86_64.es;
   X86_64.fs; X86_64.gs].
Definition x86_64_rg_names : list string :=
  ["r15"; "r14"; "r13"; "r12"; "rbp"; "rbx"; "r11"; "r10"; "r9"; "r8"; "rax"; "rcx"; "rdx"; "rsi"; "rdi";
   "orig_ax"; "rip"; "cs"; "eflags"; "rsp"; "ss"; "fs_base"; "gs_base"; "ds"; "es"; "fs"; "gs"]%string.
Definition arm_fields : list Arm.reg :=
  [Arm.r0; Arm.r1; Arm.r2; Arm.r3; Arm.r4; Arm.r5; Arm.r6; Arm.r7; Arm.r8; Arm.r9; Arm.r10; Arm.fp; Arm.ip;
   Arm.sp; Arm.lr; Arm.pc; Arm.cpsr; Arm.orig_r0].
Definition arm_rg_names : list string :=
  ["r0"; "r1"; "r2"; "r3"; "r4"; "r5"; "r6"; "r7"; "r8"; "r9"; "r10"; "fp"; "ip"; "sp"; "lr"; "pc"; "cpsr";
   "orig_r0"]%string.
Definition arm64_fields : list Arm64.reg :=
  [Arm64.x0; Arm64.x1; Arm64.x2; Arm64.x3; Arm64.x4; Arm64.x5; Arm64.x6; Arm64.x7; Arm64.x8; Arm64.x9;
   Arm64.x10; Arm64.x11; Arm64.x12; Arm64.x13; Arm64.x14; Arm64.x15; Arm64.x16; Arm64.x17; Arm64.x18; Arm64.x19;
   Arm64.x20; Arm64.x21; Arm64.x22; Arm64.x23; Arm64.x24; Arm64.x25; Arm64.x26; Arm64.x27; Arm64.x28; Arm64.x29;
   Arm64.x30; Arm64.sp; Arm64.pc; Arm64.pstate].
Definition arm64_rg_names : list string :=
  ["x0"; "x1"; "x2"; "x3"; "x4"; "x5"; "x6"; "x7"; "x8"; "x9"; "x10"; "x11"; "x12"; "x13"; "x14"; "x15"; "x16";
   "x17"; "x18"; "x19"; "x20"; "x21"; "x22"; "x23"; "x24"; "x25"; "x26"; "x27"; "x28"; "x29"; "x30"; "sp"; "pc";
   "pstate"]%string.
Definition riscv64_fields : list Riscv64.reg :=
  [Riscv64.pc; Riscv64.ra; Riscv64.sp; Riscv64.gp; Riscv64.tp; Riscv64.t0; Riscv64.t1; Riscv64.t2; Riscv64.s0;
   Riscv64.s1; Riscv64.a0; Riscv64.a1; Riscv64.a2; Riscv64.a3; Riscv64.a4; Riscv64.a5; Riscv64.a6; Riscv64.a7;
   Riscv64.s2; Riscv64.s3; Riscv64.s4; Riscv64.s5; Riscv64.s6; Riscv64.s7; Riscv64.s8; Riscv64.s9; Riscv64.s10;
   Riscv64.s11; Riscv64.t3; Riscv64.t4; Riscv64.t5; Riscv64.t6].
Definition riscv64_rg_names : list string :=
  ["pc"; "ra"; "sp"; "gp"; "tp"; "t0"; "t1"; "t2"; "s0"; "s1"; "a0"; "a1"; "a2"; "a3"; "a4"; "a5"; "a6"; "a7";
   "s2"; "s3"; "s4"; "s5"; "s6"; "s7"; "s8"; "s9"; "s10"; "s11"; "t3"; "t4"; "t5"; "t6"]%string.

Lemma print_cpu_regs_ok {A} names (fields : list A) regs :
  length names = length fields -> print_cpu_regs names fields regs = Some (zip names (regs <$> fields)).
Proof.
  intros Hl. apply mapM_Some. apply Forall2_same_length_lookup_2.
  { rewrite length_seq, length_zip_with, length_fmap. lia. }
  intros i k line Hk Hz. apply lookup_seq in Hk as [-> Hi]. cbn.
  destruct (lookup_lt_is_Some_2 fields i Hi) as [r Er]. destruct (lookup_lt_is_Some_2 names i) as [n En]; [by rewrite Hl|].
  rewrite lookup_zip_with, En, list_lookup_fmap, Er in Hz. cbn in Hz. by rewrite En, Er.
Qed.

(** Every register is printed exactly once and no name is read from behind the
    table, on the four architectures. *)
Theorem print_cpu_regs_all :
  (forall regs, print_cpu_regs x86_64_rg_names x86_64_fields regs = Some (zip x86_64_rg_names (regs <$> x86_64_fields)))
  /\ (forall regs, print_cpu_regs arm_rg_names arm_fields regs = Some (zip arm_rg_names (regs <$> arm_fields)))
  /\ (forall regs, print_cpu_regs arm64_rg_names arm64_fields regs = Some (zip arm64_rg_names (regs <$> arm64_fields)))
  /\ (forall regs, print_cpu_regs riscv64_rg_names riscv64_fields regs = Some (zip riscv64_rg_names (regs <$> riscv64_fields)))
  /\ (NoDup x86_64_fields /\ NoDup arm_fields /\ NoDup arm64_fields /\ NoDup riscv64_fields)
  /\ (forall r, r ∈ x86_64_fields) /\ (forall r, r ∈ arm_fields) /\ (forall r, r ∈ arm64_fields) /\ (forall r, r ∈ riscv64_fields).
Proof.
  split_and!; try (intros regs; by apply print_cpu_regs_ok);
    try (apply (bool_decide_unpack _); vm_compute; exact I); intros []; apply (bool_decide_unpack _); vm_compute; exact I.
Qed.
