(* ===== verification/Abi.v ===== *)
(** System calls from C without a C library: the inline assembly of
    arch/*/linux-abi.h and the wrappers of arch/syscall.c the parasite uses.

    An [asm] statement is its operand lists.  What the compiler guarantees is
    that the registers of the input operands hold their values when the
    instruction runs; every other register may hold anything ([other]).  What
    the statement promises in turn is that only its output and its clobbers
    change.  The kernel is a parameter: a function of the number, the six
    argument registers and the state it works on. *)
From stdpp Require Import base list.
From S2P Require Import Prelude Arch.
#[local] Open Scope Z_scope.

(** * The system call instruction *)

(** The convention of an architecture (syscall(2)): the registers of the number
    and the arguments, of the result, and those the kernel's entry destroys. *)
Class Abi (A : Type) := {
  abi_nr : A;
  abi_args : list A;
  abi_ret : A;
  abi_lost : list A;
}.

#[export] Instance x86_64_abi : Abi X86_64.reg := {|
  abi_nr := X86_64.rax;
  abi_args := [X86_64.rdi; X86_64.rsi; X86_64.rdx; X86_64.r10; X86_64.r8; X86_64.r9];
  abi_ret := X86_64.rax;
  abi_lost := [X86_64.rcx; X86_64.r11];
|}.
#[export] Instance arm_abi : Abi Arm.reg := {|
  abi_nr := Arm.r7;
  abi_args := [Arm.r0; Arm.r1; Arm.r2; Arm.r3; Arm.r4; Arm.r5];
  abi_ret := Arm.r0;
  abi_lost := [];
|}.
#[export] Instance arm64_abi : Abi Arm64.reg := {|
  abi_nr := Arm64.x8;
  abi_args := [Arm64.x0; Arm64.x1; Arm64.x2; Arm64.x3; Arm64.x4; Arm64.x5];
  abi_ret := Arm64.x0;
  abi_lost := [];
|}.
#[export] Instance riscv64_abi : Abi Riscv64.reg := {|
  abi_nr := Riscv64.a7;
  abi_args := [Riscv64.a0; Riscv64.a1; Riscv64.a2; Riscv64.a3; Riscv64.a4; Riscv64.a5];
  abi_ret := Riscv64.a0;
  abi_lost := [];
|}.

(** The kernel on a state [M]: the result and the new state. *)
Definition kernel_fn (M : Type) : Type := Z -> list Z -> M -> Z * M.

Section Trap.
Context {A : Type} `{EqDecision A} `{Abi A}.

(** The registers when the kernel returns; [lost]: the ones it destroys. *)
Definition trap_regs (lost : A -> Z) (ret : Z) (regs : A -> Z) : A -> Z :=
  fun r => if decide (r = abi_ret) then ret else if decide (r ∈ abi_lost) then lost r else regs r.

Definition trap {M} (kernel : kernel_fn M) (lost regs : A -> Z) (m : M) : (A -> Z) * M :=
  let '(ret, m) := kernel (regs abi_nr) (map regs abi_args) m in (trap_regs lost ret regs, m).

(** * asm statements *)

Record asm_stmt := AsmStmt {
  asm_out : A;                       (** the output operand *)
  asm_in : list (A * Z);             (** the input operands, with their values *)
  asm_vars : list (A * Z);           (** register variables that are no operands *)
  asm_clobbers : list A;             (** declared clobbers other than memory *)
}.

Fixpoint load_operands (ins : list (A * Z)) (other : A -> Z) : A -> Z :=
  match ins with
  | [] => other
  | (r, v) :: ins => set_reg r v (load_operands ins other)
  end.

(** The statement run: its value, and the registers and the state after it. *)
Definition asm_run {M} (kernel : kernel_fn M) (lost other : A -> Z) (s : asm_stmt) (m : M)
    : Z * (A -> Z) * M :=
  let '(regs, m) := trap kernel lost (load_operands (asm_in s) other) m in (regs (asm_out s), regs, m).
End Trap.
Arguments asm_stmt A : clear implicits.

(** * linux-abi.h

    [nr] and the arguments as the registers hold them. *)

Definition x86_64_syscall0 (nr : Z) : asm_stmt X86_64.reg :=
  AsmStmt X86_64.rax [(X86_64.rax, nr)] [] [].
Definition x86_64_syscall1 (nr arg0 : Z) : asm_stmt X86_64.reg :=
  AsmStmt X86_64.rax [(X86_64.rax, nr); (X86_64.rdi, arg0)] [] [].
Definition x86_64_syscall2 (nr arg0 arg1 : Z) : asm_stmt X86_64.reg :=
  AsmStmt X86_64.rax [(X86_64.rax, nr); (X86_64.rdi, arg0); (X86_64.rsi, arg1)] [] [].
Definition x86_64_syscall3 (nr arg0 arg1 arg2 : Z) : asm_stmt X86_64.reg :=
  AsmStmt X86_64.rax [(X86_64.rax, nr); (X86_64.rdi, arg0); (X86_64.rsi, arg1); (X86_64.rdx, arg2)] [] [].
Definition x86_64_syscall4 (nr arg0 arg1 arg2 arg3 : Z) : asm_stmt X86_64.reg :=
  AsmStmt X86_64.rax [(X86_64.rax, nr); (X86_64.rdi, arg0); (X86_64.rsi, arg1); (X86_64.rdx, arg2)]
    [(X86_64.r10, arg3)] [].
Definition x86_64_syscall5 (nr arg0 arg1 arg2 arg3 arg4 : Z) : asm_stmt X86_64.reg :=
  AsmStmt X86_64.rax [(X86_64.rax, nr); (X86_64.rdi, arg0); (X86_64.rsi, arg1); (X86_64.rdx, arg2)]
    [(X86_64.r10, arg3); (X86_64.r8, arg4)] [].

Definition arm_syscall0 (nr : Z) : asm_stmt Arm.reg :=
  AsmStmt Arm.r0 [(Arm.r7, nr)] [] [].
Definition arm_syscall1 (nr arg0 : Z) : asm_stmt Arm.reg :=
  AsmStmt Arm.r0 [(Arm.r7, nr); (Arm.r0, arg0)] [] [].
Definition arm_syscall2 (nr arg0 arg1 : Z) : asm_stmt Arm.reg :=
  AsmStmt Arm.r0 [(Arm.r7, nr); (Arm.r0, arg0); (Arm.r1, arg1)] [] [].
Definition arm_syscall3 (nr arg0 arg1 arg2 : Z) : asm_stmt Arm.reg :=
  AsmStmt Arm.r0 [(Arm.r7, nr); (Arm.r0, arg0); (Arm.r1, arg1); (Arm.r2, arg2)] [] [].
Definition arm_syscall4 (nr arg0 arg1 arg2 arg3 : Z) : asm_stmt Arm.reg :=
  AsmStmt Arm.r0 [(Arm.r7, nr); (Arm.r0, arg0); (Arm.r1, arg1); (Arm.r2, arg2); (Arm.r3, arg3)] [] [].
Definition arm_syscall5 (nr arg0 arg1 arg2 arg3 arg4 : Z) : asm_stmt Arm.reg :=
  AsmStmt Arm.r0 [(Arm.r7, nr); (Arm.r0, arg0); (Arm.r1, arg1); (Arm.r2, arg2); (Arm.r3, arg3); (Arm.r4, arg4)] [] [].

Definition arm64_syscall0 (nr : Z) : asm_stmt Arm64.reg :=
  AsmStmt Arm64.x0 [(Arm64.x8, nr)] [] [].
Definition arm64_syscall1 (nr arg0 : Z) : asm_stmt Arm64.reg :=
  AsmStmt Arm64.x0 [(Arm64.x8, nr); (Arm64.x0, arg0)] [] [].
Definition arm64_syscall2 (nr arg0 arg1 : Z) : asm_stmt Arm64.reg :=
  AsmStmt Arm64.x0 [(Arm64.x8, nr); (Arm64.x0, arg0); (Arm64.x1, arg1)] [] [].
Definition arm64_syscall3 (nr arg0 arg1 arg2 : Z) : asm_stmt Arm64.reg :=
  AsmStmt Arm64.x0 [(Arm64.x8, nr); (Arm64.x0, arg0); (Arm64.x1, arg1); (Arm64.x2, arg2)] [] [].
Definition arm64_syscall4 (nr arg0 arg1 arg2 arg3 : Z) : asm_stmt Arm64.reg :=
  AsmStmt Arm64.x0 [(Arm64.x8, nr); (Arm64.x0, arg0); (Arm64.x1, arg1); (Arm64.x2, arg2); (Arm64.x3, arg3)] [] [].
Definition arm64_syscall5 (nr arg0 arg1 arg2 arg3 arg4 : Z) : asm_stmt Arm64.reg :=
  AsmStmt Arm64.x0
    [(Arm64.x8, nr); (Arm64.x0, arg0); (Arm64.x1, arg1); (Arm64.x2, arg2); (Arm64.x3, arg3); (Arm64.x4, arg4)] [] [].

Definition riscv64_syscall0 (nr : Z) : asm_stmt Riscv64.reg :=
  AsmStmt Riscv64.a0 [(Riscv64.a7, nr)] [] [].
Definition riscv64_syscall1 (nr arg0 : Z) : asm_stmt Riscv64.reg :=
  AsmStmt Riscv64.a0 [(Riscv64.a7, nr); (Riscv64.a0, arg0)] [] [].
Definition riscv64_syscall2 (nr arg0 arg1 : Z) : asm_stmt Riscv64.reg :=
  AsmStmt Riscv64.a0 [(Riscv64.a7, nr); (Riscv64.a0, arg0); (Riscv64.a1, arg1)] [] [].
Definition riscv64_syscall3 (nr arg0 arg1 arg2 : Z) : asm_stmt Riscv64.reg :=
  AsmStmt Riscv64.a0 [(Riscv64.a7, nr); (Riscv64.a0, arg0); (Riscv64.a1, arg1); (Riscv64.a2, arg2)] [] [].
Definition riscv64_syscall4 (nr arg0 arg1 arg2 arg3 : Z) : asm_stmt Riscv64.reg :=
  AsmStmt Riscv64.a0
    [(Riscv64.a7, nr); (Riscv64.a0, arg0); (Riscv64.a1, arg1); (Riscv64.a2, arg2); (Riscv64.a3, arg3)] [] [].
Definition riscv64_syscall5 (nr arg0 arg1 arg2 arg3 arg4 : Z) : asm_stmt Riscv64.reg :=
  AsmStmt Riscv64.a0
    [(Riscv64.a7, nr); (Riscv64.a0, arg0); (Riscv64.a1, arg1); (Riscv64.a2, arg2); (Riscv64.a3, arg3); (Riscv64.a4, arg4)]
    [] [].

(** What linux-abi.h gives to syscall.c. *)
Class LinuxAbi (A : Type) := {
  syscall0 : Z -> asm_stmt A;
  syscall1 : Z -> Z -> asm_stmt A;
  syscall2 : Z -> Z -> Z -> asm_stmt A;
  syscall3 : Z -> Z -> Z -> Z -> asm_stmt A;
  syscall4 : Z -> Z -> Z -> Z -> Z -> asm_stmt A;
  syscall5 : Z -> Z -> Z -> Z -> Z -> Z -> asm_stmt A;
}.

#[export] Instance x86_64_linux : LinuxAbi X86_64.reg := {|
  syscall0 := x86_64_syscall0; syscall1 := x86_64_syscall1; syscall2 := x86_64_syscall2;
  syscall3 := x86_64_syscall3; syscall4 := x86_64_syscall4; syscall5 := x86_64_syscall5;
|}.
#[export] Instance arm_linux : LinuxAbi Arm.reg := {|
  syscall0 := arm_syscall0; syscall1 := arm_syscall1; syscall2 := arm_syscall2;
  syscall3 := arm_syscall3; syscall4 := arm_syscall4; syscall5 := arm_syscall5;
|}.
#[export] Instance arm64_linux : LinuxAbi Arm64.reg := {|
  syscall0 := arm64_syscall0; syscall1 := arm64_syscall1; syscall2 := arm64_syscall2;
  syscall3 := arm64_syscall3; syscall4 := arm64_syscall4; syscall5 := arm64_syscall5;
|}.
#[export] Instance riscv64_linux : LinuxAbi Riscv64.reg := {|
  syscall0 := riscv64_syscall0; syscall1 := riscv64_syscall1; syscall2 := riscv64_syscall2;
  syscall3 := riscv64_syscall3; syscall4 := riscv64_syscall4; syscall5 := riscv64_syscall5;
|}.

(** * syscall.c *)

(** The numbers of <sys/syscall.h> the file uses; the last four may be missing. *)
Record sysno := Sysno {
  NR_read : Z; NR_write : Z; NR_close : Z; NR_mprotect : Z; NR_madvise : Z; NR_socket : Z; NR_accept : Z;
  NR_bind : Z; NR_listen : Z; NR_exit : Z; NR_gettid : Z; NR_fchmod : Z; NR_getuid : Z; NR_openat : Z; NR_lseek : Z;
  NR_fchmodat : option Z; NR_chmod : option Z; NR_fchownat : option Z; NR_chown : option Z;
}.

Definition AT_FDCWD : Z := -100.
Definition ENOSYS : Z := 38.

(** The body of a wrapper: a call and the conversion of its value to the type
    the wrapper returns, or a constant. *)
Inductive wrapper (A : Type) :=
| Invoke (conv : Z -> Z) (s : asm_stmt A)
| Constant (z : Z).
Arguments Invoke {A} _ _.
Arguments Constant {A} _.

Section Syscall.
Context {A : Type} `{EqDecision A} `{Abi A} `{LinuxAbi A} `{Cpu (A -> Z)} (nr : sysno).
#[local] Abbreviation ulong := (ulong (R := A -> Z)).
#[local] Abbreviation slong := (slong (R := A -> Z)).
#[local] Abbreviation wrapper := (wrapper A).

(** [int] arguments are extended with their sign; [mode_t], [uid_t], [gid_t]
    and [socklen_t] are unsigned and 32 bits wide; pointers, [size_t] and
    [unsigned long] are words. *)
Definition int (conv : Z) : Z := i32 conv.

Definition sys_read (fd buf count : Z) : wrapper := Invoke slong (syscall3 (NR_read nr) (ulong fd) buf count).
Definition sys_write (fd buf count : Z) : wrapper := Invoke slong (syscall3 (NR_write nr) (ulong fd) buf count).
Definition sys_close (fd : Z) : wrapper := Invoke int (syscall1 (NR_close nr) (ulong fd)).
Definition sys_mprotect (addr len prot : Z) : wrapper := Invoke int (syscall3 (NR_mprotect nr) addr len prot).
Definition sys_madvise (addr len advice : Z) : wrapper :=
  Invoke int (syscall3 (NR_madvise nr) addr len (ulong advice)).
Definition sys_socket (family type protocol : Z) : wrapper :=
  Invoke int (syscall3 (NR_socket nr) (ulong family) (ulong type) (ulong protocol)).
Definition sys_accept (fd addr addrlen : Z) : wrapper := Invoke int (syscall3 (NR_accept nr) (ulong fd) addr addrlen).
Definition sys_bind (fd addr len : Z) : wrapper := Invoke int (syscall3 (NR_bind nr) (ulong fd) addr (u32 len)).
Definition sys_listen (fd n : Z) : wrapper := Invoke int (syscall2 (NR_listen nr) (ulong fd) (ulong n)).
Definition sys_exit (error_code : Z) : wrapper := Invoke int (syscall1 (NR_exit nr) (ulong error_code)).
Definition sys_gettid : wrapper := Invoke slong (syscall0 (NR_gettid nr)).
Definition sys_fchmod (fd mode : Z) : wrapper := Invoke int (syscall2 (NR_fchmod nr) (ulong fd) (u32 mode)).
Definition sys_chmod (path mode : Z) : wrapper :=
  match NR_fchmodat nr, NR_chmod nr with
  | Some n, _ => Invoke int (syscall4 n (ulong AT_FDCWD) path (u32 mode) 0)
  | None, Some n => Invoke int (syscall2 n path (u32 mode))
  | None, None => Constant (- ENOSYS)
  end.
Definition sys_chown (path owner group : Z) : wrapper :=
  match NR_fchownat nr, NR_chown nr with
  | Some n, _ => Invoke int (syscall5 n (ulong AT_FDCWD) path (u32 owner) (u32 group) 0)
  | None, Some n => Invoke int (syscall3 n path (u32 owner) (u32 group))
  | None, None => Constant (- ENOSYS)
  end.
Definition sys_getuid : wrapper := Invoke int (syscall0 (NR_getuid nr)).
Definition sys_open (path mode : Z) : wrapper :=
  Invoke int (syscall3 (NR_openat nr) (ulong AT_FDCWD) path (u32 mode)).
Definition sys_lseek (fd off whence : Z) : wrapper :=
  Invoke ulong (syscall3 (NR_lseek nr) (ulong fd) off (ulong whence)).

(** A call of a wrapper. *)
Definition sys_run {M} (kernel : kernel_fn M) (lost other : A -> Z) (w : wrapper) (m : M) : Z * M :=
  match w with
  | Constant z => (z, m)
  | Invoke conv s => let '(v, _, m) := asm_run kernel lost other s m in (conv v, m)
  end.

(** * What the wrappers promise *)

(** Whatever the other registers hold, the kernel gets this number and these
    arguments first, and its answer is the statement's value. *)
Definition passes (s : asm_stmt A) (n : Z) (args : list Z) : Prop :=
  forall M (kernel : kernel_fn M) lost other m, exists rest,
    (asm_run kernel lost other s m).1.1 = (kernel n (args ++ rest) m).1
    /\ (asm_run kernel lost other s m).2 = (kernel n (args ++ rest) m).2.

(** The statement changes no register but its output and its clobbers. *)
Definition honest (s : asm_stmt A) : Prop :=
  forall M (kernel : kernel_fn M) lost other m r,
    r <> asm_out s -> r ∉ asm_clobbers s ->
    (asm_run kernel lost other s m).1.2 r = load_operands (asm_in s) other r.

(** The same for a wrapper: [conv] is applied to the kernel's answer. *)
Definition calls (w : wrapper) (n : Z) (args : list Z) (conv : Z -> Z) : Prop :=
  forall M (kernel : kernel_fn M) lost other m, exists rest,
    sys_run kernel lost other w m = (conv (kernel n (args ++ rest) m).1, (kernel n (args ++ rest) m).2).

Lemma calls_invoke s n args conv : passes s n args -> calls (Invoke conv s) n args conv.
Proof.
  intros Hp M kernel lost other m. destruct (Hp M kernel lost other m) as (rest & E1 & E2). exists rest.
  unfold sys_run. destruct (asm_run kernel lost other s m) as [[v regs] m']. cbn in *. by subst.
Qed.
End Syscall.

(** The interface to syscall.c: statements with at most [k] arguments pass them. *)
Class LinuxAbiSpec (A : Type) `{EqDecision A} `{Abi A} `{LinuxAbi A} (k : nat) := {
  syscall0_passes n : passes (syscall0 n) n [];
  syscall1_passes n a0 : (1 <= k)%nat -> passes (syscall1 n a0) n [a0];
  syscall2_passes n a0 a1 : (2 <= k)%nat -> passes (syscall2 n a0 a1) n [a0; a1];
  syscall3_passes n a0 a1 a2 : (3 <= k)%nat -> passes (syscall3 n a0 a1 a2) n [a0; a1; a2];
  syscall4_passes n a0 a1 a2 a3 : (4 <= k)%nat -> passes (syscall4 n a0 a1 a2 a3) n [a0; a1; a2; a3];
  syscall5_passes n a0 a1 a2 a3 a4 : (5 <= k)%nat -> passes (syscall5 n a0 a1 a2 a3 a4) n [a0; a1; a2; a3; a4];
}.

(** A statement passes the arguments that are operands in the registers of the
    convention. *)
Lemma passes_operands {A} `{EqDecision A} `{Abi A} (s : asm_stmt A) n args :
  asm_out s = abi_ret -> (forall other, load_operands (asm_in s) other abi_nr = n) ->
  (forall other, map (load_operands (asm_in s) other) (take (length args) abi_args) = args) -> passes s n args.
Proof.
  intros Ho Hn Ha M kernel lost other m.
  exists (map (load_operands (asm_in s) other) (drop (length args) abi_args)).
  rewrite <- (Ha other) at 1 3. rewrite <- map_app, take_drop. unfold asm_run, trap. rewrite Hn, Ho.
  destruct (kernel _ _ m) as [ret m']. cbn. split; [|done]. unfold trap_regs. by rewrite decide_True.
Qed.

Lemma honest_lossless {A} `{EqDecision A} `{Abi A} (s : asm_stmt A) : abi_lost = [] -> asm_out s = abi_ret -> honest s.
Proof.
  intros Hl Ho M kernel lost other m r Hr _. unfold asm_run, trap. destruct (kernel _ _ m) as [ret m']. cbn.
  unfold trap_regs. rewrite Hl, decide_False by congruence. rewrite decide_False; [done|]. apply not_elem_of_nil.
Qed.

#[export] Instance arm_passes : LinuxAbiSpec Arm.reg 5.
Proof. split; intros; by apply passes_operands. Qed.
#[export] Instance arm64_passes : LinuxAbiSpec Arm64.reg 5.
Proof. split; intros; by apply passes_operands. Qed.
#[export] Instance riscv64_passes : LinuxAbiSpec Riscv64.reg 5.
Proof. split; intros; by apply passes_operands. Qed.
#[export] Instance x86_64_passes : LinuxAbiSpec X86_64.reg 3.
Proof. split; intros; first [by apply passes_operands | lia]. Qed.

(** ** The wrappers *)

(** The types the wrappers return: int, ssize_t (or long) and size_t, and the
    answers of the kernel they can hold: an error number or a value that fits; in
    a size_t every word, an error as the large number it is there. *)
Inductive ret_type := RInt | RSsize | RSize.

Definition fits {A} `{Cpu (A -> Z)} (t : ret_type) (r : Z) : Prop :=
  match t with
  | RInt => -4095 <= r < 2 ^ 31
  | RSsize => -4095 <= r < 2 ^ (8 * word_size (R := A -> Z) - 1)
  | RSize => 0 <= r < 2 ^ (8 * word_size (R := A -> Z))
  end.

(** The wrapper makes the system call [n] with these arguments, and returns what
    the kernel answers, as long as that fits its type. *)
Definition answers {A} `{EqDecision A} `{Abi A} `{Cpu (A -> Z)} (t : ret_type) (w : wrapper A) (n : Z) (args : list Z) : Prop :=
  forall M (kernel : kernel_fn M) lost other m, exists rest, forall r m',
    fits (A := A) t r -> kernel n (args ++ rest) m = (ulong (R := A -> Z) r, m') ->
    sys_run kernel lost other w m = (r, m').

Lemma i32_mod z k : 32 <= k -> i32 (z mod 2 ^ k) = i32 z.
Proof.
  intros Hk. unfold i32. f_equal. rewrite <- (Zplus_mod_idemp_l (z mod 2 ^ k)), <- (Zplus_mod_idemp_l z). do 2 f_equal.
  apply Z.mod_mod_divide. exists (2 ^ (k - 32)). rewrite <- Z.pow_add_r by lia. f_equal. lia.
Qed.

Section Wrappers.
Context {A : Type} `{EqDecision A} `{Abi A} `{LinuxAbi A} `{Cpu (A -> Z)} `{!CpuSpec (A -> Z)} (nr : sysno).
#[local] Abbreviation ulong := (ulong (R := A -> Z)).
#[local] Abbreviation slong := (slong (R := A -> Z)).

(** Conversions give back what fits. *)
Lemma int_ulong r : -4095 <= r < 2 ^ 31 -> int (ulong r) = r.
Proof.
  intros Hr. unfold int, Arch.ulong. rewrite i32_mod; [apply i32_small; lia|]. by destruct (cpu_word (R := A -> Z)) as [-> | ->].
Qed.

Lemma slong_ulong r : fits (A := A) RSsize r -> slong (ulong r) = r.
Proof.
  unfold fits, Arch.slong, Arch.ulong.
  destruct (cpu_word (R := A -> Z)) as [-> | ->]; intros Hr; rewrite Zplus_mod_idemp_l, Z.mod_small by lia; lia.
Qed.

Lemma ulong_ulong r : fits (A := A) RSize r -> ulong (ulong r) = r.
Proof. intros Hr. unfold Arch.ulong. by rewrite !(Z.mod_small r) by exact Hr. Qed.

Lemma answers_invoke t conv s n args :
  (forall r, fits (A := A) t r -> conv (ulong r) = r) -> passes s n args -> answers t (Invoke conv s) n args.
Proof.
  intros Hc Hp M kernel lost other m. destruct (calls_invoke s n args conv Hp M kernel lost other m) as (rest & E).
  exists rest. intros r m' Hr K. rewrite E, K. cbn. by rewrite Hc.
Qed.

(** What a caller of the wrappers may ask for. *)
Record sys_args := SysArgs {
  a_fd : Z; a_buf : Z; a_count : Z; a_addr : Z; a_len : Z; a_prot : Z; a_advice : Z; a_family : Z; a_type : Z;
  a_protocol : Z; a_addrlen : Z; a_backlog : Z; a_code : Z; a_path : Z; a_mode : Z; a_owner : Z; a_group : Z;
  a_off : Z; a_whence : Z;
}.

(** The wrappers with at most three arguments, with the types they return and the
    calls they stand for. *)
Definition short_wrappers (a : sys_args) : list (ret_type * wrapper A * Z * list Z) :=
  [ (RSsize, sys_read nr (a_fd a) (a_buf a) (a_count a), NR_read nr, [ulong (a_fd a); a_buf a; a_count a]);
    (RSsize, sys_write nr (a_fd a) (a_buf a) (a_count a), NR_write nr, [ulong (a_fd a); a_buf a; a_count a]);
    (RInt, sys_close nr (a_fd a), NR_close nr, [ulong (a_fd a)]);
    (RInt, sys_mprotect nr (a_addr a) (a_len a) (a_prot a), NR_mprotect nr, [a_addr a; a_len a; a_prot a]);
    (RInt, sys_madvise nr (a_addr a) (a_len a) (a_advice a), NR_madvise nr, [a_addr a; a_len a; ulong (a_advice a)]);
    (RInt, sys_socket nr (a_family a) (a_type a) (a_protocol a), NR_socket nr,
      [ulong (a_family a); ulong (a_type a); ulong (a_protocol a)]);
    (RInt, sys_accept nr (a_fd a) (a_addr a) (a_addrlen a), NR_accept nr, [ulong (a_fd a); a_addr a; a_addrlen a]);
    (RInt, sys_bind nr (a_fd a) (a_addr a) (a_len a), NR_bind nr, [ulong (a_fd a); a_addr a; u32 (a_len a)]);
    (RInt, sys_listen nr (a_fd a) (a_backlog a), NR_listen nr, [ulong (a_fd a); ulong (a_backlog a)]);
    (RInt, sys_exit nr (a_code a), NR_exit nr, [ulong (a_code a)]);
    (RSsize, sys_gettid nr, NR_gettid nr, []);
    (RInt, sys_fchmod nr (a_fd a) (a_mode a), NR_fchmod nr, [ulong (a_fd a); u32 (a_mode a)]);
    (RInt, sys_getuid nr, NR_getuid nr, []);
    (RInt, sys_open nr (a_path a) (a_mode a), NR_openat nr, [ulong AT_FDCWD; a_path a; u32 (a_mode a)]);
    (RSize, sys_lseek nr (a_fd a) (a_off a) (a_whence a), NR_lseek nr, [ulong (a_fd a); a_off a; ulong (a_whence a)]) ].

Lemma short_wrappers_answer k `{!LinuxAbiSpec A k} a :
  (3 <= k)%nat -> Forall (fun '(t, w, n, args) => answers t w n args) (short_wrappers a).
Proof.
  intros Hk. repeat apply Forall_cons_2; [..|apply Forall_nil_2];
    (apply answers_invoke; [first [exact slong_ulong | exact int_ulong | exact ulong_ulong]|]);
    first [by apply syscall0_passes | apply syscall1_passes | apply syscall2_passes | apply syscall3_passes]; lia.
Qed.

(** C25: whatever the registers hold that are not operands of the [asm]
    statements, each of the 17 wrappers of arch/syscall.c makes the system call it
    stands for, with the arguments its caller gave, in the registers where the
    kernel looks for them, and returns the kernel's answer if that fits the type
    the wrapper returns: for an int an error number (-4095 to -1) or a value below
    2^31, for ssize_t and long an error number or a value below half the word
    range, for sys_lseek's size_t any word (an error number as the large unsigned
    value it becomes there).  This holds where the statements of linux-abi.h pass
    up to five arguments and the system has fchmodat and fchownat, as on arm, arm64
    and riscv64; on x86_64, where they pass three, it holds of all wrappers but
    sys_chmod and sys_chown ([short_wrappers_answer]). *)
Theorem wrappers_answer `{!LinuxAbiSpec A 5} a nm no :
  NR_fchmodat nr = Some nm -> NR_fchownat nr = Some no ->
  Forall (fun '(t, w, n, args) => answers t w n args)
    (short_wrappers a
     ++ [ (RInt, sys_chmod nr (a_path a) (a_mode a), nm, [ulong AT_FDCWD; a_path a; u32 (a_mode a); 0]);
          (RInt, sys_chown nr (a_path a) (a_owner a) (a_group a), no,
            [ulong AT_FDCWD; a_path a; u32 (a_owner a); u32 (a_group a); 0]) ]).
Proof.
  intros Em Eo. apply Forall_app. split; [apply (short_wrappers_answer 5); lia|].
  unfold sys_chmod, sys_chown. rewrite Em, Eo.
  repeat apply Forall_cons_2; [..|apply Forall_nil_2]; (apply answers_invoke; [exact int_ulong|]);
    (apply syscall4_passes || apply syscall5_passes); lia.
Qed.
End Wrappers.

(** On x86_64 the group given to sys_chown is no operand of the [asm]
    statement, nor are the flags: r10 and r8 are local register variables that
    the statement does not name.  The kernel gets whatever the two registers
    hold as the fourth and the fifth argument. *)
Theorem x86_64_chown_group_lost nr no path owner group {M} (kernel : kernel_fn M) lost other m :
  NR_fchownat nr = Some no ->
  sys_run kernel lost other (sys_chown nr path owner group) m
  = (let '(r, m') := kernel no [u64 AT_FDCWD; path; u32 owner; other X86_64.r10; other X86_64.r8; other X86_64.r9] m in
     (i32 r, m')).
Proof.
  intros E. unfold sys_chown. rewrite E. unfold sys_run, asm_run, trap. cbn. by destruct (kernel _ _ m).
Qed.

(** The statements of x86_64 do not name the two registers the instruction
    destroys; a compiler may keep a variable there across the call. *)
Lemma x86_64_dishonest nr : ~ honest (x86_64_syscall0 nr).
Proof.
  intros Hh. specialize (Hh unit (fun _ _ m => (0, m)) (fun _ => 1) (fun _ => 0) tt X86_64.rcx). cbn in Hh.
  by assert (1 = 0) by (apply Hh; [done|apply not_elem_of_nil]).
Qed.

(** The others change their output register only. *)
Lemma arm_honest n a0 a1 a2 a3 a4 : honest (arm_syscall3 n a0 a1 a2) /\ honest (arm_syscall5 n a0 a1 a2 a3 a4).
Proof. split; by apply honest_lossless. Qed.
Lemma arm64_honest n a0 a1 a2 a3 a4 : honest (arm64_syscall3 n a0 a1 a2) /\ honest (arm64_syscall5 n a0 a1 a2 a3 a4).
Proof. split; by apply honest_lossless. Qed.
Lemma riscv64_honest n a0 a1 a2 a3 a4 : honest (riscv64_syscall3 n a0 a1 a2) /\ honest (riscv64_syscall5 n a0 a1 a2 a3 a4).
Proof. split; by apply honest_lossless. Qed.

(** The numbers of arm64 (asm-generic/unistd.h), for the witnesses. *)
Definition generic_sysno : sysno :=
  Sysno 63 64 57 226 233 198 202 200 201 93 178 52 174 56 62 (Some 53) None (Some 54) None.

Definition sample_args : sys_args := SysArgs 3 0x2000 28 0x2000 4096 3 4 1 1 0 0 1 0 0x1000 0x1b0 (-1) 100 4096 0.

Lemma wrappers_answer_witness :
  Forall (fun '(t, w, n, args) => answers (A := Arm64.reg) t w n args)
    (short_wrappers generic_sysno sample_args
     ++ [ (RInt, sys_chmod generic_sysno 0x1000 0x1b0, 53, [ulong (R := arm64_registers) (-100); 0x1000; u32 0x1b0; 0]);
          (RInt, sys_chown generic_sysno 0x1000 (-1) 100, 54, [ulong (R := arm64_registers) (-100); 0x1000; u32 (-1); u32 100; 0]) ]).
Proof.
  apply (wrappers_answer (A := Arm64.reg) generic_sysno sample_args 53 54); reflexivity.
Defined.

Lemma x86_64_chown_group_lost_witness :
  sys_run (A := X86_64.reg) (M := list Z) (fun _ args _ => (0, args)) (fun _ => 0) (fun _ => 7)
    (sys_chown generic_sysno 0x1000 (-1) 100) []
  = (0, [2 ^ 64 - 100; 0x1000; 0xffffffff; 7; 7; 7]).
Proof.
  exact (x86_64_chown_group_lost generic_sysno 54 0x1000 (-1) 100 (fun _ args _ => (0, args)) (fun _ => 0) (fun _ => 7)
    [] eq_refl).
Defined.
