(* ===== verification/Inject.v ===== *)
(** Running code in the target (memcr.c): [peek], [poke], [execute_blob],
    [signals_block], [signals_unblock], [ctx_save], [ctx_restore] and the two
    functions that put the parasite in and take it out,
    [execute_parasite_checkpoint] and [execute_parasite_restore].

    The stopped thread is a record of what ptrace(2) reaches: registers, memory,
    signal mask.  Each time it is continued, the next element of a list says
    where it stops and what happened to it until then.  [exec],
    what the processor does from the current registers to the debug trap, is a
    parameter here: the class [Blobs] of InjectFacts.v states what is relied on,
    and Enter.v proves it of the code in arch/*/enter.c. *)
From Stdlib Require Import String.
From stdpp Require Import base list.
From S2P Require Import Prelude Io Target Proto Paths Arch Seize Watch.
#[local] Open Scope Z_scope.

Record tracee (R : Type) := Tracee {
  w_regs : R;
  w_mem : Z -> byte;
  w_mapped : Z -> bool;
  w_mask : bytes;                    (** the 8 bytes of the signal mask *)
}.
Arguments Tracee {R} _ _ _ _.
Arguments w_regs {R} _.
Arguments w_mem {R} _ _.
Arguments w_mapped {R} _ _.
Arguments w_mask {R} _.

(** * Memory *)

Definition EIO : Z := 5.
Definition MAX_ERRNO : Z := 4095.
Definition round_down (x y : Z) : Z := Z.land x (Z.lnot (y - 1)).
Definition DIV_ROUND_UP (n d : Z) : Z := (n + d - 1) / d.

Definition range (f : Z -> byte) (a n : Z) : bytes := map (fun i => f (a + Z.of_nat i)) (seq 0 (Z.to_nat n)).
Definition store (f : Z -> byte) (a : Z) (bs : bytes) : Z -> byte :=
  fun x => if in_rangeb a (blen bs) x then nth (Z.to_nat (x - a)) bs Byte.x00 else f x.

Section Inject.
Context {R : Type} `{Cpu R}.
#[local] Abbreviation tracee := (tracee R).

Definition IS_ERR_VALUE (x : Z) : bool := ulong (- MAX_ERRNO) <=? x.

Definition setregs (r : R) (w : tracee) : tracee := Tracee r (w_mem w) (w_mapped w) (w_mask w).
Definition setmem (m : Z -> byte) (w : tracee) : tracee := Tracee (w_regs w) m (w_mapped w) (w_mask w).

Definition word_mapped (w : tracee) (a : Z) : bool := all_in_range a word_size (w_mapped w).

(** PTRACE_PEEKDATA and PTRACE_POKEDATA of one word, as its bytes. *)
Definition pt_peek (w : tracee) (a : Z) : option bytes :=
  if word_mapped w a then Some (range (w_mem w) a word_size) else None.
Definition pt_poke (w : tracee) (a : Z) (b : bytes) : option tracee :=
  if word_mapped w a then Some (setmem (store (w_mem w) a b) w) else None.

Fixpoint peek_loop (n : nat) (addr : Z) (w : tracee) : Z * bytes :=
  match n with
  | O => (0, [])
  | S n =>
      match pt_peek w addr with
      | None => (EIO, [])
      | Some b => let '(ret, dst) := peek_loop n (addr + word_size) w in (ret, b ++ dst)
      end
  end.

(** The return value, and the words read into [dst]. *)
Definition peek (addr len : Z) (w : tracee) : run (Z * bytes) :=
  if negb (len mod word_size =? 0) then AssertFail
  else Ret (peek_loop (Z.to_nat (len / word_size)) addr w).

Fixpoint poke_loop (n : nat) (addr : Z) (src : bytes) (ret : Z) (w : tracee) : Z * tracee :=
  match n with
  | O => (ret, w)
  | S n =>
      match pt_poke w addr (ztake word_size src) with
      | None => (-1, w)
      | Some w => poke_loop n (addr + word_size) (zdrop word_size src) 0 w
      end
  end.

Definition poke (addr : Z) (src : bytes) (w : tracee) : run (Z * tracee) :=
  if negb (blen src mod word_size =? 0) then AssertFail
  else Ret (poke_loop (Z.to_nat (blen src / word_size)) addr src (-1) w).

(** * Executing a blob *)

(** Where the thread stops after PTRACE_CONT, and what happened to it since. *)
Inductive stop :=
| StopTrap                                   (** the trap at the end of the blob *)
| StopSignal (signo : Z) (f : tracee -> tracee)   (** delivery of a signal *)
| StopEvent (f : tracee -> tracee)           (** PTRACE_EVENT_STOP *)
| StopKilled (sig : Z).                      (** the process is gone *)

Definition SIGTRAP : Z := 5.

(** What wait4() is called for. *)
Inductive blob_mode :=
| Running                                    (** the blob, after the label retry *)
| Delivering                                 (** a signal, after the label retry_signal *)
| Finishing.                                 (** the stop after the blob's trap *)

Record target_context := Context_ {
  c_pid : Z;
  c_pc : Z;
  c_sp : Z;
  c_code : bytes;                            (** code, code_size *)
  c_stack : bytes;                           (** stack[16] *)
  c_sigset : bytes;
  c_blob : Z;
}.

(** The processor, from the current registers to the trap. *)
Context (exec : tracee -> tracee).

Section Blob.
Context (pc sp arg0 arg1 : Z) (stack : bytes) (saved : R).

(** The label retry, up to PTRACE_CONT. *)
Definition start (w : tracee) : tracee := setregs (set_cpu_regs saved pc arg0 arg1) w.

Fixpoint blob_loop (env : list stop) (mode : blob_mode) (w : tracee) : run (Z * list stop * tracee) :=
  match env with
  | [] => OutOfFuel
  | s :: env =>
      match mode, s with
      | Running, StopTrap => blob_loop env Finishing (exec w)
      | Running, StopEvent f => blob_loop env Finishing (f w)
      | Running, StopSignal _ f => blob_loop env Delivering (setregs saved (f w))
      | Running, StopKilled _ => AssertFail
      | Delivering, StopKilled _ => Ret (ulong (-1), env, w)
      | Delivering, StopTrap => blob_loop env Delivering (setregs saved (exec w))
      | Delivering, StopSignal _ f => blob_loop env Delivering (setregs saved (f w))
      | Delivering, StopEvent f =>
          let! (_, w) := poke sp stack (f w) in
          blob_loop env Running (start w)
      | Finishing, StopEvent f =>
          let w := f w in
          Ret (get_cpu_syscall_ret (w_regs w), env, setregs saved w)
      | Finishing, _ => AssertFail
      end
  end.
End Blob.

Definition execute_blob (c : target_context) (blob : bytes) (arg0 arg1 : Z) (env : list stop) (w : tracee)
    : run (Z * list stop * tracee) :=
  let! (_, w) := poke (c_pc c) blob w in
  let! (_, stack) := peek (c_sp c) (2 * word_size) w in
  let saved := w_regs w in
  blob_loop (c_pc c) (c_sp c) arg0 arg1 stack saved env Running (start (c_pc c) arg0 arg1 saved w).

(** * Signals *)

(** The code of enter.c. *)
Context (sigprocmask_blob mmap_blob clone_blob munmap_blob : bytes).

Definition signals_block (pid : Z) (c : target_context) (env : list stop) (w : tracee)
    : run (Z * target_context * list stop * tracee) :=
  if negb (pid =? c_pid c) then AssertFail
  else
    let! (_, w) := poke (c_sp c) (replicate 8 Byte.xff) w in
    let! (ret, env, w) := execute_blob c sigprocmask_blob (c_sp c) 0 env w in
    let! (_, sigset_old) := peek (c_sp c) 8 w in
    let c := Context_ (c_pid c) (c_pc c) (c_sp c) (c_code c) (c_stack c) sigset_old (c_blob c) in
    if negb (ret =? 0) then AssertFail else Ret (0, c, env, w).

Definition signals_unblock (pid : Z) (c : target_context) (env : list stop) (w : tracee)
    : run (Z * list stop * tracee) :=
  if negb (pid =? c_pid c) then AssertFail
  else
    let! (_, w) := poke (c_sp c) (c_sigset c) w in
    let! (ret, env, w) := execute_blob c sigprocmask_blob (c_sp c) 0 env w in
    if negb (ret =? 0) then Ret (i32 ret, env, w) else Ret (0, env, w).

(** * Saving and restoring what is overwritten *)

Context (page_size : Z).

Definition code_size : Z :=
  let max_blob_size := Z.max (blen sigprocmask_blob)
    (Z.max (blen mmap_blob) (Z.max (blen clone_blob) (blen munmap_blob))) in
  DIV_ROUND_UP max_blob_size word_size * word_size.

Definition ctx_save (pid : Z) (c : target_context) (w : tracee) : run (Z * target_context) :=
  let regs := w_regs w in
  let pc := round_down (get_cpu_regs_pc regs) page_size in
  let! (_, code) := peek pc code_size w in
  let sp := get_cpu_regs_sp regs - 16 * word_size in
  let! (_, stack) := peek sp (16 * word_size) w in
  Ret (0, Context_ pid pc sp code stack (c_sigset c) (c_blob c)).

Definition ctx_restore (pid : Z) (c : target_context) (w : tracee) : run (Z * tracee) :=
  if negb (pid =? c_pid c) then AssertFail
  else
    let! (_, w) := poke (c_pc c) (c_code c) w in
    let! (_, w) := poke (c_sp c) (c_stack c) w in
    Ret (0, w).

(** * The parasite *)

Context (parasite_blob : bytes).
(** [parasite_blob_offset__parasite_args], [parasite_socket_dir] and
    [parasite_socket_gid] *)
Context (args_offset : Z) (parasite_socket_dir : option string) (parasite_socket_gid : Z).

(** sun_path: 108 bytes, zeroed first. *)
Definition sun_path_bytes (a : un_addr) : bytes :=
  let b := match a with
           | UnPath p => list_byte_of_string p
           | UnAbstract n => Byte.x00 :: list_byte_of_string n
           end in
  take 108 (b ++ replicate 108 Byte.x00).

Definition AF_UNIX_FAMILY : Z := 1.
Definition PARASITE_FLAG_NONE : Z := 0.
Definition PARASITE_FLAG_USE_PAGEMAP : Z := 1.

(** struct parasite_args in memory: the address (110 bytes), the group at the
    next word, the flags and the padding up to a whole number of words (the
    bytes between the fields are not set by the code). *)
Definition parasite_args_bytes (a : un_addr) (gid flags : Z) : bytes :=
  le_split 2 AF_UNIX_FAMILY ++ sun_path_bytes a ++ replicate 2 Byte.x00
  ++ le_split (Z.to_nat word_size) gid ++ le_split 1 flags ++ replicate (Z.to_nat word_size - 1) Byte.x00.

(** [pagemap]: access_proc(pid, "pagemap") succeeds. *)
Definition setup_parasite_args (pid : Z) (pagemap : bool) (base : Z) (w : tracee) : run (Z * tracee) :=
  let addr := parasite_socket_init parasite_socket_dir pid in
  let gid := if 0 <? parasite_socket_gid then parasite_socket_gid else 0 in
  let flags := if negb pagemap then PARASITE_FLAG_USE_PAGEMAP else PARASITE_FLAG_NONE in
  poke (base + args_offset) (parasite_args_bytes addr gid flags) w.

(** The globals of memcr.c the two functions use. *)
Record inject_state := Inject {
  i_ctx : target_context;
  i_tids : threads;
  i_parasite_pid : Z;
  i_parasite_pid_clone : Z;
  i_watched : option Z;                      (** the thread parasite_watch_start() was called for *)
  i_watch : watch;                           (** parasite_watch *)
}.

(** What follows the injection: [cmd_checkpoint] (with [ctx.blob] and
    [parasite_pid_clone]) and [cmd_restore], on the target and the state [X] of
    their own. *)
Context {X : Type} (cmd_checkpoint : Z -> Z -> X -> tracee -> run (Z * X * tracee)) (cmd_restore : X -> tracee -> run (Z * X * tracee)).

(** [pagemap]: access_proc(pid, "pagemap"); [task_dir]: the task directory after
    the clone. *)
Definition execute_parasite_checkpoint (pid : Z) (pagemap : bool) (task_dir : Z + list string) (s : inject_state)
    (x : X) (env : list stop) (w : tracee) : run (Z * inject_state * X * list stop * tracee) :=
  let upd c := Inject c (i_tids s) (i_parasite_pid s) (i_parasite_pid_clone s) (i_watched s) (i_watch s) in
  let! (_, c) := ctx_save pid (i_ctx s) w in
  let! (_, c, env, w) := signals_block pid c env w in
  let! (ret, env, w) := execute_blob c mmap_blob (blen parasite_blob) 0 env w in
  if IS_ERR_VALUE ret then
    let! (_, env, w) := signals_unblock pid c env w in
    let! (_, w) := ctx_restore pid c w in
    Ret (-1, upd c, x, env, w)
  else
    let c := Context_ (c_pid c) (c_pc c) (c_sp c) (c_code c) (c_stack c) (c_sigset c) ret in
    let! (_, w) := poke (c_blob c) parasite_blob w in
    let! (_, w) := setup_parasite_args pid pagemap (c_blob c) w in
    let! (ret, env, w) := execute_blob c clone_blob (c_blob c) 0 env w in
    if negb (0 <? ret) then AssertFail
    else
      let clone := i32 ret in
      let! (_, pp) := iterate_pstree pid false MAX_THREADS (update_parasite_pid (i_tids s)) task_dir (i_parasite_pid s) in
      let! (ret, x, w) := cmd_checkpoint (c_blob c) clone x w in
      Ret (i32 ret, Inject c (i_tids s) pp clone (Some pp) (i_watch s), x, env, w).

(** [fuel], [wakeups] and [status]: the wait for the parasite's end, and the
    uninitialised variable it fills in. *)
Definition execute_parasite_restore (pid : Z) (fuel : nat) (wakeups : list wakeup) (status : Z) (s : inject_state)
    (x : X) (env : list stop) (w : tracee) : run (Z * X * list stop * tracee) :=
  let c := i_ctx s in
  let! (err, x, w) := cmd_restore x w in
  if negb (err =? 0) then Ret (err, x, env, w)
  else
    let! (_, status, _) := parasite_status_wait fuel wakeups status (i_watch s) in
    if WIFSIGNALED status then Ret (1, x, env, w)
    else if negb (WIFEXITED status) then AssertFail
    else
      let! (ret, env, w) := execute_blob c munmap_blob (c_blob c) (blen parasite_blob) env w in
      if negb (ret =? 0) then Ret (i32 ret, x, env, w)
      else
        let! (ret, env, w) := signals_unblock pid c env w in
        if negb (ret =? 0) then Ret (i32 ret, x, env, w)
        else
          let! (_, w) := ctx_restore pid c w in
          Ret (0, x, env, w).
End Inject.

(** * Lemmas *)

Lemma blen_range f a n : 0 <= n -> blen (range f a n) = n.
Proof. intros. unfold range, blen. rewrite length_map, length_seq. lia. Qed.

Lemma range_ext f g a n : (forall x, in_range a n x -> f x = g x) -> range f a n = range g a n.
Proof.
  intros E. unfold range. apply map_ext_in. intros i Hi%in_seq. apply E. unfold in_range. lia.
Qed.

Lemma range_app f a n m : 0 <= n -> 0 <= m -> range f a (n + m) = range f a n ++ range f (a + n) m.
Proof.
  intros Hn Hm. unfold range. rewrite Z2Nat.inj_add, seq_app, map_app by lia. f_equal.
  rewrite <- (Nat.add_0_r (0 + _)), <- fmap_add_seq. rewrite !map_map. apply map_ext. intros k. f_equal. lia.
Qed.

Lemma nth_range f a n x : in_range a n x -> nth (Z.to_nat (x - a)) (range f a n) Byte.x00 = f x.
Proof.
  unfold in_range. intros Hx. unfold range.
  rewrite (nth_indep _ _ (f (a + Z.of_nat 0))) by (rewrite length_map, length_seq; lia).
  rewrite (map_nth (fun i => f (a + Z.of_nat i))), seq_nth by lia. f_equal. lia.
Qed.

Lemma range_nth f a (bs : bytes) :
  (forall x, in_range a (blen bs) x -> f x = nth (Z.to_nat (x - a)) bs Byte.x00) -> range f a (blen bs) = bs.
Proof.
  intros E. apply (nth_ext _ _ Byte.x00 Byte.x00).
  - unfold range, blen. rewrite length_map, length_seq. lia.
  - intros i Hi. unfold range in Hi. rewrite length_map, length_seq in Hi. unfold blen in Hi.
    assert (Hx : in_range a (blen bs) (a + Z.of_nat i)) by (unfold in_range, blen; lia).
    pose proof (nth_range f a (blen bs) _ Hx) as Hn. pose proof (E _ Hx) as He.
    replace (Z.to_nat (a + Z.of_nat i - a)) with i in * by lia. congruence.
Qed.

Lemma store_in f a bs x : in_range a (blen bs) x -> store f a bs x = nth (Z.to_nat (x - a)) bs Byte.x00.
Proof. intros Hx. unfold store. by rewrite (proj2 (in_rangeb_true _ _ _)). Qed.

Lemma store_out f a bs x : ~ in_range a (blen bs) x -> store f a bs x = f x.
Proof. intros Hx. unfold store. by rewrite (proj2 (in_rangeb_false _ _ _)). Qed.

Lemma range_store f a bs : range (store f a bs) a (blen bs) = bs.
Proof. apply range_nth. intros x Hx. by apply store_in. Qed.

(** Writing back what was there. *)
Lemma store_range f g a n x :
  0 <= n -> (~ in_range a n x -> f x = g x) -> store f a (range g a n) x = g x.
Proof.
  intros Hn E. destruct (decide (in_range a n x)) as [Hx|Hx].
  - rewrite store_in by (by rewrite blen_range). by apply nth_range.
  - rewrite store_out by (by rewrite blen_range). auto.
Qed.

Lemma store_app f a b1 b2 x : store (store f a b1) (a + blen b1) b2 x = store f a (b1 ++ b2) x.
Proof.
  pose proof (blen_nonneg b1). pose proof (blen_nonneg b2).
  destruct (decide (in_range (a + blen b1) (blen b2) x)) as [H2|H2].
  - rewrite !store_in by (unfold in_range in *; blia). rewrite app_nth2 by (unfold in_range, blen in *; lia).
    f_equal. unfold in_range, blen in *. lia.
  - rewrite (store_out _ _ _ _ H2). destruct (decide (in_range a (blen b1) x)) as [H1|H1].
    + rewrite !store_in by (unfold in_range in *; blia). rewrite app_nth1 by (unfold in_range, blen in *; lia). done.
    + rewrite !store_out by (unfold in_range in *; blia). done.
Qed.

Lemma store_ext f g a bs x : f x = g x -> store f a bs x = store g a bs x.
Proof. intros E. unfold store. by case_match. Qed.

Section Facts.
Context {R : Type} `{Cpu R} `{!CpuSpec R}.
#[local] Abbreviation tracee := (tracee R).

Lemma word_pos : 0 < word_size.
Proof. destruct cpu_word as [-> | ->]; lia. Qed.

Definition all_mapped (w : tracee) (a n : Z) : Prop := forall x, in_range a n x -> w_mapped w x = true.

(** The struct of the arguments is a whole number of words long. *)
Lemma blen_parasite_args a gid flags :
  blen (parasite_args_bytes (R := R) a gid flags) = 112 + 2 * word_size (R := R).
Proof.
  unfold parasite_args_bytes, sun_path_bytes.
  assert (E : forall b, blen (take 108 (b ++ replicate 108 Byte.x00)) = 108).
  { intros b. unfold blen. rewrite length_take, length_app, length_replicate. lia. }
  rewrite !blen_app, E, !blen_le_split, !blen_replicate. pose proof word_pos. lia.
Qed.

Lemma peek_loop_ok n a w :
  all_mapped w a (Z.of_nat n * word_size) -> peek_loop n a w = (0, range (w_mem w) a (Z.of_nat n * word_size)).
Proof.
  pose proof word_pos. revert a. induction n as [|n IH]; intros a Hm; [done|]. cbn [peek_loop]. unfold pt_peek, word_mapped.
  rewrite all_in_range_true by (intros x Hx; apply Hm; unfold in_range in *; lia).
  rewrite IH by (intros x Hx; apply Hm; unfold in_range in *; lia).
  replace (Z.of_nat (S n) * word_size) with (word_size + Z.of_nat n * word_size) by lia.
  by rewrite range_app by lia.
Qed.

(** A number of bytes that [peek] and [poke] take. *)
Definition whole_words (n : Z) : Prop := 0 <= n /\ n mod word_size = 0.

Lemma whole_words_times n : whole_words n -> exists k, n = Z.of_nat k * word_size.
Proof.
  pose proof word_pos. intros [Hn Hm]. apply Z.mod_divide in Hm as [k ->]; [|lia]. exists (Z.to_nat k). nia.
Qed.

Lemma peek_ok a n w : whole_words n -> all_mapped w a n -> peek a n w = Ret (0, range (w_mem w) a n).
Proof.
  pose proof word_pos. intros Hw Hm. unfold peek. destruct Hw as [Hn Hd]. rewrite Hd. cbn [Z.eqb negb].
  destruct (whole_words_times n) as (k & ->); [done|]. rewrite Z.div_mul, Nat2Z.id by lia. by rewrite peek_loop_ok.
Qed.

Lemma poke_loop_ok k a src ret (w : tracee) :
  blen src = Z.of_nat k * word_size -> all_mapped w a (blen src) ->
  exists r m, poke_loop k a src ret w = (r, setmem m w) /\ forall x, m x = store (w_mem w) a src x.
Proof.
  pose proof word_pos as Hpos. revert a src ret w. induction k as [|k IH]; intros a src ret w Hl Hm.
  - apply blen_0_nil in Hl as ->. exists ret, (w_mem w). destruct w. split; [done|]. intros x.
    rewrite store_out; [done|]. unfold in_range. rewrite blen_nil. lia.
  - assert (Hle : blen src = word_size + Z.of_nat k * word_size) by lia.
    assert (0 <= Z.of_nat k * word_size) by (apply Z.mul_nonneg_nonneg; lia).
    cbn [poke_loop]. unfold pt_poke, word_mapped.
    rewrite all_in_range_true by (intros x Hx; apply Hm; unfold in_range in *; lia).
    assert (Ht : blen (ztake word_size src) = word_size) by (rewrite blen_ztake; lia).
    destruct (IH (a + word_size) (zdrop word_size src) 0 (setmem (store (w_mem w) a (ztake word_size src)) w))
      as (r & m & -> & Em).
    { rewrite blen_zdrop. lia. }
    { intros x Hx. apply Hm. unfold in_range in *. rewrite blen_zdrop in Hx. lia. }
    exists r, m. split; [by destruct w|]. intros x. rewrite Em. cbn [w_mem setmem].
    rewrite <- Ht at 2. rewrite store_app, ztake_zdrop. done.
Qed.

Lemma poke_ok a src (w : tracee) :
  whole_words (blen src) -> all_mapped w a (blen src) ->
  exists r m, poke a src w = Ret (r, setmem m w) /\ forall x, m x = store (w_mem w) a src x.
Proof.
  pose proof word_pos. intros Hw Hm. unfold poke. rewrite (proj2 Hw). cbn [Z.eqb negb].
  destruct (whole_words_times _ Hw) as (k & E). rewrite E, Z.div_mul, Nat2Z.id by lia.
  destruct (poke_loop_ok k a src (-1) w) as (r & m & -> & ?); [done..|]. eauto.
Qed.

(** Two states of the thread nothing can tell apart. *)
Record eqw (w w' : tracee) : Prop := Eqw {
  eqw_regs : w_regs w = w_regs w';
  eqw_mask : w_mask w = w_mask w';
  eqw_mapped x : w_mapped w x = w_mapped w' x;
  eqw_mem x : w_mem w x = w_mem w' x;
}.

#[export] Instance eqw_equiv : Equivalence eqw.
Proof. split; [by intros w|by intros w w' []|intros w w' w'' [] []; split; intros; etrans; eauto]. Qed.

Lemma all_mapped_eqw w w' a n : eqw w w' -> all_mapped w a n -> all_mapped w' a n.
Proof. intros [_ _ E _] Hm x Hx. rewrite <- E. auto. Qed.

#[export] Instance setregs_proper : Proper (eq ==> eqw ==> eqw) setregs.
Proof. intros r ? <- w w' []. by split. Qed.

Lemma poke_eqw a src (w w' : tracee) :
  whole_words (blen src) -> all_mapped w' a (blen src) -> eqw w w' ->
  exists r w1, poke a src w = Ret (r, w1) /\ eqw w1 (setmem (store (w_mem w') a src) w').
Proof.
  intros Hw Hm E. destruct (poke_ok a src w) as (r & m & -> & Em); [done|by eapply all_mapped_eqw; [symmetry|]|].
  eexists _, _. split; [done|]. destruct E as [E1 E2 E3 E4]. split; try done. intros x. cbn. rewrite Em. by apply store_ext.
Qed.

(** ** Signals during a blob *)

(** The delivery of a signal that has no handler in the target (it is ignored,
    or its default action stops and continues the process): the thread is back
    at the trap with any registers, its mask and its mappings are as before, and
    of its memory at most the two words at [sp] that the caller puts back have
    changed.  The delivery to a handler is not of this kind: the kernel writes
    the frame below the stack pointer and adds to the mask (see
    [signal_handler_dropped] in InjectFacts.v for what happens then). *)
Definition harmless (sp : Z) (f : tracee -> tracee) : Prop :=
  forall w, w_mask (f w) = w_mask w /\ (forall x, w_mapped (f w) x = w_mapped w x)
    /\ forall x, ~ in_range sp (2 * word_size) x -> w_mem (f w) x = w_mem w x.

(** Signals without a handler that interrupt a blob any number of times before
    it runs. *)
Inductive signals (sp : Z) : list (stop (R := R)) -> Prop :=
| signals_nil : signals sp []
| signals_more n f more g env :
    harmless sp f -> Forall (fun s => exists n h, s = StopSignal n h /\ harmless sp h) more -> harmless sp g ->
    signals sp env -> signals sp (StopSignal n f :: more ++ StopEvent g :: env).

(** The same thread up to the two words and the registers. *)
Definition disturbed (sp : Z) (w w' : tracee) : Prop :=
  w_mask w = w_mask w' /\ (forall x, w_mapped w x = w_mapped w' x)
  /\ forall x, ~ in_range sp (2 * word_size) x -> w_mem w x = w_mem w' x.

Lemma disturbed_harmless sp f w w' : harmless sp f -> disturbed sp w w' -> disturbed sp (f w) w'.
Proof. intros Hf (D1 & D2 & D3). destruct (Hf w) as (F1 & F2 & F3). unfold disturbed. rewrite F1. split_and!; [done|..]; intros; [rewrite F2|rewrite F3]; auto. Qed.

Lemma disturbed_setregs sp r w w' : disturbed sp w w' -> disturbed sp (setregs r w) w'.
Proof. done. Qed.

Lemma disturbed_eqw sp w w' : eqw w w' -> disturbed sp w w'.
Proof. by intros []. Qed.

(** Putting the two words back undoes the disturbance. *)
Lemma poke_stack_disturbed sp (w w' : tracee) :
  all_mapped w' sp (2 * word_size) -> disturbed sp w w' ->
  exists r w1, poke sp (range (w_mem w') sp (2 * word_size)) w = Ret (r, w1) /\ forall r', eqw (setregs r' w1) (setregs r' w').
Proof.
  pose proof word_pos as Hpos. intros Hm (D1 & D2 & D3).
  assert (Hl : blen (range (w_mem w') sp (2 * word_size)) = 2 * word_size) by (apply blen_range; lia).
  destruct (poke_ok sp (range (w_mem w') sp (2 * word_size)) w) as (r & m & -> & Em).
  { rewrite Hl. split; [lia|apply Z_mod_mult]. }
  { rewrite Hl. intros x Hx. rewrite D2. auto. }
  eexists _, _. split; [done|]. intros r'. split; try done. intros x. cbn. rewrite Em. apply store_range; [lia|auto].
Qed.

Section Blob.
Context (exec : tracee -> tracee) (pc sp a0 a1 : Z) (w : tracee).
#[local] Abbreviation loop := (blob_loop exec pc sp a0 a1 (range (w_mem w) sp (2 * word_size)) (w_regs w)).

Lemma delivering_loop more g env w1 :
  all_mapped w sp (2 * word_size) ->
  Forall (fun s => exists n h, s = StopSignal n h /\ harmless sp h) more -> harmless sp g -> disturbed sp w1 w ->
  exists w2, loop (more ++ StopEvent g :: env) Delivering w1 = loop env Running (start pc a0 a1 (w_regs w) w2) /\ eqw (setregs (w_regs w) w2) w.
Proof.
  intros Hm Hmore Hg. revert w1. induction Hmore as [|s more (n & h & -> & Hh) Hmore IH]; intros w1 Hd; cbn [app blob_loop].
  - destruct (poke_stack_disturbed sp (g w1) w) as (r & w2 & -> & E); [done|by apply disturbed_harmless|].
    cbn [rbind]. exists w2. split; [done|]. rewrite (E (w_regs w)). by destruct w.
  - apply IH. apply disturbed_setregs. by apply disturbed_harmless.
Qed.

Lemma running_loop sigs env w1 :
  all_mapped w sp (2 * word_size) -> signals sp sigs -> eqw (setregs (w_regs w) w1) w ->
  exists w2, loop (sigs ++ env) Running (start pc a0 a1 (w_regs w) w1) = loop env Running (start pc a0 a1 (w_regs w) w2)
    /\ eqw (setregs (w_regs w) w2) w.
Proof.
  intros Hm Hs. revert w1. induction Hs as [|n f more g sigs Hf Hmore Hg Hs IH]; intros w1 E; [by exists w1|].
  cbn [app blob_loop]. rewrite <- app_assoc. cbn [app].
  destruct (delivering_loop more g (sigs ++ env) (setregs (w_regs w) (f (start pc a0 a1 (w_regs w) w1)))) as (w2 & -> & E2);
    [done..| |by apply IH].
  apply disturbed_setregs, disturbed_harmless; [done|]. exact (disturbed_eqw sp _ _ E).
Qed.
End Blob.
End Facts.
