(* ===== verification/InjectFacts.v ===== *)
(** The injection leaves no trace: what [execute_parasite_checkpoint] changes in
    the thread it borrows (code, stack, registers, signal mask, mappings),
    [execute_parasite_restore] or its own error path puts back. *)
From Stdlib Require Import String.
From stdpp Require Import base list.
From S2P Require Import Prelude Io Target Proto Paths Arch Seize Watch Inject.
#[local] Open Scope Z_scope.

Section Injection.
Context {R : Type} `{Cpu R} `{!CpuSpec R}.
#[local] Abbreviation tracee := (tracee R).
Context (exec : tracee -> tracee) (sigprocmask_blob mmap_blob clone_blob munmap_blob : bytes).

(** What a system call of the blob leaves alone. *)
Definition same_memory (w w' : tracee) : Prop := forall x, w_mapped w x = true -> w_mem w' x = w_mem w x.

(** The thread is about to run the blob with these parameters. *)
Definition runs (blob : bytes) (a0 a1 : Z) (w : tracee) : Prop :=
  range (w_mem w) (get_cpu_regs_pc (w_regs w)) (blen blob) = blob
  /\ cpu_arg0 (w_regs w) = a0 /\ cpu_arg1 (w_regs w) = a1.

(** The bytes of the pages that [n] bytes from the start of a page touch. *)
Definition page_up (page_size n : Z) : Z := DIV_ROUND_UP n page_size * page_size.

(** What the code in enter.c does: rt_sigprocmask(SIG_SETMASK) with both masks at
    the first parameter, mmap() of the pages for that many bytes, clone() of a
    thread, munmap() of the pages from the first parameter on that the second
    one covers.  Each of the last three may fail, and then has done nothing.
    [kmask] takes the two signals that cannot be blocked out of a mask. *)
Class Blobs (kmask : bytes -> bytes) (page_size : Z) := {
  blob_page : 0 < page_size;
  kmask_len m : blen m = 8 -> blen (kmask m) = 8;
  blob_words : Forall (fun b => whole_words (R := R) (blen b)) [sigprocmask_blob; mmap_blob; clone_blob; munmap_blob];
  exec_sigprocmask w a : runs sigprocmask_blob a 0 w -> all_mapped w a 8 ->
    get_cpu_syscall_ret (w_regs (exec w)) = 0 /\ w_mask (exec w) = kmask (range (w_mem w) a 8)
    /\ (forall x, w_mapped (exec w) x = w_mapped w x)
    /\ forall x, w_mem (exec w) x = store (w_mem w) a (w_mask w) x;
  exec_mmap w n : runs mmap_blob n 0 w -> 0 < n ->
    let ret := get_cpu_syscall_ret (w_regs (exec w)) in
    w_mask (exec w) = w_mask w /\ same_memory w (exec w) /\
    if IS_ERR_VALUE (R := R) ret then forall x, w_mapped (exec w) x = w_mapped w x
    else ret mod page_size = 0 /\ (forall x, in_range ret (page_up page_size n) x -> w_mapped w x = false)
         /\ forall x, w_mapped (exec w) x = w_mapped w x || in_rangeb ret (page_up page_size n) x;
  exec_clone w a : runs clone_blob a 0 w ->
    let ret := get_cpu_syscall_ret (w_regs (exec w)) in
    (0 < ret < 2 ^ 31 \/ IS_ERR_VALUE (R := R) ret = true) /\ w_mask (exec w) = w_mask w /\ same_memory w (exec w)
    /\ forall x, w_mapped (exec w) x = w_mapped w x;
  exec_munmap w a n : runs munmap_blob a n w -> a mod page_size = 0 -> 0 < n ->
    let ret := get_cpu_syscall_ret (w_regs (exec w)) in
    w_mask (exec w) = w_mask w /\ (forall x, w_mapped (exec w) x = true -> w_mem (exec w) x = w_mem w x) /\
    if IS_ERR_VALUE (R := R) ret then forall x, w_mapped (exec w) x = w_mapped w x
    else ret = 0 /\ forall x, w_mapped (exec w) x = w_mapped w x && negb (in_rangeb a (page_up page_size n) x);
}.

Context (kmask : bytes -> bytes) (page_size : Z) `{!Blobs kmask page_size}.
#[local] Abbreviation code_size := (code_size (R := R) sigprocmask_blob mmap_blob clone_blob munmap_blob).
#[local] Abbreviation execute_blob := (execute_blob exec).
#[local] Abbreviation stops := (list (stop (R := R))).

(** A blob that no signal disturbs. *)
Definition quiet : stops := [StopTrap; StopEvent (fun w => w)].

Lemma execute_blob_ok c blob a0 a1 sigs env w :
  whole_words (R := R) (blen blob) -> all_mapped w (c_pc c) (blen blob) -> all_mapped w (c_sp c) (2 * word_size) ->
  signals (c_sp c) sigs ->
  exists w1, eqw w1 (setmem (store (w_mem w) (c_pc c) blob) w)
    /\ execute_blob c blob a0 a1 (sigs ++ quiet ++ env) w
       = Ret (get_cpu_syscall_ret (w_regs (exec (start (c_pc c) a0 a1 (w_regs w) w1))), env,
              setregs (w_regs w) (exec (start (c_pc c) a0 a1 (w_regs w) w1))).
Proof.
  pose proof (word_pos (R := R)) as Hpos. intros Hw Hpc Hsp Hs. unfold execute_blob.
  destruct (poke_ok (c_pc c) blob w) as (r & m & -> & Em); [done..|]. cbn [rbind].
  rewrite peek_ok by (done || (split; [lia|apply Z_mod_mult])). cbn [rbind w_regs setmem].
  destruct (running_loop exec (c_pc c) (c_sp c) a0 a1 (setmem m w) sigs (quiet ++ env) (setmem m w)) as (w2 & E & E2);
    [done|done|by destruct w|].
  cbn [w_regs setmem] in *. rewrite E. exists (setregs (w_regs w) w2). split; [|done].
  rewrite E2. split; try done.
Qed.

(** The areas of the target the injection works in. *)
Record areas (c : target_context) (w : tracee) : Prop := Areas {
  ar_code : all_mapped w (c_pc c) code_size;
  ar_stack : all_mapped w (c_sp c) (16 * word_size);
  ar_disjoint x : in_range (c_pc c) code_size x -> ~ in_range (c_sp c) (16 * word_size) x;
}.

(** The target [w0] with code running in it: only the two areas and the
    parasite's [n] bytes at [b] differ. *)
Record inside (c : target_context) (b n : Z) (w0 w : tracee) : Prop := Inside {
  in_regs : w_regs w = w_regs w0;
  in_mapped x : w_mapped w x = w_mapped w0 x || in_rangeb b n x;
  in_mem x : w_mapped w0 x = true -> ~ in_range (c_pc c) code_size x -> ~ in_range (c_sp c) (16 * word_size) x ->
    w_mem w x = w_mem w0 x;
}.

Lemma inside_all_mapped c b n w0 w a k : inside c b n w0 w -> all_mapped w0 a k -> all_mapped w a k.
Proof. intros [_ Hm _] Ha x Hx. rewrite Hm, Ha by done. done. Qed.

Lemma blob_le_code blob :
  blob ∈ [sigprocmask_blob; mmap_blob; clone_blob; munmap_blob] ->
  whole_words (R := R) (blen blob) /\ blen blob <= code_size.
Proof.
  pose proof (word_pos (R := R)) as Hpos. intros Hin. split; [by apply (proj1 (Forall_forall _ _) blob_words)|].
  unfold Inject.code_size, DIV_ROUND_UP. set (m := Z.max _ _).
  assert (Hm : blen blob <= m) by (rewrite !elem_of_cons in Hin; unfold m; destruct_or! Hin; subst; [lia..|by inversion Hin]).
  pose proof (Z.div_mod (m + word_size - 1) word_size). pose proof (Z.mod_pos_bound (m + word_size - 1) word_size). nia.
Qed.

(** One blob run inside the target: the state in which the processor starts. *)
Lemma blob_step c b n w0 w blob a0 a1 sigs env :
  areas c w0 -> inside c b n w0 w -> blob ∈ [sigprocmask_blob; mmap_blob; clone_blob; munmap_blob] ->
  signals (c_sp c) sigs ->
  exists w1, execute_blob c blob a0 a1 (sigs ++ quiet ++ env) w
      = Ret (get_cpu_syscall_ret (w_regs (exec w1)), env, setregs (w_regs w0) (exec w1))
    /\ runs blob a0 a1 w1 /\ w_mask w1 = w_mask w /\ (forall x, w_mapped w1 x = w_mapped w x)
    /\ forall x, ~ in_range (c_pc c) code_size x -> w_mem w1 x = w_mem w x.
Proof.
  pose proof (word_pos (R := R)) as Hpos.
  intros [Ac As Ad] Hin Hb Hs. destruct (blob_le_code blob Hb) as [Hw Hle].
  destruct (execute_blob_ok c blob a0 a1 sigs env w) as (w1 & [E1 E2 E3 E4] & ->); [done| | |done|].
  { eapply inside_all_mapped; [done|]. intros x Hx. apply Ac. unfold in_range in *. lia. }
  { eapply inside_all_mapped; [done|]. intros x Hx. apply As. unfold in_range in *. lia. }
  rewrite (in_regs _ _ _ _ _ Hin). exists (start (c_pc c) a0 a1 (w_regs w0) w1). cbn in E1, E2, E3, E4.
  split; [done|]. unfold runs. cbn [start setregs w_regs w_mask w_mapped w_mem].
  rewrite cpu_set_pc, cpu_set_arg0, cpu_set_arg1. split_and!; try done.
  - rewrite (range_ext _ (store (w_mem w) (c_pc c) blob)) by auto. apply range_store.
  - intros x Hx. rewrite E4. apply store_out. unfold in_range in *. lia.
Qed.
Lemma whole_words_8 : whole_words (R := R) 8.
Proof. split; [lia|]. by destruct (cpu_word (R := R)) as [-> | ->]. Qed.

Lemma stack_holds_8 : 8 <= 16 * word_size (R := R).
Proof. destruct (cpu_word (R := R)) as [-> | ->]; lia. Qed.

(** Setting the signal mask: [set] goes to the stack area, the blob runs, and
    the old mask is left in its place. *)
Lemma sigprocmask_step c b n w0 w set sigs env :
  areas c w0 -> inside c b n w0 w -> signals (c_sp c) sigs -> blen set = 8 -> blen (w_mask w) = 8 ->
  exists r w1 w', poke (c_sp c) set w = Ret (r, w1)
    /\ execute_blob c sigprocmask_blob (c_sp c) 0 (sigs ++ quiet ++ env) w1 = Ret (0, env, w')
    /\ inside c b n w0 w' /\ w_mask w' = kmask set /\ range (w_mem w') (c_sp c) 8 = w_mask w.
Proof.
  pose proof stack_holds_8 as H8. intros Ha Hin Hs Hset Hmask. destruct (Ha) as [Ac As Ad].
  assert (Hst : forall x, in_range (c_sp c) 8 x -> in_range (c_sp c) (16 * word_size) x) by (unfold in_range; lia).
  assert (Hm8 : all_mapped w0 (c_sp c) 8) by (intros x Hx; auto).
  destruct (poke_ok (c_sp c) set w) as (r & m & E & Em); rewrite ?Hset;
    [apply whole_words_8|by eapply inside_all_mapped|].
  assert (Hin1 : inside c b n w0 (setmem m w)).
  { destruct Hin as [I1 I2 I3]. split; [done..|]. cbn. intros x M0 Hc Hsp. rewrite Em, store_out; [auto|].
    rewrite Hset. auto. }
  destruct (blob_step c b n w0 (setmem m w) sigprocmask_blob (c_sp c) 0 sigs env) as (w1 & E1 & Hr & K1 & K2 & K3);
    [done|done|by left|done|].
  assert (Hset1 : range (w_mem w1) (c_sp c) 8 = set).
  { rewrite (range_ext _ (store (w_mem w) (c_sp c) set)); [by rewrite <- Hset; apply range_store|].
    intros x Hx. rewrite K3; [apply Em|]. intros Hc. by apply (Ad x Hc), Hst. }
  destruct (exec_sigprocmask w1 (c_sp c) Hr) as (L1 & L2 & L3 & L4).
  { intros x Hx. rewrite K2. by apply (inside_all_mapped _ _ _ _ _ _ _ Hin1 Hm8). }
  rewrite L1, K1, Hset1 in *. cbn [w_mask setmem] in *.
  exists r, (setmem m w), (setregs (w_regs w0) (exec w1)). split_and!; try done.
  - destruct Hin1 as [_ I2 I3]. split; [done|intros x; cbn; by rewrite L3, K2|]. cbn. intros x M0 Hc Hsp.
    rewrite L4, store_out, K3 by (rewrite ?Hmask; auto). by apply I3.
  - cbn. rewrite (range_ext _ (store (w_mem w1) (c_sp c) (w_mask w))) by auto. rewrite <- Hmask. apply range_store.
Qed.

Lemma signals_block_ok pid c b n w0 w sigs env :
  pid = c_pid c -> areas c w0 -> inside c b n w0 w -> signals (c_sp c) sigs -> blen (w_mask w) = 8 ->
  exists w', signals_block exec sigprocmask_blob pid c (sigs ++ quiet ++ env) w
      = Ret (0, Context_ (c_pid c) (c_pc c) (c_sp c) (c_code c) (c_stack c) (w_mask w) (c_blob c), env, w')
    /\ inside c b n w0 w' /\ w_mask w' = kmask (replicate 8 Byte.xff).
Proof.
  intros -> Ha Hin Hs Hm. unfold signals_block. rewrite Z.eqb_refl. cbn [negb].
  destruct (sigprocmask_step c b n w0 w (replicate 8 Byte.xff) sigs env) as (r & w1 & w' & -> & E & Hin' & Hk & Ho); [done..|].
  cbn [rbind]. rewrite E. cbn [rbind].
  rewrite peek_ok, Ho; [|apply whole_words_8|]. { cbn. eauto. }
  pose proof stack_holds_8. eapply inside_all_mapped; [done|]. intros x Hx. apply (ar_stack _ _ Ha). unfold in_range in *. lia.
Qed.

Lemma signals_unblock_ok pid c b n w0 w sigs env :
  pid = c_pid c -> areas c w0 -> inside c b n w0 w -> signals (c_sp c) sigs ->
  blen (w_mask w) = 8 -> blen (c_sigset c) = 8 ->
  exists w', signals_unblock exec sigprocmask_blob pid c (sigs ++ quiet ++ env) w = Ret (0, env, w')
    /\ inside c b n w0 w' /\ w_mask w' = kmask (c_sigset c).
Proof.
  intros -> Ha Hin Hs Hm Hc. unfold signals_unblock. rewrite Z.eqb_refl. cbn [negb].
  destruct (sigprocmask_step c b n w0 w (c_sigset c) sigs env) as (r & w1 & w' & -> & E & Hin' & Hk & Ho); [done..|].
  cbn [rbind]. rewrite E. cbn. eauto.
Qed.

(** The context holds what the two areas held. *)
Definition saved (c : target_context) (w0 : tracee) : Prop :=
  c_code c = range (w_mem w0) (c_pc c) code_size /\ c_stack c = range (w_mem w0) (c_sp c) (16 * word_size).

Lemma code_size_words : whole_words (R := R) code_size.
Proof.
  pose proof (word_pos (R := R)). split; [|apply Z_mod_mult]. apply Z.mul_nonneg_nonneg; [|lia].
  apply Z.div_pos; [|lia]. pose proof (blen_nonneg sigprocmask_blob). lia.
Qed.

Lemma args_words : whole_words (R := R) (112 + 2 * word_size).
Proof. destruct (cpu_word (R := R)) as [E|E]; split; rewrite ?E; done || lia. Qed.

Lemma stack_words : whole_words (R := R) (16 * word_size).
Proof. pose proof (word_pos (R := R)). split; [lia|apply Z_mod_mult]. Qed.

(** The target as it was, for everything it can see. *)
Definition restored (w0 w : tracee) : Prop :=
  w_regs w = w_regs w0 /\ (forall x, w_mapped w x = w_mapped w0 x) /\ same_memory w0 w.

Lemma ctx_restore_ok pid c b w0 w :
  pid = c_pid c -> areas c w0 -> saved c w0 -> inside c b 0 w0 w ->
  exists w', ctx_restore pid c w = Ret (0, w') /\ restored w0 w' /\ w_mask w' = w_mask w.
Proof.
  intros -> [Ac As Ad] [Sc Ss] [I1 I2 I3]. unfold ctx_restore. rewrite Z.eqb_refl. cbn [negb].
  assert (I2' : forall x, w_mapped w x = w_mapped w0 x).
  { intros x. rewrite I2, (proj2 (in_rangeb_false b 0 x)), orb_false_r by (unfold in_range; lia). done. }
  destruct code_size_words as [Hc0 _], stack_words as [Hs0 _].
  destruct (poke_ok (c_pc c) (c_code c) w) as (r1 & m1 & -> & E1); rewrite ?Sc, ?blen_range by done;
    [apply code_size_words|intros x Hx; rewrite I2'; auto|]. cbn [rbind].
  destruct (poke_ok (c_sp c) (c_stack c) (setmem m1 w)) as (r2 & m2 & -> & E2); rewrite ?Ss, ?blen_range by done;
    [apply stack_words|intros x Hx; cbn; rewrite I2'; auto|]. cbn [rbind].
  eexists. split; [done|]. split; [|done]. split_and!; [done..|]. intros x Hx. cbn. rewrite E2, Ss.
  apply store_range; [done|]. intros Hs. cbn. rewrite E1, Sc. apply store_range; [done|]. auto.
Qed.

(** ** The whole injection *)

Context (parasite_blob : bytes) (args_offset : Z) (sdir : option string) (sgid : Z).
(** What the parasite's memory takes. *)
#[local] Abbreviation image := (page_up page_size (blen parasite_blob)).
#[local] Abbreviation code_pc w0 := (round_down (get_cpu_regs_pc (w_regs w0)) page_size).
#[local] Abbreviation stack_sp w0 := (get_cpu_regs_sp (w_regs w0) - 16 * word_size).

(** The target can be injected into: the page of the program counter and the
    space below the stack pointer are mapped and apart; its mask is one the
    kernel could have set; the parasite's image has room for its arguments. *)
Record injectable (w0 : tracee) : Prop := Injectable {
  ij_code : all_mapped w0 (code_pc w0) code_size;
  ij_stack : all_mapped w0 (stack_sp w0) (16 * word_size);
  ij_disjoint x : in_range (code_pc w0) code_size x -> ~ in_range (stack_sp w0) (16 * word_size) x;
  ij_mask : blen (w_mask w0) = 8 /\ kmask (w_mask w0) = w_mask w0;
  ij_blob : whole_words (R := R) (blen parasite_blob);
  ij_args : 0 <= args_offset /\ args_offset + 112 + 2 * word_size (R := R) <= blen parasite_blob;
}.

(** The context [ctx_save] makes, with the mask and the parasite's address. *)
Definition ctx_of (pid : Z) (w0 : tracee) (sigset : bytes) (b : Z) : target_context :=
  Context_ pid (code_pc w0) (stack_sp w0) (range (w_mem w0) (code_pc w0) code_size)
    (range (w_mem w0) (stack_sp w0) (16 * word_size)) sigset b.

Lemma ctx_of_areas pid w0 m b : injectable w0 -> areas (ctx_of pid w0 m b) w0 /\ saved (ctx_of pid w0 m b) w0.
Proof. intros [? ? ? _ _ _]. by split. Qed.

Lemma ctx_save_ok pid c w0 :
  injectable w0 ->
  ctx_save sigprocmask_blob mmap_blob clone_blob munmap_blob page_size pid c w0
    = Ret (0, ctx_of pid w0 (c_sigset c) (c_blob c)).
Proof.
  intros [Hc Hs _ _ _ _]. unfold ctx_save. rewrite peek_ok by (apply code_size_words || done). cbn [rbind].
  rewrite peek_ok by (apply stack_words || done). done.
Qed.

Lemma image_pos w0 : injectable w0 -> 0 < blen parasite_blob.
Proof. intros [_ _ _ _ _ []]. pose proof (word_pos (R := R)). lia. Qed.

Lemma inside_refl c w0 : inside c 0 0 w0 w0.
Proof.
  split; [done| |done]. intros x. rewrite (proj2 (in_rangeb_false 0 0 x)), orb_false_r by (unfold in_range; lia). done.
Qed.

(** Writing into the parasite's memory. *)
Lemma inside_poke c b n w0 w a src :
  inside c b n w0 w -> (forall x, in_range b n x -> w_mapped w0 x = false) ->
  whole_words (R := R) (blen src) -> b <= a -> a + blen src <= b + n ->
  exists r w', poke a src w = Ret (r, w') /\ inside c b n w0 w' /\ w_mask w' = w_mask w
    /\ range (w_mem w') a (blen src) = src.
Proof.
  intros [I1 I2 I3] Hf Hw Ha Hn.
  assert (Hr : forall x, in_range a (blen src) x -> in_range b n x) by (unfold in_range; lia).
  destruct (poke_ok a src w) as (r & m & -> & Em); [done| |].
  { intros x Hx. rewrite I2, (proj2 (in_rangeb_true b n x)), orb_true_r by auto. done. }
  eexists _, _. split; [done|]. split_and!; [|done|cbn; by rewrite (range_ext _ _ _ _ (fun x _ => Em x)), range_store].
  split; [done..|]. cbn. intros x M0 Hc Hs. rewrite Em, store_out; [auto|].
  intros Hx. apply Hr, Hf in Hx. congruence.
Qed.

(** [inside] speaks of the context's two addresses only. *)
Lemma inside_ctx c c' b n w0 w : c_pc c = c_pc c' -> c_sp c = c_sp c' -> inside c b n w0 w -> inside c' b n w0 w.
Proof. intros E1 E2 [I1 I2 I3]. split; [done..|]. by rewrite <- E1, <- E2. Qed.

(** The mmap blob about to run in the target [w0], and what it returns. *)
Definition mmap_runs (w0 w : tracee) : Prop :=
  runs mmap_blob (blen parasite_blob) 0 w /\ forall x, w_mapped w x = w_mapped w0 x.
Definition mmap_ret (w0 : tracee) (ret : Z) : Prop :=
  exists w, mmap_runs w0 w /\ ret = get_cpu_syscall_ret (w_regs (exec w)).

(** The system calls of the injection succeed: mmap() in the target, then
    clone() and munmap() with the address it gave. *)
Record calls_work (w0 : tracee) : Prop := CallsWork {
  cw_mmap w : mmap_runs w0 w -> IS_ERR_VALUE (R := R) (get_cpu_syscall_ret (w_regs (exec w))) = false;
  cw_clone b w : mmap_ret w0 b -> runs clone_blob b 0 w -> IS_ERR_VALUE (R := R) (get_cpu_syscall_ret (w_regs (exec w))) = false;
  cw_munmap b w : mmap_ret w0 b -> runs munmap_blob b (blen parasite_blob) w ->
    IS_ERR_VALUE (R := R) (get_cpu_syscall_ret (w_regs (exec w))) = false;
}.

Lemma page_up_ge n : n <= page_up page_size n.
Proof.
  pose proof blob_page as Hp. unfold page_up, DIV_ROUND_UP.
  pose proof (Z.div_mod (n + page_size - 1) page_size). pose proof (Z.mod_pos_bound (n + page_size - 1) page_size). nia.
Qed.

Lemma mmap_step c w0 w env :
  0 < blen parasite_blob -> areas c w0 -> inside c 0 0 w0 w ->
  exists ret w', execute_blob c mmap_blob (blen parasite_blob) 0 (quiet ++ env) w = Ret (ret, env, w')
    /\ mmap_ret w0 ret /\ w_mask w' = w_mask w
    /\ if IS_ERR_VALUE (R := R) ret then inside c 0 0 w0 w'
       else ret mod page_size = 0 /\ inside c ret image w0 w' /\ forall x, in_range ret image x -> w_mapped w0 x = false.
Proof.
  intros Hpos Ha Hin. destruct (blob_step c 0 0 w0 w mmap_blob (blen parasite_blob) 0 [] env) as (w1 & E & Hr & K1 & K2 & K3);
    [done|done|by right; left|constructor|].
  assert (M1 : forall x, w_mapped w1 x = w_mapped w0 x).
  { intros x. rewrite K2, (in_mapped _ _ _ _ _ Hin), (proj2 (in_rangeb_false 0 0 x)), orb_false_r by (unfold in_range; lia). done. }
  destruct (exec_mmap w1 _ Hr Hpos) as (L1 & L2 & L3). eexists _, _. split; [exact E|]. split; [by exists w1|].
  split; [by cbn; rewrite L1|].
  assert (Hmem : forall x, w_mapped w0 x = true -> ~ in_range (c_pc c) code_size x ->
    ~ in_range (c_sp c) (16 * word_size) x -> w_mem (exec w1) x = w_mem w0 x).
  { intros x M0 Hc Hs. rewrite L2 by (by rewrite M1). rewrite K3 by done. by apply (in_mem _ _ _ _ _ Hin). }
  case_match.
  - split; [done| |done]. intros x. cbn. rewrite L3, M1, (proj2 (in_rangeb_false 0 0 x)), orb_false_r by (unfold in_range; lia). done.
  - destruct L3 as (Lp & Lf & Lm). split; [done|]. split; [split; [done| |done]|]; intros x; cbn; [by rewrite Lm, M1|]. intros Hx. rewrite <- M1. auto.
Qed.

Lemma clone_step c b n w0 w a env :
  areas c w0 -> inside c b n w0 w ->
  (forall w, runs clone_blob a 0 w -> IS_ERR_VALUE (R := R) (get_cpu_syscall_ret (w_regs (exec w))) = false) ->
  exists ret w', execute_blob c clone_blob a 0 (quiet ++ env) w = Ret (ret, env, w') /\ 0 < ret < 2 ^ 31
    /\ w_mask w' = w_mask w /\ inside c b n w0 w'
    /\ forall x, w_mapped w x = true -> ~ in_range (c_pc c) code_size x -> w_mem w' x = w_mem w x.
Proof.
  intros Ha Hin Hok. destruct (blob_step c b n w0 w clone_blob a 0 [] env) as (w1 & E & Hr & K1 & K2 & K3);
    [done|done|by right; right; left|constructor|].
  destruct (exec_clone w1 _ Hr) as (L1 & L2 & L3 & L4). rewrite (Hok _ Hr) in L1. destruct L1 as [L1|L1]; [|done].
  eexists _, _. split; [exact E|]. split; [done|]. split; [by cbn; rewrite L2|].
  assert (Hmem : forall x, w_mapped w x = true -> ~ in_range (c_pc c) code_size x -> w_mem (exec w1) x = w_mem w x)
    by (intros x Hx Hc; rewrite L3 by (by rewrite K2); auto).
  split; [|done]. destruct Hin as [I1 I2 I3]. split; [done|intros x; cbn; by rewrite L4, K2|]. cbn. intros x M0 Hc Hs.
  rewrite Hmem by (done || by rewrite I2, M0). auto.
Qed.

Lemma munmap_step c b w0 w env :
  0 < blen parasite_blob -> areas c w0 -> inside c b image w0 w -> b mod page_size = 0 ->
  (forall x, in_range b image x -> w_mapped w0 x = false) ->
  (forall w, runs munmap_blob b (blen parasite_blob) w ->
     IS_ERR_VALUE (R := R) (get_cpu_syscall_ret (w_regs (exec w))) = false) ->
  exists w', execute_blob c munmap_blob b (blen parasite_blob) (quiet ++ env) w = Ret (0, env, w')
    /\ w_mask w' = w_mask w /\ inside c b 0 w0 w'.
Proof.
  intros Hpos Ha Hin Hb Hf Hok.
  destruct (blob_step c b image w0 w munmap_blob b (blen parasite_blob) [] env) as (w1 & E & Hr & K1 & K2 & K3);
    [done|done|by right; right; right; left|constructor|]. destruct Hin as [I1 I2 I3].
  destruct (exec_munmap w1 b _ Hr Hb Hpos) as (L2 & L4 & L3). rewrite (Hok _ Hr) in L3. destruct L3 as [L1 L3].
  assert (M1 : forall x, w_mapped (exec w1) x = w_mapped w0 x).
  { intros x. rewrite L3, K2, I2. destruct (in_rangeb b image x) eqn:Eb; [|by rewrite orb_false_r, andb_true_r].
    apply in_rangeb_true, Hf in Eb. by rewrite Eb. }
  rewrite L1 in E. eexists. split; [exact E|]. split; [by cbn; rewrite L2|]. split; [done| |].
  - intros x. cbn. by rewrite M1, (proj2 (in_rangeb_false b 0 x)), orb_false_r by (unfold in_range; lia).
  - cbn. intros x M0 Hc Hs. rewrite L4 by (by rewrite M1). rewrite K3 by done. auto.
Qed.

Lemma pstree_total {St} pid skip max (cb : Z -> St -> run (Z * St)) dir s :
  (forall t s, exists r, cb t s = Ret r) -> exists r, iterate_pstree pid skip max cb dir s = Ret r.
Proof.
  intros Hcb. destruct dir as [e|ents]; [by eexists|]. cbn. generalize (-1). revert s.
  induction ents as [|ent ents IH]; intros s ret; cbn; [eauto|]. destruct (entry_tid ent) as [t|]; [|auto].
  repeat (case_match; [by eauto|]). destruct (Hcb t s) as ([r s'] & ->). cbn. case_match; eauto.
Qed.

(** Up to the mapping of the parasite's memory. *)
Lemma inject_prefix pid c w0 sigs env :
  injectable w0 -> signals (stack_sp w0) sigs ->
  exists w1 b w2,
    signals_block exec sigprocmask_blob pid (ctx_of pid w0 (c_sigset c) (c_blob c)) (sigs ++ quiet ++ quiet ++ env) w0
      = Ret (0, ctx_of pid w0 (w_mask w0) (c_blob c), quiet ++ env, w1)
    /\ execute_blob (ctx_of pid w0 (w_mask w0) (c_blob c)) mmap_blob (blen parasite_blob) 0 (quiet ++ env) w1 = Ret (b, env, w2)
    /\ mmap_ret w0 b /\ w_mask w2 = kmask (replicate 8 Byte.xff)
    /\ if IS_ERR_VALUE (R := R) b then inside (ctx_of pid w0 (w_mask w0) (c_blob c)) 0 0 w0 w2
       else b mod page_size = 0 /\ inside (ctx_of pid w0 (w_mask w0) b) b image w0 w2
            /\ forall x, in_range b image x -> w_mapped w0 x = false.
Proof.
  intros Hi Hs. pose proof (image_pos w0 Hi) as Hpos. destruct (Hi) as [_ _ _ [Hm8 _] _ _].
  destruct (ctx_of_areas pid w0 (c_sigset c) (c_blob c) Hi) as [Ar _].
  destruct (signals_block_ok pid (ctx_of pid w0 (c_sigset c) (c_blob c)) 0 0 w0 w0 sigs
    (quiet ++ env) eq_refl Ar (inside_refl _ _) Hs Hm8) as (w1 & E1 & I1 & K1).
  destruct (ctx_of_areas pid w0 (w_mask w0) (c_blob c) Hi) as [Ar1 _].
  destruct (mmap_step (ctx_of pid w0 (w_mask w0) (c_blob c)) w0 w1 env Hpos Ar1) as (b & w2 & E2 & Hb & K2 & I2);
    [by eapply inside_ctx; [| |exact I1]|].
  exists w1, b, w2. split_and!; [exact E1|exact E2|done|congruence|].
  case_match; [done|]. destruct I2 as (Hb0 & I2 & Hf). split; [done|]. split; [by eapply inside_ctx; [| |exact I2]|done].
Qed.

Section Theorems.
Context {X : Type} (cmd_checkpoint : Z -> Z -> X -> tracee -> run (Z * X * tracee)) (cmd_restore : X -> tracee -> run (Z * X * tracee)).
#[local] Abbreviation inject_checkpoint := (execute_parasite_checkpoint exec sigprocmask_blob mmap_blob clone_blob
  munmap_blob page_size parasite_blob args_offset sdir sgid cmd_checkpoint).
#[local] Abbreviation inject_restore := (execute_parasite_restore exec sigprocmask_blob munmap_blob parasite_blob cmd_restore).

(** What [setup_parasite_args] writes. *)
Definition inject_args (pid : Z) (pm : bool) : bytes :=
  parasite_args_bytes (R := R) (parasite_socket_init sdir pid) (if 0 <? sgid then sgid else 0)
    (if negb pm then PARASITE_FLAG_USE_PAGEMAP else PARASITE_FLAG_NONE).

(** The thread when [cmd_checkpoint] is called, with the parasite's memory at
    [b]. *)
Record injected (pid : Z) (pm : bool) (w0 : tracee) (b : Z) (w : tracee) : Prop := Injected {
  id_ret : mmap_ret w0 b;
  id_page : b mod page_size = 0;
  id_inside : inside (ctx_of pid w0 (w_mask w0) b) b image w0 w;
  id_fresh x : in_range b image x -> w_mapped w0 x = false;
  id_mask : w_mask w = kmask (replicate 8 Byte.xff);
  id_args : range (w_mem w) (b + args_offset) (112 + 2 * word_size (R := R)) = inject_args pid pm;
}.

Lemma inject_ok pid pm dir s x w0 sigs env :
  injectable w0 -> signals (stack_sp w0) sigs ->
  calls_work w0 ->
  exists b pp clone w1,
    inject_checkpoint pid pm dir s x (sigs ++ quiet ++ quiet ++ quiet ++ env) w0
      = (let! (ret, x, w) := cmd_checkpoint b clone x w1 in
         Ret (i32 ret, Inject (ctx_of pid w0 (w_mask w0) b) (i_tids s) pp clone (Some pp) (i_watch s), x, env, w))
    /\ 0 < clone /\ injected pid pm w0 b w1.
Proof.
  intros Hi Hs [Hmm Hcl _]. destruct (Hi) as [_ _ _ _ Hb (Ho & Hfit)]. unfold execute_parasite_checkpoint.
  rewrite ctx_save_ok by done. cbn [rbind].
  destruct (inject_prefix pid (i_ctx s) w0 sigs (quiet ++ env) Hi Hs) as (w1 & b & w2 & -> & E2 & Hmr & K2 & I2).
  destruct (Hmr) as (w & Hr & Hret).
  cbn [rbind]. rewrite E2. cbn [rbind]. rewrite Hret, (Hmm _ Hr), <- Hret in *. destruct I2 as (Hb0 & I2 & Hf).
  pose proof (page_up_ge (blen parasite_blob)) as Hup. change (Context_ _ _ _ _ _ _ b) with (ctx_of pid w0 (w_mask w0) b). cbn [c_blob ctx_of].
  destruct (ctx_of_areas pid w0 (w_mask w0) b Hi) as [Ar2 _].
  destruct (inside_poke _ _ _ _ _ b parasite_blob I2 Hf) as (r3 & w3 & -> & I3 & K3 & _); [done|lia|lia|]. cbn [rbind].
  unfold setup_parasite_args. fold (inject_args pid pm).
  assert (Hl : blen (inject_args pid pm) = 112 + 2 * word_size (R := R)) by apply blen_parasite_args.
  destruct (inside_poke _ _ _ _ _ (b + args_offset) (inject_args pid pm) I3 Hf) as (r4 & w4 & -> & I4 & K4 & M4);
    rewrite ?Hl; [apply args_words|lia|lia|]. cbn [rbind]. rewrite Hl in M4.
  destruct (clone_step _ b _ w0 w4 b env Ar2 I4 (fun w => Hcl b w Hmr)) as (ret & w5 & -> & Hpos & K5 & I5 & M5). cbn [rbind].
  rewrite (proj2 (Z.ltb_lt _ _)) by lia. cbn [negb].
  destruct (pstree_total pid false MAX_THREADS (update_parasite_pid (i_tids s)) dir (i_parasite_pid s)) as ([rp pp] & ->).
  { intros t p. unfold update_parasite_pid. case_match; eauto. }
  cbn [rbind]. exists b, pp, (i32 ret), w5. split; [done|]. split; [by rewrite i32_small by lia; lia|]. split; [done..|congruence|].
  rewrite <- M4. apply range_ext. intros y Hy. assert (Hy' : in_range b image y) by (unfold in_range in *; lia).
  apply M5; [by rewrite (in_mapped _ _ _ _ _ I4), (proj2 (in_rangeb_true _ _ _) Hy'), orb_true_r|].
  intros Hc. apply Hf in Hy'. by rewrite (ar_code _ _ Ar2 y Hc) in Hy'.
Qed.

(** The way out, from a thread in which [cmd_restore] has put everything back
    as it was at [w1]. *)
Lemma eject_ok pid pm w0 b w1 s x x' w w2 n fuel status status0 env :
  injectable w0 -> calls_work w0 -> injected pid pm w0 b w1 -> i_ctx s = ctx_of pid w0 (w_mask w0) b ->
  pw_changed (i_watch s) = false -> WIFEXITED status = true ->
  cmd_restore x w = Ret (0, x', w2) -> restored w1 w2 -> w_mask w2 = w_mask w1 ->
  exists w3, inject_restore pid (S fuel) (replicate n (0, i_watch s) ++ [(0, parasite_status_signal status (i_watch s))])
      status0 s x (quiet ++ quiet ++ env) w = Ret (0, x', env, w3)
    /\ restored w0 w3 /\ w_mask w3 = w_mask w0.
Proof.
  intros Hi Hcw [Hmr Hpg Hin Hf K1 _] Hctx Hch Hex E3 (R1 & R2 & R3) R4. destruct (Hi) as [_ _ _ [Hm8 Hmk] _ _].
  destruct (ctx_of_areas pid w0 (w_mask w0) b Hi) as [Ar Sv]. set (c := ctx_of pid w0 (w_mask w0) b) in *.
  assert (Hin3 : inside c b image w0 w2).
  { destruct Hin as [I1 I2 I3]. split; [congruence|intros y; by rewrite R2|]. intros y M0 Hc Hsp.
    rewrite R3 by (rewrite I2, M0; done). auto. }
  destruct (munmap_step c b w0 w2 (quiet ++ env) (image_pos w0 Hi) Ar Hin3 Hpg Hf (fun w => cw_munmap w0 Hcw b w Hmr)) as (w4 & E4 & K4 & Hin4).
  destruct (signals_unblock_ok pid c b 0 w0 w4 [] env eq_refl Ar Hin4 ltac:(constructor)) as (w5 & E5 & Hin5 & K5);
    [rewrite K4, R4, K1; by apply kmask_len|done|].
  destruct (ctx_restore_ok pid c b w0 w5 eq_refl Ar Sv Hin5) as (w6 & E6 & Hr & K6).
  exists w6. unfold execute_parasite_restore. rewrite Hctx, E3. cbn [rbind Z.eqb negb].
  rewrite parasite_status_wait_ok by done. cbn [rbind]. rewrite Hex.
  replace (WIFSIGNALED status) with false by (unfold WIFEXITED, WIFSIGNALED in *; by rewrite Hex). cbn [negb].
  fold c. change (c_blob c) with b. rewrite E4. cbn [rbind Z.eqb negb app] in *. rewrite E5. cbn [rbind Z.eqb negb].
  rewrite E6. cbn [rbind]. split_and!; [done..|]. rewrite K6, K5. exact Hmk.
Qed.

(** C12: the injection is undone: when the code and stack areas the injection
    borrows are mapped and apart, the four system calls succeed, the pages come
    back as they were (what the theorem on checkpoint and restore shows of
    [cmd_checkpoint] and [cmd_restore]) and the parasite exits in time,
    [execute_parasite_checkpoint] followed by [execute_parasite_restore] succeeds
    and leaves the thread with its registers, its signal mask, its mappings and
    every byte of its memory as they were; also when signals that run no handler
    in the target interrupt the first blob, any number of times.  (A signal with
    a handler is not covered: its delivery changes the mask.) *)
Theorem injection_undone pid pm dir s x w0 sigs env fuel n status status0 env2 :
  injectable w0 -> signals (stack_sp w0) sigs -> pw_changed (i_watch s) = false -> WIFEXITED status = true ->
  calls_work w0 ->
  (forall b clone w, 0 < clone -> injected pid pm w0 b w -> exists x1 w1 x2 w2, cmd_checkpoint b clone x w = Ret (0, x1, w1)
     /\ cmd_restore x1 w1 = Ret (0, x2, w2) /\ restored w w2 /\ w_mask w2 = w_mask w) ->
  exists s' x1 w1 x2 w2,
    inject_checkpoint pid pm dir s x (sigs ++ quiet ++ quiet ++ quiet ++ env) w0 = Ret (0, s', x1, env, w1)
    /\ inject_restore pid (S fuel) (replicate n (0, i_watch s) ++ [(0, parasite_status_signal status (i_watch s))]) status0
         s' x1 (quiet ++ quiet ++ env2) w1 = Ret (0, x2, env2, w2)
    /\ restored w0 w2 /\ w_mask w2 = w_mask w0.
Proof.
  intros Hi Hs Hch Hex Hmm Hcmd.
  destruct (inject_ok pid pm dir s x w0 sigs env Hi Hs Hmm) as (b & pp & clone & w1 & E & Hcl & Hid).
  destruct (Hcmd b clone w1 Hcl Hid) as (x1 & w2 & x2 & w3 & E2 & E3 & Hr & Hk). rewrite E, E2. cbn [rbind].
  eexists _, x1, w2, x2.
  destruct (eject_ok pid pm w0 b w1 (Inject (ctx_of pid w0 (w_mask w0) b) (i_tids s) pp clone (Some pp) (i_watch s))
    x1 x2 w2 w3 n fuel status status0 env2) as (w4 & E4 & Hr4); [done..|].
  exists w4. split; [reflexivity|]. split; [exact E4|done].
Qed.

(** C27: the error path of the injection is complete: when the code and stack areas
    the injection borrows are mapped and apart, no signal that arrives starts a
    handler, and the target cannot map memory for the parasite,
    [execute_parasite_checkpoint] returns -1 and the thread has its registers, its
    signal mask, its mappings and its memory as they were before. *)
Theorem mmap_failure_undone pid pm dir s x w0 sigs env :
  injectable w0 -> signals (stack_sp w0) sigs ->
  (forall w, mmap_runs w0 w -> IS_ERR_VALUE (R := R) (get_cpu_syscall_ret (w_regs (exec w))) = true) ->
  exists s' w', inject_checkpoint pid pm dir s x (sigs ++ quiet ++ quiet ++ quiet ++ env) w0 = Ret (-1, s', x, env, w')
    /\ restored w0 w' /\ w_mask w' = w_mask w0.
Proof.
  intros Hi Hs Hmm. destruct (Hi) as [_ _ _ [Hm8 Hmk] _ _]. unfold execute_parasite_checkpoint.
  rewrite ctx_save_ok by done. cbn [rbind].
  destruct (inject_prefix pid (i_ctx s) w0 sigs (quiet ++ env) Hi Hs) as (w1 & b & w2 & -> & E2 & (w & Hr & Hret) & K2 & I2).
  cbn [rbind]. rewrite E2. cbn [rbind]. rewrite Hret, (Hmm _ Hr) in *.
  set (c := ctx_of pid w0 (w_mask w0) (c_blob (i_ctx s))) in *.
  destruct (ctx_of_areas pid w0 (w_mask w0) (c_blob (i_ctx s)) Hi) as [Ar1 Sv].
  destruct (signals_unblock_ok pid c 0 0 w0 w2 [] env eq_refl Ar1 I2 ltac:(constructor)) as (w3 & E3 & I3 & K3);
    [rewrite K2; by apply kmask_len|done|]. cbn [app] in E3. rewrite E3. cbn [rbind].
  destruct (ctx_restore_ok pid c 0 w0 w3 eq_refl Ar1 Sv I3) as (w4 & -> & Hres & K4). cbn [rbind].
  eexists _, _. split_and!; [done..|]. rewrite K4, K3. exact Hmk.
Qed.

End Theorems.

(** C36: a signal that arrives while a blob runs and has a handler is lost.  The
    kernel delivers it ([deliver]: it points the registers at the handler, writes
    a frame into memory and adds to the mask; any of the three, in any way) and
    returns to the trap; [execute_blob] then puts back two words of the stack and
    starts the blob again from its first instruction with the registers it saved
    before, which are also the ones it ends with: that is the only state in which
    the thread runs on, so the handler is never entered, while the mask set for it
    and the rest of its frame stay. *)
Theorem signal_handler_dropped c blob a0 a1 signo deliver env w :
  whole_words (R := R) (blen blob) -> all_mapped w (c_pc c) (blen blob) -> all_mapped w (c_sp c) (2 * word_size) ->
  (forall w x, w_mapped (deliver w) x = w_mapped w x) ->
  exists w1 ws,
    eqw w1 (setmem (store (w_mem w) (c_pc c) blob) w)
    /\ execute_blob c blob a0 a1 ([StopSignal signo (fun w => w); StopEvent deliver] ++ quiet ++ env) w
       = Ret (get_cpu_syscall_ret (w_regs (exec ws)), env, setregs (w_regs w) (exec ws))
    /\ w_regs ws = set_cpu_regs (w_regs w) (c_pc c) a0 a1 /\ get_cpu_regs_pc (w_regs ws) = c_pc c
    /\ w_mask ws = w_mask (deliver w1)
    /\ forall x, w_mem ws x = if in_rangeb (c_sp c) (2 * word_size) x then w_mem w1 x else w_mem (deliver w1) x.
Proof.
  pose proof (word_pos (R := R)) as Hpos. intros Hw Hpc Hsp Hmap. unfold execute_blob.
  destruct (poke_ok (c_pc c) blob w) as (r & m & -> & Em); [done..|]. cbn [rbind].
  rewrite peek_ok by (done || (split; [lia|apply Z_mod_mult])). cbn [rbind w_regs setmem].
  set (w1 := setmem m w). set (st := range (w_mem w1) (c_sp c) (2 * word_size)).
  assert (Hst : blen st = 2 * word_size) by (apply blen_range; lia).
  destruct (poke_ok (c_sp c) st (deliver w1)) as (r2 & m2 & E2 & Em2);
    [rewrite Hst; split; [lia|apply Z_mod_mult]|rewrite Hst; intros x Hx; rewrite Hmap; by apply Hsp|].
  exists w1, (start (c_pc c) a0 a1 (w_regs w) (setmem m2 (deliver w1))). split; [by split|]. split.
  - cbn [app blob_loop quiet]. change (setregs (w_regs w) (start (c_pc c) a0 a1 (w_regs w) w1)) with w1.
    rewrite E2. done.
  - split; [done|]. split; [apply cpu_set_pc|]. split; [done|]. intros x. cbn. rewrite Em2. destruct (in_rangeb _ _ x) eqn:Ex.
    + apply in_rangeb_true in Ex. rewrite store_in by (by rewrite Hst). by apply nth_range.
    + apply in_rangeb_false in Ex. by apply store_out; rewrite Hst.
Qed.
End Injection.

(** * A processor that runs the blobs

    Each blob is one word; mmap always answers with the same address, and a page
    has 4096 bytes. *)
Definition op (b : byte) : bytes := replicate 8 b.
Definition map_at : Z := 1048576.

Definition toy_exec (w : tracee x86_64_registers) : tracee x86_64_registers :=
  let r := w_regs w in
  let code := range (w_mem w) (r X86_64.rip) 8 in
  let ret v := set_reg X86_64.rax v r in
  let a := r X86_64.r15 in
  let n := r X86_64.r14 in
  if decide (code = op Byte.x01) then Tracee (ret 0) (store (w_mem w) a (w_mask w)) (w_mapped w) (range (w_mem w) a 8)
  else if decide (code = op Byte.x02) then
    if all_in_range map_at (page_up 4096 a) (fun x => negb (w_mapped w x))
    then Tracee (ret map_at) (w_mem w) (fun x => w_mapped w x || in_rangeb map_at (page_up 4096 a) x) (w_mask w)
    else setregs (ret (u64 (- ENOMEM))) w
  else if decide (code = op Byte.x03) then setregs (ret 77) w
  else if decide (code = op Byte.x04) then
    Tracee (ret 0) (w_mem w) (fun x => w_mapped w x && negb (in_rangeb a (page_up 4096 n) x)) (w_mask w)
  else w.

Lemma all_in_range_spec a n f x : all_in_range a n f = true -> in_range a n x -> f x = true.
Proof.
  unfold all_in_range, in_range. intros Hall Hx.
  pose proof (proj1 (forallb_forall _ _) Hall (Z.to_nat (x - a))) as Hf. cbn in Hf.
  rewrite Z2Nat.id in Hf by lia. replace (a + (x - a)) with x in Hf by lia. apply Hf, in_seq. lia.
Qed.

#[export] Instance toy_blobs : Blobs toy_exec (op Byte.x01) (op Byte.x02) (op Byte.x03) (op Byte.x04) (fun m => m) 4096.
Proof.
  split; try done.
  - repeat constructor; done.
  - intros w a (Hc & Ha & _) Hm. change (range (w_mem w) (w_regs w X86_64.rip) 8 = op Byte.x01) in Hc.
    cbn in Ha. unfold toy_exec. rewrite Hc.
    rewrite decide_True by done. cbn. by rewrite Ha.
  - intros w n (Hc & Ha & _) Hn. change (range (w_mem w) (w_regs w X86_64.rip) 8 = op Byte.x02) in Hc.
    cbn in Ha. unfold toy_exec. rewrite Hc.
    rewrite decide_False, decide_True by done. rewrite Ha. case_match eqn:E; [|done].
    change (IS_ERR_VALUE _) with false. cbn. split_and!; try done. intros x Hx.
    apply (all_in_range_spec _ _ _ x) in E; [|done]. by apply negb_true_iff in E.
  - intros w a (Hc & _). change (range (w_mem w) (w_regs w X86_64.rip) 8 = op Byte.x03) in Hc.
    unfold toy_exec. rewrite Hc.
    rewrite !decide_False, decide_True by done. split_and!; [by left|done..].
  - intros w a n (Hc & Ha & Hn) Hm Hpos. change (range (w_mem w) (w_regs w X86_64.rip) 8 = op Byte.x04) in Hc.
    cbn in Ha, Hn. unfold toy_exec. rewrite Hc.
    rewrite !decide_False, decide_True by done. rewrite Ha, Hn. by split_and!.
Qed.

Definition wit_regs : x86_64_registers :=
  set_reg X86_64.rip 4196 (set_reg X86_64.rsp 20480 (fun _ => 0)).
Definition wit_target (free : bool) : tracee x86_64_registers :=
  Tracee wit_regs (fun x => byte.of_Z x)
    (fun x => in_rangeb 4096 4096 x || in_rangeb 16384 4096 x || negb free && in_rangeb map_at 4096 x) (op Byte.x05).
Definition wit_image : bytes := replicate 160 Byte.xaa.
Definition wit_state : inject_state := Inject (Context_ 0 0 0 [] [] [] 0) [42] 0 0 None (Watch false 0).
(** Two signals before the first blob gets to run. *)
Definition wit_signals : list (stop (R := x86_64_registers)) :=
  [StopSignal 10 (fun w => w); StopSignal 12 (fun w => w); StopEvent (fun w => w)].

Lemma wit_signals_ok sp : signals sp wit_signals.
Proof.
  apply (signals_more sp 10 (fun w => w) [StopSignal 12 (fun w => w)] (fun w => w) []); [done| |done|constructor].
  constructor; [by eexists _, _|constructor].
Qed.

Lemma wit_injectable free :
  injectable (op Byte.x01) (op Byte.x02) (op Byte.x03) (op Byte.x04) (fun m => m) 4096 wit_image 16 (wit_target free).
Proof.
  split; try done.
  - intros x Hx. change (in_range 4096 8 x) in Hx. cbn. rewrite (proj2 (in_rangeb_true 4096 4096 x)); [done|]. unfold in_range in *. lia.
  - intros x Hx. change (in_range 20352 128 x) in Hx. cbn. rewrite (proj2 (in_rangeb_true 16384 4096 x)), orb_true_r; [done|].
    unfold in_range in *. lia.
  - intros x Hx. change (in_range 4096 8 x) in Hx. change (~ in_range 20352 128 x). unfold in_range in *. lia.
Qed.

Lemma toy_calls_work free : free = true -> calls_work toy_exec (op Byte.x02) (op Byte.x03) (op Byte.x04) wit_image (wit_target free).
Proof.
  intros ->. split.
  - intros w [(Hc & Ha & _) Hm]. change (range (w_mem w) (w_regs w X86_64.rip) 8 = op Byte.x02) in Hc.
    cbn in Ha. unfold toy_exec. rewrite Hc, Ha.
    rewrite decide_False, decide_True by done. rewrite all_in_range_true; [reflexivity|].
    intros x Hx. rewrite Hm. cbn. unfold map_at, in_range in Hx. change (page_up 4096 (blen wit_image)) with 4096 in Hx.
    unfold in_rangeb. lia.
  - intros b w _ (Hc & _). change (range (w_mem w) (w_regs w X86_64.rip) 8 = op Byte.x03) in Hc.
    unfold toy_exec. rewrite Hc. by rewrite !decide_False, decide_True by done.
  - intros b w _ (Hc & _). change (range (w_mem w) (w_regs w X86_64.rip) 8 = op Byte.x04) in Hc.
    unfold toy_exec. rewrite Hc. by rewrite !decide_False, decide_True by done.
Qed.

(** Commands that leave the thread alone and note the address. *)
Definition wit_cmd (b clone x : Z) (w : tracee x86_64_registers) : run (Z * Z * tracee x86_64_registers) := Ret (0, x + b, w).

Lemma injection_undone_witness :
  exists s' x1 w1 x2 w2,
    execute_parasite_checkpoint toy_exec (op Byte.x01) (op Byte.x02) (op Byte.x03) (op Byte.x04) 4096 wit_image 16 None 0
      wit_cmd 42 true (inr []) wit_state 5 (wit_signals ++ quiet ++ quiet ++ quiet ++ []) (wit_target true)
      = Ret (0, s', x1, [], w1)
    /\ execute_parasite_restore toy_exec (op Byte.x01) (op Byte.x04) wit_image (wit_cmd 0 0) 42 1
         (replicate 2 (0, Watch false 0) ++ [(0, Watch true 256)]) (-1) s' x1 (quiet ++ quiet ++ []) w1 = Ret (0, x2, [], w2)
    /\ restored (wit_target true) w2 /\ w_mask w2 = op Byte.x05.
Proof.
  apply (injection_undone toy_exec (op Byte.x01) (op Byte.x02) (op Byte.x03) (op Byte.x04) (fun m => m) 4096 wit_image
    16 None 0 wit_cmd (wit_cmd 0 0) 42 true (inr []) wit_state 5 (wit_target true) wit_signals [] 0 2 256 (-1) []).
  - apply wit_injectable.
  - apply wit_signals_ok.
  - reflexivity.
  - reflexivity.
  - by apply toy_calls_work.
  - intros b clone w _ _. by exists (5 + b), w, (5 + b + 0), w.
Defined.

Lemma mmap_failure_undone_witness :
  exists s' w',
    execute_parasite_checkpoint toy_exec (op Byte.x01) (op Byte.x02) (op Byte.x03) (op Byte.x04) 4096 wit_image 16 None 0
      wit_cmd 42 true (inr []) wit_state 5 (wit_signals ++ quiet ++ quiet ++ quiet ++ []) (wit_target false)
      = Ret (-1, s', 5, [], w')
    /\ restored (wit_target false) w' /\ w_mask w' = op Byte.x05.
Proof.
  apply (mmap_failure_undone toy_exec (op Byte.x01) (op Byte.x02) (op Byte.x03) (op Byte.x04) (fun m => m) 4096 wit_image
    16 None 0 wit_cmd 42 true (inr []) wit_state 5 (wit_target false) wit_signals []).
  - apply wit_injectable.
  - apply wit_signals_ok.
  - intros w [(Hc & Ha & _) Hm]. change (range (w_mem w) (w_regs w X86_64.rip) 8 = op Byte.x02) in Hc.
    cbn in Ha. unfold toy_exec. rewrite Hc, Ha.
    rewrite decide_False, decide_True by done. case_match eqn:E; [|reflexivity].
    apply (all_in_range_spec _ _ _ map_at) in E; [|split; [lia|reflexivity]]. cbn beta in E. rewrite Hm in E. discriminate E.
Defined.

(** A handler at 6000, its frame, and the signal added to the mask. *)
Definition wit_deliver (w : tracee x86_64_registers) : tracee x86_64_registers :=
  Tracee (set_reg X86_64.rip 6000 (w_regs w)) (store (w_mem w) 20300 (replicate 60 Byte.xee)) (w_mapped w) (op Byte.x07).

Lemma signal_handler_dropped_witness :
  exists w1 ws : tracee x86_64_registers,
    eqw w1 (setmem (store (w_mem (wit_target true)) 4096 (op Byte.x03)) (wit_target true))
    /\ execute_blob toy_exec (Context_ 42 4096 20352 [] [] [] 0) (op Byte.x03) 0 0
         ([StopSignal 10 (fun w => w); StopEvent wit_deliver] ++ quiet ++ []) (wit_target true)
       = Ret (get_cpu_syscall_ret (w_regs (toy_exec ws)), [], setregs wit_regs (toy_exec ws))
    /\ w_regs ws = set_cpu_regs wit_regs 4096 0 0 /\ get_cpu_regs_pc (w_regs ws) = 4096
    /\ w_mask ws = w_mask (wit_deliver w1)
    /\ forall x, w_mem ws x = if in_rangeb 20352 (2 * word_size (R := x86_64_registers)) x then w_mem w1 x else w_mem (wit_deliver w1) x.
Proof.
  apply (signal_handler_dropped toy_exec (Context_ 42 4096 20352 [] [] [] 0) (op Byte.x03) 0 0 10
    wit_deliver [] (wit_target true)); [done| | |done].
  - intros x Hx. apply (ij_code _ _ _ _ _ _ _ _ _ (wit_injectable true)). exact Hx.
  - intros x Hx. apply (ij_stack _ _ _ _ _ _ _ _ _ (wit_injectable true)). change (in_range 20352 128 x).
    change (in_range 20352 16 x) in Hx. unfold in_range in *. lia.
Defined.
