(* ===== verification/Enter.v ===== *)
(** The code memcr injects into the target before the parasite, per
    architecture (arch/*/enter.c): four pieces of assembly that make one system
    call each and end in a debug trap.

    The instructions are data, run by a small machine over the registers of
    Arch.v and the calling convention of Abi.v; the kernel is a parameter with
    the documented behaviour of the four calls ([LinuxCalls]), and so are the
    encoding of an instruction and the processor's decoding of it.  The result
    is an instance of [Blobs], the contract InjectFacts.v is proved against. *)
From stdpp Require Import base list.
From S2P Require Import Prelude Target Arch Abi Inject InjectFacts.
#[local] Open Scope Z_scope.

(** * Assembly *)

(** CLONE_FLAGS, .child and 1 *)
Inductive label := LFlags | LChild | L1.
Definition label_eqb (l l' : label) : bool :=
  match l, l' with LFlags, LFlags | LChild, LChild | L1, L1 => true | _, _ => false end.

Inductive insn (A : Type) :=
| Movi (d : A) (imm : Z)           (** mov, movq, li: an immediate *)
| Movr (d s : A)                   (** mov, movq, mv: a register *)
| Ldr_eq (d : A) (imm : Z)         (** ldr d, =imm *)
| Ldr (d : A) (l : label)          (** ldr, ld: the word at a label *)
| Svc                              (** syscall, svc, ecall *)
| Brk                              (** int $3, udf #16, brk, ebreak: SIGTRAP *)
| Cmp0 (r : A)                     (** test r, r; cmp r, #0 *)
| Jnz (l : label)
| Beq (l : label)
| Beqr (a b : A) (l : label)       (** riscv's beq *)
| Bxeq (r : A)                     (** to the address in r, if equal *)
| Jmp (r : A).                     (** jmp *r, br, jr *)
Arguments Movi {A} _ _.
Arguments Movr {A} _ _.
Arguments Ldr_eq {A} _ _.
Arguments Ldr {A} _ _.
Arguments Svc {A}.
Arguments Brk {A}.
Arguments Cmp0 {A} _.
Arguments Jnz {A} _.
Arguments Beq {A} _.
Arguments Beqr {A} _ _ _.
Arguments Bxeq {A} _.
Arguments Jmp {A} _.

Inductive item (A : Type) :=
| Ins (i : insn A)
| Lab (l : label)
| Dat (size z : Z)                 (** .word, .quad *)
| Align (n : Z).                   (** .align, in bytes *)
Arguments Ins {A} _.
Arguments Lab {A} _.
Arguments Dat {A} _ _.
Arguments Align {A} _.
Coercion Ins : insn >-> item.

(** A blob: what stands between its label and that of its size. *)
Abbreviation code A := (list (item A)).

(** * What the assembler makes of it *)

Section Layout.
Context {A : Type} (enc : insn A -> bytes) (pad : byte).

Definition item_bytes (off : Z) (i : item A) : bytes :=
  match i with
  | Ins i => enc i
  | Lab _ => []
  | Dat size z => le_split (Z.to_nat size) z
  | Align n => replicate (Z.to_nat ((- off) mod n)) pad
  end.

(** The bytes from a label aligned for them. *)
Fixpoint emit (off : Z) (p : code A) : bytes :=
  match p with
  | [] => []
  | i :: p => item_bytes off i ++ emit (off + blen (item_bytes off i)) p
  end.

(** Whether the code ends with the alignment of the label of its size. *)
Definition padded (n : Z) (p : code A) : bool :=
  match last p with Some (Align m) => m =? n | _ => false end.

Lemma emit_app off p q : emit off (p ++ q) = emit off p ++ emit (off + blen (emit off p)) q.
Proof.
  revert off. induction p as [|i p IH]; intros off; cbn [app emit]; [by rewrite blen_nil, Z.add_0_r|].
  rewrite IH, <- app_assoc, blen_app. do 3 f_equal. lia.
Qed.

Lemma emit_padded n p : 0 < n -> padded n p = true -> blen (emit 0 p) mod n = 0.
Proof.
  intros Hn. unfold padded. destruct (last p) as [i|] eqn:El; [|done]. apply last_Some in El as [q ->].
  destruct i as [| | |m]; try done. intros ->%Z.eqb_eq. rewrite emit_app, blen_app. cbn [emit item_bytes].
  rewrite app_nil_r, blen_replicate. set (k := 0 + blen _).
  replace (blen (emit 0 q)) with k by lia. rewrite Z2Nat.id by (apply Z.mod_pos_bound; lia).
  rewrite Zplus_mod_idemp_r. by rewrite Z.add_opp_diag_r, Zmod_0_l.
Qed.
End Layout.

(** * Running it *)

Section Machine.
Context {A : Type} `{EqDecision A} `{Abi A} `{Cpu (A -> Z)}.
#[local] Abbreviation tracee := (tracee (A -> Z)).

Inductive outcome :=
| Trapped (w : tracee)             (** the debug trap *)
| Jumped (a : Z) (w : tracee)      (** away from the code, to an address *)
| Lost.                            (** off the end, or into data *)

(** What a literal pool holds for a constant, and what the system call
    instruction does to the thread that runs the code. *)
Context (pool : Z -> Z) (svc : tracee -> tracee).

Definition set_word (d : A) (v : Z) (w : tracee) : tracee := setregs (set_reg d v (w_regs w)) w.

Fixpoint after (l : label) (p : code A) : code A :=
  match p with
  | [] => []
  | Lab l' :: q => if label_eqb l l' then q else after l q
  | _ :: q => after l q
  end.

Definition data_at (l : label) (p : code A) : Z :=
  match after l p with Dat _ z :: _ => z | _ => 0 end.

(** [prog]: the whole code, [p]: the rest of it, [zf]: the flag Z. *)
Fixpoint run_code (fuel : nat) (prog p : code A) (zf : bool) (w : tracee) : outcome :=
  match fuel, p with
  | S fuel, Ins i :: p =>
      match i with
      | Movi d z => run_code fuel prog p zf (set_word d (ulong (R := A -> Z) z) w)
      | Movr d s => run_code fuel prog p zf (set_word d (w_regs w s) w)
      | Ldr_eq d z => run_code fuel prog p zf (set_word d (pool z) w)
      | Ldr d l => run_code fuel prog p zf (set_word d (data_at l prog) w)
      | Svc => run_code fuel prog p zf (svc w)
      | Brk => Trapped w
      | Cmp0 r => run_code fuel prog p (w_regs w r =? 0) w
      | Jnz l => if zf then run_code fuel prog p zf w else run_code fuel prog (after l prog) zf w
      | Beq l => if zf then run_code fuel prog (after l prog) zf w else run_code fuel prog p zf w
      | Beqr a b l =>
          if w_regs w a =? w_regs w b then run_code fuel prog (after l prog) zf w else run_code fuel prog p zf w
      | Bxeq r => if zf then Jumped (w_regs w r) w else run_code fuel prog p zf w
      | Jmp r => Jumped (w_regs w r) w
      end
  | S fuel, (Lab _ | Align _) :: p => run_code fuel prog p zf w
  | _, _ => Lost
  end.

(** From the first instruction; no piece of code here jumps back. *)
Definition run_blob (p : code A) (w : tracee) : outcome := run_code (length p) p p false w.
End Machine.

(** The system call as the calling thread and as a cloned one see it. *)
Section Svc.
Context {A : Type} `{EqDecision A} `{Abi A} `{Cpu (A -> Z)}.
#[local] Abbreviation tracee := (tracee (A -> Z)).
Context (kernel : kernel_fn tracee) (lost : A -> Z).

Definition svc_caller (w : tracee) : tracee :=
  let '(regs, w') := trap kernel lost (w_regs w) w in setregs regs w'.
Definition svc_child (w : tracee) : tracee := setregs (trap_regs lost 0 (w_regs w)) w.
End Svc.

(** * enter.c *)

Definition SIG_SETMASK : Z := 2.
Definition PROT_RWX : Z := Z.lor (Z.lor PROT_EXEC PROT_READ) PROT_WRITE.
Definition MAP_PRIVATE : Z := 0x02.
Definition MAP_ANONYMOUS : Z := 0x20.
Definition MAP_ANON_PRIVATE : Z := Z.lor MAP_ANONYMOUS MAP_PRIVATE.
Definition CLONE_VM : Z := 0x100.
Definition CLONE_FS : Z := 0x200.
Definition CLONE_FILES : Z := 0x400.
Definition CLONE_SIGHAND : Z := 0x800.
Definition CLONE_THREAD : Z := 0x10000.
Definition CLONE_SYSVSEM : Z := 0x40000.
Definition CLONE_IO : Z := 0x80000000.
Definition CLONE_PARASITE : Z :=
  Z.lor CLONE_FILES (Z.lor CLONE_FS (Z.lor CLONE_IO (Z.lor CLONE_SIGHAND (Z.lor CLONE_SYSVSEM (Z.lor CLONE_THREAD CLONE_VM))))).

(** The compiler prints an "i" operand of the 32-bit type of these flags as a
    signed number: $-2147152128.  A 64-bit register loaded with it has its upper
    half set. *)
Definition CLONE_OPERAND : Z := i32 CLONE_PARASITE.

(** ** x86_64 *)

Definition x86_64_sigprocmask_blob : code X86_64.reg :=
  [ Ins (Movi X86_64.rax 14);
    Ins (Movi X86_64.rdi SIG_SETMASK);
    Ins (Movr X86_64.rsi X86_64.r15);
    Ins (Movr X86_64.rdx X86_64.r15);
    Ins (Movi X86_64.r10 8);
    Ins Svc;
    Ins Brk;
    Align 8 ].
Definition x86_64_mmap_blob : code X86_64.reg :=
  [ Ins (Movi X86_64.rax 9);
    Ins (Movi X86_64.rdi 0);
    Ins (Movr X86_64.rsi X86_64.r15);
    Ins (Movi X86_64.rdx PROT_RWX);
    Ins (Movi X86_64.r10 MAP_ANON_PRIVATE);
    Ins (Movi X86_64.r8 (-1));
    Ins (Movi X86_64.r9 0);
    Ins Svc;
    Ins Brk;
    Align 8 ].
Definition x86_64_clone_blob : code X86_64.reg :=
  [ Ins (Movi X86_64.rax 56);
    Ins (Movi X86_64.rdi CLONE_OPERAND);
    Ins (Movi X86_64.rsi 0);
    Ins (Movi X86_64.rdx 0);
    Ins (Movi X86_64.r10 0);
    Ins Svc;
    Ins (Cmp0 X86_64.rax);
    Ins (Jnz L1);
    Ins (Jmp X86_64.r15);
    Lab L1;
    Ins Brk;
    Align 8 ].
Definition x86_64_munmap_blob : code X86_64.reg :=
  [ Ins (Movi X86_64.rax 11);
    Ins (Movr X86_64.rdi X86_64.r15);
    Ins (Movr X86_64.rsi X86_64.r14);
    Ins Svc;
    Ins Brk;
    Align 8 ].

(** ** arm *)

Definition arm_sigprocmask_blob : code Arm.reg :=
  [ Ins (Movi Arm.r7 175);
    Ins (Movi Arm.r0 SIG_SETMASK);
    Ins (Movr Arm.r1 Arm.r8);
    Ins (Movr Arm.r2 Arm.r8);
    Ins (Movi Arm.r3 8);
    Ins Svc;
    Ins Brk;
    Align 4 ].
Definition arm_mmap_blob : code Arm.reg :=
  [ Ins (Movi Arm.r7 192);
    Ins (Movi Arm.r0 0);
    Ins (Movr Arm.r1 Arm.r8);
    Ins (Movi Arm.r2 PROT_RWX);
    Ins (Movi Arm.r3 MAP_ANON_PRIVATE);
    Ins (Ldr_eq Arm.r4 (-1));
    Ins (Movi Arm.r5 0);
    Ins Svc;
    Ins Brk;
    Align 4 ].
Definition arm_clone_blob : code Arm.reg :=
  [ Ins (Movi Arm.r7 120);
    Ins (Ldr Arm.r0 LFlags);
    Ins (Movi Arm.r1 0);
    Ins (Movi Arm.r2 0);
    Ins (Movi Arm.r3 0);
    Ins Svc;
    Ins (Cmp0 Arm.r0);
    Ins (Bxeq Arm.r8);
    Ins Brk;
    Lab LFlags;
    Dat 4 0x80050f00;
    Align 4 ].
Definition arm_munmap_blob : code Arm.reg :=
  [ Ins (Movi Arm.r7 91);
    Ins (Movr Arm.r0 Arm.r8);
    Ins (Movr Arm.r1 Arm.r9);
    Ins Svc;
    Ins Brk;
    Align 4 ].

(** ** arm64 *)

Definition arm64_sigprocmask_blob : code Arm64.reg :=
  [ Ins (Movi Arm64.x8 135);
    Ins (Movi Arm64.x0 SIG_SETMASK);
    Ins (Movr Arm64.x1 Arm64.x10);
    Ins (Movr Arm64.x2 Arm64.x10);
    Ins (Movi Arm64.x3 8);
    Ins Svc;
    Ins Brk;
    Align 8 ].
Definition arm64_mmap_blob : code Arm64.reg :=
  [ Ins (Movi Arm64.x8 222);
    Ins (Movi Arm64.x0 0);
    Ins (Movr Arm64.x1 Arm64.x10);
    Ins (Movi Arm64.x2 PROT_RWX);
    Ins (Movi Arm64.x3 MAP_ANON_PRIVATE);
    Ins (Ldr_eq Arm64.x4 (-1));
    Ins (Movi Arm64.x5 0);
    Ins Svc;
    Ins Brk;
    Align 8 ].
Definition arm64_clone_blob : code Arm64.reg :=
  [ Ins (Movi Arm64.x8 220);
    Ins (Ldr Arm64.x0 LFlags);
    Ins (Movi Arm64.x1 0);
    Ins (Movi Arm64.x2 0);
    Ins (Movi Arm64.x3 0);
    Ins Svc;
    Ins (Cmp0 Arm64.x0);
    Ins (Beq LChild);
    Ins Brk;
    Lab LChild;
    Ins (Jmp Arm64.x10);
    Lab LFlags;
    Dat 8 (Z.land CLONE_OPERAND 0xffffffff);
    Align 8 ].
Definition arm64_munmap_blob : code Arm64.reg :=
  [ Ins (Movi Arm64.x8 215);
    Ins (Movr Arm64.x0 Arm64.x10);
    Ins (Movr Arm64.x1 Arm64.x11);
    Ins Svc;
    Ins Brk;
    Align 8 ].

(** ** riscv64: the label of the last size stands before the alignment *)

Definition riscv64_sigprocmask_blob : code Riscv64.reg :=
  [ Ins (Movi Riscv64.a7 135);
    Ins (Movi Riscv64.a0 SIG_SETMASK);
    Ins (Movr Riscv64.a1 Riscv64.s6);
    Ins (Movr Riscv64.a2 Riscv64.s6);
    Ins (Movi Riscv64.a3 8);
    Ins Svc;
    Ins Brk;
    Align 8 ].
Definition riscv64_mmap_blob : code Riscv64.reg :=
  [ Ins (Movi Riscv64.a7 222);
    Ins (Movi Riscv64.a0 0);
    Ins (Movr Riscv64.a1 Riscv64.s6);
    Ins (Movi Riscv64.a2 PROT_RWX);
    Ins (Movi Riscv64.a3 MAP_ANON_PRIVATE);
    Ins (Movi Riscv64.a4 (-1));
    Ins (Movi Riscv64.a5 0);
    Ins Svc;
    Ins Brk;
    Align 8 ].
Definition riscv64_clone_blob : code Riscv64.reg :=
  [ Ins (Movi Riscv64.a7 220);
    Ins (Ldr Riscv64.a0 LFlags);
    Ins (Movi Riscv64.a1 0);
    Ins (Movi Riscv64.a2 0);
    Ins (Movi Riscv64.a3 0);
    Ins Svc;
    Ins (Movi Riscv64.a1 0);
    Ins (Beqr Riscv64.a0 Riscv64.a1 LChild);
    Ins Brk;
    Lab LChild;
    Ins (Jmp Riscv64.s6);
    Lab LFlags;
    Dat 8 (Z.land CLONE_OPERAND 0xffffffff) ].
Definition riscv64_munmap_blob : code Riscv64.reg :=
  [ Ins (Movi Riscv64.a7 215);
    Ins (Movr Riscv64.a0 Riscv64.s6);
    Ins (Movr Riscv64.a1 Riscv64.s7);
    Ins Svc;
    Ins Brk;
    Align 8 ].

(** What enter.h gives to memcr.c, and the numbers of the four system calls on
    the architecture (asm/unistd.h). *)
Class Enter (A : Type) := {
  sigprocmask_blob : code A;
  mmap_blob : code A;
  clone_blob : code A;
  munmap_blob : code A;
  nr_rt_sigprocmask : Z;
  nr_mmap : Z;
  nr_clone : Z;
  nr_munmap : Z;
}.

#[export] Instance x86_64_enter : Enter X86_64.reg := {|
  sigprocmask_blob := x86_64_sigprocmask_blob; mmap_blob := x86_64_mmap_blob;
  clone_blob := x86_64_clone_blob; munmap_blob := x86_64_munmap_blob;
  nr_rt_sigprocmask := 14; nr_mmap := 9; nr_clone := 56; nr_munmap := 11;
|}.
#[export] Instance arm_enter : Enter Arm.reg := {|
  sigprocmask_blob := arm_sigprocmask_blob; mmap_blob := arm_mmap_blob;
  clone_blob := arm_clone_blob; munmap_blob := arm_munmap_blob;
  nr_rt_sigprocmask := 175; nr_mmap := 192; nr_clone := 120; nr_munmap := 91;
|}.
#[export] Instance arm64_enter : Enter Arm64.reg := {|
  sigprocmask_blob := arm64_sigprocmask_blob; mmap_blob := arm64_mmap_blob;
  clone_blob := arm64_clone_blob; munmap_blob := arm64_munmap_blob;
  nr_rt_sigprocmask := 135; nr_mmap := 222; nr_clone := 220; nr_munmap := 215;
|}.
#[export] Instance riscv64_enter : Enter Riscv64.reg := {|
  sigprocmask_blob := riscv64_sigprocmask_blob; mmap_blob := riscv64_mmap_blob;
  clone_blob := riscv64_clone_blob; munmap_blob := riscv64_munmap_blob;
  nr_rt_sigprocmask := 135; nr_mmap := 222; nr_clone := 220; nr_munmap := 215;
|}.

Definition blobs {A} `{Enter A} : list (code A) := [sigprocmask_blob; mmap_blob; clone_blob; munmap_blob].

(** * What each piece of code does

    Whatever the system call does, the kernel is asked for the right call with
    the right arguments, and the code ends in the trap; after clone(), the
    thread that gets 0 goes to the address in the first parameter. *)
Class EnterSpec (A : Type) `{EqDecision A} `{Abi A} `{Cpu (A -> Z)} `{Enter A} := {
  abi_ret_cpu (r : A -> Z) : get_cpu_syscall_ret r = r abi_ret;
  abi_keeps_arg0 lost ret (r : A -> Z) : cpu_arg0 (trap_regs lost ret r) = cpu_arg0 r;
  run_sigprocmask pool svc (w : tracee (A -> Z)) : exists r,
    run_blob pool svc sigprocmask_blob w = Trapped (svc (setregs r w))
    /\ r abi_nr = nr_rt_sigprocmask
    /\ map r (take 4 abi_args) = [SIG_SETMASK; cpu_arg0 (w_regs w); cpu_arg0 (w_regs w); 8];
  run_mmap pool svc (w : tracee (A -> Z)) : exists r fd,
    run_blob pool svc mmap_blob w = Trapped (svc (setregs r w))
    /\ r abi_nr = nr_mmap /\ map r (take 6 abi_args) = [0; cpu_arg0 (w_regs w); PROT_RWX; MAP_ANON_PRIVATE; fd; 0];
  run_clone pool svc (w : tracee (A -> Z)) : exists r r2 flags,
    let w1 := svc (setregs r w) in
    run_blob pool svc clone_blob w
      = (if get_cpu_syscall_ret (w_regs w1) =? 0 then Jumped (cpu_arg0 (w_regs w1)) (setregs r2 w1)
         else Trapped (setregs r2 w1))
    /\ get_cpu_syscall_ret r2 = get_cpu_syscall_ret (w_regs w1) /\ cpu_arg0 r = cpu_arg0 (w_regs w)
    /\ r abi_nr = nr_clone /\ map r (take 4 abi_args) = [flags; 0; 0; 0] /\ Z.land flags 0xffffffff = CLONE_PARASITE;
  run_munmap pool svc (w : tracee (A -> Z)) : exists r,
    run_blob pool svc munmap_blob w = Trapped (svc (setregs r w))
    /\ r abi_nr = nr_munmap /\ map r (take 2 abi_args) = [cpu_arg0 (w_regs w); cpu_arg1 (w_regs w)];
}.

Lemma setregs_id {R} (w : tracee R) : setregs (w_regs w) w = w.
Proof. by destruct w. Qed.

(** Runs a blob that does not branch. *)
Ltac run_straight := intros; repeat eexists; reflexivity.

(** Runs a blob that branches on the result of its call, made with the
    registers [r]; [r2]: the registers set afterwards, [flags]: those of clone(). *)
Ltac run_branch r r2 flags :=
  intros pool svc w; exists (r w), (r2 (w_regs (svc (setregs (r w) w)))), flags;
  split_and!; [|reflexivity..]; unfold run_blob; set (w1 := svc (setregs (r w) w)); cbn -[Z.eqb];
  repeat match goal with |- context [svc ?x] => change (svc x) with w1 end;
  unfold x86_64_get_cpu_syscall_ret, arm_get_cpu_syscall_ret, arm64_get_cpu_syscall_ret, riscv64_get_cpu_syscall_ret;
  try match goal with |- context [set_reg ?a ?v (w_regs w1) ?b =? ?e] =>
    change (set_reg a v (w_regs w1) b =? e) with (w_regs w1 b =? 0) end;
  match goal with |- context [w_regs w1 ?a =? ?z] => destruct (w_regs w1 a =? z) end;
  cbn; rewrite ?setregs_id; reflexivity.

#[export] Instance x86_64_enter_spec : EnterSpec X86_64.reg.
Proof.
  split; [done|done|run_straight|run_straight| |run_straight].
  run_branch (fun w : tracee (X86_64.reg -> Z) => set_reg X86_64.r10 0 (set_reg X86_64.rdx 0 (set_reg X86_64.rsi 0
    (set_reg X86_64.rdi 0xffffffff80050f00 (set_reg X86_64.rax 56 (w_regs w)))))) (fun r : X86_64.reg -> Z => r)
    0xffffffff80050f00.
Qed.

#[export] Instance arm_enter_spec : EnterSpec Arm.reg.
Proof.
  split; [done|done|run_straight|run_straight| |run_straight].
  run_branch (fun w : tracee (Arm.reg -> Z) => set_reg Arm.r3 0 (set_reg Arm.r2 0 (set_reg Arm.r1 0
    (set_reg Arm.r0 0x80050f00 (set_reg Arm.r7 120 (w_regs w)))))) (fun r : Arm.reg -> Z => r) 0x80050f00.
Qed.

#[export] Instance arm64_enter_spec : EnterSpec Arm64.reg.
Proof.
  split; [done|done|run_straight|run_straight| |run_straight].
  run_branch (fun w : tracee (Arm64.reg -> Z) => set_reg Arm64.x3 0 (set_reg Arm64.x2 0 (set_reg Arm64.x1 0
    (set_reg Arm64.x0 CLONE_PARASITE (set_reg Arm64.x8 220 (w_regs w)))))) (fun r : Arm64.reg -> Z => r) CLONE_PARASITE.
Qed.

#[export] Instance riscv64_enter_spec : EnterSpec Riscv64.reg.
Proof.
  split; [done|done|run_straight|run_straight| |run_straight].
  run_branch (fun w : tracee (Riscv64.reg -> Z) => set_reg Riscv64.a3 0 (set_reg Riscv64.a2 0 (set_reg Riscv64.a1 0
    (set_reg Riscv64.a0 CLONE_PARASITE (set_reg Riscv64.a7 220 (w_regs w))))))
    (fun r : Riscv64.reg -> Z => set_reg Riscv64.a1 0 r) CLONE_PARASITE.
Qed.

(** * The contract of the injected code *)

Section Injected.
Context {A : Type} `{EqDecision A} `{Abi A} `{Cpu (A -> Z)} `{Enter A} `{!EnterSpec A}.
#[local] Abbreviation tracee := (tracee (A -> Z)).

(** The four system calls as their manual pages describe them, with the value
    the kernel leaves in the register: an error is one of the last 4095 words, and
    then nothing has changed.
    - rt_sigprocmask() on memory that can be read and written sets the mask and
      stores the old one; [kmask] takes the two signals that cannot be blocked
      out of a mask.
    - mmap() of an anonymous area (the descriptor is ignored) of at least one
      byte gives whole pages at a page boundary that were not mapped before, or
      fails.
    - clone() looks at the low 32 bits of the flags; the caller gets the number
      of the new thread, or an error.
    - munmap() from a page boundary on removes every page the bytes touch,
      mapped or not, or fails. *)
Class LinuxCalls (kernel : kernel_fn tracee) (kmask : bytes -> bytes) (page_size : Z) := {
  lc_page : 0 < page_size;
  lc_kmask m : blen m = 8 -> blen (kmask m) = 8;
  lc_sigprocmask w a rest : all_mapped w a 8 ->
    let '(ret, w') := kernel nr_rt_sigprocmask (SIG_SETMASK :: a :: a :: 8 :: rest) w in
    ret = 0 /\ w_mask w' = kmask (range (w_mem w) a 8) /\ (forall x, w_mapped w' x = w_mapped w x)
    /\ forall x, w_mem w' x = store (w_mem w) a (w_mask w) x;
  lc_mmap w n fd rest : 0 < n ->
    let '(ret, w') := kernel nr_mmap (0 :: n :: PROT_RWX :: MAP_ANON_PRIVATE :: fd :: 0 :: rest) w in
    w_mask w' = w_mask w /\ same_memory w w' /\
    if IS_ERR_VALUE (R := A -> Z) ret then forall x, w_mapped w' x = w_mapped w x
    else ret mod page_size = 0 /\ (forall x, in_range ret (page_up page_size n) x -> w_mapped w x = false)
         /\ forall x, w_mapped w' x = w_mapped w x || in_rangeb ret (page_up page_size n) x;
  lc_clone w flags rest : Z.land flags 0xffffffff = CLONE_PARASITE ->
    let '(ret, w') := kernel nr_clone (flags :: 0 :: 0 :: 0 :: rest) w in
    (0 < ret < 2 ^ 31 \/ IS_ERR_VALUE (R := A -> Z) ret = true)
    /\ w_mask w' = w_mask w /\ same_memory w w' /\ forall x, w_mapped w' x = w_mapped w x;
  lc_munmap w a n rest : a mod page_size = 0 -> 0 < n ->
    let '(ret, w') := kernel nr_munmap (a :: n :: rest) w in
    w_mask w' = w_mask w /\ (forall x, w_mapped w' x = true -> w_mem w' x = w_mem w x) /\
    if IS_ERR_VALUE (R := A -> Z) ret then forall x, w_mapped w' x = w_mapped w x
    else ret = 0 /\ forall x, w_mapped w' x = w_mapped w x && negb (in_rangeb a (page_up page_size n) x);
}.

Context (kernel : kernel_fn tracee) (kmask : bytes -> bytes) (page_size : Z) (lost : A -> Z) (pool : Z -> Z).
Context (enc : insn A -> bytes) (pad : byte) (fetch : (Z -> byte) -> Z -> option (code A)).
#[local] Abbreviation emit := (emit enc pad 0).

(** The processor runs the code at the program counter. *)
Definition exec_code (w : tracee) : tracee :=
  match fetch (w_mem w) (get_cpu_regs_pc (w_regs w)) with
  | Some p => match run_blob pool (svc_caller kernel lost) p w with Trapped w' => w' | _ => w end
  | None => w
  end.

(** What is fetched where a blob was put is the blob. *)
Definition fetches : Prop := forall p mem pc, p ∈ blobs -> range mem pc (blen (emit p)) = emit p -> fetch mem pc = Some p.

(** The call a blob makes, from the registers its code has set up. *)
Lemma svc_caller_spec (r : A -> Z) n args w :
  r abi_nr = n -> map r (take (length args) abi_args) = args ->
  exists rest, svc_caller kernel lost (setregs r w)
    = setregs (trap_regs lost (kernel n (args ++ rest) (setregs r w)).1 r) (kernel n (args ++ rest) (setregs r w)).2.
Proof.
  intros <- Ha. exists (map r (drop (length args) abi_args)). unfold svc_caller, trap. cbn [w_regs setregs].
  assert (E : args ++ map r (drop (length args) abi_args) = map r abi_args)
    by (rewrite <- Ha at 1; by rewrite <- map_app, take_drop).
  rewrite E. by destruct (kernel _ _ _).
Qed.

Lemma trap_ret ret (r : A -> Z) : get_cpu_syscall_ret (trap_regs lost ret r) = ret.
Proof. rewrite abi_ret_cpu. unfold trap_regs. by rewrite decide_True. Qed.

Lemma exec_fetched p (w w' : tracee) a0 a1 :
  fetches -> p ∈ blobs -> runs (emit p) a0 a1 w -> run_blob pool (svc_caller kernel lost) p w = Trapped w' ->
  exec_code w = w'.
Proof. intros Hf Hp (Hr & _ & _) E. unfold exec_code. by rewrite (Hf p), E. Qed.

Lemma all_mapped_setregs r (w : tracee) a n : all_mapped w a n -> all_mapped (setregs r w) a n.
Proof. done. Qed.

Context `{!CpuSpec (A -> Z)} `{!LinuxCalls kernel kmask page_size}.

Lemma exec_sigprocmask_blob w a : fetches ->
  runs (emit sigprocmask_blob) a 0 w -> all_mapped w a 8 ->
  get_cpu_syscall_ret (w_regs (exec_code w)) = 0 /\ w_mask (exec_code w) = kmask (range (w_mem w) a 8)
  /\ (forall x, w_mapped (exec_code w) x = w_mapped w x)
  /\ forall x, w_mem (exec_code w) x = store (w_mem w) a (w_mask w) x.
Proof.
  intros Hf Hr Hm. destruct (run_sigprocmask pool (svc_caller kernel lost) w) as (r & E & Hn & Ha).
  destruct (Hr) as (_ & Ea & _). rewrite Ea in Ha.
  destruct (svc_caller_spec r _ [SIG_SETMASK; a; a; 8] w Hn Ha) as (rest & Es). rewrite Es in E.
  rewrite (exec_fetched sigprocmask_blob w _ a 0 Hf ltac:(by left) Hr E).
  pose proof (lc_sigprocmask (setregs r w) a rest Hm) as L. cbn [app] in *.
  destruct (kernel _ _ _) as [ret w']. cbn in *. rewrite trap_ret. by destruct L as (-> & ? & ? & ?).
Qed.

Lemma exec_mmap_blob w n : fetches -> runs (emit mmap_blob) n 0 w -> 0 < n ->
  let ret := get_cpu_syscall_ret (w_regs (exec_code w)) in
  w_mask (exec_code w) = w_mask w /\ same_memory w (exec_code w) /\
  if IS_ERR_VALUE (R := A -> Z) ret then forall x, w_mapped (exec_code w) x = w_mapped w x
  else ret mod page_size = 0 /\ (forall x, in_range ret (page_up page_size n) x -> w_mapped w x = false)
       /\ forall x, w_mapped (exec_code w) x = w_mapped w x || in_rangeb ret (page_up page_size n) x.
Proof.
  intros Hf Hr Hpos. destruct (run_mmap pool (svc_caller kernel lost) w) as (r & fd & E & Hn & Ha).
  destruct (Hr) as (_ & Ea & _). rewrite Ea in Ha.
  destruct (svc_caller_spec r _ [0; n; PROT_RWX; MAP_ANON_PRIVATE; fd; 0] w Hn Ha) as (rest & Es). rewrite Es in E.
  rewrite (exec_fetched mmap_blob w _ n 0 Hf ltac:(by right; left) Hr E).
  pose proof (lc_mmap (setregs r w) n fd rest Hpos) as L. cbn [app] in *.
  destruct (kernel _ _ _) as [ret w']. cbn in *. by rewrite trap_ret.
Qed.

(** Neither a thread's number nor an error is 0. *)
Lemma clone_ret_pos ret : 0 < ret < 2 ^ 31 \/ IS_ERR_VALUE (R := A -> Z) ret = true -> 0 < ret.
Proof.
  intros [?|He%Z.leb_le]; [lia|]. eapply Z.lt_le_trans; [|exact He]. unfold Arch.ulong.
  by destruct (cpu_word (R := A -> Z)) as [-> | ->].
Qed.

Lemma clone_call w : exists ret w', run_blob pool (svc_caller kernel lost) clone_blob w = Trapped w'
  /\ get_cpu_syscall_ret (w_regs w') = ret /\ (0 < ret < 2 ^ 31 \/ IS_ERR_VALUE (R := A -> Z) ret = true)
  /\ w_mask w' = w_mask w /\ same_memory w w' /\ forall x, w_mapped w' x = w_mapped w x.
Proof.
  destruct (run_clone pool (svc_caller kernel lost) w) as (r & r2 & flags & E & Er2 & _ & Hn & Ha & Hfl).
  destruct (svc_caller_spec r _ [flags; 0; 0; 0] w Hn Ha) as (rest & Es). rewrite Es in E, Er2.
  pose proof (lc_clone (setregs r w) flags rest Hfl) as L. cbn [app] in *.
  destruct (kernel _ _ _) as [ret w'] eqn:Ek. cbn in *. destruct L as (Hret & L). rewrite trap_ret in E, Er2.
  pose proof (clone_ret_pos ret Hret). rewrite (proj2 (Z.eqb_neq ret 0)) in E by lia.
  exists ret, (setregs r2 (setregs (trap_regs lost ret r) w')). split; [exact E|]. cbn. split; [exact Er2|done].
Qed.

Lemma exec_clone_blob w a : fetches -> runs (emit clone_blob) a 0 w ->
  let ret := get_cpu_syscall_ret (w_regs (exec_code w)) in
  (0 < ret < 2 ^ 31 \/ IS_ERR_VALUE (R := A -> Z) ret = true)
  /\ w_mask (exec_code w) = w_mask w /\ same_memory w (exec_code w) /\ forall x, w_mapped (exec_code w) x = w_mapped w x.
Proof.
  intros Hf Hr. destruct (clone_call w) as (ret & w' & E & <- & L).
  by rewrite (exec_fetched clone_blob w _ a 0 Hf ltac:(by right; right; left) Hr E).
Qed.

Lemma exec_munmap_blob w a n : fetches -> runs (emit munmap_blob) a n w -> a mod page_size = 0 -> 0 < n ->
  let ret := get_cpu_syscall_ret (w_regs (exec_code w)) in
  w_mask (exec_code w) = w_mask w /\ (forall x, w_mapped (exec_code w) x = true -> w_mem (exec_code w) x = w_mem w x) /\
  if IS_ERR_VALUE (R := A -> Z) ret then forall x, w_mapped (exec_code w) x = w_mapped w x
  else ret = 0 /\ forall x, w_mapped (exec_code w) x = w_mapped w x && negb (in_rangeb a (page_up page_size n) x).
Proof.
  intros Hf Hr Hp Hpos. destruct (run_munmap pool (svc_caller kernel lost) w) as (r & E & Hn & Ha).
  destruct (Hr) as (_ & Ea & Eb). rewrite Ea, Eb in Ha.
  destruct (svc_caller_spec r _ [a; n] w Hn Ha) as (rest & Es). rewrite Es in E.
  rewrite (exec_fetched munmap_blob w _ a n Hf ltac:(by right; right; right; left) Hr E).
  pose proof (lc_munmap (setregs r w) a n rest Hp Hpos) as L. cbn [app] in *.
  destruct (kernel _ _ _) as [ret w']. cbn in *. by rewrite trap_ret.
Qed.

Lemma padded_words p : padded word_size p = true -> whole_words (R := A -> Z) (blen (emit p)).
Proof. intros Hp. split; [apply blen_nonneg|]. apply emit_padded; [apply (word_pos (R := A -> Z))|done]. Qed.

Lemma enter_blobs :
  fetches -> Forall (fun p => whole_words (R := A -> Z) (blen (emit p))) blobs ->
  Blobs exec_code (emit sigprocmask_blob) (emit mmap_blob) (emit clone_blob) (emit munmap_blob) kmask page_size.
Proof.
  intros Hf Hw. split; [apply lc_page|apply lc_kmask| |intros; by apply exec_sigprocmask_blob|intros; by apply exec_mmap_blob
    |intros; by eapply exec_clone_blob|intros; by apply exec_munmap_blob].
  unfold blobs in Hw. rewrite !Forall_cons in Hw. destruct Hw as (? & ? & ? & ? & _).
  repeat (apply Forall_cons_2; [done|]). by apply Forall_nil_2.
Qed.

(** C13: the code of enter.c keeps the contract the injection is proved against.
    On every architecture, on a kernel whose four system calls do what their
    manual pages say, the code memcr writes into the target (padded to whole
    words, or of such a size) sets the signal mask from and to the area at the
    first parameter, maps the pages for as many bytes as the first parameter says,
    clones a thread, or unmaps the pages the two parameters describe, and changes
    nothing else that the target can see, whatever the registers held before; when
    mmap(), clone() or munmap() fails, the code returns the kernel's error and
    nothing has changed. *)
Theorem enter_keeps_contract :
  fetches -> Forall (fun p => padded word_size p = true \/ whole_words (R := A -> Z) (blen (emit p))) blobs ->
  Blobs exec_code (emit sigprocmask_blob) (emit mmap_blob) (emit clone_blob) (emit munmap_blob) kmask page_size.
Proof.
  intros Hf Hp. apply enter_blobs; [done|]. eapply Forall_impl; [exact Hp|]. intros p [Hw|Hw]; [by apply padded_words|done].
Qed.

(** The thread the clone blob makes starts the parasite: it gets 0 from
    clone(), so that the code sends it to the address in the first parameter,
    where memcr put the parasite, while the thread that was borrowed gets the
    new thread's number (or the error) and stops at the trap. *)
Theorem clone_starts_parasite w :
  (exists r, run_blob pool (svc_child lost) clone_blob w = Jumped (cpu_arg0 (w_regs w)) (setregs r w))
  /\ exists w', run_blob pool (svc_caller kernel lost) clone_blob w = Trapped w' /\ 0 < get_cpu_syscall_ret (w_regs w').
Proof.
  split.
  - destruct (run_clone pool (svc_child lost) w) as (r & r2 & flags & E & _ & Ea & _). rewrite E. unfold svc_child.
    cbn [w_regs setregs]. rewrite trap_ret, abi_keeps_arg0, Ea. cbn. by exists r2.
  - destruct (clone_call w) as (ret & w' & E & <- & Hret & _). exists w'. split; [exact E|]. by apply clone_ret_pos.
Qed.
End Injected.

(** * Registers hold words *)

Section Typing.
Context {A : Type} `{EqDecision A} `{Abi A} `{Cpu (A -> Z)} `{Enter A} `{!EnterSpec A}.
#[local] Abbreviation tracee := (tracee (A -> Z)).

Definition is_word (z : Z) : Prop := 0 <= z < 2 ^ (8 * word_size (R := A -> Z)).
Definition words (r : A -> Z) : Prop := forall a, is_word (r a).

(** What is left when the code stops: words in the registers, and if it left
    for an address, that is one too; it does not get lost. *)
Definition well_typed (o : outcome) : Prop :=
  match o with
  | Trapped w => words (w_regs w)
  | Jumped a w => is_word a /\ words (w_regs w)
  | Lost => False
  end.

Definition data_words (p : code A) : bool :=
  forallb (fun i => match i with Dat _ z => (0 <=? z) && (z <? 2 ^ (8 * word_size (R := A -> Z))) | _ => true end) p.

Class CpuTyped := {
  set_cpu_regs_words r pc a0 a1 : words r -> is_word pc -> is_word a0 -> is_word a1 -> words (set_cpu_regs r pc a0 a1);
  blobs_data_words : Forall (fun p => data_words p = true) blobs;
  word_size_pos : 0 < word_size (R := A -> Z);
}.

Lemma set_reg_words d v (r : A -> Z) : words r -> is_word v -> words (set_reg d v r).
Proof. intros Hr Hv a. unfold set_reg. by case_decide. Qed.

Lemma data_at_word l p : 0 < word_size (R := A -> Z) -> data_words p = true -> is_word (data_at l p).
Proof.
  intros Hw. assert (H0w : is_word 0) by (split; [done|]; apply Z.pow_pos_nonneg; lia). unfold data_at.
  induction p as [|[i|l'|n z|n] p IH]; intros Hd; cbn in Hd |- *; [done|by auto| |by tests; auto|by auto].
  destruct (label_eqb l l'); [|by auto]. clear IH. destruct p as [|[i|l''|n z|n] p]; try done. cbn in *. by tests.
Qed.

Context `{!CpuTyped} (pool : Z -> Z) (svc : tracee -> tracee).
Context (Hpool : forall z, is_word (pool z)) (Hsvc : forall w, words (w_regs w) -> words (w_regs (svc w))).

Lemma run_code_words fuel prog p zf (w : tracee) :
  data_words prog = true -> words (w_regs w) ->
  run_code pool svc fuel prog p zf w = Lost \/ well_typed (run_code pool svc fuel prog p zf w).
Proof.
  intros Hd. pose proof word_size_pos as Hw. revert p zf w. induction fuel as [|fuel IH]; intros p zf w Hr; [by left|].
  assert (Hset : forall d v, is_word v -> words (w_regs (set_word d v w))) by (intros; by apply set_reg_words).
  assert (Hul : forall z, is_word (ulong (R := A -> Z) z)) by (intros z; apply Z.mod_pos_bound, Z.pow_pos_nonneg; lia).
  destruct p as [|[i|l|n z|n] p]; cbn; auto. destruct i; cbn; repeat case_match;
    auto using data_at_word; right; cbn; auto.
Qed.

(** C14: progress and preservation for the injected code.  On every
    architecture, a blob that memcr starts with [set_cpu_regs] in a thread whose
    registers hold machine words, on a kernel that leaves words in them, runs
    without falling off its end or into its data to the trap or, in the cloned
    thread, to the jump; then every register holds a word again, and the address
    it jumps to is one. *)
Theorem blobs_well_typed p saved pc a0 a1 w :
  p ∈ blobs -> words saved -> is_word pc -> is_word a0 -> is_word a1 ->
  well_typed (run_blob pool svc p (start pc a0 a1 saved w)).
Proof.
  intros Hp Hs Hpc H0' H1'. pose proof (proj1 (Forall_forall _ _) blobs_data_words p Hp) as Hd.
  destruct (run_code_words (length p) p p false (start pc a0 a1 saved w) Hd) as [E|E]; [by apply set_cpu_regs_words| |exact E].
  exfalso. change (run_code pool svc (length p) p p false) with (run_blob pool svc p) in E.
  revert E. generalize (start pc a0 a1 saved w). intros w' E. clear Hd. unfold blobs in Hp.
  rewrite !elem_of_cons in Hp. destruct_or! Hp; try subst p.
  - destruct (run_sigprocmask pool svc w') as (? & E' & _). congruence.
  - destruct (run_mmap pool svc w') as (? & ? & E' & _). congruence.
  - destruct (run_clone pool svc w') as (? & ? & ? & E' & _). rewrite E' in E. by case_match.
  - destruct (run_munmap pool svc w') as (? & E' & _). congruence.
  - by inversion Hp.
Qed.
End Typing.

Lemma land_word a b n : 0 <= n -> 0 <= a < 2 ^ n -> 0 <= Z.land a b < 2 ^ n.
Proof.
  intros Hn Ha. assert (Hnn : 0 <= Z.land a b) by (apply Z.land_nonneg; lia). split; [done|].
  destruct (decide (Z.land a b = 0)) as [->|]; [by apply Z.pow_pos_nonneg; lia|].
  apply Z.log2_lt_pow2; [lia|]. destruct (decide (a = 0)) as [->|]; [done|].
  assert (Z.log2 (Z.land a b) <= Z.log2 a); [|assert (Z.log2 a < n) by (apply Z.log2_lt_pow2; lia); lia].
  destruct (Z.le_gt_cases (Z.log2 (Z.land a b)) (Z.log2 a)) as [|Hgt]; [done|].
  pose proof (Z.bit_log2 (Z.land a b) ltac:(lia)) as Hb. rewrite Z.land_spec, (Z.bits_above_log2 a) in Hb by lia. done.
Qed.

Ltac cpu_typed := split; [|by repeat constructor|done]; intros r pc a0 a1 Hr Hpc H0 H1;
  repeat (apply set_reg_words; [|first [done | by apply land_word; [|apply Hr]]]); done.

#[export] Instance x86_64_typed : CpuTyped (A := X86_64.reg).
Proof. cpu_typed. Qed.
#[export] Instance arm_typed : CpuTyped (A := Arm.reg).
Proof. cpu_typed. Qed.
#[export] Instance arm64_typed : CpuTyped (A := Arm64.reg).
Proof. cpu_typed. Qed.
#[export] Instance riscv64_typed : CpuTyped (A := Riscv64.reg).
Proof. cpu_typed. Qed.

(** The code is padded to whole words everywhere but in riscv64's clone blob. *)
Lemma x86_64_padded : Forall (fun p => padded (word_size (R := x86_64_registers)) p = true) (blobs (A := X86_64.reg)).
Proof. by repeat constructor. Qed.
Lemma arm_padded : Forall (fun p => padded (word_size (R := arm_registers)) p = true) (blobs (A := Arm.reg)).
Proof. by repeat constructor. Qed.
Lemma arm64_padded : Forall (fun p => padded (word_size (R := arm64_registers)) p = true) (blobs (A := Arm64.reg)).
Proof. by repeat constructor. Qed.

(** The flags in arm's clone blob are written as a number: the right one. *)
Lemma arm_clone_flags : data_at LFlags arm_clone_blob = CLONE_PARASITE.
Proof. reflexivity. Qed.

(** The size of riscv64's clone blob: the load of the flags is two
    instructions.  Without compressed instructions the label of the size is not
    aligned, the size is no whole number of words, and poke() stops in its
    assert. *)
Lemma riscv64_clone_size enc pad :
  (forall i : insn Riscv64.reg, blen (enc i) = match i with Ldr _ _ => 8 | _ => 4 end) ->
  blen (emit enc pad 0 riscv64_clone_blob) = 52
  /\ ~ whole_words (R := riscv64_registers) (blen (emit enc pad 0 riscv64_clone_blob)).
Proof.
  intros He. assert (E : blen (emit enc pad 0 riscv64_clone_blob) = 52).
  { unfold riscv64_clone_blob. cbn [emit item_bytes]. rewrite !blen_app, !He. reflexivity. }
  split; [done|]. rewrite E. by intros [_ ?].
Qed.

(** * A kernel that makes the four calls *)

Definition toy_kernel : kernel_fn (tracee x86_64_registers) := fun nr args w =>
  let a0 := nth 0 args 0 in
  let a1 := nth 1 args 0 in
  if nr =? 14 then (0, Tracee (w_regs w) (store (w_mem w) a1 (w_mask w)) (w_mapped w) (range (w_mem w) a1 8))
  else if nr =? 9 then
    if all_in_range map_at (page_up 4096 a1) (fun x => negb (w_mapped w x))
    then (map_at, Tracee (w_regs w) (w_mem w) (fun x => w_mapped w x || in_rangeb map_at (page_up 4096 a1) x) (w_mask w))
    else (u64 (- ENOMEM), w)
  else if nr =? 56 then (if Z.land a0 0xffffffff =? CLONE_PARASITE then 77 else u64 (- EINVAL), w)
  else if nr =? 11 then
    if (a0 mod 4096 =? 0) && (0 <? a1)
    then (0, Tracee (w_regs w) (w_mem w) (fun x => w_mapped w x && negb (in_rangeb a0 (page_up 4096 a1) x)) (w_mask w))
    else (u64 (- EINVAL), w)
  else (u64 (- ENOSYS), w).

#[export] Instance toy_calls : LinuxCalls toy_kernel (fun m => m) 4096.
Proof.
  split; [done|done|done| | |].
  - intros w n fd rest Hn. unfold toy_kernel. cbn -[all_in_range map_at IS_ERR_VALUE page_up].
    destruct (all_in_range map_at _ _) eqn:E; [|done].
    change (IS_ERR_VALUE map_at) with false. split_and!; [done|done|done| |done].
    intros x Hx. apply (all_in_range_spec _ _ _ x) in E; [|done]. by apply negb_true_iff in E.
  - intros w flags rest Hfl. unfold toy_kernel. cbn -[Z.land Z.eqb]. split_and!; [|done..].
    case_match; [by left|by right].
  - intros w a n rest Ha Hn. unfold toy_kernel. cbn -[page_up Z.modulo]. rewrite Ha, (proj2 (Z.ltb_lt _ _)) by done.
    by split_and!.
Qed.

(** One byte per instruction; the first one tells the blobs apart. *)
Definition toy_enc (i : insn X86_64.reg) : bytes :=
  [match i with Movi _ z => byte.of_Z z | _ => Byte.x00 end].
Definition toy_fetch (mem : Z -> byte) (pc : Z) : option (code X86_64.reg) :=
  match byte.unsigned (mem pc) with
  | 14 => Some sigprocmask_blob
  | 9 => Some mmap_blob
  | 56 => Some clone_blob
  | 11 => Some munmap_blob
  | _ => None
  end.

Lemma range_first f a n b bs : range f a n = b :: bs -> f a = b.
Proof.
  unfold range. destruct (Z.to_nat n) as [|k]; [done|]. cbn. intros E. injection E as <- _. f_equal. lia.
Qed.

Lemma toy_fetches : fetches toy_enc Byte.x00 toy_fetch.
Proof.
  intros p mem pc Hp Hr. unfold toy_fetch. unfold blobs in Hp.
  repeat (apply elem_of_cons in Hp as [->|Hp]; [by rewrite (range_first _ _ _ _ _ Hr)|]). by apply not_elem_of_nil in Hp.
Qed.

Lemma enter_keeps_contract_witness :
  Blobs (R := X86_64.reg -> Z) (exec_code toy_kernel (fun _ => 0) (fun z => z) toy_fetch)
    (emit toy_enc Byte.x00 0 sigprocmask_blob) (emit toy_enc Byte.x00 0 mmap_blob)
    (emit toy_enc Byte.x00 0 clone_blob) (emit toy_enc Byte.x00 0 munmap_blob) (fun m => m) 4096.
Proof.
  apply (enter_keeps_contract (A := X86_64.reg) toy_kernel (fun m => m) 4096 (fun _ => 0) (fun z => z) toy_enc Byte.x00 toy_fetch).
  - apply toy_fetches.
  - eapply Forall_impl; [apply x86_64_padded|]. intros p Hp. left. exact Hp.
Defined.

Lemma clone_starts_parasite_witness :
  (exists r : X86_64.reg -> Z, run_blob (fun z => z) (svc_child (fun _ => 0)) clone_blob (wit_target true)
     = Jumped (cpu_arg0 (w_regs (wit_target true))) (setregs r (wit_target true)))
  /\ exists w' : tracee (X86_64.reg -> Z),
    run_blob (fun z => z) (svc_caller toy_kernel (fun _ => 0)) clone_blob (wit_target true) = Trapped w'
    /\ 0 < get_cpu_syscall_ret (w_regs w').
Proof.
  apply (clone_starts_parasite (A := X86_64.reg) toy_kernel (fun m => m) 4096 (fun _ => 0) (fun z => z) (wit_target true)).
Defined.

Lemma blobs_well_typed_witness :
  well_typed (A := Arm.reg) (run_blob (fun z => ulong (R := Arm.reg -> Z) z) (svc_child (fun _ => 0)) arm_clone_blob
    (start 4096 0x8000 0 (fun _ => 7) (Tracee (fun _ => 7) (fun _ => Byte.x00) (fun _ => true) []))).
Proof.
  apply (blobs_well_typed (A := Arm.reg)).
  - intros z. apply Z.mod_pos_bound. done.
  - intros w Hw a. unfold svc_child, trap_regs. cbn. repeat case_decide; done || apply Hw.
  - by right; right; left.
  - intros a. done.
  - done.
  - done.
  - done.
Defined.
