(* ===== verification/Signals.v ===== *)
(** Signals in memcr's own processes (memcr.c): the handlers, who installs them
    when, and what a delivery does.  A worker starts with the handlers of the
    service that forked it. *)
From stdpp Require Import base list.
From S2P Require Import Prelude.
#[local] Open Scope Z_scope.

Inductive signo := SIGCHLD | SIGPIPE | SIGINT.
#[export] Instance signo_eq_dec : EqDecision signo.
Proof. solve_decision. Defined.

Inductive handler :=
| SIG_DFL
| Sigchld_service            (** sigchld_handler_service *)
| Sigchld_worker             (** sigchld_handler_worker *)
| Sigpipe                    (** sigpipe_handler *)
| Sigint.                    (** sigint_handler *)

Record sigstate := SigState {
  sg_handler : signo -> handler;
  sg_interrupted : bool;     (** interrupted *)
}.

Definition set_handler (n : signo) (h : handler) (s : sigstate) : sigstate :=
  SigState (fun m => if decide (m = n) then h else sg_handler s m) (sg_interrupted s).

Definition register_signal_handlers (s : sigstate) : sigstate :=
  set_handler SIGINT Sigint (set_handler SIGPIPE Sigpipe (set_handler SIGCHLD Sigchld_service s)).

(** What a delivery does to the process: it goes on, having reaped these
    children and cleared their entries, or it ends. *)
Inductive delivered :=
| GoesOn (reaped : list Z) (s : sigstate)
| Exits (status : Z)
| Killed.

(** waitpid(-1, &status, WNOHANG) until it returns 0 or -1: the children that
    have ended. *)
Fixpoint reap (waits : list Z) : list Z :=
  match waits with
  | [] => []
  | pid :: waits => if 0 <? pid then pid :: reap waits else []
  end.

(** [waits]: what waitpid() returns. *)
Definition deliver (n : signo) (waits : list Z) (s : sigstate) : delivered :=
  match sg_handler s n with
  | Sigchld_service => GoesOn (reap waits) s
  | Sigchld_worker => Exits 0
  | Sigpipe => GoesOn [] s
  | Sigint => GoesOn [] (SigState (sg_handler s) true)
  | SIG_DFL => match n with SIGCHLD => GoesOn [] s | SIGPIPE | SIGINT => Killed end
  end.

(** The two calls of signal() in the worker: after the checkpoint, and when the
    restore command has come. *)
Definition worker_watches (s : sigstate) : sigstate := set_handler SIGCHLD Sigchld_worker s.
Definition worker_unwatches (s : sigstate) : sigstate := set_handler SIGCHLD SIG_DFL s.

(** The states of the processes of memcr once main() has installed its
    handlers. *)
Inductive sig_reachable : sigstate -> Prop :=
| sig_init s : sig_reachable (register_signal_handlers s)
| sig_watch s : sig_reachable s -> sig_reachable (worker_watches s)
| sig_unwatch s : sig_reachable s -> sig_reachable (worker_unwatches s)
| sig_deliver n waits s reaped s' : sig_reachable s -> deliver n waits s = GoesOn reaped s' -> sig_reachable s'.

(** No process of memcr is killed by a write to a closed socket or by SIGINT:
    the write returns an error, and SIGINT only sets the flag. *)
Lemma pipe_and_int_survived s waits :
  sig_reachable s ->
  deliver SIGPIPE waits s = GoesOn [] s /\ deliver SIGINT waits s = GoesOn [] (SigState (sg_handler s) true).
Proof.
  intros Hs. assert (Hh : sg_handler s SIGPIPE = Sigpipe /\ sg_handler s SIGINT = Sigint).
  { induction Hs as [s|s Hs IH|s Hs IH|n waits' s reaped s' Hs IH E]; [done|done|done|].
    unfold deliver in E. repeat case_match; by simplify_eq/=. }
  unfold deliver. by destruct Hh as [-> ->].
Qed.

(** SIGCHLD ends a process exactly while a worker watches its target, and then
    with status 0. *)
Lemma sigchld_ends s waits :
  sig_reachable s ->
  deliver SIGCHLD waits s <> Killed /\ (deliver SIGCHLD waits s = Exits 0 <-> sg_handler s SIGCHLD = Sigchld_worker).
Proof.
  intros Hs. assert (Hh : sg_handler s SIGCHLD <> Sigpipe /\ sg_handler s SIGCHLD <> Sigint).
  { induction Hs as [s|s Hs IH|s Hs IH|n waits' s reaped s' Hs IH E]; [done|done|done|].
    unfold deliver in E. repeat case_match; by simplify_eq/=. }
  unfold deliver. destruct (sg_handler s SIGCHLD); by destruct Hh.
Qed.
