(* ===== verification/Worker.v ===== *)
(** The process around a checkpoint (memcr.c): the worker that the service
    forks ([application_worker], [checkpoint_worker], [restore_worker]) and the
    run from the command line ([user_interactive_mode]).

    The functions they call are those of the other files ([seize_target],
    [execute_parasite_checkpoint], [execute_parasite_restore],
    [unseize_target]), here operations on a state; what goes to the service, to
    the kernel's process table and to the file system is a list of events. *)
From stdpp Require Import base list.
From S2P Require Import Prelude Io Proto.
#[local] Open Scope Z_scope.
#[local] Set Warnings "-clear-no-such-hyp".

Inductive wevent :=
| Kill (pid : Z)                     (** kill(pid, SIGKILL) *)
| Cleanup (pid : Z)                  (** cleanup_pid() *)
| Watch                              (** SIGCHLD ends the worker from here on *)
| Unwatch
| Unseize                            (** unseize_target() *)
| Reply (code : Z)                   (** send_response_to_service() wrote this *)
| RemoveSocket (pid : Z)             (** remove_restore_socket_worker() *)
| TargetDied                         (** sigchld_handler_worker() ran *)
| WaitKey.                           (** fgetc(stdin) *)

#[export] Instance wevent_eq_dec : EqDecision wevent.
Proof. solve_decision. Defined.

(** State and events so far. *)
Record wstate (S : Type) := WState { ws_state : S; ws_events : list wevent }.
Arguments WState {S} _ _.
Arguments ws_state {S} _.
Arguments ws_events {S} _.

(** How long user_interactive_mode() slept, in milliseconds: from [ts] to [tsn],
    each a number of seconds and of nanoseconds; and what it prints of it. *)
Definition diff_ms (ts tsn : Z * Z) : Z :=
  (tsn.1 * 1000 + Z.quot tsn.2 1000000) - (ts.1 * 1000 + Z.quot ts.2 1000000).

Definition slept (dms : Z) : Z * Z * Z * Z :=
  (Z.quot (Z.quot (Z.quot dms 1000) 60) 60, Z.rem (Z.quot (Z.quot dms 1000) 60) 60, Z.rem (Z.quot dms 1000) 60, Z.rem dms 1000).

(** The hours, minutes, seconds and milliseconds add up. *)
Lemma slept_exact ts tsn :
  0 <= diff_ms ts tsn ->
  let '(h, m, s, ms) := slept (diff_ms ts tsn) in
  ((h * 60 + m) * 60 + s) * 1000 + ms = diff_ms ts tsn /\ 0 <= h /\ 0 <= m < 60 /\ 0 <= s < 60 /\ 0 <= ms < 1000.
Proof.
  generalize (diff_ms ts tsn). intros d Hd. unfold slept.
  Z.to_euclidean_division_equations. lia.
Qed.

Section Worker.
Context {S : Type}.
Context (seize_target execute_parasite_checkpoint execute_parasite_restore : Z -> S -> run (Z * S)).
Context (unseize_target : S -> S).

Definition emit (es : list wevent) (s : wstate S) : wstate S := WState (ws_state s) (ws_events s ++ es).
Definition lift (f : S -> run (Z * S)) (s : wstate S) : run (Z * wstate S) :=
  let! (ret, st) := f (ws_state s) in Ret (ret, WState st (ws_events s)).

Definition checkpoint_worker (pid : Z) (s : wstate S) : run (Z * wstate S) :=
  let! (ret, s) := lift (seize_target pid) s in
  let! (ret, s) := if negb (ret =? 0) then Ret (ret, s) else lift (execute_parasite_checkpoint pid) s in
  if negb (ret =? 0) then Ret (ret, emit [Kill pid; Cleanup pid] s) else Ret (0, emit [Watch] s).

(** ** SIGCHLD

    From the successful end of [checkpoint_worker] to the restore command the
    death of the target, a tracee, ends the worker in [sigchld_handler_worker].
    After a command that is no restore command the handler stays to the end.
    A point names the next thing the worker does for others to see. *)
Inductive point :=
| AtResponse                         (** send_response_to_service() for the checkpoint *)
| AtAccept
| AtCommand                          (** read_command() *)
| AtKill
| AtUnseize
| AtCleanup
| AtResponse2                        (** send_response_to_service() for the restore *)
| AtRemove                           (** remove_restore_socket_worker() *)
| AtExit.

#[export] Instance point_eq_dec : EqDecision point.
Proof. solve_decision. Defined.

(** What the sockets answer: setup_restore_socket_worker(), the two responses,
    accept() and read_command() (its return value and the command); and when the
    target dies by itself, if it does. *)
Record worker_env := WorkerEnv {
  we_rsd : Z;
  we_sent1 : bool;
  we_accept : Z;
  we_read : Z * service_command_t;
  we_sent2 : bool;
  we_died : option point;
}.

(** A function returned, with SIGCHLD still handled or not, or exit(0) was called
    in the handler. *)
Inductive wresult :=
| Returned (watching : bool) (ret : Z) (s : wstate S)
| Exited (s : wstate S).

Definition sigchld_handler_worker (s : wstate S) : run wresult := Ret (Exited (emit [TargetDied] s)).

(** The next step [k], unless the signal comes before it. *)
Definition sigchld (watching : bool) (p : point) (env : worker_env) (s : wstate S) (k : run wresult) : run wresult :=
  if watching && bool_decide (we_died env = Some p) then sigchld_handler_worker s else k.

Definition restore_worker (env : worker_env) (s : wstate S) : run wresult :=
  sigchld true AtCommand env s (
  let '(ret, cmd) := we_read env in
  let! (watching, ret, s) :=
    if (ret <? 0) || negb (sc_cmd cmd =? MEMCR_RESTORE) then Ret (true, ret, s)
    else let! (ret, s) := lift (execute_parasite_restore (sc_pid cmd)) (emit [Unwatch] s) in Ret (false, ret, s) in
  sigchld watching AtKill env s (
  let s := if negb (ret =? 0) then emit [Kill (sc_pid cmd)] s else s in
  sigchld watching AtUnseize env s (
  let s := WState (unseize_target (ws_state s)) (ws_events s ++ [Unseize]) in
  sigchld watching AtCleanup env s (
  Ret (Returned watching ret (emit [Cleanup (sc_pid cmd)] s)))))).

(** send_response_to_service(): [sent] is whether the write went through. *)
Definition reply (status : Z) (sent : bool) (s : wstate S) : Z * wstate S :=
  if sent then (0, emit [Reply (if negb (status =? 0) then MEMCR_ERROR_GENERAL else MEMCR_OK)] s) else (-1, s).

(** [application_worker] from the response to the service on; a
    [checkpoint_worker] that returned 0 has installed the handler. *)
Definition worker_rest (pid : Z) (env : worker_env) (ret : Z) (s : wstate S) : run wresult :=
  let watching := ret =? 0 in
  sigchld watching AtResponse env s (
  let '(r, s) := reply ret (we_sent1 env) s in
  let ret := Z.lor ret r in
  if negb (ret =? 0) then sigchld watching AtExit env s (Ret (Returned watching ret s))
  else
    sigchld watching AtAccept env s (
    let rd := we_accept env in
    if rd <? 0 then sigchld watching AtExit env s (Ret (Returned watching rd s))
    else
      let! r := restore_worker env s in
      match r with
      | Exited s => Ret (Exited s)
      | Returned watching ret s =>
          sigchld watching AtResponse2 env s (
          let '(r, s) := reply ret (we_sent2 env) s in
          let ret := Z.lor ret r in
          sigchld watching AtRemove env s (
          let s := emit [RemoveSocket pid] s in
          sigchld watching AtExit env s (Ret (Returned watching ret s))))
      end)).

(** The exit status of the worker's process. *)
Definition exit_status (r : wresult) : run (Z * wstate S) :=
  match r with Returned _ ret s => Ret (ret, s) | Exited s => Ret (0, s) end.

Definition application_worker (pid : Z) (env : worker_env) (s : wstate S) : run (Z * wstate S) :=
  let rsd := we_rsd env in
  let ret := if rsd <? 0 then Z.lor 0 rsd else 0 in
  let! (ret, s) :=
    if ret =? 0 then (let! (r, s) := checkpoint_worker pid s in Ret (Z.lor ret r, s)) else Ret (ret, s) in
  let! r := worker_rest pid env ret s in exit_status r.

(** [no_wait] and [interrupted]: the option -n, and SIGINT so far. *)
Definition user_interactive_mode (no_wait interrupted : bool) (pid : Z) (s : wstate S) : run (Z * wstate S) :=
  let! (ret, s) := lift (seize_target pid) s in
  if negb (ret =? 0) then Ret (ret, s)
  else
    let! (ret, s) := lift (execute_parasite_checkpoint pid) s in
    let! (ret, s) :=
      if negb (ret =? 0) then Ret (ret, s)
      else
        let s := if negb no_wait && negb interrupted then emit [WaitKey] s else s in
        lift (execute_parasite_restore pid) s in
    let s := if negb (ret =? 0) then emit [Kill pid] s else s in
    let s := WState (unseize_target (ws_state s)) (ws_events s ++ [Unseize]) in
    Ret (ret, emit [Cleanup pid] s).

(** * Lemmas *)

Lemma lift_ret f (s s' : wstate S) r : lift f s = Ret (r, s') ->
  f (ws_state s) = Ret (r, ws_state s') /\ ws_events s' = ws_events s.
Proof. unfold lift. intros E. apply rbind_ret in E as ([r1 st] & E1 & E). by simplify_eq/=. Qed.

(** The checkpoint went through, up to the given state. *)
Definition checkpoint_done (pid : Z) (s s' : S) : Prop :=
  exists s1, seize_target pid s = Ret (0, s1) /\ execute_parasite_checkpoint pid s1 = Ret (0, s').

Lemma checkpoint_worker_ret pid s r s' :
  checkpoint_worker pid s = Ret (r, s') ->
  r = 0 /\ checkpoint_done pid (ws_state s) (ws_state s') /\ ws_events s' = ws_events s ++ [Watch]
  \/ r <> 0 /\ ws_events s' = ws_events s ++ [Kill pid; Cleanup pid].
Proof.
  unfold checkpoint_worker. intros E. apply rbind_ret in E as ([r1 s1] & E1 & E). apply lift_ret in E1 as [E1 Ev1].
  apply rbind_ret in E as ([r2 s2] & E2 & E). destruct (negb (r1 =? 0)) eqn:H1; tests.
  - injection E2 as <- <-. rewrite (proj2 (Z.eqb_neq _ _)) in E by done. cbn in E. simplify_eq/=. right.
    by rewrite Ev1.
  - subst r1. apply lift_ret in E2 as [E2 Ev2]. destruct (negb (r2 =? 0)) eqn:H2; tests; simplify_eq/=.
    + right. by rewrite Ev2, Ev1.
    + left. rewrite Ev2, Ev1. unfold checkpoint_done. eauto.
Qed.

Lemma lor_0 a b : Z.lor a b = 0 <-> a = 0 /\ b = 0.
Proof. apply Z.lor_eq_0_iff. Qed.

Lemma reply_0 status sent (s : wstate S) r s' :
  reply status sent s = (r, s') -> r = 0 ->
  sent = true /\ s' = emit [Reply (if negb (status =? 0) then MEMCR_ERROR_GENERAL else MEMCR_OK)] s.
Proof. unfold reply. destruct sent; intros [= <- <-] Hr; [done|lia]. Qed.

(** * Theorems *)

(** The restore went through as well, up to the worker's end. *)
Definition restore_done (pid : Z) (cmd : service_command_t) (st1 : S) (s' : wstate S) : Prop :=
  sc_cmd cmd = MEMCR_RESTORE /\ exists st2, execute_parasite_restore (sc_pid cmd) st1 = Ret (0, st2)
  /\ s' = WState (unseize_target st2)
            [Watch; Reply MEMCR_OK; Unwatch; Unseize; Cleanup (sc_pid cmd); Reply MEMCR_OK; RemoveSocket pid].

(** A message that is no restore command. *)
Definition unusable (read : Z * service_command_t) : bool :=
  (read.1 <? 0) || negb (sc_cmd read.2 =? MEMCR_RESTORE).

(** The points a worker with a target checkpointed up to [st1] passes while it
    handles SIGCHLD, if the target lives, and what it has done by then. *)
Definition watched_points (pid : Z) (env : worker_env) (st1 : S) : list (point * wstate S) :=
  let p := sc_pid (we_read env).2 in
  let told := [Watch; Reply MEMCR_OK; Kill p; Unseize; Cleanup p] ++ (if we_sent2 env then [Reply MEMCR_ERROR_GENERAL] else []) in
  (AtResponse, WState st1 [Watch]) ::
  (if negb (we_sent1 env) then [(AtExit, WState st1 [Watch])]
   else (AtAccept, WState st1 [Watch; Reply MEMCR_OK]) ::
     (if we_accept env <? 0 then [(AtExit, WState st1 [Watch; Reply MEMCR_OK])]
      else (AtCommand, WState st1 [Watch; Reply MEMCR_OK]) ::
        (if negb (unusable (we_read env)) then []
         else [ (AtKill, WState st1 [Watch; Reply MEMCR_OK]);
                (AtUnseize, WState st1 [Watch; Reply MEMCR_OK; Kill p]);
                (AtCleanup, WState (unseize_target st1) [Watch; Reply MEMCR_OK; Kill p; Unseize]);
                (AtResponse2, WState (unseize_target st1) [Watch; Reply MEMCR_OK; Kill p; Unseize; Cleanup p]);
                (AtRemove, WState (unseize_target st1) told);
                (AtExit, WState (unseize_target st1) (told ++ [RemoveSocket pid])) ]))).

Fixpoint watched_at (p : point) (l : list (point * wstate S)) : option (wstate S) :=
  match l with
  | [] => None
  | (q, s) :: l => if bool_decide (p = q) then Some s else watched_at p l
  end.

(** The target died while the worker handled SIGCHLD, and [s'] is what the worker
    left. *)
Definition target_died (pid : Z) (env : worker_env) (st1 : S) (s' : wstate S) : Prop :=
  match we_died env with
  | Some p => emit [TargetDied] <$> watched_at p (watched_points pid env st1) = Some s'
  | None => False
  end.

(** It did not die before the restore command was there. *)
Definition survives (env : worker_env) : Prop :=
  we_died env <> Some AtResponse /\ we_died env <> Some AtAccept /\ we_died env <> Some AtCommand.

(** Whatever becomes of the checkpoint, the rest of the worker follows; one that
    failed makes the worker fail. *)
Lemma worker_rest_failed pid env ret s : ret <> 0 -> exists r s', worker_rest pid env ret s = Ret (Returned false r s') /\ r <> 0.
Proof.
  intros Hr. unfold worker_rest, sigchld. rewrite (proj2 (Z.eqb_neq ret 0)) by done. cbn [andb].
  destruct (reply ret (we_sent1 env) s) as [r s1]. cbn.
  rewrite (proj2 (Z.eqb_neq (Z.lor ret r) 0)) by (intros [? _]%lor_0; done). cbn [negb].
  eexists _, _. split; [done|]. by intros [? _]%lor_0.
Qed.

Lemma application_worker_0 pid env st s' :
  application_worker pid env (WState st []) = Ret (0, s') <->
  0 <= we_rsd env /\ exists st1, checkpoint_done pid st st1
    /\ (let! r := worker_rest pid env 0 (WState st1 [Watch]) in exit_status r) = Ret (0, s').
Proof.
  unfold application_worker. split.
  - intros E. destruct (we_rsd env <? 0) eqn:Hrsd; tests.
    { rewrite Z.lor_0_l, (proj2 (Z.eqb_neq _ _)) in E by lia. cbn [rbind] in E.
      destruct (worker_rest_failed pid env (we_rsd env) (WState st [])) as (r & s1 & E1 & Hr); [lia|].
      rewrite E1 in E. cbn in E. congruence. }
    split; [lia|]. cbn [Z.eqb] in E. apply rbind_ret in E as ([r s1] & E1 & E). apply rbind_ret in E1 as ([r1 s1'] & E1 & [= <- <-]).
    rewrite Z.lor_0_l in E. apply checkpoint_worker_ret in E1 as [(-> & Hd & Hev)|[Hn _]].
    + cbn in Hd, Hev. exists (ws_state s1'). destruct s1' as [st1 ev]. cbn in *. by subst.
    + destruct (worker_rest_failed pid env r1 s1' Hn) as (r & s2 & E2 & Hr). rewrite E2 in E. cbn in E. congruence.
  - intros (Hrsd & st1 & (st0 & D1 & D2) & E). rewrite (proj2 (Z.ltb_ge _ _)) by done. cbn [Z.eqb].
    unfold checkpoint_worker, lift. cbn. rewrite D1. cbn. rewrite D2. cbn. exact E.
Qed.

Lemma restore_usable env s :
  unusable (we_read env) = false -> we_died env <> Some AtCommand ->
  restore_worker env s =
    let! (ret, st) := execute_parasite_restore (sc_pid (we_read env).2) (ws_state s) in
    Ret (Returned false ret (WState (unseize_target st) (ws_events s ++ [Unwatch] ++ (if ret =? 0 then [] else [Kill (sc_pid (we_read env).2)])
      ++ [Unseize; Cleanup (sc_pid (we_read env).2)]))).
Proof.
  intros Hu Hd. unfold restore_worker, sigchld. rewrite bool_decide_false by done. cbn [andb].
  unfold unusable in Hu. destruct (we_read env) as [ret cmd]. cbn [fst snd] in *. rewrite Hu. unfold lift, emit. cbn.
  destruct (execute_parasite_restore _ _) as [[r st]| |]; try done. cbn. destruct (r =? 0); cbn; by rewrite <- ?app_assoc.
Qed.
(** Compares the points of a case. *)
Ltac points :=
  repeat match goal with |- context [bool_decide (?a = ?b)] =>
    let v := eval vm_compute in (bool_decide (a = b)) in change (bool_decide (a = b)) with v end.

(** A usable command comes while the target lives. *)
Lemma worker_rest_usable pid env st1 :
  unusable (we_read env) = false -> we_sent1 env = true -> 0 <= we_accept env -> survives env ->
  worker_rest pid env 0 (WState st1 [Watch]) =
    let p := sc_pid (we_read env).2 in
    let! (ret, st) := execute_parasite_restore p st1 in
    Ret (Returned false (Z.lor ret (if we_sent2 env then 0 else -1)) (WState (unseize_target st)
      ([Watch; Reply MEMCR_OK; Unwatch] ++ (if ret =? 0 then [] else [Kill p]) ++ [Unseize; Cleanup p]
       ++ (if we_sent2 env then [Reply (if ret =? 0 then MEMCR_OK else MEMCR_ERROR_GENERAL)] else []) ++ [RemoveSocket pid]))).
Proof.
  intros Hu Hs1 Ha (S1 & S2 & S3). unfold worker_rest, sigchld, reply. rewrite Hs1. cbn -[restore_worker].
  rewrite (bool_decide_false _ S1), (bool_decide_false _ S2), (proj2 (Z.ltb_ge _ _)), restore_usable by done. cbn.
  destruct (execute_parasite_restore _ _) as [[r st]| |]; try done. cbn.
  destruct (we_sent2 env), (r =? 0); cbn; by rewrite <- ?app_assoc.
Qed.

Lemma worker_rest_0 pid env st1 s' :
  (we_read env).1 <> 0 ->
  (let! r := worker_rest pid env 0 (WState st1 [Watch]) in exit_status r) = Ret (0, s') <->
  target_died pid env st1 s'
  \/ survives env /\ we_sent1 env = true /\ 0 <= we_accept env /\ unusable (we_read env) = false /\ we_sent2 env = true
     /\ restore_done pid (we_read env).2 st1 s'.
Proof.
  intros Hret. destruct (decide (survives env /\ we_sent1 env = true /\ 0 <= we_accept env /\ unusable (we_read env) = false))
    as [(Hs & Hs1 & Ha & Hu)|Hno].
  - rewrite worker_rest_usable by done. cbn zeta. unfold target_died, restore_done.
    assert (Hnd : forall p, we_died env = Some p -> watched_at p (watched_points pid env st1) = None).
    { intros p Hp. destruct Hs as (S1 & S2 & S3). unfold watched_points. rewrite Hs1, Hu, (proj2 (Z.ltb_ge _ _)) by done.
      cbn. rewrite !bool_decide_false; [done|intros ->; done..]. }
    assert (Hrs : sc_cmd (we_read env).2 = MEMCR_RESTORE) by (unfold unusable in Hu; by tests).
    destruct (execute_parasite_restore _ st1) as [[r st2]| |] eqn:Er; cbn [rbind exit_status].
    2-3: destruct (we_died env) as [p|]; [rewrite (Hnd p eq_refl)|]; cbn; naive_solver.
    assert (Hl : Z.lor r (if we_sent2 env then 0 else -1) = 0 <-> r = 0 /\ we_sent2 env = true).
    { rewrite lor_0. destruct (we_sent2 env); naive_solver. }
    transitivity (r = 0 /\ we_sent2 env = true /\ s' = WState (unseize_target st2)
      [Watch; Reply MEMCR_OK; Unwatch; Unseize; Cleanup (sc_pid (we_read env).2); Reply MEMCR_OK; RemoveSocket pid]).
    + split.
      * intros [= E1 <-]. apply Hl in E1 as [-> ->]. done.
      * intros (-> & -> & ->). done.
    + destruct (we_died env) as [p|]; [rewrite (Hnd p eq_refl)|]; cbn; naive_solver.
  - destruct env as [rsd sent1 acc [ret cmd] sent2 died].
    unfold target_died, watched_points, survives, worker_rest, sigchld, reply, restore_worker, sigchld in *.
    cbn [we_sent1 we_accept we_read we_sent2 we_died fst snd] in *.
    destruct sent1; [|destruct died as [[]|]; cbn; points; cbn; naive_solver].
    destruct (acc <? 0) eqn:Ha.
    { tests. destruct died as [[]|]; cbn; points; cbn; rewrite ?(proj2 (Z.ltb_lt _ _)) by done; cbn; naive_solver lia. }
    destruct (unusable (ret, cmd)) eqn:Hu; unfold unusable in Hu; cbn [fst snd] in Hu.
    + assert (Hf : (ret =? 0) = false) by (by apply Z.eqb_neq).
      assert (Hl : forall r, Z.lor ret r <> 0) by (by intros r [? _]%lor_0).
      destruct sent2, died as [[]|]; cbn; points; rewrite ?Ha, ?Hu; cbn; points; cbn; rewrite ?Hf; cbn; points; cbn;
        naive_solver.
    + tests. destruct died as [[]|]; try (destruct Hno; naive_solver lia); cbn; points; cbn; rewrite ?(proj2 (Z.ltb_ge _ _)) by done;
        cbn; points; cbn; naive_solver.
Qed.

(** Everything goes well. *)
Lemma worker_done pid env st st1 s' :
  0 <= we_rsd env -> checkpoint_done pid st st1 -> survives env -> we_sent1 env = true -> 0 <= we_accept env ->
  0 < (we_read env).1 -> we_sent2 env = true -> restore_done pid (we_read env).2 st1 s' ->
  application_worker pid env (WState st []) = Ret (0, s').
Proof.
  intros Hrsd Hd Hs Hs1 Ha Hr Hs2 Hrest. apply application_worker_0. split; [done|]. exists st1. split; [done|].
  apply worker_rest_0; [lia|]. right. split_and!; try done. unfold unusable.
  by rewrite (proj1 Hrest), (proj2 (Z.ltb_ge _ _)) by lia.
Qed.

(** C23: the worker exits with 0 exactly in two cases.  Either everything it is
    for has been done: the restore socket set up, the target seized and
    checkpointed, both responses delivered, a whole restore command received
    while the target lived, and carried out; then the target has been released and
    cleaned up after, and the service was told so with two OK responses; the
    target is killed on no such run.  Or the target died by itself after a
    successful checkpoint, while the worker handled SIGCHLD: before the response
    about the checkpoint (which then is never sent), after it until the restore
    command was read, or, after a message that was no restore command, at any
    point of the worker's end, which the worker's own kill() may bring about; then
    the worker stops on the spot with 0, and what it had not done by then
    ([watched_points]) is never done: up to the command nothing is cleaned up, the
    dump and the sockets stay behind.  (read_command() returns the size of a
    command or -1.) *)
Theorem worker_exits_ok pid env st s' :
  (we_read env).1 = sizeof_service_command \/ (we_read env).1 = -1 ->
  application_worker pid env (WState st []) = Ret (0, s') <->
  0 <= we_rsd env /\ exists st1, checkpoint_done pid st st1
    /\ (target_died pid env st1 s'
        \/ survives env /\ we_sent1 env = true /\ 0 <= we_accept env /\ (we_read env).1 = sizeof_service_command
           /\ we_sent2 env = true /\ restore_done pid (we_read env).2 st1 s').
Proof.
  intros Hread. rewrite application_worker_0.
  assert (Hne : (we_read env).1 <> 0) by (destruct Hread as [-> | ->]; done).
  assert (Hu : forall st1 s', restore_done pid (we_read env).2 st1 s' ->
    unusable (we_read env) = false <-> (we_read env).1 = sizeof_service_command).
  { intros st1 s1 [Hc _]. unfold unusable. rewrite Hc. cbn [Z.eqb Pos.eqb negb]. rewrite orb_false_r.
    destruct Hread as [-> | ->]; done. }
  setoid_rewrite (worker_rest_0 pid env _ s' Hne). naive_solver.
Qed.

(** C35: a worker that cannot deliver its response after a successful
    checkpoint, or whose accept() fails, exits and leaves the target behind with
    its memory dropped: it is neither restored nor killed nor released in order.
    The worker's exit status tells of the failure, unless the target died by
    itself meanwhile. *)
Theorem worker_abandons_target pid env st st1 :
  0 <= we_rsd env -> checkpoint_done pid st st1 -> we_sent1 env = false \/ we_accept env < 0 ->
  exists r s', application_worker pid env (WState st []) = Ret (r, s') /\ (we_died env = None -> r <> 0) /\ ws_state s' = st1
    /\ (Kill pid ∉ ws_events s') /\ (Unseize ∉ ws_events s').
Proof.
  intros Hrsd (st0 & D1 & D2) Hbad. unfold application_worker.
  rewrite (proj2 (Z.ltb_ge (we_rsd env) 0)) by done. cbn [Z.eqb]. unfold checkpoint_worker, lift. cbn [ws_state].
  rewrite D1. cbn -[worker_rest]. rewrite D2. cbn -[worker_rest]. unfold worker_rest, sigchld, reply, sigchld_handler_worker. cbn [Z.eqb andb].
  assert (Hacc : we_sent1 env = true -> we_accept env < 0) by (intros E; rewrite E in Hbad; by destruct Hbad).
  destruct (decide (we_died env = Some AtResponse)) as [E1|E1]; [rewrite bool_decide_true by done|rewrite bool_decide_false by done].
  2: destruct (we_sent1 env); cbn; [specialize (Hacc eq_refl); rewrite (proj2 (Z.ltb_lt _ _)) by done|]; repeat case_bool_decide.
  all: cbn; eexists _, _; split; [done|]; split; [intros ?; first [congruence | done | lia]|];
    split; [done|]; cbn; rewrite !not_elem_of_cons; split_and!; try done; apply not_elem_of_nil.
Qed.

(** A run from the command line releases and cleans up after every target it
    seized, and kills it exactly when it returns an error; it waits for a key
    between a checkpoint that succeeded and the restore, unless told not to. *)
Lemma interactive_mode_ends no_wait interrupted pid st st0 r s' :
  seize_target pid st = Ret (0, st0) ->
  user_interactive_mode no_wait interrupted pid (WState st []) = Ret (r, s') ->
  exists waited, ws_events s' = (if waited : bool then [WaitKey] else []) ++ (if r =? 0 then [] else [Kill pid]) ++ [Unseize; Cleanup pid]
    /\ (waited = true <-> no_wait = false /\ interrupted = false /\ exists st1, execute_parasite_checkpoint pid st0 = Ret (0, st1)).
Proof.
  intros Hs E. unfold user_interactive_mode, lift in E. cbn in E. rewrite Hs in E. cbn in E.
  apply rbind_ret in E as ([r1 s1] & E1 & E). apply rbind_ret in E1 as ([r1' st1] & E1 & [= <- <-]).
  apply rbind_ret in E as ([r2 s2] & E2 & E). injection E as <- <-.
  destruct (negb (r1' =? 0)) eqn:Hr; tests.
  - exists false. simplify_eq. cbn. rewrite (proj2 (Z.eqb_neq _ _)) by done. split; [done|]. split; [done|].
    intros (_ & _ & st2 & E2). congruence.
  - subst r1'. exists (negb no_wait && negb interrupted). apply lift_ret in E2 as [_ Hev]. split.
    + destruct (negb no_wait && negb interrupted), (r2 =? 0); cbn in *; by rewrite Hev.
    + rewrite andb_true_iff, !negb_true_iff. split; [intros [-> ->]; eauto|by intros (-> & -> & _)].
Qed.
End Worker.

Arguments Returned {S} _ _ _.
Arguments Exited {S} _.

(** ** Witnesses: the state counts what was done *)

Definition ok_call (pid : Z) (n : nat) : run (Z * nat) := Ret (0, Datatypes.S n).

(** The target dies right before the response about the checkpoint. *)
Lemma worker_exits_ok_witness :
  let cmd := SvcCmd MEMCR_RESTORE 7 in
  let env := WorkerEnv 3 true 5 (8, cmd) true (Some AtResponse) in
  let s' := WState 2%nat [Watch; TargetDied] in
  application_worker ok_call ok_call ok_call (Nat.add 10) 7 env (WState 0%nat []) = Ret (0, s') <->
  0 <= 3 /\ exists st1, checkpoint_done ok_call ok_call 7 0%nat st1
    /\ (target_died (Nat.add 10) 7 env st1 s'
        \/ survives env /\ true = true /\ 0 <= 5 /\ 8 = sizeof_service_command
           /\ true = true /\ restore_done ok_call (Nat.add 10) 7 cmd st1 s').
Proof.
  intros cmd env s'. apply (worker_exits_ok ok_call ok_call ok_call (Nat.add 10) 7 env 0%nat s'). by left.
Defined.

Lemma worker_abandons_target_witness :
  exists r s', application_worker ok_call ok_call ok_call (Nat.add 10) 7
      (WorkerEnv 3 false 5 (8, SvcCmd MEMCR_RESTORE 7) true None) (WState 0%nat []) = Ret (r, s')
    /\ (@None point = None -> r <> 0) /\ ws_state s' = 2%nat /\ (Kill 7 ∉ ws_events s') /\ (Unseize ∉ ws_events s').
Proof.
  apply (worker_abandons_target ok_call ok_call ok_call (Nat.add 10) 7 (WorkerEnv 3 false 5 (8, SvcCmd MEMCR_RESTORE 7) true None)
    0%nat 2%nat); [done|by exists 1%nat|by left].
Defined.
