(* ===== verification/Queue.v ===== *)
(** The queue of client commands of memcr.c ([service_cmds_ctx]): a ring buffer
    that the accepting thread fills and the command thread empties.  It
    implements a bounded first-in first-out queue. *)
From stdpp Require Import base list.
From S2P Require Import Prelude.
#[local] Set Warnings "-clear-no-such-hyp".

Definition MAX_CLIENT_CONNECTIONS : nat := 8.

Section Queue.
Context {A : Type}.

(** The ring; an entry never written to holds what the program started with. *)
Record queue := Queue {
  svc_ctxs : list A;
  front_idx : nat;
  back_idx : nat;
  q_size : nat;
  q_interrupt : bool;
}.

Definition service_cmds_push_back (ctx : A) (q : queue) : Z * queue :=
  if bool_decide (MAX_CLIENT_CONNECTIONS <= q_size q)%nat then (1, q)
  else
    let ctxs := <[back_idx q := ctx]> (svc_ctxs q) in
    let back := S (back_idx q) in
    let back := if bool_decide (MAX_CLIENT_CONNECTIONS <= back)%nat then 0%nat else back in
    (0, Queue ctxs (front_idx q) back (S (q_size q)) (q_interrupt q)).

(** The body of [service_cmds_wait_and_pop_front] with the lock held, after
    pthread_cond_wait() returned [ret] (0 before the first wait).  [None]: the
    thread waits.  The result is the return value and, when a command was
    taken, the command. *)
Definition service_cmds_pop_front (ret : Z) (q : queue) : option (Z * option A * queue) :=
  if bool_decide (q_size q = 0%nat) && negb (q_interrupt q) && (ret =? 0) then None
  else if (ret =? 0) && negb (bool_decide (q_size q = 0%nat)) && negb (q_interrupt q) then
    let front := S (front_idx q) in
    let front := if bool_decide (MAX_CLIENT_CONNECTIONS <= front)%nat then 0%nat else front in
    Some (ret, svc_ctxs q !! front_idx q,
          Queue (svc_ctxs q) front (back_idx q) (pred (q_size q)) (q_interrupt q))
  else if q_interrupt q then Some (1, None, q)
  else Some (ret, None, q).

Definition service_cmds_interrupt (q : queue) : queue :=
  Queue (svc_ctxs q) (front_idx q) (back_idx q) (q_size q) true.

(** The queue the program starts with; [zero] is the zeroed context. *)
Definition queue_init (zero : A) : queue :=
  Queue (replicate MAX_CLIENT_CONNECTIONS zero) 0 0 0 false.

(** * Specification: a bounded queue *)

Record fifo := Fifo { f_items : list A; f_interrupt : bool }.

Definition fifo_push (x : A) (f : fifo) : Z * fifo :=
  if bool_decide (length (f_items f) < MAX_CLIENT_CONNECTIONS)%nat
  then (0, Fifo (f_items f ++ [x]) (f_interrupt f)) else (1, f).

Definition fifo_pop (ret : Z) (f : fifo) : option (Z * option A * fifo) :=
  if f_interrupt f then Some (1, None, f)
  else if negb (ret =? 0) then Some (ret, None, f)
  else match f_items f with
       | [] => None
       | x :: xs => Some (0, Some x, Fifo xs false)
       end.

(** * Refinement *)

(** Slot of the [i]-th oldest command. *)
Definition slot (q : queue) (i : nat) : nat := ((front_idx q + i) mod MAX_CLIENT_CONNECTIONS)%nat.

Definition queue_ok (q : queue) : Prop :=
  length (svc_ctxs q) = MAX_CLIENT_CONNECTIONS /\ (front_idx q < MAX_CLIENT_CONNECTIONS)%nat
  /\ (q_size q <= MAX_CLIENT_CONNECTIONS)%nat /\ back_idx q = slot q (q_size q).

(** The ring holds the items, oldest first. *)
Definition queue_abs (q : queue) (f : fifo) : Prop :=
  queue_ok q /\ f_interrupt f = q_interrupt q /\ length (f_items f) = q_size q
  /\ forall i, (i < q_size q)%nat -> f_items f !! i = svc_ctxs q !! slot q i.

Lemma next_idx i : (i < MAX_CLIENT_CONNECTIONS)%nat ->
  (if bool_decide (MAX_CLIENT_CONNECTIONS <= S i)%nat then 0%nat else S i) = (S i mod MAX_CLIENT_CONNECTIONS)%nat.
Proof.
  intros Hi. case_bool_decide.
  - assert (S i = MAX_CLIENT_CONNECTIONS) as -> by lia. done.
  - rewrite Nat.mod_small; lia.
Qed.

Lemma slot_next k i : ((S k mod MAX_CLIENT_CONNECTIONS + i) mod MAX_CLIENT_CONNECTIONS
  = (k + S i) mod MAX_CLIENT_CONNECTIONS)%nat.
Proof. rewrite Nat.Div0.add_mod_idemp_l. f_equal. lia. Qed.

Lemma slot_inj q i j : (i < MAX_CLIENT_CONNECTIONS)%nat -> (j < MAX_CLIENT_CONNECTIONS)%nat ->
  slot q i = slot q j -> i = j.
Proof.
  unfold slot, MAX_CLIENT_CONNECTIONS. intros.
  pose proof (Nat.div_mod_eq (front_idx q + i) 8). pose proof (Nat.div_mod_eq (front_idx q + j) 8). lia.
Qed.

Lemma slot_lt q i : (slot q i < MAX_CLIENT_CONNECTIONS)%nat.
Proof. apply Nat.mod_upper_bound. done. Qed.

Lemma push_refines x q f :
  queue_abs q f ->
  (service_cmds_push_back x q).1 = (fifo_push x f).1
  /\ queue_abs (service_cmds_push_back x q).2 (fifo_push x f).2.
Proof.
  intros ((Hlen & Hf & Hs & Hb) & Hi & Hl & Hx). unfold service_cmds_push_back, fifo_push. rewrite Hl.
  destruct (decide (q_size q < MAX_CLIENT_CONNECTIONS)%nat) as [Hroom|Hroom].
  2: { by rewrite bool_decide_true, bool_decide_false by lia. }
  rewrite bool_decide_false, (bool_decide_true (q_size q < _)%nat) by lia. split; [done|].
  assert (Hlt := slot_lt q (q_size q)). rewrite <- Hb in Hlt.
  rewrite next_idx by done. cbn [fst snd].
  assert (Hnext : forall i, slot (Queue (<[back_idx q:=x]> (svc_ctxs q)) (front_idx q)
      (S (back_idx q) mod MAX_CLIENT_CONNECTIONS) (S (q_size q)) (q_interrupt q)) i = slot q i) by done.
  unfold queue_abs, queue_ok; cbn [svc_ctxs front_idx back_idx q_size q_interrupt f_items f_interrupt].
  rewrite length_insert, length_app, Hl. split_and!; try done; [|simpl; lia|].
  - rewrite Hnext, Hb. unfold slot. rewrite <- (Nat.add_1_r (_ mod _)), Nat.Div0.add_mod_idemp_l. f_equal. lia.
  - intros i Hin. rewrite Hnext. destruct (decide (i = q_size q)) as [->|Hne].
    + rewrite <- Hb, list_lookup_insert_eq, lookup_app_r, Hl, Nat.sub_diag by lia. done.
    + rewrite lookup_app_l, Hx by lia. rewrite list_lookup_insert_ne; [done|].
      rewrite Hb. intros E. apply slot_inj in E; lia.
Qed.

Lemma pop_refines ret q f :
  queue_abs q f ->
  match service_cmds_pop_front ret q, fifo_pop ret f with
  | None, None => True
  | Some (r, o, q'), Some (r', o', f') => r = r' /\ o = o' /\ queue_abs q' f'
  | _, _ => False
  end.
Proof.
  intros Hq. assert (Hq' := Hq). destruct Hq as ((Hlen & Hf & Hs & Hb) & Hi & Hl & Hx).
  unfold service_cmds_pop_front, fifo_pop. rewrite Hi.
  destruct (q_interrupt q) eqn:Eint; cbn [negb].
  { rewrite !andb_false_r. done. }
  rewrite !andb_true_r. destruct (ret =? 0) eqn:Er; cbn [andb negb]; [|rewrite andb_false_r; done].
  rewrite andb_true_r. tests. destruct (f_items f) as [|x xs] eqn:Ei; simpl in Hl.
  { by rewrite bool_decide_true by lia. }
  rewrite !bool_decide_false by lia. cbn [negb]. rewrite next_idx by done.
  assert (H0 := Hx 0%nat ltac:(lia)). unfold slot in H0. rewrite Nat.add_0_r, Nat.mod_small in H0 by done.
  split; [done|]. split; [done|].
  unfold queue_abs, queue_ok, slot; cbn [svc_ctxs front_idx back_idx q_size q_interrupt f_items f_interrupt].
  split_and!; try done; try lia.
  - apply Nat.mod_upper_bound. done.
  - rewrite slot_next, Hb. unfold slot. do 2 f_equal. lia.
  - intros i Hin. rewrite slot_next. apply (Hx (S i)). lia.
Qed.

Lemma interrupt_refines q f : queue_abs q f -> queue_abs (service_cmds_interrupt q) (Fifo (f_items f) true).
Proof. intros (Hok & _ & Hl & Hx). done. Qed.

Lemma init_refines zero : queue_abs (queue_init zero) (Fifo [] false).
Proof. repeat split; simpl; try done; unfold MAX_CLIENT_CONNECTIONS; intros; lia. Qed.

(** ** Sequences of operations *)

Inductive queue_op := QPush (x : A) | QPop (wait_ret : Z) | QInterrupt.
Inductive queue_out := OPush (ret : Z) | OPop (ret : Z) (x : option A) | OWait | OInterrupt.

Definition queue_step (op : queue_op) (q : queue) : queue_out * queue :=
  match op with
  | QPush x => let '(r, q) := service_cmds_push_back x q in (OPush r, q)
  | QPop ret => match service_cmds_pop_front ret q with
                | None => (OWait, q)
                | Some (r, x, q) => (OPop r x, q)
                end
  | QInterrupt => (OInterrupt, service_cmds_interrupt q)
  end.

Definition fifo_step (op : queue_op) (f : fifo) : queue_out * fifo :=
  match op with
  | QPush x => let '(r, f) := fifo_push x f in (OPush r, f)
  | QPop ret => match fifo_pop ret f with
                | None => (OWait, f)
                | Some (r, x, f) => (OPop r x, f)
                end
  | QInterrupt => (OInterrupt, Fifo (f_items f) true)
  end.

Fixpoint outputs {S} (step : queue_op -> S -> queue_out * S) (ops : list queue_op) (s : S) : list queue_out :=
  match ops with
  | [] => []
  | op :: ops => let '(o, s) := step op s in o :: outputs step ops s
  end.

Lemma step_refines op q f :
  queue_abs q f -> (queue_step op q).1 = (fifo_step op f).1 /\ queue_abs (queue_step op q).2 (fifo_step op f).2.
Proof.
  intros Hq. destruct op as [x|ret|]; simpl.
  - destruct (push_refines x q f Hq). destruct (service_cmds_push_back x q), (fifo_push x f). simpl in *. by subst.
  - pose proof (pop_refines ret q f Hq) as Hp.
    destruct (service_cmds_pop_front ret q) as [[[r o] q']|], (fifo_pop ret f) as [[[r' o'] f']|]; try done.
    simpl. destruct Hp as (-> & -> & ?). done.
  - split; [done|]. by apply interrupt_refines.
Qed.

(** C6: the command queue is a first-in first-out queue of at most
    [MAX_CLIENT_CONNECTIONS] commands: in every sequence of pushes, pops (with
    any result of pthread_cond_wait) and interrupts, each call returns what the
    bounded queue returns, so commands come out in the order they went in, none
    is lost, duplicated or overwritten, a full queue refuses with 1 and changes
    nothing, an empty one waits, and after an interrupt every pop returns 1. *)
Theorem queue_refines_fifo zero ops :
  outputs queue_step ops (queue_init zero) = outputs fifo_step ops (Fifo [] false).
Proof.
  assert (H := init_refines zero). revert H. generalize (queue_init zero) (Fifo [] false).
  induction ops as [|op ops IH]; intros q f Hq; simpl; [done|].
  destruct (step_refines op q f Hq) as [Ho Hq'].
  destruct (queue_step op q), (fifo_step op f). simpl in *. subst. f_equal. auto.
Qed.
End Queue.
Arguments queue : clear implicits.
