(* ===== verification/Table.v ===== *)
(** The table of checkpointed processes of memcr.c ([checkpoint_service_data])
    and the functions that change it.  Each takes the lock for its whole body,
    so each is one step.  As long as processes have distinct, non-zero pids the
    table is a finite map with room for [CHECKPOINTED_PIDS_LIMIT] entries, except
    for the flag [checkpoint_abort], which no function ever clears. *)
From stdpp Require Import base list gmap.
From S2P Require Import Prelude.
#[local] Set Warnings "-clear-no-such-hyp".

Definition CHECKPOINTED_PIDS_LIMIT : nat := 48.
Definition PID_INVALID : Z := 0.
Definition STATE_RESTORED : Z := 0.
Definition STATE_CHECKPOINTING : Z := 1.
Definition STATE_CHECKPOINTED : Z := 2.
Definition SOCKET_INVALID : Z := -1.

Record entry := Entry {
  e_pid : Z;
  e_worker : Z;
  e_state : Z;
  e_abort : bool;        (** checkpoint_abort *)
  e_sd : Z;              (** checkpoint_cmd_sd *)
}.

Abbreviation table := (list entry).

#[export] Instance entry_eq_dec : EqDecision entry.
Proof. solve_decision. Defined.

(** What the functions do besides changing the table. *)
Inductive table_event :=
| EvAbort (sd : Z)       (** send_checkpoint_abort() *)
| EvKill (pid : Z)       (** kill(pid, SIGKILL) *)
| EvCleanup (pid : Z).   (** cleanup_pid() *)

(** The loops that return at the first entry that satisfies [p]. *)
Fixpoint update_first (p : entry -> bool) (f : entry -> entry) (t : table) : option (entry * table) :=
  match t with
  | [] => None
  | e :: t => if p e then Some (e, f e :: t)
              else match update_first p f t with
                   | Some (e', t') => Some (e', e :: t')
                   | None => None
                   end
  end.

(** The zeroed array the program starts with. *)
Definition table_init : table := replicate CHECKPOINTED_PIDS_LIMIT (Entry 0 0 0 false 0).

(** The four assignments that free an entry. *)
Definition free_entry (e : entry) : entry :=
  Entry PID_INVALID PID_INVALID STATE_RESTORED (e_abort e) SOCKET_INVALID.

(** When the table is full only a message is printed. *)
Definition init_pid_checkpoint_data (pid : Z) (t : table) : table :=
  match update_first (fun e => e_pid e =? PID_INVALID)
          (fun e => Entry pid PID_INVALID STATE_RESTORED (e_abort e) SOCKET_INVALID) t with
  | Some (_, t) => t
  | None => t
  end.

Definition cleanup_checkpointed_pids (t : table) : list table_event * table :=
  (flat_map (fun e => if e_pid e =? PID_INVALID then [] else [EvKill (e_pid e); EvCleanup (e_pid e)]) t,
   map (fun e => if e_pid e =? PID_INVALID then e else free_entry e) t).

Definition set_pid_checkpointing (pid cmd_sd : Z) (t : table) : list table_event * table :=
  match update_first (fun e => (e_pid e =? pid) && (e_state e =? STATE_RESTORED))
          (fun e => Entry (e_pid e) (e_worker e) STATE_CHECKPOINTING (e_abort e) cmd_sd) t with
  | Some (e, t) => (if e_abort e then [EvAbort cmd_sd] else [], t)
  | None => ([], t)
  end.

Definition set_pid_checkpointed (pid worker : Z) (t : table) : table :=
  match update_first (fun e => (e_pid e =? pid) && (e_state e =? STATE_CHECKPOINTING))
          (fun e => Entry (e_pid e) worker STATE_CHECKPOINTED (e_abort e) SOCKET_INVALID) t with
  | Some (_, t) => t
  | None => t
  end.

Definition clear_pid_checkpoint_data (pid : Z) (t : table) : table :=
  map (fun e => if e_pid e =? pid then free_entry e else e) t.

(** Called from the SIGCHLD handler, without the lock. *)
Definition clear_pid_on_worker_exit_non_blocking (worker : Z) (t : table) : list table_event * table :=
  (flat_map (fun e => if e_worker e =? worker then [EvCleanup (e_pid e)] else []) t,
   map (fun e => if e_worker e =? worker then free_entry e else e) t).

Definition get_pid_worker (pid : Z) (t : table) : Z :=
  match update_first (fun e => e_pid e =? pid) id t with
  | Some (e, _) => e_worker e
  | None => PID_INVALID
  end.

Definition can_checkpoint_pid (pid : Z) (t : table) : Z :=
  if existsb (fun e => e_pid e =? pid) t then 0 else 1.

Definition can_restore_pid (pid : Z) (t : table) : Z :=
  if existsb (fun e => e_pid e =? pid) t then 1 else 0.

(** [true]: the lock is still held when it returns, which is the case when no
    entry has the pid. *)
Definition try_to_abort_checkpoint (pid : Z) (t : table) : list table_event * table * bool :=
  match update_first (fun e => e_pid e =? pid)
          (fun e => if e_state e =? STATE_RESTORED
                    then Entry (e_pid e) (e_worker e) (e_state e) true (e_sd e) else e) t with
  | Some (e, t) => (if e_state e =? STATE_CHECKPOINTING then [EvAbort (e_sd e)] else [], t, false)
  | None => ([], t, true)
  end.

(** * Specification: a map from pids *)

Record pid_data := PidData { pd_worker : Z; pd_state : Z; pd_sd : Z }.
Abbreviation pid_map := (gmap Z pid_data).

Definition data_of (e : entry) : pid_data := PidData (e_worker e) (e_state e) (e_sd e).

(** The used entries. *)
Definition table_abs (t : table) : pid_map :=
  list_to_map ((fun e => (e_pid e, data_of e)) <$> filter (fun e => e_pid e <> PID_INVALID) t).

Definition used_pids (t : table) : list Z := e_pid <$> filter (fun e => e_pid e <> PID_INVALID) t.

Definition table_ok (t : table) : Prop :=
  length t = CHECKPOINTED_PIDS_LIMIT /\ NoDup (used_pids t)
  /\ Forall (fun e => e_pid e = PID_INVALID -> e_worker e = PID_INVALID /\ e_state e = STATE_RESTORED) t.

Definition fresh_data : pid_data := PidData PID_INVALID STATE_RESTORED SOCKET_INVALID.

Definition spec_init (pid : Z) (m : pid_map) : pid_map :=
  if bool_decide (size m < CHECKPOINTED_PIDS_LIMIT)%nat then <[pid := fresh_data]> m else m.

(** An entry in state [from] goes on to [f] of it. *)
Definition spec_advance (pid from : Z) (f : pid_data -> pid_data) (m : pid_map) : pid_map :=
  match m !! pid with
  | Some d => if pd_state d =? from then <[pid := f d]> m else m
  | None => m
  end.

Definition spec_worker_exit (worker : Z) (m : pid_map) : pid_map :=
  filter (fun pd => pd_worker pd.2 <> worker) m.

(** * Lemmas *)

Lemma update_first_some p f t e t' :
  update_first p f t = Some (e, t') ->
  exists l1 l2, t = l1 ++ e :: l2 /\ t' = l1 ++ f e :: l2 /\ p e = true /\ Forall (fun x => p x = false) l1.
Proof.
  revert t'. induction t as [|x t IH]; intros t'; simpl; [done|]. destruct (p x) eqn:E.
  - intros [= -> <-]. exists [], t. by split_and!.
  - destruct (update_first p f t) as [[e' t0]|]; [|done]. intros [= -> <-].
    destruct (IH t0) as (l1 & l2 & -> & -> & ? & ?); [done|]. exists (x :: l1), l2. split_and!; try done.
    by constructor.
Qed.

Lemma update_first_none p f t : update_first p f t = None -> Forall (fun x => p x = false) t.
Proof.
  induction t as [|x t IH]; simpl; [constructor|]. destruct (p x) eqn:E; [done|].
  destruct (update_first p f t) as [[]|]; [done|]. intros. constructor; auto.
Qed.

Lemma used_pids_middle l1 e l2 :
  used_pids (l1 ++ e :: l2) ≡ₚ (if decide (e_pid e = PID_INVALID) then [] else [e_pid e]) ++ used_pids (l1 ++ l2).
Proof.
  unfold used_pids. rewrite !filter_app, filter_cons, !fmap_app.
  case_decide as H1; case_decide as H2; try done; simpl. by rewrite Permutation_middle.
Qed.

Lemma table_abs_lookup_None t pid : pid ∉ used_pids t -> table_abs t !! pid = None.
Proof.
  intros Hn. apply not_elem_of_list_to_map_1. rewrite <- list_fmap_compose. by apply Hn.
Qed.

Lemma table_abs_middle l1 e l2 :
  NoDup (used_pids (l1 ++ e :: l2)) ->
  table_abs (l1 ++ e :: l2)
    = (if decide (e_pid e = PID_INVALID) then table_abs (l1 ++ l2)
       else <[e_pid e := data_of e]> (table_abs (l1 ++ l2)))
  /\ (e_pid e <> PID_INVALID -> table_abs (l1 ++ l2) !! e_pid e = None).
Proof.
  intros Hnd. assert (Hm := used_pids_middle l1 e l2). rewrite Hm in Hnd. split.
  - unfold table_abs. destruct (decide (e_pid e = PID_INVALID)) as [E|E].
    + by rewrite filter_app, filter_cons, decide_False, <- filter_app by auto.
    + change (list_to_map ((fun e => (e_pid e, data_of e)) <$> filter (fun e => e_pid e <> PID_INVALID) (l1 ++ e :: l2))
        = (list_to_map ((e_pid e, data_of e)
             :: ((fun e => (e_pid e, data_of e)) <$> filter (fun e => e_pid e <> PID_INVALID) (l1 ++ l2))) : pid_map)).
      symmetry. apply list_to_map_proper.
      * rewrite fmap_cons, <- list_fmap_compose. exact Hnd.
      * rewrite !filter_app, filter_cons, decide_True, !fmap_app by done. apply Permutation_middle.
  - intros E. apply table_abs_lookup_None. rewrite decide_False in Hnd by done. by inversion_clear Hnd.
Qed.

Lemma table_abs_lookup t pid d :
  NoDup (used_pids t) ->
  table_abs t !! pid = Some d <-> pid <> PID_INVALID /\ exists e, e ∈ t /\ e_pid e = pid /\ data_of e = d.
Proof.
  intros Hnd. unfold table_abs. rewrite <- elem_of_list_to_map.
  - rewrite list_elem_of_fmap. setoid_rewrite list_elem_of_filter. split.
    + intros (e & [= -> ->] & Hp & He). eauto.
    + intros (Hp & e & He & <- & <-). eauto.
  - rewrite <- list_fmap_compose. exact Hnd.
Qed.

Lemma table_abs_size t : NoDup (used_pids t) -> size (table_abs t) = length (used_pids t).
Proof.
  intros Hnd. unfold table_abs. rewrite map_size_list_to_map.
  - unfold used_pids. by rewrite !length_fmap.
  - rewrite <- list_fmap_compose. exact Hnd.
Qed.

(** There is a free entry exactly when the map is smaller than the array. *)
Lemma table_full t :
  Forall (fun e => (e_pid e =? PID_INVALID) = false) t -> length (used_pids t) = length t.
Proof.
  induction 1 as [|e t He Ht IH]; [done|]. unfold used_pids in *. tests. rewrite filter_cons, decide_True, fmap_cons by done.
  cbn [length]. by rewrite IH.
Qed.

Lemma table_room l1 e l2 : e_pid e = PID_INVALID -> (length (used_pids (l1 ++ e :: l2)) < length (l1 ++ e :: l2))%nat.
Proof.
  intros He. rewrite used_pids_middle, decide_True, app_nil_l by done. unfold used_pids.
  rewrite length_fmap. pose proof (length_filter (fun e => e_pid e <> PID_INVALID) (l1 ++ l2)) as Hle.
  rewrite length_app in *. simpl. lia.
Qed.

Lemma table_ok_replace l1 e l2 e' :
  table_ok (l1 ++ e :: l2) -> e_pid e' = e_pid e -> e_pid e <> PID_INVALID -> table_ok (l1 ++ e' :: l2).
Proof.
  intros (Hl & Hn & Hf) Hp Hne. split_and!.
  - rewrite length_app in *. done.
  - rewrite used_pids_middle in Hn |- *. by rewrite Hp.
  - rewrite Forall_app, Forall_cons in *. destruct Hf as (? & _ & ?). split_and!; try done. by rewrite Hp.
Qed.

(** The transitions of one entry. *)
Lemma update_state_ok pid from f t :
  table_ok t -> pid <> PID_INVALID -> (forall e, e_pid (f e) = e_pid e) ->
  match update_first (fun e => (e_pid e =? pid) && (e_state e =? from)) f t with
  | Some (e, t') => table_ok t' /\ table_abs t !! pid = Some (data_of e) /\ e_state e = from
                    /\ table_abs t' = <[pid := data_of (f e)]> (table_abs t)
  | None => forall d, table_abs t !! pid = Some d -> pd_state d <> from
  end.
Proof.
  intros Hok Hp Hf. assert (Hok' := Hok). destruct Hok as (_ & Hn & _).
  destruct (update_first _ f t) as [[e t']|] eqn:E.
  - apply update_first_some in E as (l1 & l2 & -> & -> & He & _). tests. subst pid.
    assert (Hok2 := table_ok_replace l1 e l2 (f e) Hok' (Hf e) Hp). split; [done|].
    destruct (table_abs_middle l1 e l2 Hn) as [Ha _]. rewrite decide_False in Ha by done.
    destruct Hok2 as (_ & Hn2 & _). destruct (table_abs_middle l1 (f e) l2 Hn2) as [Ha2 _].
    rewrite Hf, decide_False in Ha2 by done. rewrite Ha, Ha2, lookup_insert_eq, insert_insert_eq. done.
  - apply update_first_none in E. intros d Hd. apply table_abs_lookup in Hd as (_ & e & He & <- & <-); [|done].
    apply (proj1 (Forall_forall _ _) E) in He. rewrite Z.eqb_refl in He. cbn [andb] in He. by tests.
Qed.

(** Freeing entries. *)
Lemma free_entries_ok (c : entry -> bool) t :
  table_ok t ->
  let t' := map (fun e => if c e then free_entry e else e) t in
  table_ok t' /\
  forall pid d, table_abs t' !! pid = Some d <->
    pid <> PID_INVALID /\ exists e, e ∈ t /\ e_pid e = pid /\ data_of e = d /\ c e = false.
Proof.
  intros (Hl & Hn & Hf) t'.
  assert (Hsub : used_pids t' `sublist_of` used_pids t).
  { unfold t', used_pids. clear. induction t as [|e t IH]; simpl; [constructor|].
    rewrite !filter_cons. destruct (c e); cbn [free_entry e_pid].
    - rewrite decide_False by auto. case_decide; simpl; [by constructor|done].
    - case_decide; simpl; [by constructor|done]. }
  assert (Hn' : NoDup (used_pids t')) by (by eapply sublist_NoDup).
  split; [split_and!; [unfold t'; by rewrite length_map|done|]|].
  - unfold t'. apply Forall_fmap. eapply Forall_impl; [exact Hf|]. intros e He. simpl. by destruct (c e).
  - intros pid d. rewrite table_abs_lookup by done.
    unfold t'. split; intros [Hp Hex]; (split; [done|]); revert Hex.
    + intros (e' & He' & Hpid & Hd). apply list_elem_of_fmap in He' as (e & -> & He).
      destruct (c e) eqn:Ec; [by subst|]. eauto.
    + intros (e & He & Hpid & Hd & Hc). exists e. split; [|done]. apply list_elem_of_fmap. exists e. by rewrite Hc.
Qed.

Lemma init_ok pid t :
  table_ok t -> pid <> PID_INVALID -> table_abs t !! pid = None ->
  table_ok (init_pid_checkpoint_data pid t)
  /\ table_abs (init_pid_checkpoint_data pid t) = spec_init pid (table_abs t).
Proof.
  intros (Hl & Hn & Hf) Hp Hnone. unfold init_pid_checkpoint_data, spec_init. rewrite table_abs_size by done.
  destruct (update_first _ _ t) as [[e t']|] eqn:E.
  - apply update_first_some in E as (l1 & l2 & -> & -> & He & _). tests.
    rewrite bool_decide_true by (rewrite <- Hl; by apply table_room).
    destruct (table_abs_middle l1 e l2 Hn) as [Ha _]. rewrite decide_True in Ha by done. rewrite Ha in *.
    rewrite used_pids_middle, decide_True, app_nil_l in Hn by done.
    assert (Hn' : NoDup (used_pids (l1 ++ Entry pid PID_INVALID STATE_RESTORED (e_abort e) SOCKET_INVALID :: l2))).
    { rewrite used_pids_middle. cbn [e_pid]. rewrite decide_False by done. constructor; [|done].
      intros Hin. unfold used_pids in Hin. apply list_elem_of_fmap in Hin as (x & -> & Hx).
      apply list_elem_of_filter in Hx as [Hx1 Hx2].
      assert (Hd : table_abs (l1 ++ l2) !! e_pid x = Some (data_of x)) by (apply table_abs_lookup; eauto).
      congruence. }
    split; [split_and!|].
    + rewrite length_app in *. done.
    + done.
    + rewrite Forall_app, Forall_cons in *. by destruct Hf as (? & _ & ?).
    + destruct (table_abs_middle _ _ _ Hn') as [-> _]. cbn [e_pid]. by rewrite decide_False.
  - apply update_first_none, table_full in E. rewrite bool_decide_false by lia. done.
Qed.

Lemma clear_ok pid t :
  table_ok t -> pid <> PID_INVALID ->
  table_ok (clear_pid_checkpoint_data pid t)
  /\ table_abs (clear_pid_checkpoint_data pid t) = delete pid (table_abs t).
Proof.
  intros Ht Hp. destruct (free_entries_ok (fun e => e_pid e =? pid) t Ht) as [Hok Hl]. split; [done|].
  destruct Ht as (_ & Hn & _). apply map_eq. intros q. apply option_eq. intros d.
  unfold clear_pid_checkpoint_data. rewrite Hl, lookup_delete_Some, table_abs_lookup by done.
  setoid_rewrite Z.eqb_neq. naive_solver.
Qed.

Lemma worker_exit_ok worker t :
  table_ok t -> worker <> PID_INVALID ->
  let t' := (clear_pid_on_worker_exit_non_blocking worker t).2 in
  table_ok t' /\ table_abs t' = spec_worker_exit worker (table_abs t).
Proof.
  intros Ht Hw. destruct (free_entries_ok (fun e => e_worker e =? worker) t Ht) as [Hok Hl].
  split; [done|]. destruct Ht as (_ & Hn & _). apply map_eq. intros q. apply option_eq. intros d.
  unfold clear_pid_on_worker_exit_non_blocking, spec_worker_exit. cbn [snd].
  rewrite Hl, map_lookup_filter_Some, table_abs_lookup by done. setoid_rewrite Z.eqb_neq. cbn [snd].
  split; [|naive_solver].
  intros (Hq & e & He & Hpid & <- & Hne). naive_solver.
Qed.

Lemma cleanup_ok t :
  table_ok t -> table_ok (cleanup_checkpointed_pids t).2 /\ table_abs (cleanup_checkpointed_pids t).2 = ∅.
Proof.
  intros Ht. assert (E : (cleanup_checkpointed_pids t).2
    = map (fun e => if negb (e_pid e =? PID_INVALID) then free_entry e else e) t)
    by (unfold cleanup_checkpointed_pids; cbn [snd]; apply map_ext; intros e; by destruct (_ =? _)).
  rewrite E. destruct (free_entries_ok (fun e => negb (e_pid e =? PID_INVALID)) t Ht) as [Hok Hl].
  split; [done|]. apply map_empty. intros q. apply eq_None_not_Some. intros [d Hd].
  apply Hl in Hd as (Hq & e & _ & Hp & _ & Hc). tests. congruence.
Qed.

Lemma abort_ok pid t :
  table_ok t ->
  let t' := (try_to_abort_checkpoint pid t).1.2 in table_ok t' /\ table_abs t' = table_abs t.
Proof.
  intros Ht. unfold try_to_abort_checkpoint. destruct (update_first _ _ t) as [[e t']|] eqn:E; [|done].
  apply update_first_some in E as (l1 & l2 & -> & -> & He & _). cbn [fst snd].
  set (e' := if e_state e =? STATE_RESTORED
             then Entry (e_pid e) (e_worker e) (e_state e) true (e_sd e) else e).
  assert (Hsame : e_pid e' = e_pid e /\ e_worker e' = e_worker e /\ e_state e' = e_state e /\ data_of e' = data_of e)
    by (unfold e'; by destruct (e_state e =? STATE_RESTORED)).
  destruct Hsame as (Hp & Hw & Hs & Hd). destruct Ht as (Hl & Hn & Hf).
  assert (Hn' : NoDup (used_pids (l1 ++ e' :: l2))) by (rewrite used_pids_middle in Hn |- *; by rewrite Hp).
  split.
  - split_and!; [rewrite length_app in *; done|done|].
    rewrite Forall_app, Forall_cons in *. by rewrite Hp, Hw, Hs.
  - destruct (table_abs_middle _ _ _ Hn) as [-> _], (table_abs_middle _ _ _ Hn') as [-> _]. by rewrite Hp, Hd.
Qed.

(** * Sequences of operations *)

(** The operations of the service on the table; a checkpoint request is admitted
    by [can_checkpoint_pid] before its entry is made. *)
Inductive table_op :=
| TAdmit (pid : Z)
| TCheckpointing (pid sd : Z)
| TCheckpointed (pid worker : Z)
| TClear (pid : Z)
| TExit (worker : Z)
| TAbort (pid : Z)
| TCleanup.

Definition table_step (op : table_op) (t : table) : table :=
  match op with
  | TAdmit pid => if can_checkpoint_pid pid t =? 0 then t else init_pid_checkpoint_data pid t
  | TCheckpointing pid sd => (set_pid_checkpointing pid sd t).2
  | TCheckpointed pid worker => set_pid_checkpointed pid worker t
  | TClear pid => clear_pid_checkpoint_data pid t
  | TExit worker => (clear_pid_on_worker_exit_non_blocking worker t).2
  | TAbort pid => (try_to_abort_checkpoint pid t).1.2
  | TCleanup => (cleanup_checkpointed_pids t).2
  end.

Definition map_step (op : table_op) (m : pid_map) : pid_map :=
  match op with
  | TAdmit pid => match m !! pid with Some _ => m | None => spec_init pid m end
  | TCheckpointing pid sd =>
      spec_advance pid STATE_RESTORED (fun d => PidData (pd_worker d) STATE_CHECKPOINTING sd) m
  | TCheckpointed pid worker =>
      spec_advance pid STATE_CHECKPOINTING (fun _ => PidData worker STATE_CHECKPOINTED SOCKET_INVALID) m
  | TClear pid => delete pid m
  | TExit worker => spec_worker_exit worker m
  | TAbort _ => m
  | TCleanup => ∅
  end.

(** Processes and workers have positive pids. *)
Definition op_ok (op : table_op) : Prop :=
  match op with
  | TAdmit pid | TCheckpointing pid _ | TCheckpointed pid _ | TClear pid | TAbort pid => pid <> PID_INVALID
  | TExit worker => worker <> PID_INVALID
  | TCleanup => True
  end.

Lemma has_pid_abs pid t :
  table_ok t -> pid <> PID_INVALID ->
  existsb (fun e => e_pid e =? pid) t = bool_decide (is_Some (table_abs t !! pid)).
Proof.
  intros (_ & Hn & _) Hp. symmetry. destruct (existsb _ t) eqn:E.
  - apply existsb_exists in E as (e & He & Ee). tests. apply bool_decide_eq_true. exists (data_of e).
    apply table_abs_lookup; [done|]. rewrite <- list_elem_of_In in He. eauto.
  - apply bool_decide_eq_false. intros [d Hd]. apply table_abs_lookup in Hd as (_ & e & He & Hpid & _); [|done].
    apply not_true_iff_false in E. apply E, existsb_exists. exists e. rewrite <- list_elem_of_In. by rewrite Hpid, Z.eqb_refl.
Qed.

Lemma table_step_ok op t :
  table_ok t -> op_ok op ->
  table_ok (table_step op t) /\ table_abs (table_step op t) = map_step op (table_abs t).
Proof.
  intros Ht Hop. destruct op as [pid|pid sd|pid worker|pid|worker|pid|]; simpl in Hop |- *.
  - unfold can_checkpoint_pid. rewrite has_pid_abs by done.
    destruct (table_abs t !! pid) as [d|] eqn:E.
    + rewrite bool_decide_true by eauto. done.
    + rewrite bool_decide_false by (by intros []). by apply init_ok.
  - unfold set_pid_checkpointing, spec_advance.
    pose proof (update_state_ok pid STATE_RESTORED
      (fun e => Entry (e_pid e) (e_worker e) STATE_CHECKPOINTING (e_abort e) sd) t Ht Hop (fun _ => eq_refl)) as Hu.
    destruct (update_first _ _ t) as [[e t']|].
    + cbn [snd]. destruct Hu as (Hok & -> & Hs & ->). cbn [data_of pd_state pd_worker]. by rewrite Hs.
    + split; [done|]. destruct (table_abs t !! pid) as [d|]; [|done].
      by rewrite (proj2 (Z.eqb_neq _ _)) by (by apply Hu).
  - unfold set_pid_checkpointed, spec_advance.
    pose proof (update_state_ok pid STATE_CHECKPOINTING
      (fun e => Entry (e_pid e) worker STATE_CHECKPOINTED (e_abort e) SOCKET_INVALID) t Ht Hop (fun _ => eq_refl)) as Hu.
    destruct (update_first _ _ t) as [[e t']|].
    + cbn [snd]. destruct Hu as (Hok & -> & Hs & ->). cbn [data_of pd_state pd_worker]. by rewrite Hs.
    + split; [done|]. destruct (table_abs t !! pid) as [d|]; [|done].
      by rewrite (proj2 (Z.eqb_neq _ _)) by (by apply Hu).
  - by apply clear_ok.
  - by apply worker_exit_ok.
  - by apply abort_ok.
  - by apply cleanup_ok.
Qed.

Lemma get_pid_worker_abs pid t :
  table_ok t -> pid <> PID_INVALID ->
  get_pid_worker pid t = match table_abs t !! pid with Some d => pd_worker d | None => PID_INVALID end.
Proof.
  intros (_ & Hn & _) Hp. unfold get_pid_worker. destruct (update_first _ _ t) as [[e t']|] eqn:E.
  - apply update_first_some in E as (l1 & l2 & -> & _ & He & _). tests. subst pid.
    destruct (table_abs_middle l1 e l2 Hn) as [-> _]. by rewrite decide_False, lookup_insert_eq.
  - apply update_first_none in E. destruct (table_abs t !! pid) as [d|] eqn:Ed; [|done].
    apply table_abs_lookup in Ed as (_ & e & He & Hpid & _); [|done].
    apply (proj1 (Forall_forall _ _) E) in He. rewrite Hpid, Z.eqb_refl in He. done.
Qed.

(** A pid with an entry is found by try_to_abort_checkpoint(), which unlocks. *)
Lemma abort_unlocks pid t :
  table_ok t -> pid <> PID_INVALID -> is_Some (table_abs t !! pid) -> (try_to_abort_checkpoint pid t).2 = false.
Proof.
  intros (_ & Hn & _) Hp [d Hd]. unfold try_to_abort_checkpoint.
  destruct (update_first _ _ t) as [[e t']|] eqn:E; [done|]. apply update_first_none in E.
  apply table_abs_lookup in Hd as (_ & e & He & Hpid & _); [|done].
  apply (proj1 (Forall_forall _ _) E) in He. rewrite Hpid, Z.eqb_refl in He. done.
Qed.

Lemma table_init_ok : table_ok table_init /\ table_abs table_init = ∅.
Proof. split; [|done]. split_and!; [done|constructor|]. by apply Forall_replicate. Qed.

(** C7: the table of the service is a map from pids: whatever the order in
    which the accepting thread, the command thread and the SIGCHLD handler
    operate on it, for pids that are not 0, the used entries are the bindings of
    the map that the operations describe.  A pid has at most one entry, a 49th
    process gets none, an entry goes from restored to checkpointing to
    checkpointed and only from the state before, and what a worker leaves behind
    is removed when it exits. *)
Theorem table_refines_map ops :
  Forall op_ok ops ->
  let t := foldl (fun t op => table_step op t) table_init ops in
  table_ok t /\ table_abs t = foldl (fun m op => map_step op m) ∅ ops.
Proof.
  destruct table_init_ok as [Hok <-]. revert Hok. generalize table_init.
  induction ops as [|op ops IH]; intros t Hok Hops; simpl; [done|]. apply Forall_cons in Hops as [Hop Hops].
  destruct (table_step_ok op t Hok Hop) as [Hok' <-]. by apply IH.
Qed.

(** The queries answer for the map: a checkpoint is admitted exactly for
    a pid without an entry, a restore exactly for one with an entry, and the
    worker found is the one of the entry. *)
Theorem table_queries t pid :
  table_ok t -> pid <> PID_INVALID ->
  can_checkpoint_pid pid t = (if decide (table_abs t !! pid = None) then 1 else 0)
  /\ can_restore_pid pid t = (if decide (table_abs t !! pid = None) then 0 else 1)
  /\ get_pid_worker pid t = match table_abs t !! pid with Some d => pd_worker d | None => PID_INVALID end.
Proof.
  intros Ht Hp. unfold can_checkpoint_pid, can_restore_pid. rewrite has_pid_abs by done. split_and!.
  - case_bool_decide as Hb; case_decide as Hd; try done; [rewrite Hd in Hb; by destruct Hb|].
    by destruct (table_abs t !! pid); [destruct Hb|].
  - case_bool_decide as Hb; case_decide as Hd; try done; [rewrite Hd in Hb; by destruct Hb|].
    by destruct (table_abs t !! pid); [destruct Hb|].
  - by apply get_pid_worker_abs.
Qed.

(** ** The abort flag *)

Lemma update_first_lookup p f t e t' i x :
  update_first p f t = Some (e, t') -> t !! i = Some x -> t' !! i = Some x \/ t' !! i = Some (f x).
Proof.
  revert i t'. induction t as [|y t IH]; intros i t'; simpl; [done|]. destruct (p y).
  - intros [= -> <-]. destruct i; simpl; [intros [= ->]; auto|auto].
  - destruct (update_first p f t) as [[e' t0]|]; [|done]. intros [= -> <-].
    destruct i; simpl; [intros [= ->]; auto|]. by apply IH.
Qed.

(** No operation clears the flag of an entry. *)
Lemma abort_kept op t i e :
  t !! i = Some e -> e_abort e = true -> exists e', table_step op t !! i = Some e' /\ e_abort e' = true.
Proof.
  intros Hi He.
  assert (Hu : forall p f (k : entry -> table -> table), (forall x, e_abort x = true -> e_abort (f x) = true) ->
    (forall x y, k x y = y) ->
    exists e', match update_first p f t with Some (x, t') => k x t' | None => t end !! i = Some e' /\ e_abort e' = true).
  { intros p f k Hf Hk. destruct (update_first p f t) as [[x t']|] eqn:E; [|eauto].
    rewrite Hk. destruct (update_first_lookup _ _ _ _ _ _ _ E Hi) as [-> | ->]; eauto. }
  assert (Hm : forall f, (forall x, e_abort x = true -> e_abort (f x) = true) ->
    exists e', map f t !! i = Some e' /\ e_abort e' = true).
  { intros f Hf. rewrite list_lookup_fmap, Hi. simpl. eauto. }
  destruct op as [pid|pid sd|pid worker|pid|worker|pid|]; simpl.
  - case_match; [eauto|]. by apply (Hu _ _ (fun _ t => t)).
  - unfold set_pid_checkpointing. match goal with |- context [update_first ?p ?f t] =>
      destruct (Hu p f (fun _ t => t)) as (e' & E & ?); [done..|]; destruct (update_first p f t) as [[]|]; eauto end.
  - by apply (Hu _ _ (fun _ t => t)).
  - apply Hm. intros x Hx. by case_match.
  - apply Hm. intros x Hx. by case_match.
  - unfold try_to_abort_checkpoint. match goal with |- context [update_first ?p ?f t] =>
      destruct (Hu p f (fun _ t => t)) as (e' & E & ?);
        [intros x Hx; by case_match|done|]; destruct (update_first p f t) as [[]|]; eauto end.
  - apply Hm. intros x Hx. by case_match.
Qed.

(** C38: an abort request outlives the checkpoint it was meant for.  Once the
    flag of an entry is set, it stays set whatever is done to the table; so
    whichever process the entry is given to later, its checkpoint is told to
    abort as soon as it starts. *)
Theorem abort_flag_survives ops t i e :
  table_ok t -> Forall op_ok ops -> t !! i = Some e -> e_abort e = true ->
  let t' := foldl (fun t op => table_step op t) t ops in
  exists e', t' !! i = Some e' /\
    (e_pid e' <> PID_INVALID -> e_state e' = STATE_RESTORED ->
     forall sd, (set_pid_checkpointing (e_pid e') sd t').1 = [EvAbort sd]).
Proof.
  intros Ht Hops. revert t e Ht. induction Hops as [|op ops Hop Hops IH]; intros t e Ht Hi He; simpl.
  - exists e. split; [done|]. intros Hp Hs sd. unfold set_pid_checkpointing.
    pose proof (update_state_ok (e_pid e) STATE_RESTORED
      (fun x => Entry (e_pid x) (e_worker x) STATE_CHECKPOINTING (e_abort x) sd) t Ht Hp (fun _ => eq_refl)) as Hu.
    assert (Hin := list_elem_of_lookup_2 _ _ _ Hi). destruct Ht as (_ & Hn & _).
    assert (Hab : table_abs t !! e_pid e = Some (data_of e)) by (apply table_abs_lookup; eauto).
    destruct (update_first _ _ t) as [[x t']|] eqn:E; [|by destruct (Hu _ Hab)].
    apply update_first_some in E as (l1 & l2 & Et & _ & Hx & _). tests.
    assert (Hxe : x = e); [|by rewrite Hxe, He].
    apply list_elem_of_lookup in Hin as [j Hj]. rewrite Et in Hn, Hi. rewrite used_pids_middle in Hn.
    rewrite decide_False in Hn by congruence. inversion_clear Hn as [|? ? Hnot _].
    assert (Hin : e ∈ l1 ++ x :: l2) by (by eapply list_elem_of_lookup_2).
    rewrite <- Permutation_middle in Hin. apply elem_of_cons in Hin as [->|Hin]; [done|].
    destruct Hnot. unfold used_pids. apply list_elem_of_fmap. exists e. rewrite list_elem_of_filter. split_and!; congruence || done.
  - destruct (abort_kept op t i e Hi He) as (e1 & Hi1 & He1).
    apply (IH _ e1); try done. by apply table_step_ok.
Qed.

(** A restore request for pid 0 is admitted as long as an entry is free,
    and sets the abort flag of the first free entry, the one the next
    checkpoint gets. *)
Theorem restore_pid_0_poisons e t :
  e_pid e = PID_INVALID -> e_state e = STATE_RESTORED ->
  can_restore_pid 0 (e :: t) = 1 /\
  forall pid sd, pid <> PID_INVALID -> existsb (fun e => e_pid e =? pid) t = false ->
    (set_pid_checkpointing pid sd
       (table_step (TAdmit pid) (table_step (TAbort 0) (e :: t)))).1 = [EvAbort sd].
Proof.
  intros Hp Hs. unfold can_restore_pid. cbn [existsb]. rewrite Hp. split; [done|].
  intros pid sd Hne Hex. cbn [table_step]. unfold try_to_abort_checkpoint, can_checkpoint_pid.
  cbn [update_first]. rewrite Hp, Hs. cbn [Z.eqb fst snd existsb e_pid].
  change (PID_INVALID =? 0) with true. change (STATE_RESTORED =? STATE_RESTORED) with true. cbn match. cbn [fst snd e_pid].
  cbn [existsb e_pid]. rewrite (proj2 (Z.eqb_neq PID_INVALID pid)), Hex by auto. cbn [orb Z.eqb].
  unfold init_pid_checkpoint_data. cbn [update_first e_pid]. change (PID_INVALID =? PID_INVALID) with true. cbn match.
  unfold set_pid_checkpointing. cbn [update_first e_pid e_state]. rewrite Z.eqb_refl. done.
Qed.

(** * Witnesses *)

Lemma table_refines_map_witness :
  let t := foldl (fun t op => table_step op t) table_init
    [TAdmit 7; TAdmit 9; TCheckpointing 7 3; TCheckpointed 7 70; TAbort 9; TExit 70] in
  table_ok t /\ table_abs t = foldl (fun m op => map_step op m) ∅
    [TAdmit 7; TAdmit 9; TCheckpointing 7 3; TCheckpointed 7 70; TAbort 9; TExit 70].
Proof. apply table_refines_map. repeat constructor; done. Defined.

(** Process 7 is being checkpointed. *)
Definition table7 : table := table_step (TCheckpointing 7 3) (table_step (TAdmit 7) table_init).

Lemma table7_ok : table_ok table7.
Proof.
  apply (table_step_ok (TCheckpointing 7 3)); [|done]. apply (table_step_ok (TAdmit 7)); [apply table_init_ok|done].
Qed.

Lemma table_queries_witness :
  can_checkpoint_pid 7 table7 = (if decide (table_abs table7 !! 7 = None) then 1 else 0)
  /\ can_restore_pid 7 table7 = (if decide (table_abs table7 !! 7 = None) then 0 else 1)
  /\ get_pid_worker 7 table7 = match table_abs table7 !! 7 with Some d => pd_worker d | None => PID_INVALID end.
Proof. apply table_queries; [apply table7_ok|done]. Defined.

(** A restore of 7 while its checkpoint is queued; then 7 is done and 8 comes. *)
Lemma abort_flag_survives_witness :
  let t := table_step (TAbort 7) (table_step (TAdmit 7) table_init) in
  let t' := foldl (fun t op => table_step op t) t
    [TCheckpointing 7 3; TCheckpointed 7 70; TClear 7; TAdmit 8] in
  exists e', t' !! 0%nat = Some e' /\
    (e_pid e' <> PID_INVALID -> e_state e' = STATE_RESTORED ->
     forall sd, (set_pid_checkpointing (e_pid e') sd t').1 = [EvAbort sd]).
Proof.
  intros t. apply (abort_flag_survives [TCheckpointing 7 3; TCheckpointed 7 70; TClear 7; TAdmit 8] t 0
    (Entry 7 0 0 true (-1))).
  - apply (table_step_ok (TAbort 7)); [|done]. apply (table_step_ok (TAdmit 7)); [apply table_init_ok|done].
  - repeat constructor; done.
  - reflexivity.
  - reflexivity.
Defined.

