(* ===== verification/TableRace.v ===== *)
(** The functions of Table.v access by access, and the SIGCHLD handler of the
    service among them.  The threads take the lock of the table, the handler
    does not: it runs between any two accesses of the thread that holds it, on
    the same thread or on another.  Each function is one loop over the entries;
    its body is a small program of reads and stores of one entry, in the order
    of the source.  The accesses are taken to be indivisible and to happen in
    the order of the source. *)
From stdpp Require Import base list.
From S2P Require Import Prelude Table.
#[local] Open Scope Z_scope.

(** * Accesses *)

Inductive field := FPid | FWorker | FState | FAbort | FSd.

Definition get (f : field) (e : entry) : Z :=
  match f with
  | FPid => e_pid e
  | FWorker => e_worker e
  | FState => e_state e
  | FAbort => Z.b2z (e_abort e)
  | FSd => e_sd e
  end.

Definition put (f : field) (x : Z) (e : entry) : entry :=
  match f with
  | FPid => Entry x (e_worker e) (e_state e) (e_abort e) (e_sd e)
  | FWorker => Entry (e_pid e) x (e_state e) (e_abort e) (e_sd e)
  | FState => Entry (e_pid e) (e_worker e) x (e_abort e) (e_sd e)
  | FAbort => Entry (e_pid e) (e_worker e) (e_state e) (negb (x =? 0)) (e_sd e)
  | FSd => Entry (e_pid e) (e_worker e) (e_state e) (e_abort e) x
  end.

(** The body of a loop, on the entry the loop is at. *)
Inductive visit :=
| Next                                   (** go on to the next entry *)
| Stop (r : Z)                           (** leave the loop *)
| Read (f : field) (k : Z -> visit)
| Put (f : field) (x : Z) (k : visit)
| Emit (ev : table_event) (k : visit).   (** a call *)

(** * The functions *)

(** The stores that free an entry, in the order of clear_pid_checkpoint_data(). *)
Definition free_stores : visit :=
  Put FPid PID_INVALID (Put FWorker PID_INVALID (Put FSd SOCKET_INVALID (Put FState STATE_RESTORED Next))).

Definition init_body (pid : Z) : visit :=
  Read FPid (fun p => if p =? PID_INVALID then
    Put FPid pid (Put FWorker PID_INVALID (Put FSd SOCKET_INVALID (Put FState STATE_RESTORED (Stop 0))))
  else Next).

Definition cleanup_body : visit :=
  Read FPid (fun p => if p =? PID_INVALID then Next else
    Read FPid (fun p => Emit (EvKill p)
    (Read FPid (fun p => Emit (EvCleanup p)
    (Put FPid PID_INVALID (Put FWorker PID_INVALID (Put FState STATE_RESTORED (Put FSd SOCKET_INVALID Next)))))))).

Definition set_checkpointing_body (pid cmd_sd : Z) : visit :=
  Read FPid (fun p => if p =? pid then
    Read FState (fun s => if s =? STATE_RESTORED then
      Put FState STATE_CHECKPOINTING (Put FSd cmd_sd
      (Read FAbort (fun a => if a =? 0 then Stop 0 else Emit (EvAbort cmd_sd) (Stop 0))))
    else Next) else Next).

Definition set_checkpointed_body (pid worker : Z) : visit :=
  Read FPid (fun p => if p =? pid then
    Read FState (fun s => if s =? STATE_CHECKPOINTING then
      Put FState STATE_CHECKPOINTED (Put FSd SOCKET_INVALID (Put FWorker worker (Stop 0)))
    else Next) else Next).

Definition clear_body (pid : Z) : visit :=
  Read FPid (fun p => if p =? pid then free_stores else Next).

(** The handler's. *)
Definition worker_exit_body (worker : Z) : visit :=
  Read FWorker (fun x => if x =? worker then Read FPid (fun p => Emit (EvCleanup p) free_stores) else Next).

Definition get_worker_body (pid : Z) : visit :=
  Read FPid (fun p => if p =? pid then Read FWorker Stop else Next).

Definition can_checkpoint_body (pid : Z) : visit :=
  Read FPid (fun p => if p =? pid then Stop 0 else Next).

Definition can_restore_body (pid : Z) : visit :=
  Read FPid (fun p => if p =? pid then Stop 1 else Next).

(** 0: the lock was released. *)
Definition abort_body (pid : Z) : visit :=
  Read FPid (fun p => if p =? pid then
    Read FState (fun s =>
      if s =? STATE_RESTORED then Put FAbort 1 (Stop 0)
      else if s =? STATE_CHECKPOINTING then Read FSd (fun sd => Emit (EvAbort sd) (Stop 0))
      else Stop 0)
  else Next).

(** * One loop alone *)

Fixpoint alone (v : visit) (e : entry) : visit * entry * list table_event :=
  match v with
  | Next | Stop _ => (v, e, [])
  | Read f k => alone (k (get f e)) e
  | Put f x k => alone k (put f x e)
  | Emit ev k => let '(o, e, l) := alone k e in (o, e, ev :: l)
  end.

(** [after]: what the function returns behind the loop.  The calls are listed
    per entry. *)
Fixpoint loop (b : visit) (after : Z) (t : table) : Z * table * list (list table_event) :=
  match t with
  | [] => (after, [], [])
  | e :: t =>
      let '(o, e, l) := alone b e in
      match o with
      | Stop r => (r, e :: t, l :: map (fun _ => []) t)
      | _ => let '(r, t, ls) := loop b after t in (r, e :: t, l :: ls)
      end
  end.

(** What a function has done: its value, the table and its calls. *)
Definition done (x : Z * table * list (list table_event)) : Z * table * list table_event :=
  let '(r, t, ls) := x in (r, t, concat ls).

Inductive op :=
| OInit (pid : Z)
| OCleanup
| OCheckpointing (pid cmd_sd : Z)
| OCheckpointed (pid worker : Z)
| OClear (pid : Z)
| OExit (worker : Z)
| OWorker (pid : Z)
| OCanCheckpoint (pid : Z)
| OCanRestore (pid : Z)
| OAbort (pid : Z).

Definition body (o : op) : visit :=
  match o with
  | OInit pid => init_body pid
  | OCleanup => cleanup_body
  | OCheckpointing pid sd => set_checkpointing_body pid sd
  | OCheckpointed pid worker => set_checkpointed_body pid worker
  | OClear pid => clear_body pid
  | OExit worker => worker_exit_body worker
  | OWorker pid => get_worker_body pid
  | OCanCheckpoint pid => can_checkpoint_body pid
  | OCanRestore pid => can_restore_body pid
  | OAbort pid => abort_body pid
  end.

(** Behind the loop; for [OAbort], 1: the lock is still held. *)
Definition after (o : op) : Z :=
  match o with OWorker _ => PID_INVALID | OCanCheckpoint _ | OAbort _ => 1 | _ => 0 end.

(** The functions as single steps. *)
Definition atomic (o : op) (t : table) : Z * table * list table_event :=
  match o with
  | OInit pid => (0, init_pid_checkpoint_data pid t, [])
  | OCleanup => let '(evs, t) := cleanup_checkpointed_pids t in (0, t, evs)
  | OCheckpointing pid sd => let '(evs, t) := set_pid_checkpointing pid sd t in (0, t, evs)
  | OCheckpointed pid worker => (0, set_pid_checkpointed pid worker t, [])
  | OClear pid => (0, clear_pid_checkpoint_data pid t, [])
  | OExit worker => let '(evs, t) := clear_pid_on_worker_exit_non_blocking worker t in (0, t, evs)
  | OWorker pid => (get_pid_worker pid t, t, [])
  | OCanCheckpoint pid => (can_checkpoint_pid pid t, t, [])
  | OCanRestore pid => (can_restore_pid pid t, t, [])
  | OAbort pid => let '(evs, t, held) := try_to_abort_checkpoint pid t in (Z.b2z held, t, evs)
  end.

(** ** Alone, each is the step of Table.v *)

Lemma concat_none {A} (t : list A) : concat (map (fun _ => [] : list table_event) t) = [].
Proof. by induction t. Qed.

(** A loop that ends at the first entry that satisfies [p]. *)
Lemma loop_first b aft p f r l t :
  (forall e, alone b e = if p e : bool then (Stop (r e), f e, l e) else (Next, e, [])) ->
  done (loop b aft t) = match update_first p f t with
                        | Some (e, t') => (r e, t', l e)
                        | None => (aft, t, [])
                        end.
Proof.
  intros Hb. induction t as [|e t IH]; [reflexivity|]. cbn [loop update_first]. rewrite Hb. destruct (p e).
  - cbn. by rewrite concat_none, app_nil_r.
  - destruct (loop b aft t) as [[r1 t1] l1]. cbn in IH |- *.
    by destruct (update_first p f t) as [[]|]; injection IH as -> -> ->.
Qed.

(** A loop that changes every entry that satisfies [p]. *)
Lemma loop_every b aft p f l t :
  (forall e, alone b e = if p e : bool then (Next, f e, l e) else (Next, e, [])) ->
  done (loop b aft t) = (aft, map (fun e => if p e then f e else e) t, flat_map (fun e => if p e then l e else []) t).
Proof.
  intros Hb. induction t as [|e t IH]; [reflexivity|]. cbn [loop map flat_map]. rewrite Hb.
  destruct (loop b aft t) as [[r1 t1] l1]. cbn in IH. injection IH as -> -> E. by destruct (p e); cbn; rewrite E.
Qed.

Lemma update_first_existsb p f t : existsb p t = match update_first p f t with Some _ => true | None => false end.
Proof. induction t as [|e t IH]; [reflexivity|]. cbn. destruct (p e); [reflexivity|]. rewrite IH. by destruct (update_first p f t) as [[]|]. Qed.

(** A loop that looks an entry up. *)
Lemma loop_find b aft pid r t :
  (forall e, alone b e = if e_pid e =? pid then (Stop (r e), e, []) else (Next, e, [])) ->
  done (loop b aft t) = (match update_first (fun e => e_pid e =? pid) id t with Some (e, _) => r e | None => aft end, t, []).
Proof.
  intros Hb. rewrite (loop_first b aft (fun e => e_pid e =? pid) id r (fun _ => [])) by exact Hb.
  assert (Hid : match update_first (fun e => e_pid e =? pid) id t with Some (_, t') => t' | None => t end = t).
  { clear. induction t as [|e t IH]; [reflexivity|]. cbn. destruct (e_pid e =? pid); [reflexivity|].
    destruct (update_first _ id t) as [[e' t']|]; [by rewrite IH|reflexivity]. }
  destruct (update_first _ id t) as [[e t']|]; [by rewrite Hid|reflexivity].
Qed.

(** The loop of each function, run with nobody else on the table, does in one
    go what Table.v says: the same value, the same table and the same calls. *)
Lemma loop_atomic o t : done (loop (body o) (after o) t) = atomic o t.
Proof.
  destruct o as [pid| |pid sd|pid worker|pid|worker|pid|pid|pid|pid]; cbn [body after atomic].
  - unfold init_pid_checkpoint_data.
    rewrite (loop_first _ _ (fun e => e_pid e =? PID_INVALID)
      (fun e => Entry pid PID_INVALID STATE_RESTORED (e_abort e) SOCKET_INVALID) (fun _ => 0) (fun _ => [])).
    + by destruct (update_first _ _ t) as [[]|].
    + intros e. cbn. by case_match.
  - unfold cleanup_checkpointed_pids. rewrite (loop_every _ _ (fun e => negb (e_pid e =? PID_INVALID)) free_entry
      (fun e => [EvKill (e_pid e); EvCleanup (e_pid e)])).
    + f_equal; [f_equal|]; [apply map_ext|apply flat_map_ext]; intros e; by destruct (e_pid e =? PID_INVALID).
    + intros e. cbn. by destruct (e_pid e =? PID_INVALID).
  - unfold set_pid_checkpointing.
    rewrite (loop_first _ _ (fun e => (e_pid e =? pid) && (e_state e =? STATE_RESTORED))
      (fun e => Entry (e_pid e) (e_worker e) STATE_CHECKPOINTING (e_abort e) sd) (fun _ => 0)
      (fun e => if e_abort e then [EvAbort sd] else [])).
    + by destruct (update_first _ _ t) as [[]|].
    + intros e. cbn. destruct (e_pid e =? pid); [cbn; destruct (e_state e =? STATE_RESTORED); [cbn; by destruct (e_abort e)|]|]; reflexivity.
  - unfold set_pid_checkpointed.
    rewrite (loop_first _ _ (fun e => (e_pid e =? pid) && (e_state e =? STATE_CHECKPOINTING))
      (fun e => Entry (e_pid e) worker STATE_CHECKPOINTED (e_abort e) SOCKET_INVALID) (fun _ => 0) (fun _ => [])).
    + by destruct (update_first _ _ t) as [[]|].
    + intros e. cbn. destruct (e_pid e =? pid); [cbn; by destruct (e_state e =? STATE_CHECKPOINTING)|reflexivity].
  - rewrite (loop_every _ _ (fun e => e_pid e =? pid) free_entry (fun _ => [])).
    + f_equal. clear. induction t as [|e t IH]; [reflexivity|]. cbn. by case_match.
    + intros e. cbn. by case_match.
  - rewrite (loop_every _ _ (fun e => e_worker e =? worker) free_entry (fun e => [EvCleanup (e_pid e)])).
    + reflexivity.
    + intros e. cbn. by case_match.
  - apply loop_find. intros e. cbn. by case_match.
  - unfold can_checkpoint_pid. rewrite (update_first_existsb _ id), (loop_find _ _ pid (fun _ => 0)).
    + by destruct (update_first _ _ t) as [[]|].
    + intros e. cbn. by case_match.
  - unfold can_restore_pid. rewrite (update_first_existsb _ id), (loop_find _ _ pid (fun _ => 1)).
    + by destruct (update_first _ _ t) as [[]|].
    + intros e. cbn. by case_match.
  - unfold try_to_abort_checkpoint.
    rewrite (loop_first _ _ (fun e => e_pid e =? pid)
      (fun e => if e_state e =? STATE_RESTORED then Entry (e_pid e) (e_worker e) (e_state e) true (e_sd e) else e) (fun _ => 0)
      (fun e => if e_state e =? STATE_CHECKPOINTING then [EvAbort (e_sd e)] else [])).
    + by destruct (update_first _ _ t) as [[]|].
    + intros e. cbn. destruct (e_pid e =? pid); [cbn|reflexivity].
      destruct (Z.eqb_spec (e_state e) STATE_RESTORED) as [E|]; [cbn; by rewrite E|]. by case_match.
Qed.

(** * Two loops at once *)

(** An entry with what the thread and what the handler called while they were
    at it; each loop passes the entries in order, so its calls are those of the
    first entry, then those of the second, and so on. *)
Record cell := Cell { c_entry : entry; c_plog : list table_event; c_hlog : list table_event }.

Definition fresh_cell (e : entry) : cell := Cell e [] [].

(** Where a loop is: at entry [i] with [v] left to do; or it has left the loop
    at entry [i], behind the last one if it never stopped. *)
Inductive thread := Running (i : nat) (v : visit) | Done (i : nat) (r : Z).

(** One access: what is left, the entry and the call. *)
Definition vstep (v : visit) (e : entry) : option (visit * entry * list table_event) :=
  match v with
  | Next | Stop _ => None
  | Read f k => Some (k (get f e), e, [])
  | Put f x k => Some (k, put f x e, [])
  | Emit ev k => Some (k, e, [ev])
  end.

Record config := Config { g_p : thread; g_h : thread; g_cells : list cell }.

Section Race.
Context (bP bH : visit) (afterP afterH : Z).

(** A turn of a loop with body [b]: one access, or on to the next entry. *)
Definition turn (b : visit) (aft : Z) (log : list table_event -> cell -> cell) (th : thread) (cs : list cell)
    : thread * list cell :=
  match th with
  | Done _ _ => (th, cs)
  | Running i v =>
      match v with
      | Next => (if (S i <? length cs)%nat then Running (S i) b else Done (S i) aft, cs)
      | Stop r => (Done i r, cs)
      | _ =>
          match cs !! i with
          | Some c => match vstep v (c_entry c) with
                      | Some (v, e, l) => (Running i v, <[i := log l (Cell e (c_plog c) (c_hlog c))]> cs)
                      | None => (th, cs)
                      end
          | None => (th, cs)
          end
      end
  end.

Definition plog (l : list table_event) (c : cell) : cell := Cell (c_entry c) (c_plog c ++ l) (c_hlog c).
Definition hlog (l : list table_event) (c : cell) : cell := Cell (c_entry c) (c_plog c) (c_hlog c ++ l).

(** [true]: the thread's turn; [false]: the handler's. *)
Definition race_step (who : bool) (g : config) : config :=
  if who then let '(th, cs) := turn bP afterP plog (g_p g) (g_cells g) in Config th (g_h g) cs
  else let '(th, cs) := turn bH afterH hlog (g_h g) (g_cells g) in Config (g_p g) th cs.

Definition race (sched : list bool) (t : table) : config :=
  foldl (fun g who => race_step who g) (Config (Running 0 bP) (Running 0 bH) (map fresh_cell t)) sched.

(** ** One entry *)

(** Whatever the order of the accesses to the entry, [Q] holds when both are
    through with it. *)
Section Explore.
Context (Q : visit -> entry -> list table_event -> list table_event -> Prop).

Fixpoint explore (vP : visit) : visit -> entry -> list table_event -> list table_event -> Prop :=
  fix go (vH : visit) (e : entry) (lP lH : list table_event) : Prop :=
    match vP, vH with
    | (Next | Stop _), (Next | Stop _) => Q vP e lP lH
    | _, _ => True
    end
    /\ match vP with
       | Next | Stop _ => True
       | Read f k => explore (k (get f e)) vH e lP lH
       | Put f x k => explore k vH (put f x e) lP lH
       | Emit ev k => explore k vH e (lP ++ [ev]) lH
       end
    /\ match vH with
       | Next | Stop _ => True
       | Read f k => go (k (get f e)) e lP lH
       | Put f x k => go k (put f x e) lP lH
       | Emit ev k => go k e lP (lH ++ [ev])
       end.

Lemma explore_eq vP vH e lP lH :
  explore vP vH e lP lH <->
  match vP, vH with (Next | Stop _), (Next | Stop _) => Q vP e lP lH | _, _ => True end
  /\ (forall v e' l, vstep vP e = Some (v, e', l) -> explore v vH e' (lP ++ l) lH)
  /\ (forall v e' l, vstep vH e = Some (v, e', l) -> explore vP v e' lP (lH ++ l)).
Proof.
  split.
  - destruct vP, vH; cbn; intros (H1 & H2 & H3); split_and!; try done;
      intros v' e' l' [= <- <- <-]; rewrite ?app_nil_r; assumption.
  - destruct vP, vH; intros (H1 & H2 & H3); cbn in H2, H3 |- *; split_and!; try done;
      repeat match goal with
      | H : forall v e' l, Some (?x, ?y, ?z) = Some _ -> _ |- _ => specialize (H x y z eq_refl); rewrite ?app_nil_r in H
      end; assumption.
Qed.
End Explore.

(** ** The whole table *)

(** What a loop still has before it at entry [j]: nothing begun; or this. *)
Definition status (th : thread) (j : nat) : option visit :=
  match th with
  | Running i v => if (j <? i)%nat then Some Next else if (j =? i)%nat then Some v else None
  | Done i r => if (j <? i)%nat then Some Next else if (j =? i)%nat then Some (Stop r) else None
  end.

(** What can have become of one entry. *)
Inductive reaches (e0 : entry) : option visit -> option visit -> cell -> Prop :=
| reaches_start : reaches e0 None None (fresh_cell e0)
| reaches_P0 sH c : reaches e0 None sH c -> reaches e0 (Some bP) sH c
| reaches_H0 sP c : reaches e0 sP None c -> reaches e0 sP (Some bH) c
| reaches_P v sH c v' e' l : reaches e0 (Some v) sH c -> vstep v (c_entry c) = Some (v', e', l) ->
    reaches e0 (Some v') sH (plog l (Cell e' (c_plog c) (c_hlog c)))
| reaches_H sP v c v' e' l : reaches e0 sP (Some v) c -> vstep v (c_entry c) = Some (v', e', l) ->
    reaches e0 sP (Some v') (hlog l (Cell e' (c_plog c) (c_hlog c))).

Lemma reaches_explore Q e0 sP sH c :
  reaches e0 sP sH c -> explore Q bP bH e0 [] [] ->
  explore Q (default bP sP) (default bH sH) (c_entry c) (c_plog c) (c_hlog c).
Proof.
  intros Hr He. induction Hr as [|sH c _ IH|sP c _ IH|v sH c v' e' l _ IH Hv|sP v c v' e' l _ IH Hv]; try done.
  - apply explore_eq in IH as (_ & IH & _). by apply IH.
  - apply explore_eq in IH as (_ & _ & IH). by apply IH.
Qed.

Lemma reaches_alone Q e0 sH c :
  reaches e0 None sH c -> explore Q Next bH e0 [] [] ->
  explore Q Next (default bH sH) (c_entry c) (c_plog c) (c_hlog c).
Proof.
  intros Hr He. remember None as sP eqn:EP.
  induction Hr as [|sH c _ IH|sP c _ IH|v sH c v' e' l _ IH Hv|sP v c v' e' l _ IH Hv]; try done; [by apply IH|].
  specialize (IH EP). apply explore_eq in IH as (_ & _ & IH). by apply IH.
Qed.

(** A turn begins an entry, or makes one access, or changes nothing that counts. *)
Lemma turn_cases b aft log th cs th' cs' :
  turn b aft log th cs = (th', cs') ->
  (cs' = cs /\ forall j, (j < length cs)%nat -> status th' j = status th j \/ status th j = None /\ status th' j = Some b)
  \/ (exists i v c v' e' l, th = Running i v /\ th' = Running i v' /\ cs !! i = Some c
        /\ vstep v (c_entry c) = Some (v', e', l) /\ cs' = <[i := log l (Cell e' (c_plog c) (c_hlog c))]> cs).
Proof.
  unfold turn. destruct th as [i v|i r]; [|intros [= <- <-]; left; auto].
  assert (Ha : match cs !! i with
    | Some c => match vstep v (c_entry c) with
                | Some (v, e, l) => (Running i v, <[i := log l (Cell e (c_plog c) (c_hlog c))]> cs)
                | None => (Running i v, cs)
                end
    | None => (Running i v, cs)
    end = (th', cs') -> (cs' = cs /\ th' = Running i v) \/ (exists i0 v0 c v' e' l, Running i v = Running i0 v0 /\ th' = Running i0 v'
        /\ cs !! i0 = Some c /\ vstep v0 (c_entry c) = Some (v', e', l) /\ cs' = <[i0 := log l (Cell e' (c_plog c) (c_hlog c))]> cs)).
  { destruct (cs !! i) as [c|] eqn:Ec; [|intros [= <- <-]; by left].
    destruct (vstep v (c_entry c)) as [[[v' e'] l]|] eqn:Ev; intros [= <- <-]; [right|by left]. by eexists _, _, _, _, _, _. }
  destruct v; try (intros E; apply Ha in E as [[-> ->]|?]; [left; auto|by right]); intros [= <- <-]; left; (split; [done|]); intros j Hj.
  - destruct (Nat.ltb_spec (S i) (length cs)); cbn [status].
    all: destruct (Nat.ltb_spec j i), (Nat.ltb_spec j (S i)), (Nat.eqb_spec j i), (Nat.eqb_spec j (S i)); try lia; auto.
  - by left.
Qed.

(** The entries keep to themselves. *)
Definition race_inv (t : table) (g : config) : Prop :=
  length (g_cells g) = length t
  /\ forall j e0 c, t !! j = Some e0 -> g_cells g !! j = Some c -> reaches e0 (status (g_p g) j) (status (g_h g) j) c.

(** What holds of every entry survives a turn. *)
Lemma turn_inv (ok : nat -> option visit -> cell -> Prop) b aft log th cs th' cs' :
  turn b aft log th cs = (th', cs') ->
  (forall j c, ok j None c -> ok j (Some b) c) ->
  (forall j c v v' e' l, ok j (Some v) c -> vstep v (c_entry c) = Some (v', e', l) ->
     ok j (Some v') (log l (Cell e' (c_plog c) (c_hlog c)))) ->
  (forall j c, cs !! j = Some c -> ok j (status th j) c) ->
  length cs' = length cs /\ forall j c, cs' !! j = Some c -> ok j (status th' j) c.
Proof.
  intros E Hb Hv Hok. apply turn_cases in E as [[-> Hs]|(i & v & c & v' & e' & l & -> & -> & Ec & Ev & ->)].
  - split; [done|]. intros j c Hc. specialize (Hok j c Hc).
    destruct (Hs j) as [->|[E ->]]; [by apply lookup_lt_Some in Hc|done|]. rewrite E in Hok. by apply Hb.
  - split; [by rewrite length_insert|]. intros j c1 Hc. destruct (decide (j = i)) as [->|Hji].
    + specialize (Hok i c Ec). rewrite list_lookup_insert_eq in Hc by (by apply lookup_lt_Some in Ec).
      injection Hc as <-. cbn [status] in *. rewrite Nat.ltb_irrefl, Nat.eqb_refl in *. by eapply Hv.
    + rewrite list_lookup_insert_ne in Hc by done. specialize (Hok j c1 Hc). cbn [status] in *.
      by rewrite (proj2 (Nat.eqb_neq j i)) in *.
Qed.

Lemma race_inv_step t who g : race_inv t g -> race_inv t (race_step who g).
Proof.
  intros [Hl Hr]. unfold race_step. destruct who.
  - destruct (turn bP afterP plog (g_p g) (g_cells g)) as [th cs] eqn:E.
    eapply (turn_inv (fun j s c => forall e0, t !! j = Some e0 -> reaches e0 s (status (g_h g) j) c)) in E as [Hl' Hr'].
    + split; cbn; [congruence|]. eauto.
    + intros. apply reaches_P0; auto.
    + intros. eapply reaches_P; eauto.
    + eauto.
  - destruct (turn bH afterH hlog (g_h g) (g_cells g)) as [th cs] eqn:E.
    eapply (turn_inv (fun j s c => forall e0, t !! j = Some e0 -> reaches e0 (status (g_p g) j) s c)) in E as [Hl' Hr'].
    + split; cbn; [congruence|]. eauto.
    + intros. apply reaches_H0; auto.
    + intros. eapply reaches_H; eauto.
    + eauto.
Qed.

Lemma race_inv_end t sched : race_inv t (race sched t).
Proof.
  unfold race.
  assert (Hi : race_inv t (Config (Running 0 bP) (Running 0 bH) (map fresh_cell t))).
  { split; [cbn; by rewrite length_map|]. intros j e0 c Ht Hc. cbn in *.
    rewrite list_lookup_fmap, Ht in Hc. injection Hc as <-. destruct (j =? 0)%nat; repeat constructor. }
  revert Hi. generalize (Config (Running 0 bP) (Running 0 bH) (map fresh_cell t)).
  induction sched as [|who sched IH]; intros g Hg; [done|]. by apply IH, race_inv_step.
Qed.

(** ** Both come to an end *)

(** At most [n] accesses. *)
Fixpoint accesses_le (v : visit) (n : nat) : Prop :=
  match v with
  | Next | Stop _ => True
  | Read _ k => match n with O => False | S n => forall x, accesses_le (k x) n end
  | Put _ _ k | Emit _ k => match n with O => False | S n => accesses_le k n end
  end.

(** [m] turns are enough for the rest of a loop over [len] entries. *)
Definition enough (b : visit) (D len : nat) (th : thread) (m : nat) : Prop :=
  match th with
  | Done _ _ => True
  | Running i v => exists n, accesses_le v n /\ (i < len)%nat /\ (S n + (len - S i) * S D <= m)%nat
  end.

Lemma turn_enough b aft log D th cs m :
  accesses_le b D -> enough b D (length cs) th (S m) -> enough b D (length cs) (turn b aft log th cs).1 m.
Proof.
  intros Hb He. destruct th as [i v|i r]; [|done]. destruct He as (n & Hn & Hi & Hm). unfold turn.
  assert (Ha : forall v' , match v with Next | Stop _ => False | _ => True end ->
    (forall e, match vstep v e with Some (v', _, _) => exists n', n = S n' /\ accesses_le v' n' | None => False end) ->
    enough b D (length cs) (match cs !! i with
      | Some c => match vstep v (c_entry c) with
                  | Some (v, e, l) => (Running i v, <[i := log l (Cell e (c_plog c) (c_hlog c))]> cs)
                  | None => (Running i v', cs)
                  end
      | None => (Running i v', cs)
      end).1 m).
  { intros v' _ Hv. destruct (lookup_lt_is_Some_2 cs i Hi) as [c ->]. specialize (Hv (c_entry c)).
    destruct (vstep v (c_entry c)) as [[[v1 e1] l1]|]; [|done]. destruct Hv as (n' & -> & Hn'). cbn [fst]. exists n'. split_and!; [done..|lia]. }
  destruct v as [|r|f k|f x k|ev k]; try (apply Ha; [done|]; intros e; cbn in Hn |- *; destruct n; [done|]; by eauto).
  - destruct (Nat.ltb_spec (S i) (length cs)); [|done]. exists D. split_and!; [done..|].
    replace (length cs - S i)%nat with (S (length cs - S (S i))) in Hm by lia. cbn [Nat.mul] in Hm. lia.
  - done.
Qed.

Lemma turn_length b aft log th cs : length (turn b aft log th cs).2 = length cs.
Proof.
  destruct (turn b aft log th cs) as [th' cs'] eqn:E.
  apply turn_cases in E as [[-> _]|(i & v & c & v' & e' & l & _ & _ & _ & _ & ->)]; [done|]. apply length_insert.
Qed.

(** The turns [who] gets. *)
Definition turns (who : bool) (sched : list bool) : nat := length (filter (fun w => w = who) sched).

(** The turns that are enough for a loop over [len] entries of at most [D] accesses each. *)
Definition loop_turns (D len : nat) : nat := len * S D.

Definition is_done (th : thread) : Prop := match th with Done _ _ => True | Running _ _ => False end.

Lemma race_ends D t sched :
  accesses_le bP D -> accesses_le bH D -> t <> [] ->
  (loop_turns D (length t) <= turns true sched)%nat -> (loop_turns D (length t) <= turns false sched)%nat ->
  is_done (g_p (race sched t)) /\ is_done (g_h (race sched t)).
Proof.
  intros HP HH Ht. unfold race, loop_turns. intros Hm1 Hm2.
  assert (H0 : (0 < length t)%nat) by (destruct t; [done|cbn; lia]).
  assert (E1 : enough bP D (length t) (Running 0 bP) (turns true sched)).
  { exists D. split_and!; [done..|]. destruct (length t); [lia|]. rewrite Nat.sub_succ, Nat.sub_0_r. cbn [Nat.mul] in Hm1. lia. }
  assert (E2 : enough bH D (length t) (Running 0 bH) (turns false sched)).
  { exists D. split_and!; [done..|]. destruct (length t); [lia|]. rewrite Nat.sub_succ, Nat.sub_0_r. cbn [Nat.mul] in Hm2. lia. }
  rewrite <- (length_map fresh_cell t) in E1, E2. clear Hm1 Hm2 H0 Ht. revert E1 E2.
  generalize (Running 0 bP) (Running 0 bH) (map fresh_cell t). unfold turns.
  induction sched as [|who sched IH]; intros thP thH cs E1 E2.
  - rewrite filter_nil in E1, E2. cbn [length foldl g_p g_h] in *.
    split; [destruct thP; [|done]; destruct E1 as (? & ? & ? & H1)|destruct thH; [|done]; destruct E2 as (? & ? & ? & H1)]; by apply Nat.nle_succ_0 in H1.
  - cbn [foldl]. unfold race_step at 2 4. rewrite !filter_cons in E1, E2.
    destruct who; cbn [g_p g_h g_cells].
    + rewrite decide_True in E1 by done. rewrite decide_False in E2 by done. cbn [length] in E1.
      apply (turn_enough bP afterP plog) in E1; [|done]. pose proof (turn_length bP afterP plog thP cs) as Hl.
      destruct (turn bP afterP plog thP cs) as [th cs']. apply IH; cbn in *; by rewrite Hl.
    + rewrite decide_False in E1 by done. rewrite decide_True in E2 by done. cbn [length] in E2.
      apply (turn_enough bH afterH hlog) in E2; [|done]. pose proof (turn_length bH afterH hlog thH cs) as Hl.
      destruct (turn bH afterH hlog thH cs) as [th cs']. apply IH; cbn in *; by rewrite Hl.
Qed.

(** *** Where they end *)

Fixpoint no_stop (v : visit) : Prop :=
  match v with
  | Next => True
  | Stop _ => False
  | Read _ k => forall x, no_stop (k x)
  | Put _ _ k | Emit _ k => no_stop k
  end.

(** A loop that is through has come to the end or has stopped before it. *)
Definition placed (aft : Z) (len : nat) (th : thread) : Prop :=
  match th with
  | Running i _ => (i < len)%nat
  | Done i r => (i < len)%nat \/ i = len /\ r = aft
  end.

(** One that never stops has come to the end. *)
Definition unstopped (len : nat) (th : thread) : Prop :=
  match th with
  | Running _ v => no_stop v
  | Done i _ => i = len
  end.

Lemma turn_placed b aft log th cs :
  placed aft (length cs) th -> placed aft (length cs) (turn b aft log th cs).1.
Proof.
  intros Hp. destruct th as [i v|i r]; [|done]. cbn in Hp. unfold turn.
  destruct v; [|by left|destruct (cs !! i); exact Hp..].
  destruct (Nat.ltb_spec (S i) (length cs)); cbn; lia.
Qed.

Lemma turn_unstopped b aft log th cs :
  no_stop b -> placed aft (length cs) th -> unstopped (length cs) th -> unstopped (length cs) (turn b aft log th cs).1.
Proof.
  intros Hb Hp Hu. destruct th as [i v|i r]; [|done]. cbn in Hp, Hu. unfold turn.
  destruct v; [|done|destruct (cs !! i); cbn; auto..].
  destruct (Nat.ltb_spec (S i) (length cs)); cbn; [done|lia].
Qed.

Lemma race_placed t sched :
  t <> [] -> no_stop bH ->
  placed afterP (length t) (g_p (race sched t)) /\ placed afterH (length t) (g_h (race sched t))
  /\ unstopped (length t) (g_h (race sched t)).
Proof.
  intros Ht HH. unfold race.
  assert (E : placed afterP (length t) (Running 0 bP) /\ placed afterH (length t) (Running 0 bH)
    /\ unstopped (length t) (Running 0 bH)) by (destruct t; [done|]; cbn; split_and!; [lia..|done]).
  rewrite <- (length_map fresh_cell t) in E |- *. revert E. generalize (Running 0 bP) (Running 0 bH) (map fresh_cell t).
  induction sched as [|who sched IH]; intros thP thH cs (E1 & E2 & E3); [done|]. cbn [foldl]. unfold race_step at 2 4 6.
  destruct who; cbn [g_p g_h g_cells].
  - pose proof (turn_length bP afterP plog thP cs) as Hl. pose proof (turn_placed bP afterP plog thP cs E1) as Hp.
    destruct (turn bP afterP plog thP cs) as [th cs']. cbn in Hl, Hp. rewrite <- Hl in Hp, E2, E3 |- *. by apply IH.
  - pose proof (turn_length bH afterH hlog thH cs) as Hl. pose proof (turn_placed bH afterH hlog thH cs E2) as Hp.
    pose proof (turn_unstopped bH afterH hlog thH cs HH E2 E3) as Hu.
    destruct (turn bH afterH hlog thH cs) as [th cs']. cbn in Hl, Hp, Hu. rewrite <- Hl in Hp, Hu, E1 |- *. by apply IH.
Qed.

(** *** One of the two orders *)

(** [R]: how far the handler's calls may differ from those of the order. *)
Section Linear.
Context (R : entry -> list table_event -> list table_event -> Prop) (R_refl : forall e l, R e l l).

(** On one entry: the thread first, or the handler first. *)
Definition thread_first (e0 : entry) (o : visit) (e : entry) (lP lH : list table_event) : Prop :=
  let '(o1, e1, l1) := alone bP e0 in
  let '(_, e2, l2) := alone bH e1 in o = o1 /\ e = e2 /\ lP = l1 /\ R e0 lH l2.

Definition handler_first (e0 : entry) (o : visit) (e : entry) (lP lH : list table_event) : Prop :=
  let '(_, e1, l2) := alone bH e0 in
  let '(o1, e2, l1) := alone bP e1 in o = o1 /\ e = e2 /\ lP = l1 /\ R e0 lH l2.

(** On the table. *)
Definition thread_then_handler (t : table) (r : Z) (cs : list cell) : Prop :=
  let '(r1, t1, l1) := loop bP afterP t in
  let '(_, t2, l2) := loop bH afterH t1 in
  r = r1 /\ map c_entry cs = t2 /\ map c_plog cs = l1 /\ Forall3 R t (map c_hlog cs) l2.

Definition handler_then_thread (t : table) (r : Z) (cs : list cell) : Prop :=
  let '(_, t1, l2) := loop bH afterH t in
  let '(r1, t2, l1) := loop bP afterP t1 in
  r = r1 /\ map c_entry cs = t2 /\ map c_plog cs = l1 /\ Forall3 R t (map c_hlog cs) l2.

(** The handler alone on the entry. *)
Definition untouched (e0 : entry) (c : cell) : Prop :=
  let '(_, e, l) := alone bH e0 in c_entry c = e /\ c_plog c = [] /\ R e0 (c_hlog c) l.

(** The thread has passed entries, with [X] of each, and has stopped at one or
    come to the end. *)
Inductive passes (X : entry -> visit -> entry -> list table_event -> list table_event -> Prop) : table -> list cell -> Z -> Prop :=
| passes_end : passes X [] [] afterP
| passes_next e t c cs r : X e Next (c_entry c) (c_plog c) (c_hlog c) -> passes X t cs r -> passes X (e :: t) (c :: cs) r
| passes_stop e t c cs r : X e (Stop r) (c_entry c) (c_plog c) (c_hlog c) -> Forall2 untouched t cs -> passes X (e :: t) (c :: cs) r.

Lemma loop_no_stop b aft t :
  no_stop b -> loop b aft t = (aft, map (fun e => (alone b e).1.2) t, map (fun e => (alone b e).2) t).
Proof.
  intros Hb. assert (Ha : forall e, (alone b e).1.1 = Next).
  { induction b as [|r|f k IH|f x k IH|ev k IH]; intros e; cbn in *; try done; [by apply IH|by apply IH|].
    specialize (IH Hb e). by destruct (alone k e) as [[]]. }
  induction t as [|e t IH]; [done|]. cbn [loop map]. specialize (Ha e). destruct (alone b e) as [[o e'] l]. cbn in Ha. subst o.
  by rewrite IH.
Qed.

Lemma untouched_all t cs :
  no_stop bH -> Forall2 untouched t cs ->
  map c_entry cs = map (fun e => (alone bH e).1.2) t /\ map c_plog cs = map (fun _ => []) t
  /\ Forall3 R t (map c_hlog cs) (map (fun e => (alone bH e).2) t).
Proof.
  intros HH Hf. induction Hf as [|e c t cs Hu Hf (IH1 & IH2 & IH3)]; [split_and!; [done..|constructor]|].
  unfold untouched in Hu. cbn [map]. destruct (alone bH e) as [[o e'] l]. destruct Hu as (-> & -> & HR).
  cbn [fst snd]. rewrite IH1, IH2. split_and!; [done..|by constructor].
Qed.

Lemma passes_thread_first t cs r :
  no_stop bH -> passes thread_first t cs r -> thread_then_handler t r cs.
Proof.
  intros HH Hp. unfold thread_then_handler. induction Hp as [|e t c cs r Hx Hp IH|e t c cs r Hx Hf].
  - split_and!; [done..|constructor].
  - cbn [loop map]. unfold thread_first in Hx. destruct (alone bP e) as [[o1 e1] l1], (alone bH e1) as [[o2 e2] l2] eqn:E2.
    destruct Hx as (<- & E & -> & HR). destruct (loop bP afterP t) as [[r1 t1] ls1].
    rewrite (loop_no_stop bH) in * by done. cbn [map]. rewrite E2. destruct IH as (-> & -> & -> & HR').
    cbn [fst snd]. rewrite E. split_and!; [done..|by constructor].
  - cbn [loop map]. unfold thread_first in Hx. destruct (alone bP e) as [[o1 e1] l1], (alone bH e1) as [[o2 e2] l2] eqn:E2.
    destruct Hx as (<- & E & -> & HR). rewrite (loop_no_stop bH) by done. cbn [map]. rewrite E2.
    destruct (untouched_all t cs HH Hf) as (-> & -> & HR'). cbn [fst snd]. rewrite E. split_and!; [done..|by constructor].
Qed.

Lemma passes_handler_first t cs r :
  no_stop bH -> passes handler_first t cs r -> handler_then_thread t r cs.
Proof.
  intros HH Hp. unfold handler_then_thread. rewrite loop_no_stop by done.
  induction Hp as [|e t c cs r Hx Hp IH|e t c cs r Hx Hf].
  - split_and!; [done..|constructor].
  - cbn [loop map]. unfold handler_first in Hx. destruct (alone bH e) as [[o1 e1] l1]. cbn [fst snd].
    destruct (alone bP e1) as [[o2 e2] l2]. destruct Hx as (<- & -> & -> & HR).
    destruct (loop bP afterP _) as [[r1 t1] ls1]. destruct IH as (-> & -> & -> & HR'). split_and!; [done..|by constructor].
  - cbn [loop map]. unfold handler_first in Hx. destruct (alone bH e) as [[o1 e1] l1]. cbn [fst snd].
    destruct (alone bP e1) as [[o2 e2] l2]. destruct Hx as (<- & -> & -> & HR).
    destruct (untouched_all t cs HH Hf) as (-> & -> & HR'). rewrite map_map. split_and!; [done..|by constructor].
Qed.

(** The entries one by one, as the thread left them. *)
Lemma passes_lookup X i r t cs :
  length cs = length t -> ((i < length t)%nat \/ i = length t /\ r = afterP) ->
  (forall j e c, t !! j = Some e -> cs !! j = Some c ->
     match status (Done i r) j with
     | Some o => X e o (c_entry c) (c_plog c) (c_hlog c)
     | None => untouched e c
     end) -> passes X t cs r.
Proof.
  revert i cs. induction t as [|e t IH]; intros i [|c cs] Hl Hi Hj; try done.
  - destruct Hi as [Hi|[_ ->]]; [cbn in Hi; lia|constructor].
  - pose proof (Hj 0%nat e c eq_refl eq_refl) as H0. destruct i as [|i].
    + apply passes_stop; [exact H0|]. apply Forall2_same_length_lookup_2; [cbn in Hl; lia|].
      intros j e' c' Ht Hc. by specialize (Hj (S j) e' c' Ht Hc).
    + apply passes_next; [exact H0|]. apply (IH i); [cbn in Hl; lia|cbn in Hi; lia|].
      intros j e' c' Ht Hc. by specialize (Hj (S j) e' c' Ht Hc).
Qed.

(** The handler alone. *)
Lemma explore_alone v e lP lH :
  explore (fun _ e' lP' lH' => let '(_, e1, l1) := alone v e in e' = e1 /\ lP' = lP /\ lH' = lH ++ l1) Next v e lP lH.
Proof.
  assert (H : forall Q, (forall o, match o with Next | Stop _ => True | _ => False end -> Q o (alone v e).1.2 lP (lH ++ (alone v e).2)) ->
    explore Q Next v e lP lH).
  { revert e lH. induction v as [|r|f k IH|f x k IH|ev k IH]; intros e lH Q HQ; apply explore_eq; cbn in HQ;
      rewrite ?app_nil_r in HQ; split_and!; try done; try (by apply HQ); intros v' e' l' [= <- <- <-].
    - rewrite app_nil_r. by apply IH.
    - rewrite app_nil_r. by apply IH.
    - apply IH. intros o Ho. specialize (HQ o Ho). destruct (alone k e) as [[]]. cbn in *. by rewrite <- app_assoc. }
  apply H. intros o _. by destruct (alone v e) as [[]].
Qed.

(** The handler freed the entry under the thread, which stopped with the value
    it gives behind the loop, and which would have passed all entries after the
    handler. *)
Definition passed_over (e : entry) : Prop := let e1 := (alone bH e).1.2 in alone bP e1 = (Next, e1, []).

Definition vanished (e0 : entry) (o : visit) (e : entry) (lP lH : list table_event) : Prop :=
  let '(_, e1, l2) := alone bH e0 in o = Stop afterP /\ e = e1 /\ lP = [] /\ R e0 lH l2.

Lemma passed_over_all t cs :
  no_stop bH -> Forall2 untouched t cs -> Forall passed_over t -> handler_then_thread t afterP cs.
Proof.
  intros HH Hf Hp. unfold handler_then_thread. rewrite loop_no_stop by done.
  destruct (untouched_all t cs HH Hf) as (-> & -> & HR). assert (E : loop bP afterP (map (fun e => (alone bH e).1.2) t)
    = (afterP, map (fun e => (alone bH e).1.2) t, map (fun _ => []) t)); [|by rewrite E].
  clear -Hp. induction Hp as [|e t He Hp IH]; [done|]. cbn [map loop]. unfold passed_over in He. by rewrite He, IH.
Qed.

(** An entry at the end of the race. *)
Lemma race_local t sched i r r2 :
  g_p (race sched t) = Done i r -> g_h (race sched t) = Done (length t) r2 ->
  forall j e c (Q : visit -> entry -> list table_event -> list table_event -> Prop),
    t !! j = Some e -> g_cells (race sched t) !! j = Some c -> explore Q bP bH e [] [] ->
    match status (Done i r) j with Some o => Q o (c_entry c) (c_plog c) (c_hlog c) | None => untouched e c end.
Proof.
  intros E1 E2 j e c Q Hj Hc HQ. destruct (race_inv_end t sched) as [_ Hr]. specialize (Hr j e c Hj Hc). rewrite E1, E2 in Hr.
  cbn [status] in *. rewrite (proj2 (Nat.ltb_lt j (length t))) in Hr by (by eapply lookup_lt_Some).
  destruct (j <? i)%nat; [|destruct (j =? i)%nat].
  - by destruct (reaches_explore Q e _ _ c Hr HQ).
  - by destruct (reaches_explore Q e _ _ c Hr HQ).
  - pose proof (reaches_alone _ e _ c Hr (explore_alone bH e [] [])) as He. apply explore_eq in He as (He & _). cbn in He.
    unfold untouched. destruct (alone bH e) as [[? ?] ?]. by destruct He as (-> & -> & ->).
Qed.

(** [X] of the entries the thread has been at; the handler alone on the others. *)
Definition settled (X : entry -> visit -> entry -> list table_event -> list table_event -> Prop) (i : nat) (r : Z) (j : nat)
    (e : entry) (c : cell) : Prop :=
  match status (Done i r) j with Some o => X e o (c_entry c) (c_plog c) (c_hlog c) | None => untouched e c end.

Definition both_orders e o e' lP lH : Prop := thread_first e o e' lP lH /\ handler_first e o e' lP lH.
Definition one_order t e o e' lP lH : Prop :=
  thread_first e o e' lP lH \/ handler_first e o e' lP lH \/ vanished e o e' lP lH /\ Forall passed_over t.

Lemma both_settled (b : bool) i r j e c :
  settled both_orders i r j e c -> settled (if b then thread_first else handler_first) i r j e c.
Proof. unfold settled. destruct (status (Done i r) j); [|done]. intros []. by destruct b. Qed.

Lemma both_passed i r j e c : passed_over e -> settled both_orders i r j e c -> untouched e c.
Proof.
  unfold settled, passed_over, both_orders, handler_first, untouched. intros Hp. destruct (status (Done i r) j) as [o|]; [|done].
  intros [_ H]. destruct (alone bH e) as [[o1 e1] l1]. cbn in Hp. rewrite Hp in H. tauto.
Qed.

(** The order of entry [s] is that of all. *)
Lemma choose_order s i r t cs :
  length cs = length t ->
  (forall j e c, t !! j = Some e -> cs !! j = Some c -> j <> s -> settled both_orders i r j e c) ->
  (forall e c, t !! s = Some e -> cs !! s = Some c -> settled (one_order t) i r s e c) ->
  (exists b : bool, forall j e c, t !! j = Some e -> cs !! j = Some c ->
     settled (if b then thread_first else handler_first) i r j e c)
  \/ Forall2 untouched t cs /\ Forall passed_over t /\ r = afterP.
Proof.
  intros Hl Hoth Hs.
  assert (Hb : forall b : bool, (forall e c, t !! s = Some e -> cs !! s = Some c ->
      settled (if b then thread_first else handler_first) i r s e c) ->
    forall j e c, t !! j = Some e -> cs !! j = Some c -> settled (if b then thread_first else handler_first) i r j e c).
  { intros b Hx j e c Hj Hc. destruct (decide (j = s)) as [->|Hne]; [auto|]. apply both_settled. auto. }
  destruct (t !! s) as [e|] eqn:Ee; [|left; exists true; by apply (Hb true)].
  destruct (cs !! s) as [c|] eqn:Ec; [|left; exists true; by apply (Hb true)].
  specialize (Hs e c eq_refl eq_refl). unfold settled in Hs at 1. destruct (status (Done i r) s) as [o|] eqn:Eo.
  - destruct Hs as [Hs|[Hs|[Hs Hp]]].
    + left. exists true. apply (Hb true). intros ? ? [= <-] [= <-]. unfold settled. by rewrite Eo.
    + left. exists false. apply (Hb false). intros ? ? [= <-] [= <-]. unfold settled. by rewrite Eo.
    + right. unfold vanished in Hs. split_and!; [|done|].
      * apply Forall2_same_length_lookup_2; [done|]. intros j e' c' Hj Hc.
        destruct (decide (j = s)) as [->|Hne].
        -- simplify_eq. unfold untouched. destruct (alone bH e) as [[? ?] ?]. tauto.
        -- eapply both_passed; [|by apply Hoth]. by eapply Forall_lookup_1.
      * destruct (alone bH e) as [[? ?] ?]. destruct Hs as (-> & _). unfold status in Eo. by repeat case_match; simplify_eq.
  - left. exists true. apply (Hb true). intros ? ? [= <-] [= <-]. unfold settled. by rewrite Eo.
Qed.

(** If on every entry both orders give what happens, and one of them on entry
    [s], then on the table one of them does. *)
Lemma linearize s D t sched :
  accesses_le bP D -> accesses_le bH D -> no_stop bH -> t <> [] ->
  (forall j e, t !! j = Some e -> j <> s -> explore (both_orders e) bP bH e [] []) ->
  (forall e, t !! s = Some e -> explore (one_order t e) bP bH e [] []) ->
  (loop_turns D (length t) <= turns true sched)%nat -> (loop_turns D (length t) <= turns false sched)%nat ->
  exists i j r, g_p (race sched t) = Done i r /\ g_h (race sched t) = Done j afterH
    /\ (thread_then_handler t r (g_cells (race sched t)) \/ handler_then_thread t r (g_cells (race sched t))).
Proof.
  intros HP HH Hns Ht Hboth Hone Hm1 Hm2.
  destruct (race_ends D t sched HP HH Ht Hm1 Hm2) as [Ed1 Ed2]. destruct (race_placed t sched Ht Hns) as (Hp1 & Hp2 & Hu).
  destruct (race_inv_end t sched) as [Hl _]. pose proof (race_local t sched) as Hloc.
  destruct (race sched t) as [[|i r] [|i2 r2] cs]; try done. cbn [g_p g_h g_cells placed unstopped] in *. subst i2.
  destruct Hp2 as [?|[_ ->]]; [lia|]. exists i, (length t), r. do 2 (split; [done|]). specialize (Hloc i r afterH eq_refl eq_refl).
  destruct (choose_order s i r t cs) as [[b Hx]|(Hx & Hp & ->)]; [done|..].
  - intros j e c Hj Hc Hne. exact (Hloc j e c _ Hj Hc (Hboth j e Hj Hne)).
  - intros e c Hj Hc. exact (Hloc s e c _ Hj Hc (Hone e Hj)).
  - destruct b; [left; apply passes_thread_first|right; apply passes_handler_first]; try done; by apply (passes_lookup _ i).
  - right. by apply passed_over_all.
Qed.
End Linear.
End Race.

(** * The handler among the functions of the threads *)

Section Handler.
Context (w : Z) (Hw : w <> PID_INVALID).

(** While clear_pid_checkpoint_data() frees the entry of the same worker, the
    handler may find the pid gone already. *)
Definition same_calls (o : op) (e : entry) (l l' : list table_event) : Prop :=
  l = l' \/ (exists pid, o = OClear pid) /\ e_worker e = w /\ l = [EvCleanup PID_INVALID].

#[local] Abbreviation BOTH o := (both_orders (body o) (worker_exit_body w) (same_calls o)).
#[local] Abbreviation ONE o := (one_order (body o) (worker_exit_body w) (after o) (same_calls o)).
#[local] Abbreviation PASSED o := (passed_over (body o) (worker_exit_body w)).
#[local] Abbreviation RACES o Q e := (explore (Q e) (body o) (worker_exit_body w) e [] []).

(** Evaluate the accesses with the tests that are known. *)
Ltac known :=
  repeat match goal with
  | H : (?a =? ?b) = _ |- context [?a =? ?b] => rewrite H
  end.
Ltac explored :=
  unfold both_orders, one_order, vanished, thread_first, handler_first;
  repeat progress (cbn [explore get put alone body after init_body set_checkpointing_body set_checkpointed_body clear_body
    worker_exit_body get_worker_body can_checkpoint_body can_restore_body free_stores
    e_pid e_worker e_state e_abort e_sd app fst snd]; known).
Ltac leaves := repeat match goal with |- _ /\ _ => split end; auto.
(** The ends where one of the orders is to be chosen. *)
Ltac ends :=
  repeat match goal with |- _ /\ _ => split end;
  first [exact I | left; solve [leaves] | right; left; solve [leaves] | right; right; solve [leaves]].

Lemma other_pid_both o pid K e :
  pid <> PID_INVALID -> body o = Read FPid (fun p => if p =? pid then K else Next) -> e_pid e <> pid -> RACES o (BOTH o) e.
Proof.
  intros Hp Hb He. assert (Hr : forall l, same_calls o e l l) by (by left). rewrite Hb.
  assert (E1 : (e_pid e =? pid) = false) by (by apply Z.eqb_neq). assert (E2 : (PID_INVALID =? pid) = false) by (by apply Z.eqb_neq).
  destruct (e_worker e =? w) eqn:E3; explored; leaves.
Qed.

Lemma init_both pid e : e_worker e <> w -> RACES (OInit pid) (BOTH (OInit pid)) e.
Proof.
  intros He. assert (Hr : forall l, same_calls (OInit pid) e l l) by (by left).
  assert (E1 : (e_worker e =? w) = false) by (by apply Z.eqb_neq). assert (E2 : (PID_INVALID =? w) = false) by (by apply Z.eqb_neq).
  destruct (e_pid e =? PID_INVALID) eqn:E3; explored; leaves.
Qed.

(** The thread may take the entry as soon as the handler has stored the pid:
    what the handler still stores is what the thread stores. *)
Lemma init_one t pid e : e_pid e <> PID_INVALID -> RACES (OInit pid) (ONE (OInit pid) t) e.
Proof.
  intros He. assert (Hr : forall l, same_calls (OInit pid) e l l) by (by left).
  assert (E1 : (e_pid e =? PID_INVALID) = false) by (by apply Z.eqb_neq). assert (E2 : (PID_INVALID =? w) = false) by (by apply Z.eqb_neq).
  assert (E4 : (PID_INVALID =? PID_INVALID) = true) by reflexivity.
  destruct (e_worker e =? w) eqn:E3; explored; ends.
Qed.

Lemma checkpointing_one t pid sd e : e_worker e <> w -> RACES (OCheckpointing pid sd) (ONE (OCheckpointing pid sd) t) e.
Proof.
  intros He. assert (Hr : forall l, same_calls (OCheckpointing pid sd) e l l) by (by left).
  destruct e as [p x s ab sd0]. cbn in He. assert (E1 : (x =? w) = false) by (by apply Z.eqb_neq).
  assert (E4 : (Z.b2z true =? 0) = false) by reflexivity. assert (E5 : (Z.b2z false =? 0) = true) by reflexivity.
  destruct (p =? pid) eqn:E2, (s =? STATE_RESTORED) eqn:E3, ab; explored; ends.
Qed.

(** The worker is the last field to be stored. *)
Lemma checkpointed_one t pid worker e : e_worker e <> w -> RACES (OCheckpointed pid worker) (ONE (OCheckpointed pid worker) t) e.
Proof.
  intros He. assert (Hr : forall l, same_calls (OCheckpointed pid worker) e l l) by (by left).
  assert (E1 : (e_worker e =? w) = false) by (by apply Z.eqb_neq).
  destruct (e_pid e =? pid) eqn:E2, (e_state e =? STATE_CHECKPOINTING) eqn:E3, (worker =? w) eqn:E4; explored; ends.
Qed.

(** Both store the same values. *)
Lemma clear_one t pid e : pid <> PID_INVALID -> RACES (OClear pid) (ONE (OClear pid) t) e.
Proof.
  intros Hp. assert (Hr : forall l, same_calls (OClear pid) e l l) by (by left).
  assert (Hz : forall l, e_worker e = w -> same_calls (OClear pid) e [EvCleanup PID_INVALID] l) by (right; eauto).
  assert (E1 : (PID_INVALID =? pid) = false) by (by apply Z.eqb_neq). assert (E2 : (PID_INVALID =? w) = false) by (by apply Z.eqb_neq).
  destruct (e_pid e =? pid) eqn:E4, (e_worker e =? w) eqn:E3; explored; apply Z.eqb_eq in E3 || clear E3; ends.
Qed.

(** The thread may find the pid and then no worker any more. *)
Lemma get_worker_one t pid e :
  pid <> PID_INVALID -> (e_worker e = w -> Forall (PASSED (OWorker pid)) t) -> RACES (OWorker pid) (ONE (OWorker pid) t) e.
Proof.
  intros Hp Ht. assert (Hr : forall l, same_calls (OWorker pid) e l l) by (by left).
  assert (E1 : (PID_INVALID =? pid) = false) by (by apply Z.eqb_neq).
  destruct (e_pid e =? pid) eqn:E4, (e_worker e =? w) eqn:E3; explored; apply Z.eqb_eq in E3 || clear E3; ends.
Qed.

Lemma can_one o t pid r e :
  pid <> PID_INVALID -> body o = Read FPid (fun p => if p =? pid then Stop r else Next) -> RACES o (ONE o t) e.
Proof.
  intros Hp Hb. assert (Hr : forall l, same_calls o e l l) by (by left). rewrite Hb.
  assert (E1 : (PID_INVALID =? pid) = false) by (by apply Z.eqb_neq).
  destruct (e_pid e =? pid) eqn:E4, (e_worker e =? w) eqn:E3; explored; ends.
Qed.

(** ** Which entry the order is about *)

(** Workers are distinct. *)
Definition one_entry_of (t : table) : Prop :=
  forall i j e e', t !! i = Some e -> t !! j = Some e' -> e_worker e = w -> e_worker e' = w -> i = j.

(** The calls of the threads that are made for a process other than that of
    the worker that exits, when they change the entry of the process. *)
Definition racing_ok (o : op) (t : table) : Prop :=
  match o with
  | OInit _ => True
  | OCheckpointing pid _ | OCheckpointed pid _ => pid <> PID_INVALID /\ get_pid_worker pid t <> w
  | OClear pid | OWorker pid | OCanCheckpoint pid | OCanRestore pid => pid <> PID_INVALID
  | OCleanup | OExit _ | OAbort _ => False
  end.

Lemma same_pid_index t i j a b :
  NoDup (used_pids t) -> t !! i = Some a -> t !! j = Some b -> e_pid a <> PID_INVALID -> e_pid a = e_pid b -> i = j.
Proof.
  unfold used_pids. revert i j. induction t as [|e t IH]; intros i j Hn Hi Hj Ha Hab; [done|].
  assert (Hin : forall k x, t !! k = Some x -> e_pid x <> PID_INVALID -> e_pid x ∈ (e_pid <$> filter (fun e => e_pid e <> PID_INVALID) t)).
  { intros k x Hk Hx. apply list_elem_of_fmap. exists x. split; [done|]. apply list_elem_of_filter. split; [done|].
    by eapply list_elem_of_lookup_2. }
  rewrite filter_cons in Hn. destruct i as [|i], j as [|j]; [done|..]; cbn in Hi, Hj; simplify_eq.
  - rewrite decide_True in Hn by done. apply NoDup_cons in Hn as [Hn _]. destruct Hn. rewrite Hab. by apply (Hin j); [|rewrite <- Hab].
  - rewrite decide_True in Hn by congruence. apply NoDup_cons in Hn as [Hn _]. destruct Hn. rewrite <- Hab. by apply (Hin i).
  - f_equal. apply (IH i j); try done. case_decide; [by apply NoDup_cons in Hn as [_ Hn]|done].
Qed.

Lemma get_pid_worker_lookup t s e pid :
  NoDup (used_pids t) -> pid <> PID_INVALID -> t !! s = Some e -> e_pid e = pid -> get_pid_worker pid t = e_worker e.
Proof.
  intros Hn Hp Hs He. unfold get_pid_worker. destruct (update_first _ id t) as [[x t']|] eqn:E.
  - apply update_first_some in E as (l1 & l2 & -> & _ & Hx & _). apply Z.eqb_eq in Hx.
    assert (Hi : s = length l1).
    { apply (same_pid_index _ s (length l1) e x Hn Hs); [|congruence|congruence]. rewrite lookup_app_r, Nat.sub_diag; [done|lia]. }
    subst s. rewrite lookup_app_r, Nat.sub_diag in Hs by lia. by injection Hs as <-.
  - apply update_first_none in E. eapply Forall_lookup_1 in E; [|exact Hs]. cbn in E. by apply Z.eqb_neq in E.
Qed.

(** After the handler nobody has the pid. *)
Lemma worker_passed t s e pid :
  NoDup (used_pids t) -> pid <> PID_INVALID -> t !! s = Some e -> e_pid e = pid -> e_worker e = w ->
  Forall (PASSED (OWorker pid)) t.
Proof.
  intros Hn Hp Hs He Hew. apply Forall_lookup_2. intros j x Hj. unfold passed_over.
  assert (E1 : (PID_INVALID =? pid) = false) by (by apply Z.eqb_neq).
  destruct (decide (j = s)) as [->|Hne].
  - rewrite Hs in Hj. injection Hj as <-. assert (E3 : (e_worker e =? w) = true) by (by apply Z.eqb_eq).
    explored; reflexivity.
  - assert (E2 : (e_pid x =? pid) = false).
    { apply Z.eqb_neq. intros E. apply Hne. apply (same_pid_index t j s x e Hn Hj Hs); congruence. }
    destruct (e_worker x =? w) eqn:E3; explored; reflexivity.
Qed.

Lemma pid_op_linear o pid K t :
  NoDup (used_pids t) -> pid <> PID_INVALID -> body o = Read FPid (fun p => if p =? pid then K else Next) ->
  (forall s e, t !! s = Some e -> e_pid e = pid -> RACES o (ONE o t) e) ->
  exists s, (forall j e, t !! j = Some e -> j <> s -> RACES o (BOTH o) e) /\ (forall e, t !! s = Some e -> RACES o (ONE o t) e).
Proof.
  intros Hn Hp Hb Hone. destruct (decide (Exists (fun e => e_pid e = pid) t)) as [Hex|Hno].
  - apply Exists_exists in Hex as (e & Hin & He). apply list_elem_of_lookup in Hin as [s Hs]. exists s. split.
    + intros j x Hj Hne. eapply other_pid_both; [done..|]. intros E. apply Hne. apply (same_pid_index t j s x e Hn Hj Hs); congruence.
    + intros x Hx. eapply Hone; [exact Hx|]. congruence.
  - exists (length t). split; [|intros e He; apply lookup_lt_Some in He; lia].
    intros j e Hj _. eapply other_pid_both; [done..|]. intros E. apply Hno, Exists_exists. exists e.
    split; [by eapply list_elem_of_lookup_2|done].
Qed.

(** Each of these calls races with the handler on one entry at most. *)
Lemma racing_linear o t :
  table_ok t -> one_entry_of t -> racing_ok o t ->
  exists s, (forall j e, t !! j = Some e -> j <> s -> RACES o (BOTH o) e) /\ (forall e, t !! s = Some e -> RACES o (ONE o t) e).
Proof.
  intros (_ & Hn & Hf) Hone Hok. destruct o as [pid| |pid sd|pid worker|pid|worker|pid|pid|pid|pid]; try done; cbn in Hok.
  - destruct (decide (Exists (fun e => e_worker e = w) t)) as [Hex|Hno].
    + apply Exists_exists in Hex as (e & Hin & He). apply list_elem_of_lookup in Hin as [s Hs]. exists s. split.
      * intros j x Hj Hne. apply init_both. intros E. apply Hne. by apply (Hone j s x e).
      * intros x Hx. apply init_one. intros E. eapply Forall_lookup_1 in Hf; [|exact Hx]. apply Hf in E as [E _]. congruence.
    + exists (length t). split; [|intros e He; apply lookup_lt_Some in He; lia].
      intros j e Hj _. apply init_both. intros E. apply Hno, Exists_exists. exists e. split; [by eapply list_elem_of_lookup_2|done].
  - destruct Hok as [Hp Hg]. eapply (pid_op_linear _ pid); [done..|]. intros s e Hs He. apply checkpointing_one.
    by rewrite <- (get_pid_worker_lookup t s e pid).
  - destruct Hok as [Hp Hg]. eapply (pid_op_linear _ pid); [done..|]. intros s e Hs He. apply checkpointed_one.
    by rewrite <- (get_pid_worker_lookup t s e pid).
  - eapply (pid_op_linear _ pid); [done..|]. intros s e Hs He. by apply clear_one.
  - eapply (pid_op_linear _ pid); [done..|]. intros s e Hs He. apply get_worker_one; [done|]. intros Ew. by eapply worker_passed.
  - eapply (pid_op_linear _ pid); [done..|]. intros s e Hs He. by eapply (can_one _ _ pid).
  - eapply (pid_op_linear _ pid); [done..|]. intros s e Hs He. by eapply (can_one _ _ pid).
Qed.

(** ** The handler's calls *)

Lemma same_calls_concat o t hl l2 :
  one_entry_of t -> Forall3 (same_calls o) t hl l2 ->
  (forall pid, o = OClear pid -> Forall2 (fun e l => e_worker e = w \/ l = []) t l2) ->
  concat hl = concat l2 \/ (exists pid, o = OClear pid) /\ concat hl = [EvCleanup PID_INVALID] /\ Exists (fun e => e_worker e = w) t.
Proof.
  intros Hone H3. revert Hone. induction H3 as [|e l l' t hl l2 Hh H3 IH]; intros Hone Hc; [by left|].
  assert (Hone' : one_entry_of t) by (intros i j a b Hi Hj Ha Hb; specialize (Hone (S i) (S j) a b Hi Hj Ha Hb); lia).
  assert (Hnot : e_worker e = w -> ~ Exists (fun e => e_worker e = w) t).
  { intros He Hex. apply Exists_exists in Hex as (x & Hin & Hx). apply list_elem_of_lookup in Hin as [j Hj].
    by specialize (Hone 0%nat (S j) e x eq_refl Hj He Hx). }
  assert (Hc' : forall pid, o = OClear pid -> Forall2 (fun e l => e_worker e = w \/ l = []) t l2).
  { intros pid Ho. specialize (Hc pid Ho). by inversion_clear Hc. }
  destruct (IH Hone' Hc') as [E|([pid Ho] & E & Hex)]; cbn [concat]; rewrite E.
  - destruct Hh as [->|([pid Ho] & He & ->)]; [by left|]. right. split_and!; [by eexists| |by left].
    specialize (Hc' pid Ho). assert (E' : concat l2 = []); [|by rewrite E'].
    apply Hnot, not_Exists_Forall in He; [|apply _]. clear -Hc' He. induction Hc' as [|x y t l2 Hxy Hc' IH]; [done|].
    apply Forall_cons in He as [He He']. destruct Hxy as [? | ->]; [done|]. cbn. by apply IH.
  - assert (He : e_worker e <> w) by (intros He; by destruct (Hnot He)). specialize (Hc pid Ho). inversion_clear Hc as [|? ? ? ? Hl _].
    destruct Hl as [? | ->]; [done|]. destruct Hh as [->|(_ & ? & _)]; [|done]. right. split_and!; [by eexists|done|by right].
Qed.

(** The handler calls only for its own entries. *)
Lemma handler_calls t t1 :
  Forall2 (fun e e1 => e_worker e1 = w -> e_worker e = w) t t1 ->
  Forall2 (fun e l => e_worker e = w \/ l = []) t (map (fun e => (alone (worker_exit_body w) e).2) t1).
Proof.
  induction 1 as [|e e1 t t1 He Ht IH]; [constructor|]. constructor; [|done]. cbn.
  destruct (Z.eqb_spec (e_worker e1) w); [left; auto|right; done].
Qed.
End Handler.

(** The bodies that race: at most seven accesses to an entry. *)
Definition max_accesses : nat := 7.

Lemma racing_accesses o w t : racing_ok w o t -> accesses_le (body o) max_accesses.
Proof.
  destruct o; try done; intros _; cbn; intros; repeat (case_match; cbn; try done; intros).
Qed.

Lemma worker_exit_accesses w : accesses_le (worker_exit_body w) max_accesses /\ no_stop (worker_exit_body w).
Proof. split; cbn; intros x; by case_match. Qed.

(** What the thread and the handler leave behind: the value of the thread's
    call, the table, and the calls of each. *)
Record outcome := Outcome { out_value : Z; out_table : table; out_calls : list table_event; out_handler_calls : list table_event }.

Definition outcome_of (g : config) : option outcome :=
  match g_p g, g_h g with
  | Done _ r, Done _ _ => Some (Outcome r (map c_entry (g_cells g)) (concat (map c_plog (g_cells g))) (concat (map c_hlog (g_cells g))))
  | _, _ => None
  end.

(** One after the other. *)
Definition call_then_handler (o : op) (w : Z) (t : table) : outcome :=
  let '(r, t1, l) := atomic o t in let '(_, t2, lh) := atomic (OExit w) t1 in Outcome r t2 l lh.
Definition handler_then_call (o : op) (w : Z) (t : table) : outcome :=
  let '(_, t1, lh) := atomic (OExit w) t in let '(r, t2, l) := atomic o t1 in Outcome r t2 l lh.

(** The same, but for the handler that finds the pid of the entry gone. *)
Definition same_outcome (o : op) (x y : outcome) : Prop :=
  out_value x = out_value y /\ out_table x = out_table y /\ out_calls x = out_calls y
  /\ (out_handler_calls x = out_handler_calls y \/ (exists pid, o = OClear pid) /\ out_handler_calls x = [EvCleanup PID_INVALID]).

Definition race_with_handler (o : op) (w : Z) (sched : list bool) (t : table) : config :=
  race (body o) (worker_exit_body w) (after o) (after (OExit w)) sched t.

Lemma same_worker_refl w t : Forall2 (fun e e1 => e_worker e1 = w -> e_worker e = w) t t.
Proof. by induction t; constructor. Qed.

Lemma clear_workers w pid t :
  w <> PID_INVALID -> Forall2 (fun e e1 => e_worker e1 = w -> e_worker e = w) t (clear_pid_checkpoint_data pid t).
Proof. intros Hw. induction t as [|e t IH]; constructor; [|done]. destruct (e_pid e =? pid); cbn; congruence. Qed.

(** C8: the handler of SIGCHLD runs without the lock, on any thread and between
    any two accesses of a thread that is in the middle of one of these calls: it
    clears the entry of worker [w] store by store, while the thread enters a new
    process, sets a process checkpointing or checkpointed, clears one or looks
    one up.  In whatever order the single reads and stores of the two come, both
    end, and the result is the one of the two calls made one after the other, in
    one order or the other: the same value, the same table, the same calls;
    except that, when the thread clears the entry of the same worker, the handler
    may find the pid gone and clean up after process 0.  Workers are distinct,
    and the entry that the thread sets checkpointing or checkpointed is not
    already that of [w]. *)
Theorem handler_race_linear o w t sched :
  table_ok t -> w <> PID_INVALID -> one_entry_of w t -> racing_ok w o t ->
  (loop_turns max_accesses CHECKPOINTED_PIDS_LIMIT <= turns true sched)%nat ->
  (loop_turns max_accesses CHECKPOINTED_PIDS_LIMIT <= turns false sched)%nat ->
  exists x, outcome_of (race_with_handler o w sched t) = Some x
    /\ (same_outcome o x (call_then_handler o w t) \/ same_outcome o x (handler_then_call o w t)).
Proof.
  intros Hok Hw Hone Hr Hm1 Hm2. destruct (worker_exit_accesses w) as [Ha Hns].
  destruct (racing_linear w Hw o t Hok Hone Hr) as (s & Hboth & Hs).
  assert (Hlen : length t = CHECKPOINTED_PIDS_LIMIT) by apply Hok. rewrite <- Hlen in Hm1, Hm2.
  assert (Ht : t <> []) by (by destruct t).
  destruct (linearize (body o) (worker_exit_body w) (after o) (after (OExit w)) (same_calls w o) ltac:(by left) s max_accesses t sched
    (racing_accesses o w t Hr) Ha Hns Ht Hboth Hs Hm1 Hm2) as (i & j & r & Ep & Eh & Hlin).
  unfold outcome_of, race_with_handler. rewrite Ep, Eh. eexists. split; [done|].
  unfold same_outcome, call_then_handler, handler_then_call.
  rewrite <- !loop_atomic. destruct Hlin as [Hlin|Hlin]; [left|right]; revert Hlin.
  - unfold thread_then_handler. pose proof (loop_atomic o t) as Ho. destruct (loop (body o) (after o) t) as [[r1 t1] l1]. cbn [done].
    rewrite <- loop_atomic. change (body (OExit w)) with (worker_exit_body w). rewrite loop_no_stop by done.
    cbn [done]. intros (-> & -> & -> & H3). cbn. do 3 (split; [done|]). apply (same_calls_concat w) in H3; [tauto|done|].
    intros pid ->. apply handler_calls. cbn in Ho. injection Ho as _ -> _. by apply clear_workers.
  - unfold handler_then_thread. change (body (OExit w)) with (worker_exit_body w). rewrite loop_no_stop by done. cbn [done].
    rewrite <- loop_atomic. destruct (loop (body o) (after o) _) as [[r1 t1] l1]. cbn [done].
    intros (-> & -> & -> & H3). cbn. do 3 (split; [done|]). apply (same_calls_concat w) in H3; [tauto|done|].
    intros pid ->. apply handler_calls, same_worker_refl.
Qed.

(** * The calls that do not stand the handler *)

(** Process 7 is checkpointed, and 70 is its worker. *)
Definition table_70 : table :=
  foldl (fun t op => table_step op t) table_init [TAdmit 7; TCheckpointing 7 3; TCheckpointed 7 70].

(** The handler comes in after [n] turns of the thread and runs to its end. *)
Definition interrupt (n : nat) : list bool :=
  let all := loop_turns 9 CHECKPOINTED_PIDS_LIMIT in replicate n true ++ replicate all false ++ replicate all true.

(** try_to_abort_checkpoint() reads the pid and then the state of the entry.
    If the worker exits in between, the handler clears the entry, the state read
    is that of a free entry, and the thread marks the free entry for an abort:
    the next process that gets the entry has its checkpoint aborted.  Called
    before or after the handler, it marks nothing. *)
Theorem abort_marks_free_entry :
  (exists x, outcome_of (race_with_handler (OAbort 7) 70 (interrupt 1) table_70) = Some x
     /\ table_abs (out_table x) = ∅
     /\ (set_pid_checkpointing 8 4 (table_step (TAdmit 8) (out_table x))).1 = [EvAbort 4])
  /\ (set_pid_checkpointing 8 4 (table_step (TAdmit 8) (out_table (call_then_handler (OAbort 7) 70 table_70)))).1 = []
  /\ (set_pid_checkpointing 8 4 (table_step (TAdmit 8) (out_table (handler_then_call (OAbort 7) 70 table_70)))).1 = [].
Proof. split; [eexists; split; [vm_compute; reflexivity|split; vm_compute; reflexivity]|split; vm_compute; reflexivity]. Qed.

(** cleanup_checkpointed_pids() reads the pid of an entry again for kill().  If
    the worker exits in between, what is killed is process 0: every process of
    the service's own process group. *)
Theorem cleanup_kills_group :
  (exists x, outcome_of (race_with_handler OCleanup 70 (interrupt 1) table_70) = Some x
     /\ out_calls x = [EvKill 0; EvCleanup 0])
  /\ out_calls (call_then_handler OCleanup 70 table_70) = [EvKill 7; EvCleanup 7]
  /\ out_calls (handler_then_call OCleanup 70 table_70) = [].
Proof. split; [eexists; split; vm_compute; reflexivity|split; vm_compute; reflexivity]. Qed.

(** * Witnesses *)

(** 8 is admitted into the entry that the handler is clearing. *)
Lemma handler_race_linear_witness :
  exists x, outcome_of (race_with_handler (OInit 8) 70 (interrupt 0) table_70) = Some x
    /\ (same_outcome (OInit 8) x (call_then_handler (OInit 8) 70 table_70)
        \/ same_outcome (OInit 8) x (handler_then_call (OInit 8) 70 table_70)).
Proof.
  apply (handler_race_linear (OInit 8) 70 table_70 (interrupt 0)).
  - apply (table_step_ok (TCheckpointed 7 70)); [|done]. apply (table_step_ok (TCheckpointing 7 3)); [|done].
    apply (table_step_ok (TAdmit 7)); [apply table_init_ok|done].
  - done.
  - intros i j e e' Hi Hj He He'.
    assert (H0 : forall k x, table_70 !! k = Some x -> e_worker x = 70 -> k = 0%nat).
    { intros [|k] x Hk Hx; [done|]. change (table_70 !! S k) with (replicate 47 (Entry 0 0 0 false 0) !! k) in Hk.
      apply lookup_replicate in Hk as [-> _]. done. }
    by rewrite (H0 i e Hi He), (H0 j e' Hj He').
  - exact I.
  - apply Nat.leb_le. vm_compute. reflexivity.
  - apply Nat.leb_le. vm_compute. reflexivity.
Defined.
