(* ===== verification/Sockets.v ===== *)
(** Setting up sockets (memcr.c, libmemcrclient.c): the system calls each
    function makes, in order, with its early returns.  What a call returns is an
    argument; the state is the set of open descriptors, the calls made so far
    and the network namespace. *)
From Stdlib Require Import String.
From stdpp Require Import base list strings.
From S2P Require Import Prelude Io Proto Paths Queue.
#[local] Open Scope Z_scope.

Inductive netns := OwnNs | TargetNs.

Inductive syscall :=
| Sys_unlink (path : string)
| Sys_fchmod (fd mode : Z)
| Sys_setsockopt (fd : Z)
| Sys_bind (fd : Z) (addr : sockaddr)
| Sys_bind_un (fd : Z) (addr : un_addr)
| Sys_chown (path : string) (gid : Z)
| Sys_chmod (path : string) (mode : Z)
| Sys_listen (fd backlog : Z)
| Sys_connect (fd : Z) (addr : sockaddr)
| Sys_connect_un (fd : Z) (addr : un_addr).

Record sys := Sys { sy_open : list Z; sy_calls : list syscall; sy_ns : netns }.

Definition opened (fd : Z) (s : sys) : sys := Sys (if fd <? 0 then sy_open s else fd :: sy_open s) (sy_calls s) (sy_ns s).
(** close() of a descriptor opened in the same function. *)
Fixpoint remove_fd (fd : Z) (l : list Z) : list Z :=
  match l with [] => [] | x :: l => if x =? fd then l else x :: remove_fd fd l end.
Definition closed (fd : Z) (s : sys) : sys := Sys (remove_fd fd (sy_open s)) (sy_calls s) (sy_ns s).
Definition called (c : syscall) (s : sys) : sys := Sys (sy_open s) (sy_calls s ++ [c]) (sy_ns s).

Definition S_IRUSR_IWUSR : Z := 384.               (** 0600 *)
Definition S_IRUSR_IWUSR_IRGRP_IWGRP : Z := 432.   (** 0660 *)

(** ** The socket of the service *)

(** The return values of the calls of [setup_listen_socket], in order. *)
Record listen_ret := ListenRet {
  lr_socket : Z; lr_fchmod : Z; lr_setsockopt : Z; lr_bind : Z; lr_chown : Z; lr_chmod : Z; lr_listen : Z;
}.

(** [sa_data] is the path of a UNIX address. *)
Definition setup_listen_socket (addr : sockaddr) (gid : Z) (r : listen_ret) (s : sys) : Z * sys :=
  let sd := lr_socket r in
  let s := opened sd s in
  if sd <? 0 then (sd, s)
  else
    let err s := (-1, closed sd s) in
    let grp := match addr with AF_UNIX p => if 0 <? gid then Some p else None | AF_INET _ _ => None end in
    let s := match grp with Some _ => called (Sys_fchmod sd S_IRUSR_IWUSR_IRGRP_IWGRP) s | None => s end in
    if match grp with Some _ => negb (lr_fchmod r =? 0) | None => false end then err s
    else
      let s := called (Sys_setsockopt sd) s in
      if negb (lr_setsockopt r =? 0) then err s
      else
        let s := called (Sys_bind sd addr) s in
        if negb (lr_bind r =? 0) then err s
        else
          let listen s :=
            let s := called (Sys_listen sd (Z.of_nat MAX_CLIENT_CONNECTIONS)) s in
            if negb (lr_listen r =? 0) then err s else (sd, s) in
          match grp with
          | None => listen s
          | Some p =>
              let s := called (Sys_chown p gid) s in
              if negb (lr_chown r =? 0) then err s
              else
                let s := called (Sys_chmod p S_IRUSR_IWUSR_IRGRP_IWGRP) s in
                if negb (lr_chmod r =? 0) then err s else listen s
          end.

Definition setup_listen_unix_socket (client_socket_path : string) (gid : Z) (r : listen_ret) (s : sys) : Z * sys :=
  let sun_path := snprintf_path client_socket_path in
  setup_listen_socket (AF_UNIX sun_path) gid r (called (Sys_unlink sun_path) s).

Definition setup_listen_tcp_socket (port : Z) (r : listen_ret) (s : sys) : Z * sys :=
  setup_listen_socket (AF_INET INADDR_ANY (htons port)) (-1) r s.

(** The start of [service_mode]. *)
Definition service_listen (listen_location : string) (gid : Z) (r : listen_ret) (s : sys) : Z * sys :=
  let listen_port := atoi listen_location in
  if 0 <? listen_port then setup_listen_tcp_socket listen_port r s
  else setup_listen_unix_socket listen_location gid r s.

(** ** The client's connection *)

Definition xconnect (addr : sockaddr) (rsocket rconnect : Z) (s : sys) : Z * sys :=
  let cd := rsocket in
  let s := opened cd s in
  if cd <? 0 then (-1, s)
  else
    let s := called (Sys_connect cd addr) s in
    if rconnect <? 0 then (rconnect, closed cd s) else (cd, s).

(** ** The socket for the restore command *)

Record restore_ret := RestoreRet { rr_socket : Z; rr_fchmod : Z; rr_bind : Z; rr_chmod : Z; rr_listen : Z }.

Definition setup_restore_socket_worker (dir : option string) (pid : Z) (r : restore_ret) (s : sys) : Z * sys :=
  let addr_restore := make_restore_socket_address dir pid in
  let rsd := rr_socket r in
  let s := opened rsd s in
  if rsd <? 0 then (rsd, s)
  else
    let path := match addr_restore with UnPath p => Some p | UnAbstract _ => None end in
    let s := match path with Some _ => called (Sys_fchmod rsd S_IRUSR_IWUSR) s | None => s end in
    if match path with Some _ => negb (rr_fchmod r =? 0) | None => false end then (rr_fchmod r, s)
    else
      let s := called (Sys_bind_un rsd addr_restore) s in
      if rr_bind r <? 0 then (rr_bind r, s)
      else
        let s := match path with Some p => called (Sys_chmod p S_IRUSR_IWUSR) s | None => s end in
        if match path with Some _ => negb (rr_chmod r =? 0) | None => false end then (rr_chmod r, s)
        else
          let s := called (Sys_listen rsd 8) s in
          if rr_listen r <? 0 then (rr_listen r, s) else (rsd, s).

Definition setup_restore_socket_service (dir : option string) (pid rsocket rconnect : Z) (s : sys) : Z * sys :=
  let addr_restore := make_restore_socket_address dir pid in
  let rd := rsocket in
  let s := opened rd s in
  if rd <? 0 then (rd, s)
  else
    let s := called (Sys_connect_un rd addr_restore) s in
    if rconnect <? 0 then (rconnect, closed rd s) else (rd, s).

(** ** The socket to the parasite *)

Record create_ret := CreateRet { cr_pid_netns : Z; cr_cur_netns : Z; cr_enter : Z; cr_socket : Z; cr_leave : Z }.

Definition in_ns (n : netns) (s : sys) : sys := Sys (sy_open s) (sy_calls s) n.

Definition parasite_socket_create (use_netns : bool) (r : create_ret) (s : sys) : Z * sys :=
  let '(cur_netns, s) :=
    if use_netns then
      let pid_netns := cr_pid_netns r in
      let s := opened pid_netns s in
      let '(pid_netns, cur_netns, s) :=
        if pid_netns <? 0 then (pid_netns, -1, s)
        else
          let cur_netns := cr_cur_netns r in
          let s := opened cur_netns s in
          if cur_netns <? 0 then (-1, cur_netns, closed pid_netns s) else (pid_netns, cur_netns, s) in
      if 0 <=? pid_netns then
        let s := if cr_enter r =? 0 then in_ns TargetNs s else s in
        (cur_netns, closed pid_netns s)
      else (cur_netns, s)
    else (-1, s) in
  let cd := cr_socket r in
  let s := opened cd s in
  if 0 <=? cur_netns then
    let s := if cr_leave r =? 0 then in_ns OwnNs s else s in
    (cd, closed cur_netns s)
  else (cd, s).

(** * Lemmas *)

Lemma remove_fd_cons fd l : remove_fd fd (fd :: l) = l.
Proof. cbn. by rewrite Z.eqb_refl. Qed.
#[local] Arguments remove_fd : simpl never.

(** What a function that makes a descriptor should leave open. *)
Definition result_open (r : Z) (s s' : sys) : Prop := sy_open s' = if r <? 0 then sy_open s else r :: sy_open s.

(** [setup_listen_socket] closes its socket on every error, and returns it only
    after it has bound it to the address and listens. *)
Theorem listen_socket_ok addr gid r s fd s' :
  setup_listen_socket addr gid r s = (fd, s') ->
  result_open fd s s'
  /\ (0 <= fd -> Sys_bind fd addr ∈ sy_calls s' /\ Sys_listen fd (Z.of_nat MAX_CLIENT_CONNECTIONS) ∈ sy_calls s').
Proof.
  unfold setup_listen_socket, result_open. destruct (lr_socket r <? 0) eqn:Hs.
  { intros [= <- <-]. unfold opened. cbn. rewrite Hs. split; [done|]. tests. lia. }
  assert (Ho : sy_open (opened (lr_socket r) s) = lr_socket r :: sy_open s) by (unfold opened; cbn; by rewrite Hs).
  generalize dependent (opened (lr_socket r) s). intros o Ho E.
  repeat (case_match; simplify_eq/=); rewrite ?Ho, ?Hs, ?remove_fd_cons;
    (split; [done|]); intros; tests; try lia; rewrite !elem_of_app, !elem_of_cons; tauto.
Qed.

(** A client connects where a service started with the same location listens:
    the same path, or the same port on the loopback interface. *)
Theorem client_reaches_service location gid r s fd s' :
  service_listen location gid r s = (fd, s') -> 0 <= fd ->
  exists addr, Sys_bind fd addr ∈ sy_calls s' /\
    (addr = client_addr location
     \/ exists port, addr = AF_INET INADDR_ANY port /\ client_addr location = AF_INET INADDR_LOOPBACK port).
Proof.
  unfold service_listen, client_addr, setup_listen_tcp_socket, setup_listen_unix_socket. intros E Hfd.
  destruct (0 <? atoi location); apply listen_socket_ok in E as [_ E]; destruct (E Hfd) as [Hb _]; eexists;
    (split; [exact Hb|]); [right; eauto|by left].
Qed.

Lemma xconnect_ok addr a b s fd s' : xconnect addr a b s = (fd, s') -> result_open fd s s'.
Proof.
  unfold xconnect, result_open. destruct (a <? 0) eqn:Ha; [|destruct (b <? 0) eqn:Hb]; intros [= <- <-];
    unfold opened; cbn; rewrite ?Ha, ?Hb, ?remove_fd_cons; done.
Qed.

(** The service connects to the address its worker has bound. *)
Lemma restore_socket_meets dir pid r a b s1 fd1 s1' s2 fd2 s2' :
  rr_fchmod r <= 0 -> rr_chmod r <= 0 ->
  setup_restore_socket_worker dir pid r s1 = (fd1, s1') -> 0 <= fd1 ->
  setup_restore_socket_service dir pid a b s2 = (fd2, s2') -> 0 <= fd2 ->
  exists addr, Sys_bind_un fd1 addr ∈ sy_calls s1' /\ Sys_connect_un fd2 addr ∈ sy_calls s2'.
Proof.
  intros Hf Hc E1 H1 E2 H2. exists (make_restore_socket_address dir pid). split.
  - unfold setup_restore_socket_worker in E1. generalize dependent (opened (rr_socket r) s1). intros o E1. repeat (case_match; simplify_eq/=; tests); try lia;
      rewrite ?elem_of_app, ?elem_of_cons; tauto.
  - unfold setup_restore_socket_service in E2. generalize dependent (opened a s2). intros o E2. repeat (case_match; simplify_eq/=; tests); try lia.
    rewrite elem_of_app, elem_of_cons. tauto.
Qed.

(** Every error of [setup_restore_socket_worker] after socket() leaves the
    socket open. *)
Lemma restore_socket_leaks dir pid r s fd s' :
  setup_restore_socket_worker dir pid r s = (fd, s') -> 0 <= rr_socket r -> sy_open s' = rr_socket r :: sy_open s.
Proof.
  unfold setup_restore_socket_worker. intros E Hs. rewrite (proj2 (Z.ltb_ge _ _)) in E by done.
  assert (Ho : sy_open (opened (rr_socket r) s) = rr_socket r :: sy_open s).
  { unfold opened. cbn. by rewrite (proj2 (Z.ltb_ge _ _)). }
  generalize dependent (opened (rr_socket r) s). intros o E Ho. repeat (case_match; simplify_eq/=); done.
Qed.

(** memcr is in its own namespace after [parasite_socket_create] whenever it
    can go back, whatever else fails. *)
Lemma parasite_socket_create_ns netns r s fd s' :
  parasite_socket_create netns r s = (fd, s') -> sy_ns s = OwnNs -> cr_leave r = 0 -> sy_ns s' = OwnNs.
Proof.
  unfold parasite_socket_create. intros E Hns Hl. rewrite Hl in E. cbn [Z.eqb] in E.
  repeat (case_match; simplify_eq/=; tests); try done; try lia.
Qed.
