(* ===== verification/Startup.v ===== *)
(** The parasite before its first connection and around its end (parasite.c):
    the arguments memcr left for it, the start of [service], its messages
    ([ulong_to_hstr], [print], [die]) and its last calls.  Parasite.v continues
    where the service accepts connections. *)
From Stdlib Require Import Ascii String.
From stdpp Require Import base list strings pretty sets.
From S2P Require Import Prelude Io Target Proto Paths Vmas Arch Queue Sockets Inject.
#[local] Open Scope Z_scope.

(** * Messages *)

(** A digit of [ulong_to_hstr], x < 16. *)
Definition hex_digit (x : Z) : ascii :=
  if 9 <? x then ascii_of_nat (Z.to_nat (97 + (x - 10))) else ascii_of_nat (Z.to_nat (48 + x)).

Section Messages.
Context {R : Type} `{Cpu R}.

(** The loop writes from the end of the buffer towards its start; [room] is the
    number of bytes left in front of [p]. *)
Fixpoint hstr_loop (room : nat) (v : Z) (p : text) : run text :=
  if v =? 0 then Ret p
  else match room with
       | O => OutOfFuel
       | S room => hstr_loop room (v / 16) (hex_digit (v mod 16) :: p)
       end.

(** The buffer has sizeof(unsigned long) * 3 bytes, one of them for the 0. *)
Definition hstr_room : nat := Z.to_nat (word_size (R := R) * 3 - 1).

Definition ulong_to_hstr (v : Z) : run text :=
  if v =? 0 then hstr_loop (hstr_room - 1) v ["0"%char] else hstr_loop hstr_room v [].

(** die(): the three messages to descriptor 2, the line number, the text and
    the value as an unsigned long; then the process traps. *)
Definition die_text (line : string) (txt : string) (ret : Z) : run (list text) :=
  let! num := ulong_to_hstr (ulong (R := R) ret) in
  Ret [list_ascii_of_string (line +:+ ": " +:+ txt); num; [newline]].
End Messages.

(** * The arguments *)

(** struct parasite_args as the parasite reads it. *)
Record parasite_args := ParasiteArgs { pa_addr : un_addr; pa_gid : Z; pa_flags : Z }.

(** A C string in a buffer. *)
Fixpoint c_string (b : bytes) : string :=
  match b with
  | [] => EmptyString
  | c :: b => if decide (c = Byte.x00) then EmptyString else String (ascii_of_byte c) (c_string b)
  end.

(** sun_path as bind(2) takes it: a path, or a name after a 0 (the bytes after
    the name are 0 on both sides of the connection). *)
Definition un_addr_of (sun_path : bytes) : un_addr :=
  match sun_path with
  | Byte.x00 :: name => UnAbstract (c_string name)
  | path => UnPath (c_string path)
  end.

Section Start.
Context {R : Type} `{Cpu R}.

Definition parasite_args_of (b : bytes) : parasite_args :=
  ParasiteArgs (un_addr_of (ztake 108 (zdrop 2 b))) (le_combine (ztake (word_size (R := R)) (zdrop 112 b)))
    (le_combine (ztake 1 (zdrop (112 + word_size (R := R)) b))).

(** * The start of service() *)

(** What the calls return, in the order of the code. *)
Record start_ret := StartRet {
  sr_socket : Z; sr_fchmod : Z; sr_bind : Z; sr_chown : Z; sr_chmod : Z; sr_listen : Z; sr_open : Z;
}.

Inductive started :=
| Listening (srvd fpage : Z)           (** about to accept connections *)
| Died (txt : string) (ret : Z).       (** die(txt, ret) *)

Definition service_start (args : parasite_args) (r : start_ret) (s : sys) : started * sys :=
  let path := match pa_addr args with UnPath p => Some p | UnAbstract _ => None end in
  let grp := 0 <? pa_gid args in
  let srvd := sr_socket r in
  let s := opened srvd s in
  if srvd <? 0 then (Died "sys_socket() failed: " srvd, s)
  else
    let fchmod := match path with Some _ => grp | None => false end in
    let s := if fchmod then called (Sys_fchmod srvd S_IRUSR_IWUSR_IRGRP_IWGRP) s else s in
    if fchmod && (sr_fchmod r <? 0) then (Died "sys_fchmod() failed: " (sr_fchmod r), s)
    else
      let s := called (Sys_bind_un srvd (pa_addr args)) s in
      if sr_bind r <? 0 then (Died "sys_bind() failed: " (sr_bind r), s)
      else
        let listen s :=
          let s := called (Sys_listen srvd 1) s in
          if sr_listen r <? 0 then (Died "sys_listen() failed: " (sr_listen r), s)
          else if negb (Z.land (pa_flags args) PARASITE_FLAG_USE_PAGEMAP =? 0) then
            let s := opened (sr_open r) s in
            if sr_open r <? 0 then (Died "open(/proc/self/pagemap) failed: " (sr_open r), s)
            else (Listening srvd (sr_open r), s)
          else (Listening srvd (-1), s) in
        match path with
        | None => listen s
        | Some p =>
            let s := if grp then called (Sys_chown p (pa_gid args)) s else s in
            if grp && (sr_chown r <? 0) then (Died "sys_chown() failed: " (sr_chown r), s)
            else
              let s := called (Sys_chmod p (if grp then S_IRUSR_IWUSR_IRGRP_IWGRP else S_IRUSR_IWUSR)) s in
              if sr_chmod r <? 0 then (Died "sys_chmod() failed: " (sr_chmod r), s) else listen s
        end.

(** The end: [fpage] and the socket are closed, then sys_exit(0). *)
Definition service_end (srvd fpage : Z) (s : sys) : sys :=
  closed srvd (if 0 <=? fpage then closed fpage s else s).
End Start.

(** * Lemmas *)

(** ** Hexadecimal numbers *)

Lemma hex_digit_value x : 0 <= x < 16 -> digit_value (hex_digit x) = x.
Proof.
  intros Hx. assert (E : x ∈ map Z.of_nat (seq 0 16)).
  { apply list_elem_of_In, in_map_iff. exists (Z.to_nat x). split; [lia|]. apply in_seq. lia. }
  repeat (apply elem_of_cons in E as [->|E]; [reflexivity|]). by apply not_elem_of_nil in E.
Qed.

Lemma digits_value_snoc base ds c : digits_value base (ds ++ [c]) = digits_value base ds * base + digit_value c.
Proof. unfold digits_value. by rewrite foldl_app. Qed.

(** Digits already written stay behind the new ones. *)
Lemma hstr_loop_ok n room v p :
  0 <= v < 16 ^ Z.of_nat n -> (n <= room)%nat ->
  exists ds, hstr_loop room v p = Ret (ds ++ p) /\ blen ds <= Z.of_nat n /\ (0 < v -> ds <> [])
    /\ Forall (fun c => is_digit 16 c = true) ds /\ digits_value 16 ds = v.
Proof.
  revert room v p. induction n as [|n IH]; intros room v p Hv Hn.
  - assert (v = 0) as -> by lia. exists []. split_and!; try done; by destruct room.
  - assert (Eq : hstr_loop room v p = (if v =? 0 then Ret p else match room with O => OutOfFuel
      | S room => hstr_loop room (v / 16) (hex_digit (v mod 16) :: p) end)) by (by destruct room).
    rewrite Eq. destruct (Z.eqb_spec v 0) as [->|Hz]; [exists []; split_and!; try done; blia|].
    destruct room as [|room]; [lia|]. pose proof (Z.mod_pos_bound v 16). pose proof (Z.div_mod v 16).
    destruct (IH room (v / 16) (hex_digit (v mod 16) :: p)) as (ds & -> & Hl & _ & Hd & Ev); [|lia|].
    { split; [apply Z.div_pos; lia|]. apply Z.div_lt_upper_bound; [lia|].
      rewrite Nat2Z.inj_succ, Z.pow_succ_r in Hv by lia. lia. }
    exists (ds ++ [hex_digit (v mod 16)]). rewrite <- app_assoc. split_and!; [done|blia|by destruct ds| |].
    + apply Forall_app. split; [done|]. apply Forall_singleton. unfold is_digit. rewrite hex_digit_value by lia. lia.
    + rewrite digits_value_snoc, Ev, hex_digit_value by lia. lia.
Qed.

Section MessageFacts.
Context {R : Type} `{Cpu R} `{!CpuSpec R}.

(** The parasite's messages print numbers right: for every unsigned long,
    [ulong_to_hstr] ends, stays inside its buffer (at most two digits per byte of
    the word, where there is room for almost three) and leaves hexadecimal digits
    that %lx reads back as the number. *)
Theorem ulong_to_hstr_spec v rest :
  0 <= v < 2 ^ (8 * word_size (R := R)) -> no_digit_ahead rest ->
  exists s, ulong_to_hstr (R := R) v = Ret s /\ 0 < blen s <= 2 * word_size (R := R)
    /\ 2 * word_size (R := R) < Z.of_nat (hstr_room (R := R)) + 1
    /\ scan_num 16 (s ++ rest) = Assign (VNum v) rest.
Proof.
  intros Hv Hrest. set (n := Z.to_nat (2 * word_size (R := R))).
  assert (Hn : Z.of_nat n = 2 * word_size (R := R) /\ (1 <= n)%nat /\ (n < hstr_room (R := R))%nat /\ v < 16 ^ Z.of_nat n /\ v <= ULONG_MAX).
  { unfold n, hstr_room, ULONG_MAX. rewrite Z2Nat.id by (pose proof (word_pos (R := R)); lia).
    destruct (cpu_word (R := R)) as [E|E]; rewrite E in *; split_and!; try reflexivity || lia. }
  destruct Hn as (Hn & Hn1 & Hroom & Hv16 & Hmax). unfold ulong_to_hstr. destruct (Z.eqb_spec v 0) as [->|Hz].
  - exists ["0"%char]. split_and!; [by destruct (hstr_room - 1)%nat|blia|blia|lia|].
    apply (scan_num_ok 16 0 ["0"%char] rest); [lia| |done]. split_and!; try done. by apply Forall_singleton.
  - destruct (hstr_loop_ok n (hstr_room (R := R)) v []) as (ds & -> & Hl & Hne & Hd & Ev); [lia|lia|].
    rewrite app_nil_r. exists ds. split_and!; [done| |lia|lia|].
    + destruct ds; [by specialize (Hne ltac:(lia))|blia].
    + apply scan_num_ok; [lia| |done]. split_and!; try done. apply Hne. lia.
Qed.
End MessageFacts.

Lemma ulong_to_hstr_spec_witness :
  let W := word_size (R := x86_64_registers) in
  exists s, ulong_to_hstr (R := x86_64_registers) (2 ^ 64 - 13) = Ret s /\ 0 < blen s <= 2 * W
    /\ 2 * W < Z.of_nat (hstr_room (R := x86_64_registers)) + 1
    /\ scan_num 16 (s ++ [newline]) = Assign (VNum (2 ^ 64 - 13)) [newline].
Proof. apply (ulong_to_hstr_spec (R := x86_64_registers) (2 ^ 64 - 13) [newline]); [cbn; lia|done]. Defined.

(** ** The arguments *)

Definition no_nul (s : string) : Prop := Forall (fun c => c <> Byte.x00) (list_byte_of_string s).

Lemma no_nul_cons a s : no_nul (String a s) <-> byte_of_ascii a <> Byte.x00 /\ no_nul s.
Proof. unfold no_nul. change (list_byte_of_string (String a s)) with (byte_of_ascii a :: list_byte_of_string s). by rewrite Forall_cons. Qed.

Lemma no_nul_append s t : no_nul (s +:+ t) <-> no_nul s /\ no_nul t.
Proof.
  induction s as [|a s IH]; [split; [split; [constructor|done]|by intros [_ ?]]|].
  change (String a s +:+ t) with (String a (s +:+ t)). rewrite !no_nul_cons, IH. tauto.
Qed.

Lemma no_nul_substring n s : no_nul s -> no_nul (String.substring 0 n s).
Proof.
  revert n. induction s as [|a s IH]; intros [|n] Hs; [constructor..|]. apply no_nul_cons in Hs as [Ha Hs].
  cbn. apply no_nul_cons. auto.
Qed.

Lemma no_nul_pretty_go x s : no_nul s -> no_nul (pretty_N_go x s).
Proof.
  revert s. induction (N.lt_wf_0 x) as [x _ IH]; intros s Hs.
  destruct (decide (0 < x)%N) as [H1|H1]; [|assert (x = 0%N) as -> by lia; by rewrite pretty_N_go_0].
  rewrite pretty_N_go_step by done. apply IH; [by apply N.div_lt|]. apply no_nul_cons. split; [|done].
  unfold pretty_N_char. by repeat case_match.
Qed.

Lemma no_nul_fmt_u pid : no_nul (fmt_u pid).
Proof.
  unfold fmt_u, pretty, pretty_N. case_decide; [repeat constructor; done|]. apply no_nul_pretty_go. constructor.
Qed.

(** The string in a buffer that was zeroed first. *)
Lemma c_string_padded s b : no_nul s -> c_string (list_byte_of_string s ++ Byte.x00 :: b) = s.
Proof.
  induction s as [|a s IH]; intros Hs; [done|]. apply no_nul_cons in Hs as [Ha Hs].
  change (list_byte_of_string (String a s)) with (byte_of_ascii a :: list_byte_of_string s). cbn [app c_string].
  rewrite decide_False by done. by rewrite ascii_of_byte_of_ascii, IH.
Qed.

Lemma length_list_byte s : length (list_byte_of_string s) = String.length s.
Proof. induction s as [|a s IH]; [done|]. exact (f_equal S IH). Qed.

(** An address that sun_path holds with a 0 after it. *)
Definition addr_ok (a : un_addr) : Prop :=
  match a with
  | UnPath p => p <> EmptyString /\ no_nul p /\ (String.length p <= 107)%nat
  | UnAbstract n => no_nul n /\ (String.length n <= 106)%nat
  end.

Lemma un_addr_of_bytes a : addr_ok a -> un_addr_of (sun_path_bytes a) = a.
Proof.
  assert (E : forall b, (length b <= 107)%nat ->
    exists z, take 108 (b ++ replicate 108 Byte.x00) = b ++ Byte.x00 :: z).
  { intros b Hb. rewrite take_app_ge by lia. destruct (108 - length b)%nat as [|k] eqn:Ek; [lia|]. by eexists. }
  unfold sun_path_bytes. destruct a as [p|n]; intros Ha.
  - destruct Ha as (Hne & Hn & Hl). destruct (E (list_byte_of_string p)) as (z & ->); [by rewrite length_list_byte|].
    rewrite <- (c_string_padded p z) at 2 by done. destruct p as [|a p]; [done|]. apply no_nul_cons in Hn as [Ha _].
    change (list_byte_of_string (String a p)) with (byte_of_ascii a :: list_byte_of_string p).
    cbn [app un_addr_of]. by destruct (byte_of_ascii a).
  - destruct Ha as (Hn & Hl). destruct (E (Byte.x00 :: list_byte_of_string n)) as (z & ->); [cbn; rewrite length_list_byte; lia|].
    cbn [app un_addr_of]. by rewrite c_string_padded.
Qed.

Lemma parasite_socket_addr_ok dir pid :
  match dir with Some d => no_nul d | None => True end -> addr_ok (parasite_socket_init dir pid).
Proof.
  intros Hd. unfold parasite_socket_init, snprintf_path, SUN_PATH_MAX.
  assert (Hlen : forall s, (String.length (String.substring 0 107 s) <= 107)%nat).
  { generalize 107%nat. intros n s. revert n. induction s as [|a s IH]; intros [|n]; cbn; try lia. specialize (IH n). lia. }
  destruct dir as [d|].
  - split_and!; [| |apply Hlen].
    + by destruct d.
    + apply no_nul_substring. rewrite !no_nul_append. split_and!; [done|repeat constructor; done|apply no_nul_fmt_u].
  - pose proof (Hlen ("#memcr" +:+ fmt_u pid)) as Hl. pose proof (no_nul_fmt_u pid) as Hf.
    change ("#memcr" +:+ fmt_u pid) with (String "#" ("memcr" +:+ fmt_u pid)) in *. cbn [String.substring drop_first] in *.
    split; [|cbn [String.length] in Hl; lia]. apply no_nul_substring. rewrite no_nul_append.
    split; [repeat constructor; done|done].
Qed.

(** ** The start of the service *)

(** The calls it makes on the socket [srvd], in order. *)
Definition start_calls (addr : un_addr) (gid srvd : Z) : list syscall :=
  match addr with
  | UnAbstract _ => [Sys_bind_un srvd addr; Sys_listen srvd 1]
  | UnPath p =>
      if 0 <? gid
      then [Sys_fchmod srvd S_IRUSR_IWUSR_IRGRP_IWGRP; Sys_bind_un srvd addr; Sys_chown p gid;
            Sys_chmod p S_IRUSR_IWUSR_IRGRP_IWGRP; Sys_listen srvd 1]
      else [Sys_bind_un srvd addr; Sys_chmod p S_IRUSR_IWUSR; Sys_listen srvd 1]
  end.

(** What the calls it makes return, in order. *)
Definition start_rets (args : parasite_args) (r : start_ret) : list Z :=
  sr_socket r ::
  match pa_addr args with
  | UnAbstract _ => [sr_bind r]
  | UnPath _ => if 0 <? pa_gid args then [sr_fchmod r; sr_bind r; sr_chown r; sr_chmod r] else [sr_bind r; sr_chmod r]
  end ++ sr_listen r ::
  if negb (Z.land (pa_flags args) PARASITE_FLAG_USE_PAGEMAP =? 0) then [sr_open r] else [].

(** The pagemap file is opened last, when the flag asks for it. *)
Definition start_fpage (flags : Z) (r : start_ret) : Z :=
  if negb (Z.land flags PARASITE_FLAG_USE_PAGEMAP =? 0) then sr_open r else -1.

Ltac start_step :=
  match goal with
  | H : Forall _ (_ :: _) |- _ => apply Forall_cons in H as [? H]
  | |- context [?a <? 0] => rewrite (proj2 (Z.ltb_ge a 0)) by done
  end.

Lemma service_start_ok args r s :
  Forall (fun ret => 0 <= ret) (start_rets args r) ->
  exists s', service_start args r s = (Listening (sr_socket r) (start_fpage (pa_flags args) r), s')
    /\ sy_calls s' = sy_calls s ++ start_calls (pa_addr args) (pa_gid args) (sr_socket r)
    /\ sy_open s' = (if 0 <=? start_fpage (pa_flags args) r then [start_fpage (pa_flags args) r] else [])
                      ++ sr_socket r :: sy_open s.
Proof.
  unfold start_rets, start_fpage, service_start. intros Hr. apply Forall_cons in Hr as [H0 Hr]. start_step.
  destruct (pa_addr args) as [p|n] eqn:Ea, (0 <? pa_gid args) eqn:Eg;
    destruct (negb (Z.land (pa_flags args) PARASITE_FLAG_USE_PAGEMAP =? 0)) eqn:Ef;
    cbn [app andb] in *; repeat start_step; cbn [andb]; eexists; (split; [reflexivity|]);
    cbn [sy_calls sy_open called opened]; repeat start_step; rewrite <- ?app_assoc; unfold start_calls; rewrite ?Eg;
    (split; [done|]); try rewrite (proj2 (Z.leb_le 0 (sr_open r))) by done; done.
Qed.

(** Any call that fails ends the parasite before it accepts a connection (the
    open of the pagemap comes after listen(2)). *)
Lemma service_start_dies args r s :
  ~ Forall (fun ret => 0 <= ret) (start_rets args r) ->
  exists txt ret s', service_start args r s = (Died txt ret, s') /\ ret < 0 /\ ret ∈ start_rets args r.
Proof.
  intros Hn. destruct (service_start args r s) as [[srvd fpage|txt ret] s'] eqn:E.
  - exfalso. apply Hn. clear Hn. revert E. unfold start_rets, service_start.
    destruct (pa_addr args) as [p|n], (0 <? pa_gid args);
      cbn [andb]; repeat (case_match; try done); intros; repeat (apply Forall_cons_2; [lia|]); apply Forall_nil_2.
  - exists txt, ret, s'. split; [done|]. clear Hn. revert E. unfold start_rets, service_start.
    destruct (pa_addr args) as [p|n], (0 <? pa_gid args);
      cbn [andb]; repeat (case_match; try done); intros; simplify_eq/=; (split; [lia|set_solver]).
Qed.

Section Handover.
Context {R : Type} `{Cpu R} `{!CpuSpec R}.
#[local] Abbreviation W := (word_size (R := R)).

Lemma blen_sun_path a : blen (sun_path_bytes a) = 108.
Proof. unfold sun_path_bytes, blen. rewrite length_take, length_app, length_replicate. lia. Qed.

(** What memcr writes is what the parasite reads. *)
Lemma parasite_args_roundtrip a gid flags :
  addr_ok a -> 0 <= gid < 2 ^ (8 * W) -> 0 <= flags < 256 ->
  parasite_args_of (R := R) (parasite_args_bytes (R := R) a gid flags) = ParasiteArgs a gid flags.
Proof.
  intros Ha Hg Hf. pose proof (word_pos (R := R)) as Hw. unfold parasite_args_of, parasite_args_bytes.
  assert (E112 : forall t, zdrop 112 (le_split 2 AF_UNIX_FAMILY ++ sun_path_bytes a ++ replicate 2 Byte.x00 ++ t) = t).
  { intros t. rewrite !app_assoc. rewrite zdrop_app_exact; [done|]. rewrite !blen_app, blen_sun_path. done. }
  rewrite (zdrop_app_exact 2) by done. rewrite (ztake_app_exact 108) by (by rewrite blen_sun_path).
  rewrite un_addr_of_bytes by done. rewrite E112.
  rewrite <- (zdrop_zdrop W 112), E112 by lia.
  rewrite ztake_app_exact by (rewrite blen_le_split; lia). rewrite zdrop_app_exact by (rewrite blen_le_split; lia).
  rewrite ztake_app_exact by done. rewrite !le_combine_split, Z2Nat.id by lia.
  f_equal; apply Z.mod_small; [by rewrite 1?Z.mul_comm|done].
Qed.

Context (args_offset : Z) (dir : option string) (gid : Z).

(** The arguments are in the target's memory, and nothing else is changed. *)
Lemma setup_args_ok pid pagemap base w :
  match dir with Some d => no_nul d | None => True end -> gid < 2 ^ 31 ->
  all_mapped w (base + args_offset) (112 + 2 * W) ->
  exists ret w',
    setup_parasite_args args_offset dir gid pid pagemap base w = Ret (ret, w')
    /\ parasite_args_of (R := R) (range (w_mem w') (base + args_offset) (112 + 2 * W))
       = ParasiteArgs (parasite_socket_init dir pid) (if 0 <? gid then gid else 0)
           (if negb pagemap then PARASITE_FLAG_USE_PAGEMAP else PARASITE_FLAG_NONE)
    /\ forall x, ~ in_range (base + args_offset) (112 + 2 * W) x -> w_mem w' x = w_mem w x.
Proof.
  intros Hd Hg Hm. unfold setup_parasite_args. set (addr := parasite_socket_init dir pid). set (g := if 0 <? gid then gid else 0).
  set (flags := if negb pagemap then PARASITE_FLAG_USE_PAGEMAP else PARASITE_FLAG_NONE).
  assert (Hl : blen (parasite_args_bytes (R := R) addr g flags) = 112 + 2 * W) by apply blen_parasite_args.
  destruct (poke_ok (base + args_offset) (parasite_args_bytes (R := R) addr g flags) w) as (ret & m & -> & Em);
    rewrite ?Hl; [destruct (cpu_word (R := R)) as [E|E]; split; rewrite E; done || lia|done|].
  eexists _, _. split; [done|]. cbn [w_mem setmem]. split; [|intros x Hx; rewrite Em; apply store_out; by rewrite Hl].
  rewrite (range_ext m (store (w_mem w) (base + args_offset) (parasite_args_bytes (R := R) addr g flags))) by auto.
  rewrite <- Hl, range_store. apply parasite_args_roundtrip.
  - by apply parasite_socket_addr_ok.
  - subst g. case_match; tests; [|destruct (cpu_word (R := R)) as [-> | ->]; lia].
    split; [lia|]. destruct (cpu_word (R := R)) as [-> | ->]; lia.
  - by destruct pagemap.
Qed.

(** C15: the parasite listens where memcr looks for it.  Started on the memory
    that [setup_parasite_args] filled in, with every system call succeeding, the
    service binds its socket to the very address [parasite_connect] connects to,
    for the group and with the mode asked for, listens on it, and has the
    pagemap file open exactly when memcr cannot read it.  If one of the calls it
    makes fails, it dies with that call's error and never gets to accept a
    connection (but the socket may be listening already: the pagemap is opened
    last). *)
Theorem parasite_listens_for_memcr pid pagemap base w r s :
  match dir with Some d => no_nul d | None => True end -> gid < 2 ^ 31 ->
  all_mapped w (base + args_offset) (112 + 2 * W) ->
  let addr := parasite_socket_init dir pid in
  let g := if 0 <? gid then gid else 0 in
  exists ret w',
    setup_parasite_args args_offset dir gid pid pagemap base w = Ret (ret, w')
    /\ let args := parasite_args_of (R := R) (range (w_mem w') (base + args_offset) (112 + 2 * W)) in
       (forall x, ~ in_range (base + args_offset) (112 + 2 * W) x -> w_mem w' x = w_mem w x)
       /\ (Forall (fun ret => 0 <= ret) (start_rets args r) ->
           exists s', service_start args r s = (Listening (sr_socket r) (if pagemap then -1 else sr_open r), s')
             /\ sy_calls s' = sy_calls s ++ start_calls addr g (sr_socket r))
       /\ (~ Forall (fun ret => 0 <= ret) (start_rets args r) ->
           exists txt bad s', service_start args r s = (Died txt bad, s') /\ bad < 0 /\ bad ∈ start_rets args r).
Proof.
  intros Hd Hg Hm addr g. destruct (setup_args_ok pid pagemap base w Hd Hg Hm) as (ret & w' & E & Ea & Hx).
  exists ret, w'. split; [done|]. cbn zeta. rewrite Ea. split; [done|]. split; [|apply service_start_dies]. intros Hr.
  destruct (service_start_ok _ r s Hr) as (s' & Es & Ec & _). exists s'. rewrite Es, Ec. split; [|done]. by destruct pagemap.
Qed.
End Handover.

Definition wit_area : tracee x86_64_registers := Tracee (fun _ => 0) (fun _ => Byte.xaa) (fun _ => true) [].

Lemma parasite_listens_for_memcr_witness :
  let W := word_size (R := x86_64_registers) in
  let addr := parasite_socket_init (Some "/run/memcr") 42 in
  exists ret w',
    setup_parasite_args 16 (Some "/run/memcr") 100 42 false 0x1000 wit_area = Ret (ret, w')
    /\ let args := parasite_args_of (R := x86_64_registers) (range (w_mem w') (0x1000 + 16) (112 + 2 * W)) in
       (forall x, ~ in_range (0x1000 + 16) (112 + 2 * W) x -> w_mem w' x = w_mem wit_area x)
       /\ (Forall (fun ret => 0 <= ret) (start_rets args (StartRet 3 0 0 0 0 0 4)) ->
           exists s', service_start args (StartRet 3 0 0 0 0 0 4) (Sys [] [] OwnNs) = (Listening 3 4, s')
             /\ sy_calls s' = [] ++ start_calls addr 100 3)
       /\ (~ Forall (fun ret => 0 <= ret) (start_rets args (StartRet 3 0 0 0 0 0 4)) ->
           exists txt bad s', service_start args (StartRet 3 0 0 0 0 0 4) (Sys [] [] OwnNs) = (Died txt bad, s')
             /\ bad < 0 /\ bad ∈ start_rets args (StartRet 3 0 0 0 0 0 4)).
Proof.
  apply (parasite_listens_for_memcr (R := x86_64_registers) 16 (Some "/run/memcr") 100 42 false 0x1000 wit_area
    (StartRet 3 0 0 0 0 0 4) (Sys [] [] OwnNs)).
  - repeat constructor; done.
  - reflexivity.
  - done.
Defined.
