(* ===== verification/Head.v ===== *)
(** The first instructions of the parasite, per architecture
    (arch/*/parasite-head.S): [__parasite_head_start] at offset 0 of the blob
    sets up the stack, takes the address of the arguments and calls [service]
    (parasite.c); behind the code the file reserves the area of the arguments
    and the stack.  The offsets of the two areas are what gen-offsets.sh finds
    in the linked file and [PARASITE_ARGS_ADDR] of memcr.c uses.  The length of
    an instruction is a parameter. *)
From Stdlib Require Import Ascii String.
From stdpp Require Import base list strings.
From S2P Require Import Prelude Io Target Proto Paths Arch Inject InjectFacts Sockets Startup.
#[local] Open Scope Z_scope.

Definition PARASITE_STACK_SIZE : Z := 16384.
Definition PARASITE_ARG_SIZE : Z := 4096.

(** [__parasite_args] and [__parasite_stack] *)
Inductive hlabel := HArgs | HStack.

Inductive hitem (A : Type) :=
| HLea (d : A) (l : hlabel)        (** leaq, adr, lla: the address of a label *)
| HMov (d s : A)
| HCall                            (** call service, bl service, j service *)
| HTrap
| HAlign (n : Z)                   (** in bytes *)
| HLab (l : hlabel)
| HSpace (n : Z).
Arguments HLea {A} _ _.
Arguments HMov {A} _ _.
Arguments HCall {A}.
Arguments HTrap {A}.
Arguments HAlign {A} _.
Arguments HLab {A} _.
Arguments HSpace {A} _.

(** The file, and the registers of the stack pointer and of the first argument
    of a C function. *)
Class Head (A : Type) := {
  head_code : list (hitem A);
  head_sp : A;
  head_arg : A;
}.

Definition x86_64_head_code : list (hitem X86_64.reg) :=
  [ HAlign 8;
    HLea X86_64.rsp HStack;
    HLea X86_64.rdi HArgs;
    HCall;
    HTrap;
    HAlign 8;
    HLab HArgs; HSpace PARASITE_ARG_SIZE;
    HAlign 16;
    HLab HStack; HSpace PARASITE_STACK_SIZE ].

#[export] Instance x86_64_head : Head X86_64.reg := {|
  head_code := x86_64_head_code; head_sp := X86_64.rsp; head_arg := X86_64.rdi
|}.

(** .align takes a power of two from here on. *)
Definition arm_head_code : list (hitem Arm.reg) :=
  [ HAlign 4;
    HLea Arm.sp HStack;
    HLea Arm.r0 HArgs;
    HCall;
    HTrap;
    HAlign 4;
    HLab HArgs; HSpace PARASITE_ARG_SIZE; HSpace 56;
    HAlign 4;
    HLab HStack; HSpace PARASITE_STACK_SIZE ].

#[export] Instance arm_head : Head Arm.reg := {|
  head_code := arm_head_code; head_sp := Arm.sp; head_arg := Arm.r0
|}.

Definition arm64_head_code : list (hitem Arm64.reg) :=
  [ HAlign 4;
    HLea Arm64.x0 HStack;
    HMov Arm64.sp Arm64.x0;
    HLea Arm64.x0 HArgs;
    HCall;
    HTrap;
    HAlign 4;
    HLab HArgs; HSpace PARASITE_ARG_SIZE;
    HAlign 16;
    HLab HStack; HSpace PARASITE_STACK_SIZE ].

#[export] Instance arm64_head : Head Arm64.reg := {|
  head_code := arm64_head_code; head_sp := Arm64.sp; head_arg := Arm64.x0
|}.

Definition riscv64_head_code : list (hitem Riscv64.reg) :=
  [ HAlign 8;
    HLea Riscv64.a0 HStack;
    HMov Riscv64.sp Riscv64.a0;
    HLea Riscv64.a0 HArgs;
    HCall;
    HTrap;
    HAlign 8;
    HLab HArgs; HSpace PARASITE_ARG_SIZE;
    HLab HStack; HSpace PARASITE_STACK_SIZE ].

#[export] Instance riscv64_head : Head Riscv64.reg := {|
  head_code := riscv64_head_code; head_sp := Riscv64.sp; head_arg := Riscv64.a0
|}.

(** * Layout and execution *)

Section Head.
Context {A : Type} `{EqDecision A} `{Head A}.
(** The lengths of the instructions. *)
Context (len : hitem A -> Z).

Definition hsize (off : Z) (i : hitem A) : Z :=
  match i with
  | HAlign n => (- off) mod n
  | HLab _ => 0
  | HSpace n => n
  | _ => len i
  end.

(** The offset of a label in the code that begins at [off]. *)
Fixpoint offset_of (l : hlabel) (off : Z) (p : list (hitem A)) : Z :=
  match p with
  | [] => off
  | i :: p =>
      match i, l with
      | HLab HArgs, HArgs | HLab HStack, HStack => off
      | _, _ => offset_of l (off + hsize off i) p
      end
  end.

(** Its end. *)
Fixpoint head_end (off : Z) (p : list (hitem A)) : Z :=
  match p with [] => off | i :: p => head_end (off + hsize off i) p end.

Definition args_off : Z := offset_of HArgs 0 head_code.
Definition stack_off : Z := offset_of HStack 0 head_code.
Definition head_size : Z := head_end 0 head_code.

(** The registers when service() is called; [None] if it is not. *)
Fixpoint run_head (base : Z) (p : list (hitem A)) (regs : A -> Z) : option (A -> Z) :=
  match p with
  | HLea d l :: p => run_head base p (set_reg d (base + offset_of l 0 head_code) regs)
  | HMov d s :: p => run_head base p (set_reg d (regs s) regs)
  | HCall :: _ => Some regs
  | HAlign _ :: p | HLab _ :: p => run_head base p regs
  | HTrap :: _ | HSpace _ :: _ | [] => None
  end.

(** From the first byte of the blob. *)
Definition parasite_head_start (base : Z) (regs : A -> Z) : option (A -> Z) := run_head base head_code regs.
End Head.

(** * What the files have in common *)

Class HeadSpec (A : Type) `{EqDecision A} `{Head A} := {
  head_calls len base regs :
    exists regs', parasite_head_start len base regs = Some regs'
      /\ regs' head_arg = base + args_off len /\ regs' head_sp = base + stack_off len;
  head_layout len :
    (forall i, 0 < len i) ->
    0 < args_off len /\ args_off len + PARASITE_ARG_SIZE <= stack_off len < args_off len + PARASITE_ARG_SIZE + 72
    /\ stack_off len + PARASITE_STACK_SIZE = head_size len;
}.

Ltac head_file :=
  unfold args_off, stack_off, head_size;
  cbn [head_code offset_of head_end hsize x86_64_head arm_head arm64_head riscv64_head
    x86_64_head_code arm_head_code arm64_head_code riscv64_head_code];
  unfold PARASITE_ARG_SIZE, PARASITE_STACK_SIZE;
  repeat match goal with
  | |- context [(?a) mod ?n] => let m := fresh "m" in let Hm := fresh "Hm" in
      pose proof (Z.mod_pos_bound a n ltac:(lia)) as Hm; set (m := a mod n) in *; clearbody m
  end; lia.

#[export] Instance x86_64_head_spec : HeadSpec X86_64.reg.
Proof.
  split; [intros; by eexists|]. intros len Hl.
  pose proof (Hl (HLea X86_64.rsp HStack)). pose proof (Hl (HLea X86_64.rdi HArgs)).
  pose proof (Hl HCall). pose proof (Hl HTrap). head_file.
Qed.
#[export] Instance arm_head_spec : HeadSpec Arm.reg.
Proof.
  split; [intros; by eexists|]. intros len Hl.
  pose proof (Hl (HLea Arm.sp HStack)). pose proof (Hl (HLea Arm.r0 HArgs)).
  pose proof (Hl HCall). pose proof (Hl HTrap). head_file.
Qed.
#[export] Instance arm64_head_spec : HeadSpec Arm64.reg.
Proof.
  split; [intros; by eexists|]. intros len Hl.
  pose proof (Hl (HLea Arm64.x0 HStack)). pose proof (Hl (HMov Arm64.sp Arm64.x0)). pose proof (Hl (HLea Arm64.x0 HArgs)).
  pose proof (Hl HCall). pose proof (Hl HTrap). head_file.
Qed.
#[export] Instance riscv64_head_spec : HeadSpec Riscv64.reg.
Proof.
  split; [intros; by eexists|]. intros len Hl.
  pose proof (Hl (HLea Riscv64.a0 HStack)). pose proof (Hl (HMov Riscv64.sp Riscv64.a0)). pose proof (Hl (HLea Riscv64.a0 HArgs)).
  pose proof (Hl HCall). pose proof (Hl HTrap). head_file.
Qed.

(** * Theorems *)

Section Facts.
Context {A : Type} `{EqDecision A} `{Cpu (A -> Z)} `{!CpuSpec (A -> Z)} `{Head A} `{!HeadSpec A}.
#[local] Abbreviation tracee := (tracee (A -> Z)).
#[local] Abbreviation W := (word_size (R := A -> Z)).
Context (len : hitem A -> Z) (Hlen : forall i, 0 < len i).
Context (dir : option string) (gid : Z).

(** sizeof(struct parasite_args) *)
Definition args_size : Z := 112 + 2 * W.

(** C16: the parasite finds its arguments and keeps them.  Memcr writes them at
    the offset of [__parasite_args] into the blob it has mapped at [base]; the
    thread that starts at [base] gets to service() with the address of exactly
    these bytes as its argument, and what it reads there is the socket's address,
    the group and the flags that memcr wrote; and it goes on reading them there as
    long as its stack is not deeper than the area of the arguments has room
    behind them (3968 bytes with 64 bits), whatever it stores on the stack. *)
Theorem parasite_gets_arguments pid pagemap base (w : tracee) regs depth :
  match dir with Some d => no_nul d | None => True end -> gid < 2 ^ 31 ->
  all_mapped w base (head_size len) -> 0 <= depth <= PARASITE_ARG_SIZE - args_size ->
  exists ret w' regs',
    setup_parasite_args (args_off len) dir gid pid pagemap base w = Ret (ret, w')
    /\ parasite_head_start len base regs = Some regs'
    /\ forall m, (forall x, ~ in_range (regs' head_sp - depth) depth x -> m x = w_mem w' x) ->
         parasite_args_of (R := A -> Z) (range m (regs' head_arg) args_size)
         = ParasiteArgs (parasite_socket_init dir pid) (if 0 <? gid then gid else 0)
             (if negb pagemap then PARASITE_FLAG_USE_PAGEMAP else PARASITE_FLAG_NONE).
Proof.
  intros Hd Hg Hm Hdep. destruct (head_layout len Hlen) as (L0 & L1 & L2). destruct (head_calls len base regs) as (regs' & E & Ea & Es).
  destruct (setup_args_ok (args_off len) dir gid pid pagemap base w Hd Hg) as (ret & w' & Ew & Eargs & _).
  { intros x Hx. apply Hm. unfold in_range, args_size, PARASITE_ARG_SIZE, PARASITE_STACK_SIZE in *.
    destruct (cpu_word (R := A -> Z)) as [E8|E8]; rewrite E8 in *; lia. }
  exists ret, w', regs'. split_and!; [done..|]. intros m Em. rewrite Ea, <- Eargs. f_equal. apply range_ext.
  intros x Hx. apply Em. rewrite Es. unfold in_range, args_size in *. lia.
Qed.

(** The stack that the file reserves is never used: the stack pointer starts at
    its lower end and the stack grows downwards, over the area of the arguments;
    a stack of 4168 bytes, about a quarter of what is reserved, has overwritten
    all of them. *)
Theorem stack_runs_over_arguments base regs :
  exists regs', parasite_head_start len base regs = Some regs'
    /\ (forall depth x, in_range (regs' head_sp - depth) depth x -> ~ in_range (base + stack_off len) PARASITE_STACK_SIZE x)
    /\ forall x, in_range (regs' head_arg) args_size x -> in_range (regs' head_sp - 4168) 4168 x.
Proof.
  destruct (head_layout len Hlen) as (L0 & L1 & L2). destruct (head_calls len base regs) as (regs' & E & Ea & Es).
  exists regs'. split; [done|]. rewrite Ea, Es. unfold in_range, args_size, PARASITE_ARG_SIZE in *. split; [lia|].
  intros x. destruct (cpu_word (R := A -> Z)) as [E8|E8]; rewrite E8 in *; lia.
Qed.
End Facts.

(** The stack pointer is aligned for calls where the file says so; on riscv64,
    which has no .align before the stack, it is not when the compiler uses
    compressed instructions: it is 8 more than a multiple of 16. *)
Lemma stack_aligned (len : hitem X86_64.reg -> Z) (len' : hitem Arm64.reg -> Z) :
  stack_off len mod 16 = 0 /\ stack_off len' mod 16 = 0.
Proof.
  assert (Hz : forall z, (z + (- z) mod 16) mod 16 = 0).
  { intros z. rewrite Zplus_mod_idemp_r. by rewrite Z.add_opp_diag_r. }
  split; unfold stack_off; cbn [head_code offset_of hsize x86_64_head arm64_head x86_64_head_code arm64_head_code]; apply Hz.
Qed.

Definition rvc_len (i : hitem Riscv64.reg) : Z :=
  match i with HLea _ _ => 8 | HMov _ _ => 2 | HCall => 4 | HTrap => 2 | _ => 0 end.

Lemma riscv64_stack_misaligned : stack_off rvc_len mod 16 = 8.
Proof. reflexivity. Qed.

Lemma parasite_gets_arguments_witness :
  let len (i : hitem X86_64.reg) := match i with HLea _ _ => 7 | HCall => 5 | _ => 1 end in
  exists ret w' regs',
    setup_parasite_args (args_off len) (Some "/run/memcr") 100 42 false 0x1000 wit_area = Ret (ret, w')
    /\ parasite_head_start len 0x1000 (fun _ => 0) = Some regs'
    /\ forall m, (forall x, ~ in_range (regs' head_sp - 3968) 3968 x -> m x = w_mem w' x) ->
         parasite_args_of (R := x86_64_registers) (range m (regs' head_arg) (args_size (A := X86_64.reg)))
         = ParasiteArgs (parasite_socket_init (Some "/run/memcr") 42) 100 PARASITE_FLAG_USE_PAGEMAP.
Proof.
  intros len. apply (parasite_gets_arguments (A := X86_64.reg) len ltac:(by intros []) (Some "/run/memcr"%string) 100 42 false 0x1000
    wit_area (fun _ => 0) 3968).
  - repeat constructor; done.
  - reflexivity.
  - done.
  - split; vm_compute; congruence.
Defined.
