(* ===== verification/Service.v ===== *)
(** The service of memcr.c: the accepting thread ([service_mode],
    [service_command]), the command thread ([service_command_thread]) with its
    two procedures, and the SIGCHLD handler, over the table and the queue they
    share.  A step of the machine is what a thread does between two points where
    another thread can come in: one function that takes a lock, or one exchange
    with a client or a worker.  What workers, fork() and clients do is the
    choice of the step's label. *)
From stdpp Require Import base list.
From S2P Require Import Prelude Io Proto Queue Table.
#[local] Set Warnings "-clear-no-such-hyp".

(** [struct service_command_ctx]; the connection [c_id] is numbered in the order
    of acceptance, since descriptor numbers are used again. *)
Record command := Command { c_cmd : Z; c_pid : Z; c_id : nat }.

(** What the service does to the outside. *)
Inductive event :=
| Respond (id : nat) (code : Z)      (** send_response_to_client() *)
| Close (id : nat)                   (** close(cd) *)
| Table (e : table_event).

(** Where the accepting thread is in [service_command]. *)
Inductive main_pc :=
| MAccept                            (** select() and accept() *)
| MCanCheckpoint (c : command)
| MInit (c : command)
| MPushCheckpoint (c : command)
| MPushFailed (c : command)
| MCanRestore (c : command)
| MAbort (c : command)
| MPushRestore (c : command)
| MOther (c : command)
| MJoin                              (** pthread_join() after SIGINT *)
| MDone.

(** Where the command thread is in [service_command_thread]. *)
Inductive cmd_pc :=
| CPop                               (** service_cmds_wait_and_pop_front() *)
| CFork (c : command)
| CCheckpointing (c : command) (worker sd : Z)
| CWaitCheckpoint (c : command) (worker : Z)   (** checkpoint_procedure_service() *)
| CCheckpointed (c : command) (worker : Z)
| CClear (c : command)
| CGetWorker (c : command)
| CRestore (c : command) (worker : Z)          (** restore_procedure_service() *)
| CClose (c : command)
| CExit.

Record service := Service {
  sv_table : table;
  sv_lock : bool;                    (** checkpoint_service_data_lock is held for good *)
  sv_queue : queue command;
  sv_main : main_pc;
  sv_cmd : cmd_pc;
  sv_next : nat;                     (** connections accepted so far *)
  sv_events : list event;            (** newest last *)
}.

(** What the system calls of restore_procedure_service() give: the socket of
    setup_restore_socket_service(), _write() of the command, _read() of the
    response and the code it brings. *)
Record exchange := Exchange { x_rd : Z; x_write : Z; x_read : Z; x_code : Z }.

Inductive act :=
| Accept (cmd pid : Z)               (** a client connects and sends a command *)
| Main                               (** the accepting thread goes on *)
| Cmd                                (** the command thread goes on *)
| Forked (worker sd : Z)             (** socketpair() and fork() succeed *)
| ForkFails
| SocketpairFails
| WorkerSays (code : Z)              (** the worker's response arrives *)
| WorkerSilent                       (** it does not: timeout or end of file *)
| Exchanged (x : exchange)           (** the calls restore_procedure_service() makes *)
| Sigchld (worker : Z)               (** a worker has exited *)
| Interrupt.                         (** SIGINT ends the accepting loop *)

Definition set_main (m : main_pc) (es : list event) (s : service) : service :=
  Service (sv_table s) (sv_lock s) (sv_queue s) m (sv_cmd s) (sv_next s) (sv_events s ++ es).
Definition set_cmd (c : cmd_pc) (es : list event) (s : service) : service :=
  Service (sv_table s) (sv_lock s) (sv_queue s) (sv_main s) c (sv_next s) (sv_events s ++ es).
Definition set_table (t : table) (s : service) : service :=
  Service t (sv_lock s) (sv_queue s) (sv_main s) (sv_cmd s) (sv_next s) (sv_events s).
Definition set_queue (q : queue command) (s : service) : service :=
  Service (sv_table s) (sv_lock s) q (sv_main s) (sv_cmd s) (sv_next s) (sv_events s).

(** The first step of [service_command]: the switch. *)
Definition service_command (c : command) : main_pc :=
  if c_cmd c =? MEMCR_CHECKPOINT then MCanCheckpoint c
  else if c_cmd c =? MEMCR_RESTORE then MCanRestore c
  else MOther c.

Definition refuse (c : command) (code : Z) : service -> service :=
  set_main MAccept [Respond (c_id c) code; Close (c_id c)].

(** A step of the accepting thread; with the lock gone it waits forever in the
    first function that takes it. *)
Definition main_step (s : service) : option service :=
  match sv_main s with
  | MAccept | MDone => None
  | MCanCheckpoint c =>
      if sv_lock s then None
      else Some (if can_checkpoint_pid (c_pid c) (sv_table s) =? 0
                 then refuse c MEMCR_INVALID_PID s else set_main (MInit c) [] s)
  | MInit c =>
      if sv_lock s then None
      else Some (set_main (MPushCheckpoint c) [] (set_table (init_pid_checkpoint_data (c_pid c) (sv_table s)) s))
  | MPushCheckpoint c =>
      let '(ret, q) := service_cmds_push_back c (sv_queue s) in
      Some (set_main (if ret =? 0 then MAccept else MPushFailed c) [] (set_queue q s))
  | MPushFailed c =>
      if sv_lock s then None
      else Some (refuse c MEMCR_ERROR_GENERAL (set_table (clear_pid_checkpoint_data (c_pid c) (sv_table s)) s))
  | MCanRestore c =>
      if sv_lock s then None
      else Some (if can_restore_pid (c_pid c) (sv_table s) =? 0
                 then refuse c MEMCR_INVALID_PID s else set_main (MAbort c) [] s)
  | MAbort c =>
      if sv_lock s then None
      else
        let '(es, t, locked) := try_to_abort_checkpoint (c_pid c) (sv_table s) in
        Some (Service t locked (sv_queue s) (MPushRestore c) (sv_cmd s) (sv_next s)
                (sv_events s ++ map Table es))
  | MPushRestore c =>
      let '(ret, q) := service_cmds_push_back c (sv_queue s) in
      let s := set_queue q s in
      Some (if ret =? 0 then set_main MAccept [] s else refuse c MEMCR_ERROR_GENERAL s)
  | MOther c => Some (refuse c MEMCR_ERROR_GENERAL s)
  | MJoin =>
      match sv_cmd s with
      | CExit =>
          if sv_lock s then None
          else
            let '(es, t) := cleanup_checkpointed_pids (sv_table s) in
            Some (set_main MDone (map Table es) (set_table t s))
      | _ => None
      end
  end.

(** A step of the command thread that needs no answer from outside. *)
Definition cmd_step (s : service) : option service :=
  match sv_cmd s with
  | CPop =>
      match service_cmds_pop_front 0 (sv_queue s) with
      | None => None
      | Some (ret, o, q) =>
          let s := set_queue q s in
          Some (match o with
                | Some c => if ret =? 0 then
                    if c_cmd c =? MEMCR_CHECKPOINT then set_cmd (CFork c) [] s
                    else if c_cmd c =? MEMCR_RESTORE then set_cmd (CGetWorker c) [] s
                    else set_cmd (CClose c) [] s
                  else set_cmd CExit [] s
                | None => set_cmd CExit [] s
                end)
      end
  | CCheckpointing c worker sd =>
      if sv_lock s then None
      else
        let '(es, t) := set_pid_checkpointing (c_pid c) sd (sv_table s) in
        Some (set_cmd (CWaitCheckpoint c worker) (map Table es) (set_table t s))
  | CCheckpointed c worker =>
      if sv_lock s then None
      else Some (set_cmd (CClose c) [] (set_table (set_pid_checkpointed (c_pid c) worker (sv_table s)) s))
  | CClear c =>
      if sv_lock s then None
      else Some (set_cmd (CClose c) [] (set_table (clear_pid_checkpoint_data (c_pid c) (sv_table s)) s))
  | CGetWorker c =>
      if sv_lock s then None
      else
        let worker := get_pid_worker (c_pid c) (sv_table s) in
        Some (if worker =? PID_INVALID
              then set_cmd (CClose c) [Respond (c_id c) MEMCR_ERROR_GENERAL; Close (c_id c)] s
              else set_cmd (CRestore c worker) [] s)
  | CClose c => Some (set_cmd CPop [Close (c_id c)] s)
  | CFork _ | CWaitCheckpoint _ _ | CRestore _ _ | CExit => None
  end.

(** checkpoint_procedure_service(): the worker's response, [None] when it could
    not be read; the return value and the events. *)
Definition checkpoint_procedure_service (c : command) (worker : Z) (resp : option Z) : Z * list event :=
  match resp with
  | Some code => (code, [Respond (c_id c) code])
  | None => (MEMCR_ERROR_GENERAL,
             [Table (EvKill (c_pid c)); Table (EvKill worker); Table (EvCleanup (c_pid c));
              Respond (c_id c) MEMCR_ERROR_GENERAL])
  end.

(** restore_procedure_service(): after each failing call it goes on with the next
    one, and [ret] is overwritten; on a negative descriptor write(2) and read(2)
    fail.  The receive timeout only decides whether read(2) gives up. *)
Definition restore_procedure_service (c : command) (worker : Z) (x : exchange) : list event :=
  let rd := x_rd x in
  let ret := if rd <? 0 then -1 else x_write x in
  let ret := if negb (ret =? sizeof_service_command) then -1 else ret in
  let ret := if rd <? 0 then -1 else x_read x in
  let '(es, ret) :=
    if negb (ret =? sizeof_service_response)
    then ([Table (EvKill (c_pid c)); Table (EvKill worker); Table (EvCleanup (c_pid c))], -1) else ([], ret) in
  es ++ [Respond (c_id c) (if (-1 =? ret) || negb (MEMCR_OK =? x_code x) then MEMCR_ERROR_GENERAL else MEMCR_OK)].

(** The exchange in which only the response is open. *)
Definition exchange_of (resp : option Z) : exchange :=
  match resp with
  | Some code => Exchange 5 sizeof_service_command sizeof_service_response code
  | None => Exchange 5 sizeof_service_command (-1) 0
  end.

(** The two procedures wait for a worker. *)
Definition worker_answer (resp : option Z) (s : service) : option service :=
  match sv_cmd s with
  | CWaitCheckpoint c worker =>
      let '(ret, es) := checkpoint_procedure_service c worker resp in
      Some (set_cmd (if ret =? 0 then CCheckpointed c worker else CClear c) es s)
  | CRestore c worker => Some (set_cmd (CClear c) (restore_procedure_service c worker (exchange_of resp)) s)
  | _ => None
  end.

Definition step (a : act) (s : service) : option service :=
  match a with
  | Accept cmd pid =>
      match sv_main s with
      | MAccept =>
          let c := Command cmd pid (sv_next s) in
          Some (Service (sv_table s) (sv_lock s) (sv_queue s) (service_command c) (sv_cmd s)
                  (S (sv_next s)) (sv_events s))
      | _ => None
      end
  | Main => main_step s
  | Cmd => cmd_step s
  | Forked worker sd =>
      match sv_cmd s with
      | CFork c => Some (set_cmd (CCheckpointing c worker sd) [] s)
      | _ => None
      end
  | ForkFails =>
      match sv_cmd s with CFork c => Some (set_cmd (CClear c) [] s) | _ => None end
  | SocketpairFails =>
      match sv_cmd s with CFork c => Some (set_cmd CExit [] s) | _ => None end
  | WorkerSays code => worker_answer (Some code) s
  | WorkerSilent => worker_answer None s
  | Exchanged x =>
      match sv_cmd s with
      | CRestore c worker => Some (set_cmd (CClear c) (restore_procedure_service c worker x) s)
      | _ => None
      end
  | Sigchld worker =>
      if worker <=? 0 then None else
      let '(es, t) := clear_pid_on_worker_exit_non_blocking worker (sv_table s) in
      Some (Service t (sv_lock s) (sv_queue s) (sv_main s) (sv_cmd s) (sv_next s) (sv_events s ++ map Table es))
  | Interrupt =>
      match sv_main s with
      | MAccept => Some (set_main MJoin [] (set_queue (service_cmds_interrupt (sv_queue s)) s))
      | _ => None
      end
  end.

Definition service_init : service :=
  Service table_init false (queue_init (Command 0 0 0)) MAccept CPop 0 [].

Fixpoint run_acts (acts : list act) (s : service) : option service :=
  match acts with
  | [] => Some s
  | a :: acts => match step a s with Some s => run_acts acts s | None => None end
  end.

(** The states the service can get into. *)
Inductive reachable : service -> Prop :=
| reach_init : reachable service_init
| reach_step s a s' : reachable s -> step a s = Some s' -> reachable s'.

Lemma reachable_run acts s s' : reachable s -> run_acts acts s = Some s' -> reachable s'.
Proof.
  revert s. induction acts as [|a acts IH]; simpl; intros s Hs; [by intros [= ->]|].
  destruct (step a s) as [s1|] eqn:E; [|done]. apply IH. by eapply reach_step.
Qed.

Lemma run_acts_app acts1 acts2 s :
  run_acts (acts1 ++ acts2) s = match run_acts acts1 s with Some s => run_acts acts2 s | None => None end.
Proof. revert s. induction acts1 as [|a acts1 IH]; intros s; [done|]. cbn. by destruct (step a s). Qed.

(** The response an exchange brings. *)
Definition exchange_resp (x : exchange) : option Z :=
  if (0 <=? x_rd x) && (x_read x =? sizeof_service_response) then Some (x_code x) else None.

(** Whether connect() or _write() failed does not matter, only the response does. *)
Lemma restore_procedure_eq c worker x :
  restore_procedure_service c worker x =
    match exchange_resp x with
    | Some code => [Respond (c_id c) (if code =? MEMCR_OK then MEMCR_OK else MEMCR_ERROR_GENERAL)]
    | None => [Table (EvKill (c_pid c)); Table (EvKill worker); Table (EvCleanup (c_pid c));
               Respond (c_id c) MEMCR_ERROR_GENERAL]
    end.
Proof.
  unfold restore_procedure_service, exchange_resp. rewrite Z.leb_antisym. cbv zeta.
  destruct (x_rd x <? 0); [done|]. cbn [negb andb]. destruct (Z.eqb_spec (x_read x) sizeof_service_response) as [->|]; [|by cbn].
  cbn [negb]. change (-1 =? sizeof_service_response) with false. rewrite (Z.eqb_sym MEMCR_OK). by destruct (x_code x =? MEMCR_OK).
Qed.

Lemma exchange_resp_of resp : exchange_resp (exchange_of resp) = resp.
Proof. by destruct resp. Qed.

(** Hence an exchange moves the service as a worker's answer does. *)
Lemma exchanged_answer x s s' : step (Exchanged x) s = Some s' -> worker_answer (exchange_resp x) s = Some s'.
Proof.
  cbn. unfold worker_answer. destruct (sv_cmd s); try done. by rewrite !restore_procedure_eq, exchange_resp_of.
Qed.
