(* ===== verification/ServiceFacts.v ===== *)
(** What the service guarantees under every interleaving of its threads, and
    what it does for a client that is alone with it. *)
From stdpp Require Import base list gmap.
From S2P Require Import Prelude Io Proto Queue Table Service.
#[local] Set Warnings "-clear-no-such-hyp".

Lemma submseteq_NoDup {A} (l k : list A) : l ⊆+ k -> NoDup k -> NoDup l.
Proof. intros [k' E]%submseteq_Permutation. rewrite E. by intros [? _]%NoDup_app. Qed.

Lemma submseteq_Forall {A} (P : A -> Prop) l k : l ⊆+ k -> Forall P k -> Forall P l.
Proof. intros [k' E]%submseteq_Permutation. rewrite E. by intros [? _]%Forall_app. Qed.

(** * One response per client *)

Definition response_id (e : event) : option nat := match e with Respond id _ => Some id | _ => None end.
Definition responded (es : list event) : list nat := omap response_id es.

(** The connections a thread may still answer. *)
Definition main_ids (m : main_pc) : list nat :=
  match m with
  | MAccept | MJoin | MDone => []
  | MCanCheckpoint c | MInit c | MPushCheckpoint c | MPushFailed c | MCanRestore c | MAbort c
  | MPushRestore c | MOther c => [c_id c]
  end.
Definition cmd_ids (p : cmd_pc) : list nat :=
  match p with
  | CFork c | CCheckpointing c _ _ | CWaitCheckpoint c _ | CGetWorker c | CRestore c _ => [c_id c]
  | CPop | CCheckpointed _ _ | CClear _ | CClose _ | CExit => []
  end.

Definition all_ids (f : fifo) (s : service) : list nat :=
  main_ids (sv_main s) ++ (c_id <$> f_items f) ++ cmd_ids (sv_cmd s) ++ responded (sv_events s).

Definition responses_inv (s : service) : Prop :=
  exists f, queue_abs (sv_queue s) f /\ NoDup (all_ids f s) /\ Forall (fun id => (id < sv_next s)%nat) (all_ids f s).

Lemma responded_app es1 es2 : responded (es1 ++ es2) = responded es1 ++ responded es2.
Proof. apply omap_app. Qed.

Lemma responded_table es : responded (map Table es) = [].
Proof. induction es; simpl; done. Qed.

(** A step that moves connections on but adds none. *)
Lemma responses_keep f s s' f' :
  queue_abs (sv_queue s') f' -> sv_next s' = sv_next s -> all_ids f' s' ⊆+ all_ids f s ->
  NoDup (all_ids f s) -> Forall (fun id => (id < sv_next s)%nat) (all_ids f s) -> responses_inv s'.
Proof.
  intros Hq Hn Hsub Hnd Hf. exists f'. rewrite Hn. split_and!; [done|by eapply submseteq_NoDup|by eapply submseteq_Forall].
Qed.

Lemma push_cases (q : queue command) c f :
  queue_abs q f ->
  exists f', queue_abs (service_cmds_push_back c q).2 f'
    /\ ((service_cmds_push_back c q).1 = 0 /\ f_items f' = f_items f ++ [c]
        \/ (service_cmds_push_back c q).1 = 1 /\ f_items f' = f_items f).
Proof.
  intros Hq. destruct (push_refines c q f Hq) as [E Hq']. exists (fifo_push c f).2. split; [done|].
  rewrite E. unfold fifo_push. case_bool_decide; simpl; auto.
Qed.

Lemma main_step_responses f s s' :
  queue_abs (sv_queue s) f -> main_step s = Some s' ->
  exists f', queue_abs (sv_queue s') f' /\ sv_next s' = sv_next s /\ all_ids f' s' ⊆+ all_ids f s.
Proof.
  intros Hq. unfold main_step. destruct (sv_main s) as [|c|c|c|c|c|c|c|c| |] eqn:Em; try done;
    try (destruct (sv_lock s); [done|]).
  all: unfold all_ids; rewrite Em; cbn [main_ids].
  - intros [= <-]. exists f. case_match; simpl; rewrite responded_app; simpl; split_and!; try done; solve_submseteq.
  - intros [= <-]. exists f. simpl; rewrite responded_app; simpl; split_and!; try done; solve_submseteq.
  - destruct (push_cases (sv_queue s) c f Hq) as (f' & Hq' & Hc).
    destruct (service_cmds_push_back c (sv_queue s)) as [ret q]. intros [= <-]. exists f'. simpl in *.
    rewrite responded_app, app_nil_r. split_and!; try done.
    destruct Hc as [[-> ->]|[-> ->]]; simpl; rewrite ?fmap_app; simpl; solve_submseteq.
  - intros [= <-]. exists f. simpl; rewrite responded_app; simpl; split_and!; try done; solve_submseteq.
  - intros [= <-]. exists f. case_match; simpl; rewrite responded_app; simpl; split_and!; try done; solve_submseteq.
  - destruct (try_to_abort_checkpoint _ _) as [[es t] b]. intros [= <-]. exists f. simpl.
    rewrite responded_app, responded_table, app_nil_r. split_and!; try done; solve_submseteq.
  - destruct (push_cases (sv_queue s) c f Hq) as (f' & Hq' & Hc).
    destruct (service_cmds_push_back c (sv_queue s)) as [ret q]. intros [= <-]. exists f'. simpl in *.
    destruct Hc as [[-> ->]|[-> ->]]; simpl; rewrite ?fmap_app, ?responded_app; simpl; split_and!; try done; solve_submseteq.
  - intros [= <-]. exists f. simpl; rewrite responded_app; simpl; split_and!; try done; solve_submseteq.
  - destruct (sv_cmd s) eqn:Ec; try done. destruct (sv_lock s); [done|]. intros [= <-]. exists f. simpl.
    rewrite responded_app, responded_table, app_nil_r, Ec. done.
Qed.

Lemma cmd_step_responses f s s' :
  queue_abs (sv_queue s) f -> cmd_step s = Some s' ->
  exists f', queue_abs (sv_queue s') f' /\ sv_next s' = sv_next s /\ all_ids f' s' ⊆+ all_ids f s.
Proof.
  intros Hq. unfold cmd_step. destruct (sv_cmd s) as [|c|c w sd|c w|c w|c|c|c w|c|] eqn:Ec; try done;
    try (destruct (sv_lock s); [done|]).
  all: unfold all_ids; rewrite Ec; cbn [cmd_ids].
  - pose proof (pop_refines 0 (sv_queue s) f Hq) as Hp.
    destruct (service_cmds_pop_front 0 (sv_queue s)) as [[[ret o] q]|]; [|done].
    unfold fifo_pop in Hp. destruct (f_interrupt f); cbn [Z.eqb negb] in Hp.
    { destruct Hp as (-> & -> & Hq'). intros [= <-]. exists f. simpl. rewrite responded_app, app_nil_r. done. }
    destruct (f_items f) as [|c items]; [done|]. destruct Hp as (-> & -> & Hq'). intros [= <-].
    exists (Fifo items false). cbn [Z.eqb]. 
    repeat case_match; simpl; rewrite responded_app, app_nil_r; split_and!; try done; solve_submseteq.
  - destruct (set_pid_checkpointing _ _ _) as [es t]. intros [= <-]. exists f. simpl.
    rewrite responded_app, responded_table, app_nil_r. done.
  - intros [= <-]. exists f. simpl. rewrite responded_app, app_nil_r. done.
  - intros [= <-]. exists f. simpl. rewrite responded_app, app_nil_r. done.
  - intros [= <-]. exists f. case_match; simpl; rewrite responded_app; simpl; split_and!; try done; solve_submseteq.
  - intros [= <-]. exists f. simpl. rewrite responded_app. simpl. rewrite app_nil_r. done.
Qed.

Lemma answer_responses f resp s s' :
  queue_abs (sv_queue s) f -> worker_answer resp s = Some s' ->
  exists f', queue_abs (sv_queue s') f' /\ sv_next s' = sv_next s /\ all_ids f' s' ⊆+ all_ids f s.
Proof.
  intros Hq. unfold worker_answer. destruct (sv_cmd s) as [|c|c w sd|c w|c w|c|c|c w|c|] eqn:Ec; try done.
  all: unfold all_ids; rewrite Ec; cbn [cmd_ids].
  - destruct resp as [code|]; intros [= <-]; exists f; [case_match|]; simpl; rewrite responded_app; simpl;
      split_and!; try done; solve_submseteq.
  - rewrite restore_procedure_eq, exchange_resp_of. destruct resp as [code|]; intros [= <-]; exists f; simpl; rewrite responded_app; simpl;
      split_and!; try done; solve_submseteq.
Qed.

Lemma step_responses a s s' : responses_inv s -> step a s = Some s' -> responses_inv s'.
Proof.
  intros (f & Hq & Hnd & Hf).
  assert (Hkeep : (exists f', queue_abs (sv_queue s') f' /\ sv_next s' = sv_next s /\ all_ids f' s' ⊆+ all_ids f s) ->
    responses_inv s') by (intros (f' & ? & ? & ?); by eapply responses_keep).
  destruct a as [cmd pid| | |w sd| | |code| |x|w| ]; simpl.
  - destruct (sv_main s) eqn:Em; try done. intros [= <-]. exists f. split; [done|].
    assert (E : all_ids f (Service (sv_table s) (sv_lock s) (sv_queue s) (service_command (Command cmd pid (sv_next s)))
      (sv_cmd s) (S (sv_next s)) (sv_events s)) = sv_next s :: all_ids f s).
    { unfold all_ids. simpl. rewrite Em. unfold service_command. simpl. by repeat case_match. }
    rewrite E. split.
    + constructor; [|done]. intros Hin. apply (proj1 (Forall_forall _ _) Hf) in Hin. lia.
    + constructor; [simpl; lia|]. eapply Forall_impl; [done|]. simpl. lia.
  - intros. apply Hkeep. by apply main_step_responses.
  - intros. apply Hkeep. by apply cmd_step_responses.
  - destruct (sv_cmd s) eqn:Ec; try done. intros [= <-]. apply Hkeep. exists f. unfold all_ids. simpl.
    rewrite responded_app, app_nil_r, Ec. done.
  - destruct (sv_cmd s) eqn:Ec; try done. intros [= <-]. apply Hkeep. exists f. unfold all_ids. simpl.
    rewrite responded_app, app_nil_r, Ec. simpl. split_and!; try done; solve_submseteq.
  - destruct (sv_cmd s) eqn:Ec; try done. intros [= <-]. apply Hkeep. exists f. unfold all_ids. simpl.
    rewrite responded_app, app_nil_r, Ec. simpl. split_and!; try done; solve_submseteq.
  - intros. apply Hkeep. by eapply answer_responses.
  - intros. apply Hkeep. by eapply answer_responses.
  - intros E%(exchanged_answer x). apply Hkeep. by eapply answer_responses.
  - case_match; [done|]. intros [= <-]. apply Hkeep. exists f. unfold all_ids. simpl.
    rewrite responded_app, responded_table, app_nil_r. done.
  - destruct (sv_main s) eqn:Em; try done. intros [= <-]. apply Hkeep. exists (Fifo (f_items f) true).
    unfold all_ids. simpl. rewrite responded_app, app_nil_r, Em. split_and!; try done. by apply interrupt_refines.
Qed.

(** C9: under every interleaving of the accepting thread, the command thread,
    the workers and SIGCHLD, a client connection is answered at most once. *)
Theorem at_most_one_response s : reachable s -> NoDup (responded (sv_events s)).
Proof.
  intros Hr. assert (Hinv : responses_inv s).
  { induction Hr as [|s a s' Hr IH Hs]; [|by eapply step_responses].
    exists (Fifo [] false). split_and!; [apply init_refines|constructor|constructor]. }
  destruct Hinv as (f & _ & Hnd & _). eapply submseteq_NoDup; [|exact Hnd]. unfold all_ids. solve_submseteq.
Qed.

(** * The table under interleaving *)

(** The labels of a world in which clients name processes: no pid 0, and
    forked workers have positive pids. *)
Definition act_ok (a : act) : Prop :=
  match a with
  | Accept _ pid => pid <> PID_INVALID
  | Forked worker _ => 0 < worker
  | _ => True
  end.

Inductive reachable_ok : service -> Prop :=
| reach_ok_init : reachable_ok service_init
| reach_ok_step s a s' : reachable_ok s -> act_ok a -> step a s = Some s' -> reachable_ok s'.

Definition main_cmd (m : main_pc) : option command :=
  match m with
  | MAccept | MJoin | MDone => None
  | MCanCheckpoint c | MInit c | MPushCheckpoint c | MPushFailed c | MCanRestore c | MAbort c
  | MPushRestore c | MOther c => Some c
  end.
Definition cmd_cmd (p : cmd_pc) : option command :=
  match p with
  | CPop | CExit => None
  | CFork c | CCheckpointing c _ _ | CWaitCheckpoint c _ | CCheckpointed c _ | CClear c | CGetWorker c
  | CRestore c _ | CClose c => Some c
  end.

Definition has_pid (c : command) : Prop := c_pid c <> PID_INVALID.

(** Every command in flight names a process; the entry about to be made is not
    there yet. *)
Record table_inv (s : service) : Prop := {
  ti_ok : table_ok (sv_table s);
  ti_queue : exists f, queue_abs (sv_queue s) f /\ Forall has_pid (f_items f);
  ti_main : forall c, main_cmd (sv_main s) = Some c -> has_pid c;
  ti_cmd : forall c, cmd_cmd (sv_cmd s) = Some c -> has_pid c;
  ti_fresh : forall c, sv_main s = MInit c -> table_abs (sv_table s) !! c_pid c = None;
}.

(** Steps of the other thread and of the handler keep an absent pid absent. *)
Lemma absent_stays op t pid :
  table_ok t -> op_ok op -> (forall p, op <> TAdmit p) -> table_abs t !! pid = None ->
  table_abs (table_step op t) !! pid = None.
Proof.
  intros Ht Hop Hna Hn. destruct (table_step_ok op t Ht Hop) as [_ ->].
  destruct op; simpl; try done; unfold spec_advance.
  - by destruct (Hna pid0).
  - repeat case_match; try done. destruct (decide (pid = pid0)) as [->|]; [congruence|by rewrite lookup_insert_ne].
  - repeat case_match; try done. destruct (decide (pid = pid0)) as [->|]; [congruence|by rewrite lookup_insert_ne].
  - apply lookup_delete_None. auto.
  - apply map_lookup_filter_None. auto.
Qed.

(** A step of the command thread or of the handler on the table. *)
Lemma table_inv_other s op lk c' q es :
  table_inv s -> op_ok op -> (forall p, op <> TAdmit p) ->
  (exists f, queue_abs q f /\ Forall has_pid (f_items f)) ->
  (forall c, cmd_cmd c' = Some c -> has_pid c) ->
  table_inv (Service (table_step op (sv_table s)) lk q (sv_main s) c' (sv_next s) es).
Proof.
  intros [] Hop Hna Hq Hc. split; simpl; try done.
  - by apply table_step_ok.
  - intros c Hm. apply absent_stays; auto.
Qed.

(** A step that leaves the table alone. *)
Lemma table_inv_move s lk q m c' n es :
  table_inv s -> (exists f, queue_abs q f /\ Forall has_pid (f_items f)) ->
  (forall c, main_cmd m = Some c -> has_pid c) -> (forall c, cmd_cmd c' = Some c -> has_pid c) ->
  (forall c, m = MInit c -> table_abs (sv_table s) !! c_pid c = None) ->
  table_inv (Service (sv_table s) lk q m c' n es).
Proof. intros [] Hq Hm Hc Hf. by split. Qed.

(** A step of the accepting thread that changes the table and goes on to [m]. *)
Lemma table_inv_main s t lk q m es :
  table_inv s -> table_ok t -> (exists f, queue_abs q f /\ Forall has_pid (f_items f)) ->
  (forall c, main_cmd m = Some c -> has_pid c) -> (forall c, m <> MInit c) ->
  table_inv (Service t lk q m (sv_cmd s) (sv_next s) es).
Proof. intros [] Ht Hq Hm Hn. split; try done. simpl. intros c ->. by destruct (Hn c). Qed.

Lemma push_has_pid (q : queue command) c :
  (exists f, queue_abs q f /\ Forall has_pid (f_items f)) -> has_pid c ->
  exists f, queue_abs (service_cmds_push_back c q).2 f /\ Forall has_pid (f_items f).
Proof.
  intros (f & Hq & Hf) Hc. destruct (push_cases q c f Hq) as (f' & Hq' & Hcase). exists f'. split; [done|].
  destruct Hcase as [[_ ->]|[_ ->]]; [|done]. apply Forall_app. split; [done|by apply Forall_singleton].
Qed.

Ltac inv_side := try done; try (by intros ? [= <-]).

Lemma main_step_table s s' : table_inv s -> main_step s = Some s' -> table_inv s'.
Proof.
  intros Hi. unfold main_step. pose proof (ti_main _ Hi) as Hm. pose proof (ti_ok _ Hi) as Ht.
  pose proof (ti_queue _ Hi) as Hq. pose proof (ti_fresh _ Hi) as Hfr. pose proof (ti_cmd _ Hi) as Hc.
  destruct (sv_main s) as [|c|c|c|c|c|c|c|c| |] eqn:Em; try done; try (destruct (sv_lock s); [done|]);
    try specialize (Hm c eq_refl).
  - intros [= <-]. case_match eqn:Ecan; apply (table_inv_move s); inv_side.
    intros c' [= <-]. unfold can_checkpoint_pid in Ecan. rewrite has_pid_abs in Ecan by done.
    case_bool_decide as Hb; [done|]. by apply eq_None_not_Some.
  - intros [= <-]. apply (table_inv_main s); inv_side.
    by apply init_ok; [| |apply Hfr].
  - pose proof (push_has_pid _ c Hq Hm) as Hq'. destruct (service_cmds_push_back c (sv_queue s)) as [ret q].
    intros [= <-]. apply (table_inv_move s); inv_side; case_match; inv_side.
  - intros [= <-]. apply (table_inv_main s); inv_side. by apply clear_ok.
  - intros [= <-]. case_match; apply (table_inv_move s); inv_side.
  - pose proof (abort_ok (c_pid c) (sv_table s) Ht) as [Ha _].
    destruct (try_to_abort_checkpoint _ _) as [[es t] b]. intros [= <-]. apply (table_inv_main s); inv_side.
  - pose proof (push_has_pid _ c Hq Hm) as Hq'. destruct (service_cmds_push_back c (sv_queue s)) as [ret q].
    intros [= <-]. case_match; apply (table_inv_move s); done.
  - intros [= <-]. apply (table_inv_move s); done.
  - pose proof (cleanup_ok (sv_table s) Ht) as [Hcl _]. destruct (sv_cmd s); try done.
    destruct (sv_lock s); [done|]. intros [= <-]. by apply (table_inv_main s).
Qed.

Lemma cmd_step_table s s' : table_inv s -> cmd_step s = Some s' -> table_inv s'.
Proof.
  intros Hi. unfold cmd_step. pose proof (ti_cmd _ Hi) as Hc. pose proof (ti_queue _ Hi) as Hq.
  pose proof (ti_main _ Hi) as Hm. pose proof (ti_fresh _ Hi) as Hfr.
  destruct (sv_cmd s) as [|c|c w sd|c w|c w|c|c|c w|c|] eqn:Ec; try done; try (destruct (sv_lock s); [done|]);
    try specialize (Hc c eq_refl).
  - destruct Hq as (f & Hq & Hf). pose proof (pop_refines 0 (sv_queue s) f Hq) as Hp.
    destruct (service_cmds_pop_front 0 (sv_queue s)) as [[[ret o] q]|]; [|done].
    unfold fifo_pop in Hp. destruct (f_interrupt f); cbn [Z.eqb negb] in Hp.
    { destruct Hp as (-> & -> & Hq'). intros [= <-]. apply (table_inv_move s); eauto. }
    destruct (f_items f) as [|c items]; [done|]. destruct Hp as (-> & -> & Hq'). intros [= <-].
    apply Forall_cons in Hf as [Hc1 Hf]. cbn [Z.eqb].
    repeat case_match; apply (table_inv_move s); inv_side; by eexists.
  - pose proof (table_inv_other s (TCheckpointing (c_pid c) sd) (sv_lock s)) as Ho. simpl in Ho.
    destruct (set_pid_checkpointing _ _ _) as [es t]. intros [= <-]. apply Ho; inv_side.
  - intros [= <-]. apply (table_inv_other s (TCheckpointed (c_pid c) w)); inv_side.
  - intros [= <-]. apply (table_inv_other s (TClear (c_pid c))); inv_side.
  - intros [= <-]. case_match; apply (table_inv_move s); inv_side.
  - intros [= <-]. by apply (table_inv_move s).
Qed.

Lemma answer_table resp s s' : table_inv s -> worker_answer resp s = Some s' -> table_inv s'.
Proof.
  intros Hi. unfold worker_answer. pose proof (ti_cmd _ Hi) as Hc. pose proof Hi as [_ Hq Hm _ Hfr].
  destruct (sv_cmd s) as [|c|c w sd|c w|c w|c|c|c w|c|] eqn:Ec; try done; specialize (Hc c eq_refl).
  - destruct (checkpoint_procedure_service c w resp) as [ret es]. intros [= <-].
    case_match; apply (table_inv_move s); inv_side.
  - intros [= <-]. apply (table_inv_move s); inv_side.
Qed.

Lemma step_table a s s' : table_inv s -> act_ok a -> step a s = Some s' -> table_inv s'.
Proof.
  intros Hi Ha. destruct a as [cmd pid| | |w sd| | |code| |x|w| ]; simpl in *.
  - destruct (sv_main s) eqn:Em; try done. intros [= <-]. pose proof Hi as [].
    apply (table_inv_move s); inv_side; unfold service_command; simpl; repeat case_match; by intros ? [= <-].
  - by apply main_step_table.
  - by apply cmd_step_table.
  - destruct (sv_cmd s) as [|c| | | | | | | |] eqn:Ec; try done. intros [= <-]. pose proof Hi as [].
    apply (table_inv_move s); inv_side. intros ? [= <-]. apply ti_cmd0. by rewrite Ec.
  - destruct (sv_cmd s) as [|c| | | | | | | |] eqn:Ec; try done. intros [= <-]. pose proof Hi as [].
    apply (table_inv_move s); inv_side. intros ? [= <-]. apply ti_cmd0. by rewrite Ec.
  - destruct (sv_cmd s) as [|c| | | | | | | |] eqn:Ec; try done. intros [= <-]. pose proof Hi as [].
    by apply (table_inv_move s).
  - by apply answer_table.
  - by apply answer_table.
  - intros E%(exchanged_answer x). by eapply answer_table.
  - case_match eqn:Ew; [done|]. intros [= <-]. tests. pose proof Hi as [].
    apply (table_inv_other s (TExit w)); try done. simpl. unfold PID_INVALID. lia.
  - destruct (sv_main s) eqn:Em; try done. intros [= <-]. pose proof Hi as []. destruct ti_queue0 as (f & Hq & Hf).
    apply (table_inv_move s); inv_side. exists (Fifo (f_items f) true). split; [by apply interrupt_refines|done].
Qed.

(** C10: as long as clients do not name pid 0 and fork() gives positive pids,
    no interleaving breaks the table: it keeps its 48 entries, no two of them
    carry the same process, and a free entry carries no worker.  (That is all it
    keeps: with a full table a request is queued without an entry.) *)
Theorem service_table_ok s : reachable_ok s -> table_ok (sv_table s).
Proof.
  intros Hr. apply ti_ok. induction Hr as [|s a s' Hr IH Ha Hs]; [|by eapply step_table].
  split; try done; [apply table_init_ok|]. exists (Fifo [] false). split; [apply init_refines|constructor].
Qed.

(** * A client alone *)

(** A checkpoint of [pid] by [worker], from the request to the close. *)
Definition checkpoint_acts (pid worker sd : Z) : list act :=
  [Accept MEMCR_CHECKPOINT pid; Main; Main; Main; Cmd; Forked worker sd; Cmd; WorkerSays MEMCR_OK; Cmd; Cmd].

Definition responses (es : list event) : list (nat * Z) :=
  omap (fun e => match e with Respond id code => Some (id, code) | _ => None end) es.

Definition restore_acts (pid : Z) : list act :=
  [Accept MEMCR_RESTORE pid; Main; Main; Main; Cmd; Cmd; WorkerSays MEMCR_OK; Cmd; Cmd].

(** Nothing is in flight. *)
Definition idle (s : service) : Prop :=
  sv_main s = MAccept /\ sv_cmd s = CPop /\ sv_lock s = false
  /\ queue_abs (sv_queue s) (Fifo [] false) /\ table_ok (sv_table s).

Lemma push_empty (q : queue command) c :
  queue_abs q (Fifo [] false) ->
  exists q', service_cmds_push_back c q = (0, q') /\ queue_abs q' (Fifo [c] false).
Proof.
  intros Hq. destruct (push_refines c q _ Hq) as [E1 E2].
  destruct (service_cmds_push_back c q) as [r q']. simpl in *. subst. by exists q'.
Qed.

Lemma pop_single (q : queue command) c :
  queue_abs q (Fifo [c] false) ->
  exists q', service_cmds_pop_front 0 q = Some (0, Some c, q') /\ queue_abs q' (Fifo [] false).
Proof.
  intros Hq. pose proof (pop_refines 0 q _ Hq) as Hp. simpl in Hp.
  destruct (service_cmds_pop_front 0 q) as [[[r o] q']|]; [|done].
  destruct Hp as (-> & -> & ?). by exists q'.
Qed.

Lemma responses_app es1 es2 : responses (es1 ++ es2) = responses es1 ++ responses es2.
Proof. apply omap_app. Qed.

Lemma responses_table es : responses (map Table es) = [].
Proof. induction es; simpl; done. Qed.

Lemma can_checkpoint_absent pid t :
  table_ok t -> pid <> PID_INVALID -> table_abs t !! pid = None -> can_checkpoint_pid pid t = 1.
Proof.
  intros Ht Hp Hnone. unfold can_checkpoint_pid. rewrite has_pid_abs, Hnone by done.
  by rewrite bool_decide_false by (by intros []).
Qed.

Lemma can_restore_present pid t d :
  table_ok t -> pid <> PID_INVALID -> table_abs t !! pid = Some d -> can_restore_pid pid t = 1.
Proof.
  intros Ht Hp Hsome. unfold can_restore_pid. rewrite has_pid_abs, Hsome by done. by rewrite bool_decide_true by eauto.
Qed.

#[local] Opaque set_pid_checkpointed.
#[local] Opaque set_pid_checkpointing.
#[local] Opaque init_pid_checkpoint_data.
#[local] Opaque clear_pid_checkpoint_data.
#[local] Opaque can_checkpoint_pid.
#[local] Opaque can_restore_pid.
#[local] Opaque try_to_abort_checkpoint.
#[local] Opaque get_pid_worker.
#[local] Opaque service_cmds_push_back.
#[local] Opaque service_cmds_pop_front.

Lemma run_acts_step a acts s s1 : step a s = Some s1 -> run_acts (a :: acts) s = run_acts acts s1.
Proof. intros E. simpl. by rewrite E. Qed.

(** The next label leads to the state [s1], by the rewriting [tac]. *)
Tactic Notation "do_act" constr(s1) "by" tactic3(tac) :=
  rewrite (run_acts_step _ _ _ s1)
    by (cbn [step main_step cmd_step worker_answer sv_main sv_cmd sv_lock sv_table sv_queue c_pid c_cmd c_id];
        tac; reflexivity).

(** The same run when the worker says [code]. *)
Definition answered (code : Z) (acts : list act) : list act :=
  map (fun a => match a with WorkerSays _ => WorkerSays code | _ => a end) acts.

(** A checkpoint, whatever the worker answers: the client gets the answer, and
    the process has an entry afterwards exactly when the answer is MEMCR_OK. *)
Lemma run_checkpoint_answer code pid worker sd s :
  idle s -> pid <> PID_INVALID -> table_abs (sv_table s) !! pid = None ->
  (size (table_abs (sv_table s)) < CHECKPOINTED_PIDS_LIMIT)%nat ->
  exists s1, run_acts (answered code (checkpoint_acts pid worker sd)) s = Some s1 /\ idle s1 /\ sv_next s1 = S (sv_next s)
    /\ table_abs (sv_table s1) = (if code =? MEMCR_OK
         then <[pid := PidData worker STATE_CHECKPOINTED SOCKET_INVALID]> (table_abs (sv_table s)) else table_abs (sv_table s))
    /\ responses (sv_events s1) = responses (sv_events s) ++ [(sv_next s, code)].
Proof.
  destruct s as [t lk q m cm n es]. intros (Hm & Hc & Hl & Hq & Ht) Hp Hnone Hroom.
  cbn [sv_main sv_cmd sv_lock sv_queue sv_table sv_next sv_events] in *. subst.
  set (c := Command MEMCR_CHECKPOINT pid n).
  pose proof (can_checkpoint_absent pid t Ht Hp Hnone) as Hcan.
  destruct (init_ok pid t Ht Hp Hnone) as [Ht1 Ha1].
  unfold spec_init in Ha1. rewrite bool_decide_true in Ha1 by done.
  destruct (push_empty q c Hq) as (q1 & E1 & Hq1). destruct (pop_single q1 c Hq1) as (q2 & E2 & Hq2).
  destruct (table_step_ok (TCheckpointing pid sd) _ Ht1 Hp) as [Ht2 Ha2]. cbn [table_step map_step] in Ht2, Ha2.
  rewrite Ha1 in Ha2. unfold spec_advance in Ha2. rewrite lookup_insert_eq in Ha2.
  change (pd_state fresh_data =? STATE_RESTORED) with true in Ha2. cbn match in Ha2.
  destruct (set_pid_checkpointing pid sd _) as [evs t2] eqn:E3. cbn [snd] in Ht2, Ha2.
  assert (H3 : exists t3, table_ok t3
    /\ (if code =? 0 then set_pid_checkpointed pid worker t2 else clear_pid_checkpoint_data pid t2) = t3
    /\ table_abs t3 = if code =? MEMCR_OK then <[pid := PidData worker STATE_CHECKPOINTED SOCKET_INVALID]> (table_abs t) else table_abs t).
  { destruct (code =? 0) eqn:Ez; change MEMCR_OK with 0; rewrite Ez; eexists; (split; [|split; [reflexivity|]]).
    - by apply (table_step_ok (TCheckpointed pid worker) _ Ht2 Hp).
    - destruct (table_step_ok (TCheckpointed pid worker) _ Ht2 Hp) as [_ Ha]. cbn [table_step map_step] in Ha.
      rewrite Ha, Ha2. unfold spec_advance. rewrite lookup_insert_eq. cbn [pd_state].
      change (STATE_CHECKPOINTING =? STATE_CHECKPOINTING) with true. cbn match. by rewrite !insert_insert_eq.
    - by apply clear_ok.
    - destruct (clear_ok pid t2 Ht2 Hp) as [_ ->]. by rewrite Ha2, !delete_insert_eq, delete_id. }
  destruct H3 as (t3 & Ht3 & Et3 & Ha3).
  set (es1 := ((es ++ []) ++ map Table evs) ++ [Respond n code]).
  exists (Service t3 false q2 MAccept CPop (S n) ((es1 ++ []) ++ [Close n])).
  split; [|split; [by split_and!|split; [done|split]]].
  { unfold checkpoint_acts, answered. cbn [map]. do_act (Service t false q (MCanCheckpoint c) CPop (S n) es) by (idtac).
    do_act (Service t false q (MInit c) CPop (S n) (es ++ [])) by (change (c_pid c) with pid; rewrite Hcan).
    do_act (Service (init_pid_checkpoint_data pid t) false q (MPushCheckpoint c) CPop (S n) ((es ++ []) ++ [])) by (idtac).
    rewrite !app_nil_r. do_act (Service (init_pid_checkpoint_data pid t) false q1 MAccept CPop (S n) (es ++ [])) by (rewrite E1).
    do_act (Service (init_pid_checkpoint_data pid t) false q2 MAccept (CFork c) (S n) ((es ++ []) ++ [])) by (rewrite E2).
    rewrite !app_nil_r.
    do_act (Service (init_pid_checkpoint_data pid t) false q2 MAccept (CCheckpointing c worker sd) (S n) (es ++ [])) by (idtac).
    do_act (Service t2 false q2 MAccept (CWaitCheckpoint c worker) (S n) ((es ++ []) ++ map Table evs)) by (change (c_pid c) with pid; rewrite E3).
    do_act (Service t2 false q2 MAccept (if code =? 0 then CCheckpointed c worker else CClear c) (S n) es1) by (idtac).
    do_act (Service t3 false q2 MAccept (CClose c) (S n) (es1 ++ [])) by (destruct (code =? 0); cbn [cmd_step]; rewrite <- Et3).
    do_act (Service t3 false q2 MAccept CPop (S n) ((es1 ++ []) ++ [Close n])) by (idtac).
    by rewrite !app_nil_r. }
  - cbn [sv_table]. by rewrite Ha3.
  - cbn [sv_events]. unfold es1. rewrite !responses_app, responses_table. by rewrite !app_nil_r.
Qed.

(** What restore_procedure_service() makes of the worker's answer. *)
Definition restore_code (code : Z) : Z := if code =? MEMCR_OK then MEMCR_OK else MEMCR_ERROR_GENERAL.

Lemma run_restore_answer code pid worker s :
  idle s -> pid <> PID_INVALID -> worker <> PID_INVALID ->
  table_abs (sv_table s) !! pid = Some (PidData worker STATE_CHECKPOINTED SOCKET_INVALID) ->
  exists s1, run_acts (answered code (restore_acts pid)) s = Some s1 /\ idle s1 /\ sv_next s1 = S (sv_next s)
    /\ table_abs (sv_table s1) = delete pid (table_abs (sv_table s))
    /\ responses (sv_events s1) = responses (sv_events s) ++ [(sv_next s, restore_code code)].
Proof.
  destruct s as [t lk q m cm n es]. intros (Hm & Hc & Hl & Hq & Ht) Hp Hw Hsome.
  cbn [sv_main sv_cmd sv_lock sv_queue sv_table sv_next sv_events] in *. subst.
  set (c := Command MEMCR_RESTORE pid n).
  pose proof (can_restore_present pid t _ Ht Hp Hsome) as Hcan.
  destruct (abort_ok pid t Ht) as [Ht1 Ha1]. pose proof (abort_unlocks pid t Ht Hp ltac:(eauto)) as Hun.
  destruct (try_to_abort_checkpoint pid t) as [[evs t1] b] eqn:Eab. simpl in Ht1, Ha1, Hun. subst b.
  destruct (push_empty q c Hq) as (q1 & E1 & Hq1). destruct (pop_single q1 c Hq1) as (q2 & E2 & Hq2).
  assert (Hgw : get_pid_worker pid t1 = worker) by (by rewrite get_pid_worker_abs, Ha1, Hsome).
  destruct (clear_ok pid t1 Ht1 Hp) as [Ht2 Ha2].
  exists (Service (clear_pid_checkpoint_data pid t1) false q2 MAccept CPop (S n)
    ((((((es ++ []) ++ map Table evs) ++ []) ++ [Respond n (restore_code code)]) ++ []) ++ [Close n])).
  split; [|split; [by split_and!|split; [done|split]]].
  { unfold restore_acts, answered. cbn [map]. do_act (Service t false q (MCanRestore c) CPop (S n) es) by (idtac).
    do_act (Service t false q (MAbort c) CPop (S n) (es ++ [])) by (change (c_pid c) with pid; rewrite Hcan).
    do_act (Service t1 false q (MPushRestore c) CPop (S n) ((es ++ []) ++ map Table evs)) by (change (c_pid c) with pid; rewrite Eab).
    set (es1 := (es ++ []) ++ map Table evs).
    do_act (Service t1 false q1 MAccept CPop (S n) (es1 ++ [])) by (rewrite E1).
    do_act (Service t1 false q2 MAccept (CGetWorker c) (S n) ((es1 ++ []) ++ [])) by (rewrite E2).
    rewrite !app_nil_r.
    do_act (Service t1 false q2 MAccept (CRestore c worker) (S n) (es1 ++ [])) by (change (c_pid c) with pid; rewrite Hgw, (proj2 (Z.eqb_neq _ _)) by done).
    do_act (Service t1 false q2 MAccept (CClear c) (S n) ((es1 ++ []) ++ [Respond n (restore_code code)]))
      by (rewrite restore_procedure_eq, exchange_resp_of).
    do_act (Service (clear_pid_checkpoint_data pid t1) false q2 MAccept (CClose c) (S n)
      (((es1 ++ []) ++ [Respond n (restore_code code)]) ++ [])) by (idtac).
    do_act (Service (clear_pid_checkpoint_data pid t1) false q2 MAccept CPop (S n)
      ((((es1 ++ []) ++ [Respond n (restore_code code)]) ++ []) ++ [Close n])) by (idtac).
    by rewrite !app_nil_r. }
  - cbn [sv_table]. by rewrite Ha2, Ha1.
  - cbn [sv_events]. rewrite !responses_app, responses_table. by rewrite !app_nil_r.
Qed.

Lemma run_checkpoint pid worker sd s :
  idle s -> pid <> PID_INVALID -> table_abs (sv_table s) !! pid = None ->
  (size (table_abs (sv_table s)) < CHECKPOINTED_PIDS_LIMIT)%nat ->
  exists s1, run_acts (checkpoint_acts pid worker sd) s = Some s1 /\ idle s1 /\ sv_next s1 = S (sv_next s)
    /\ table_abs (sv_table s1) = <[pid := PidData worker STATE_CHECKPOINTED SOCKET_INVALID]> (table_abs (sv_table s))
    /\ responses (sv_events s1) = responses (sv_events s) ++ [(sv_next s, MEMCR_OK)].
Proof. exact (run_checkpoint_answer MEMCR_OK pid worker sd s). Qed.

Lemma run_restore pid worker s :
  idle s -> pid <> PID_INVALID -> worker <> PID_INVALID ->
  table_abs (sv_table s) !! pid = Some (PidData worker STATE_CHECKPOINTED SOCKET_INVALID) ->
  exists s1, run_acts (restore_acts pid) s = Some s1 /\ idle s1 /\ sv_next s1 = S (sv_next s)
    /\ table_abs (sv_table s1) = delete pid (table_abs (sv_table s))
    /\ responses (sv_events s1) = responses (sv_events s) ++ [(sv_next s, MEMCR_OK)].
Proof. exact (run_restore_answer MEMCR_OK pid worker s). Qed.

(** A client that has the service to itself gets what it asks for.  With
    room in the table, a checkpoint request whose worker succeeds is answered
    with MEMCR_OK and leaves the process checkpointed by that worker; the
    restore request that follows is answered with MEMCR_OK and leaves the
    processes of the table as they were; the service is idle again. *)
Theorem checkpoint_then_restore pid worker sd s :
  idle s -> pid <> PID_INVALID -> worker <> PID_INVALID -> table_abs (sv_table s) !! pid = None ->
  (size (table_abs (sv_table s)) < CHECKPOINTED_PIDS_LIMIT)%nat ->
  exists s1 s2,
    run_acts (checkpoint_acts pid worker sd) s = Some s1
    /\ table_abs (sv_table s1) = <[pid := PidData worker STATE_CHECKPOINTED SOCKET_INVALID]> (table_abs (sv_table s))
    /\ run_acts (restore_acts pid) s1 = Some s2
    /\ table_abs (sv_table s2) = table_abs (sv_table s) /\ idle s2
    /\ responses (sv_events s2)
        = responses (sv_events s) ++ [(sv_next s, MEMCR_OK); (S (sv_next s), MEMCR_OK)].
Proof.
  intros Hi Hp Hw Hnone Hroom.
  destruct (run_checkpoint pid worker sd s) as (s1 & E1 & Hi1 & Hn1 & Ha1 & Hr1); [done..|].
  destruct (run_restore pid worker s1) as (s2 & E2 & Hi2 & Hn2 & Ha2 & Hr2); [done..|by rewrite Ha1, lookup_insert_eq|].
  exists s1, s2. split_and!; try done.
  - by rewrite Ha2, Ha1, delete_insert_id.
  - rewrite Hr2, Hr1, Hn1, <- app_assoc. done.
Qed.

(** * Witnesses *)

Definition busy_state : service :=
  match run_acts (take 9 (checkpoint_acts 7 70 3)) service_init with Some s => s | None => service_init end.

Lemma busy_reachable : reachable busy_state.
Proof. apply (reachable_run (take 9 (checkpoint_acts 7 70 3)) service_init); [constructor|by vm_compute]. Qed.

Lemma at_most_one_response_witness : NoDup (responded (sv_events busy_state)).
Proof. apply at_most_one_response, busy_reachable. Defined.

Lemma reachable_ok_run acts s s' :
  Forall act_ok acts -> reachable_ok s -> run_acts acts s = Some s' -> reachable_ok s'.
Proof.
  intros Ha. revert s. induction Ha as [|a acts Ha Hacts IH]; simpl; intros s Hs; [by intros [= ->]|].
  destruct (step a s) as [s1|] eqn:E; [|done]. apply IH. by eapply reach_ok_step.
Qed.

Lemma service_table_ok_witness : table_ok (sv_table busy_state).
Proof.
  apply service_table_ok. apply (reachable_ok_run (take 9 (checkpoint_acts 7 70 3)) service_init);
    [by repeat constructor|constructor|by vm_compute].
Defined.

Lemma checkpoint_then_restore_witness :
  exists s1 s2,
    run_acts (checkpoint_acts 7 70 3) service_init = Some s1
    /\ table_abs (sv_table s1) = <[7 := PidData 70 STATE_CHECKPOINTED SOCKET_INVALID]> (table_abs table_init)
    /\ run_acts (restore_acts 7) s1 = Some s2
    /\ table_abs (sv_table s2) = table_abs table_init /\ idle s2
    /\ responses (sv_events s2) = responses [] ++ [(0%nat, MEMCR_OK); (1%nat, MEMCR_OK)].
Proof.
  apply (checkpoint_then_restore 7 70 3 service_init); try done.
  - split_and!; try done; [apply init_refines|apply table_init_ok].
  - destruct table_init_ok as [_ E]. cbn [sv_table service_init]. rewrite E, map_size_empty. unfold CHECKPOINTED_PIDS_LIMIT. lia.
Defined.
