(* ===== verification/ServiceRaces.v ===== *)
(** Two interleavings of the service's threads (memcr.c) that break it, from any
    idle state and for any process: a second restore request that gets to
    try_to_abort_checkpoint() after the first one's entry is gone, and a checkpoint
    request that comes between the response to a restore and the clearing of its
    entry. *)
From stdpp Require Import base list gmap.
From S2P Require Import Prelude Io Proto Queue Table Service ServiceFacts.
#[local] Set Warnings "-clear-no-such-hyp".

(** * Steps both runs take *)

(** Both threads at rest with the requests [items] in the queue. *)
Definition in_state (m : main_pc) (p : cmd_pc) (items : list command) (s : service) : Prop :=
  sv_main s = m /\ sv_cmd s = p /\ sv_lock s = false
  /\ queue_abs (sv_queue s) (Fifo items false) /\ table_ok (sv_table s).

#[local] Opaque set_pid_checkpointed.
#[local] Opaque set_pid_checkpointing.
#[local] Opaque init_pid_checkpoint_data.
#[local] Opaque clear_pid_checkpoint_data.
#[local] Opaque can_checkpoint_pid.
#[local] Opaque can_restore_pid.
#[local] Opaque try_to_abort_checkpoint.
#[local] Opaque get_pid_worker.
#[local] Opaque service_cmds_push_back.
#[local] Opaque service_cmds_pop_front.
#[local] Opaque clear_pid_on_worker_exit_non_blocking.

(** The state as a constructor, its parts known. *)
Ltac open_state :=
  match goal with
  | |- in_state _ _ _ ?s -> _ =>
      let t := fresh "t" in let q := fresh "q" in let n := fresh "n" in let es := fresh "es" in
      destruct s as [t ? q ? ? n es]; intros (Hm & Hc & Hl & Hq & Ht);
      cbn [sv_main sv_cmd sv_lock sv_queue sv_table sv_next sv_events] in *; subst
  end.

(** Responses of events that hold none. *)
Ltac no_response := cbn [sv_events]; rewrite ?responses_app, ?responses_table; cbn; rewrite ?app_nil_r; done.

(** A restore request up to the exchange with the worker. *)
Definition restore_begin (pid : Z) : list act := [Accept MEMCR_RESTORE pid; Main; Main; Main; Cmd; Cmd].

Lemma restore_begins pid worker s :
  in_state MAccept CPop [] s -> pid <> PID_INVALID -> worker <> PID_INVALID ->
  table_abs (sv_table s) !! pid = Some (PidData worker STATE_CHECKPOINTED SOCKET_INVALID) ->
  exists s1, run_acts (restore_begin pid) s = Some s1
    /\ in_state MAccept (CRestore (Command MEMCR_RESTORE pid (sv_next s)) worker) [] s1
    /\ sv_next s1 = S (sv_next s) /\ table_abs (sv_table s1) = table_abs (sv_table s)
    /\ responses (sv_events s1) = responses (sv_events s).
Proof.
  open_state. intros Hp Hw Hsome. set (c := Command MEMCR_RESTORE pid n).
  pose proof (can_restore_present pid t _ Ht Hp Hsome) as Hcan.
  destruct (abort_ok pid t Ht) as [Ht1 Ha1]. pose proof (abort_unlocks pid t Ht Hp ltac:(eauto)) as Hun.
  destruct (try_to_abort_checkpoint pid t) as [[evs t1] b] eqn:Eab. simpl in Ht1, Ha1, Hun. subst b.
  destruct (push_empty q c Hq) as (q1 & E1 & Hq1). destruct (pop_single q1 c Hq1) as (q2 & E2 & Hq2).
  assert (Hgw : get_pid_worker pid t1 = worker) by (by rewrite get_pid_worker_abs, Ha1, Hsome).
  eexists. split; [|split].
  { unfold restore_begin. do_act (Service t false q (MCanRestore c) CPop (S n) es) by (idtac).
    do_act (Service t false q (MAbort c) CPop (S n) (es ++ [])) by (change (c_pid c) with pid; rewrite Hcan).
    do_act (Service t1 false q (MPushRestore c) CPop (S n) ((es ++ []) ++ map Table evs)) by (change (c_pid c) with pid; rewrite Eab).
    set (es1 := (es ++ []) ++ map Table evs).
    do_act (Service t1 false q1 MAccept CPop (S n) (es1 ++ [])) by (rewrite E1).
    do_act (Service t1 false q2 MAccept (CGetWorker c) (S n) ((es1 ++ []) ++ [])) by (rewrite E2).
    do_act (Service t1 false q2 MAccept (CRestore c worker) (S n) (((es1 ++ []) ++ []) ++ []))
      by (change (c_pid c) with pid; rewrite Hgw, (proj2 (Z.eqb_neq _ _)) by done).
    reflexivity. }
  - by split_and!.
  - split_and!; [done|done|no_response].
Qed.

(** * The table lock is lost *)

(** A second restore of the process is let in by can_restore_pid() while the
    first is at the worker, and gets to try_to_abort_checkpoint() when the first
    one's entry has been cleared. *)
Definition double_restore_acts (pid worker sd : Z) : list act :=
  checkpoint_acts pid worker sd ++ restore_begin pid
  ++ [Accept MEMCR_RESTORE pid; Main; WorkerSays MEMCR_OK; Cmd; Main; Main; Cmd; Cmd].

Lemma abort_locks pid t :
  table_ok t -> pid <> PID_INVALID -> table_abs t !! pid = None -> try_to_abort_checkpoint pid t = ([], t, true).
Proof.
  #[local] Transparent try_to_abort_checkpoint.
  intros Ht Hp Hn. unfold try_to_abort_checkpoint. destruct (update_first _ _ t) as [[e t']|] eqn:E; [|done].
  apply update_first_some in E as (l1 & l2 & -> & _ & He & _). pose proof (has_pid_abs pid _ Ht Hp) as Hh.
  rewrite Hn, bool_decide_false, existsb_app in Hh by (by intros []). cbn in Hh, He. by rewrite He, orb_true_r in Hh.
Qed.
#[local] Opaque try_to_abort_checkpoint.

(** The command thread waits for the lock in get_pid_worker(), for the request
    [c]; the accepting thread has not taken a request past its first lock. *)
Definition wedged (c : command) (s : service) : Prop :=
  sv_lock s = true /\ sv_cmd s = CGetWorker c /\ (c_id c < sv_next s)%nat
  /\ match sv_main s with
     | MAccept | MJoin => True
     | MCanCheckpoint d | MCanRestore d | MOther d => c_id d <> c_id c
     | _ => False
     end.

Lemma second_restore_wedges pid worker c1 s :
  in_state MAccept (CRestore c1 worker) [] s -> c_pid c1 = pid -> pid <> PID_INVALID -> is_Some (table_abs (sv_table s) !! pid) ->
  exists s1, run_acts [Accept MEMCR_RESTORE pid; Main; WorkerSays MEMCR_OK; Cmd; Main; Main; Cmd; Cmd] s = Some s1
    /\ wedged (Command MEMCR_RESTORE pid (sv_next s)) s1
    /\ responses (sv_events s1) = responses (sv_events s) ++ [(c_id c1, MEMCR_OK)].
Proof.
  open_state. intros E1 Hp [d Hd]. set (c := Command MEMCR_RESTORE pid n).
  pose proof (can_restore_present pid t _ Ht Hp Hd) as Hcan. destruct (clear_ok pid t Ht Hp) as [Ht1 Ha1].
  pose proof (abort_locks pid (clear_pid_checkpoint_data pid t) Ht1 Hp ltac:(by rewrite Ha1, lookup_delete_eq)) as Hab.
  destruct (push_empty q c Hq) as (q1 & E2 & Hq1). destruct (pop_single q1 c Hq1) as (q2 & E3 & Hq2).
  eexists. split; [|split].
  { do_act (Service t false q (MCanRestore c) (CRestore c1 worker) (S n) es) by (idtac).
    do_act (Service t false q (MAbort c) (CRestore c1 worker) (S n) (es ++ [])) by (change (c_pid c) with pid; rewrite Hcan).
    do_act (Service t false q (MAbort c) (CClear c1) (S n) ((es ++ []) ++ [Respond (c_id c1) MEMCR_OK]))
      by (rewrite restore_procedure_eq, exchange_resp_of).
    set (es1 := (es ++ []) ++ [Respond (c_id c1) MEMCR_OK]).
    do_act (Service (clear_pid_checkpoint_data pid t) false q (MAbort c) (CClose c1) (S n) (es1 ++ [])) by (rewrite E1).
    do_act (Service (clear_pid_checkpoint_data pid t) true q (MPushRestore c) (CClose c1) (S n) ((es1 ++ []) ++ map Table []))
      by (change (c_pid c) with pid; rewrite Hab).
    do_act (Service (clear_pid_checkpoint_data pid t) true q1 MAccept (CClose c1) (S n) (((es1 ++ []) ++ map Table []) ++ []))
      by (rewrite E2).
    set (es2 := ((es1 ++ []) ++ map Table []) ++ []).
    do_act (Service (clear_pid_checkpoint_data pid t) true q1 MAccept CPop (S n) (es2 ++ [Close (c_id c1)])) by (idtac).
    do_act (Service (clear_pid_checkpoint_data pid t) true q2 MAccept (CGetWorker c) (S n) ((es2 ++ [Close (c_id c1)]) ++ []))
      by (rewrite E3).
    reflexivity. }
  - split_and!; try done. cbn. lia.
  - no_response.
Qed.

(** Nothing moves the command thread, and a response is an error to a client
    that sent neither command. *)
Lemma wedged_step c a s s' :
  wedged c s -> step a s = Some s' ->
  wedged c s' /\ exists rs, responses (sv_events s') = responses (sv_events s) ++ rs
    /\ Forall (fun r => r.1 <> c_id c /\ r.2 = MEMCR_ERROR_GENERAL) rs.
Proof.
  intros (Hl & Hc & Hn & Hm). unfold wedged.
  assert (Hnil : responses (sv_events s) = responses (sv_events s) ++ []) by (by rewrite app_nil_r).
  destruct a as [cmd pid| | |w sd| | |code| |x|w| ]; simpl; try (rewrite Hc; done).
  - destruct (sv_main s) eqn:Em; try done. intros [= <-]. split; [|by exists []]. cbn. split_and!; try done; [lia|].
    unfold service_command. repeat case_match; cbn in *; simplify_eq; cbn; try done; lia.
  - unfold main_step. rewrite Hl, Hc. destruct (sv_main s) as [|d|d|d|d|d|d|d|d| |]; try done.
    intros [= <-]. split; [by split_and!|]. eexists. cbn. rewrite responses_app. split; [reflexivity|]. by repeat constructor.
  - unfold cmd_step. by rewrite Hc, Hl.
  - unfold worker_answer. by rewrite Hc.
  - unfold worker_answer. by rewrite Hc.
  - destruct (w <=? 0); [done|]. destruct (clear_pid_on_worker_exit_non_blocking w _) as [es t]. intros [= <-].
    split; [by split_and!|]. exists []. cbn. by rewrite responses_app, responses_table.
  - destruct (sv_main s) eqn:Em; try done. intros [= <-]. split; [by split_and!|]. exists []. cbn. by rewrite responses_app.
Qed.

Lemma wedged_run c acts s s' :
  wedged c s -> run_acts acts s = Some s' ->
  wedged c s' /\ exists rs, responses (sv_events s') = responses (sv_events s) ++ rs
    /\ Forall (fun r => r.1 <> c_id c /\ r.2 = MEMCR_ERROR_GENERAL) rs.
Proof.
  revert s. induction acts as [|a acts IH]; intros s Hw; cbn.
  - intros [= <-]. split; [done|]. exists []. by rewrite app_nil_r.
  - destruct (step a s) as [s1|] eqn:Es; [|done]. intros Hr.
    destruct (wedged_step c a s s1 Hw Es) as (Hw1 & rs1 & E1 & F1). destruct (IH s1 Hw1 Hr) as (Hw2 & rs2 & E2 & F2).
    split; [done|]. exists (rs1 ++ rs2). rewrite E2, E1, app_assoc. split; [done|]. by apply Forall_app.
Qed.

(** A request that needs the table ends the accepting thread as well. *)
Lemma wedged_stuck c d acts s s' :
  wedged c s -> sv_main s = MCanCheckpoint d \/ sv_main s = MCanRestore d -> run_acts acts s = Some s' ->
  sv_main s' = sv_main s /\ responses (sv_events s') = responses (sv_events s).
Proof.
  revert s. induction acts as [|a acts IH]; intros s Hw Hm; cbn; [by intros [= <-]|].
  destruct (step a s) as [s1|] eqn:Es; [|done]. intros Hr. destruct (wedged_step c a s s1 Hw Es) as [Hw1 _].
  enough (H1 : sv_main s1 = sv_main s /\ responses (sv_events s1) = responses (sv_events s)).
  { destruct H1 as [H1 H2]. destruct (IH s1 Hw1) as [-> ->]; [by rewrite H1|done|by rewrite H1]. }
  clear IH Hr Hw1. destruct Hw as (Hl & Hc & _ & _). revert Es.
  destruct a as [cmd pid| | |w sd| | |code| |x|w| ]; simpl; unfold main_step, cmd_step, worker_answer; rewrite ?Hc, ?Hl;
    try done; try (by destruct Hm as [-> | ->]).
  destruct (w <=? 0); [done|]. destruct (clear_pid_on_worker_exit_non_blocking w _) as [es t]. intros [= <-]. cbn.
  by rewrite responses_app, responses_table, app_nil_r.
Qed.

(** C32: two restore requests for one process can hang the service for good.
    From any idle service with room, for any process it does not know: checkpoint
    the process, restore it, and let a second restore request pass
    can_restore_pid() before the first one's entry is cleared and reach
    try_to_abort_checkpoint() after it, which then returns without unlocking the
    table.  From there on, whatever clients, workers and signals do: the lock is
    held and the command thread waits for it; the second restore is never
    answered; SIGINT does not end the service; every other response is
    MEMCR_ERROR_GENERAL; and once a client asks for a checkpoint or a restore of
    any process, the accepting thread stands still too and nobody is answered any
    more. *)
Theorem double_restore_deadlocks pid worker sd s0 :
  idle s0 -> pid <> PID_INVALID -> worker <> PID_INVALID -> table_abs (sv_table s0) !! pid = None ->
  (size (table_abs (sv_table s0)) < CHECKPOINTED_PIDS_LIMIT)%nat ->
  let c := Command MEMCR_RESTORE pid (S (S (sv_next s0))) in
  exists s, run_acts (double_restore_acts pid worker sd) s0 = Some s
    /\ responses (sv_events s) = responses (sv_events s0) ++ [(sv_next s0, MEMCR_OK); (S (sv_next s0), MEMCR_OK)]
    /\ forall acts s', run_acts acts s = Some s' ->
      sv_lock s' = true /\ sv_cmd s' = CGetWorker c /\ step Cmd s' = None /\ sv_main s' <> MDone
      /\ (exists rs, responses (sv_events s') = responses (sv_events s) ++ rs
            /\ Forall (fun r => r.1 <> c_id c /\ r.2 = MEMCR_ERROR_GENERAL) rs)
      /\ forall cmd p acts2 s2, cmd = MEMCR_CHECKPOINT \/ cmd = MEMCR_RESTORE ->
           run_acts (Accept cmd p :: acts2) s' = Some s2 ->
           sv_main s2 = service_command (Command cmd p (sv_next s')) /\ step Main s2 = None
           /\ responses (sv_events s2) = responses (sv_events s').
Proof.
  intros Hi Hp Hw Hn Hroom c. destruct (run_checkpoint pid worker sd s0) as (s1 & E1 & Hi1 & Hn1 & Ha1 & Hr1); [done..|].
  destruct (restore_begins pid worker s1) as (s2 & E2 & Hi2 & Hn2 & Ha2 & Hr2); [done..|by rewrite Ha1, lookup_insert_eq|].
  destruct (second_restore_wedges pid worker (Command MEMCR_RESTORE pid (sv_next s1)) s2) as (s & E3 & Hwd & Hr3);
    [done..|rewrite Ha2, Ha1, lookup_insert_eq; by eexists|].
  rewrite Hn2, Hn1 in Hwd. fold c in Hwd. exists s. split; [|split].
  - unfold double_restore_acts. by rewrite run_acts_app, E1, run_acts_app, E2.
  - by rewrite Hr3, Hr2, Hr1, <- app_assoc, Hn1.
  - intros acts s' Hrun. destruct (wedged_run c acts s s' Hwd Hrun) as [Hw' Hrs]. pose proof Hw' as (Hl & Hc & Hlt & Hm).
    split_and!; try done.
    + cbn. unfold cmd_step. by rewrite Hc, Hl.
    + intros Em. by rewrite Em in Hm.
    + intros cmd p acts2 s4 Hcmd. cbn [run_acts]. destruct (step (Accept cmd p) s') as [s3|] eqn:Ea; [|done]. intros Hr4.
      destruct (wedged_step c _ s' s3 Hw' Ea) as [Hw3 _]. revert Ea. cbn. destruct (sv_main s') eqn:Em; try done. intros [= <-].
      set (d := Command cmd p (sv_next s')) in *.
      assert (Hd : service_command d = MCanCheckpoint d \/ service_command d = MCanRestore d) by (destruct Hcmd as [-> | ->]; auto).
      destruct (wedged_stuck c d acts2 _ s4 Hw3 Hd Hr4) as [H1 H2]. cbn [sv_main sv_events] in H1, H2. split_and!; try done.
      destruct (wedged_run c acts2 _ s4 Hw3 Hr4) as [(Hl4 & _) _]. unfold main_step. rewrite H1, Hl4. by destruct Hd as [-> | ->].
Qed.

(** * An acknowledged checkpoint is forgotten *)

(** A client restores [pid] and, as soon as it has the answer, checkpoints it
    again: the worker has exited and SIGCHLD was handled, so the request is let
    in, but the command thread has yet to clear the entry of the restore. *)
Definition lost_checkpoint_acts (pid worker sd worker2 sd2 : Z) : list act :=
  checkpoint_acts pid worker sd ++ restore_begin pid
  ++ [WorkerSays MEMCR_OK; Sigchld worker]
  ++ [Accept MEMCR_CHECKPOINT pid; Main; Main; Main]
  ++ [Cmd; Cmd] ++ [Cmd; Forked worker2 sd2; Cmd; WorkerSays MEMCR_OK; Cmd; Cmd].

Lemma restore_told c worker s :
  in_state MAccept (CRestore c worker) [] s -> 0 < worker ->
  exists s1, run_acts [WorkerSays MEMCR_OK; Sigchld worker] s = Some s1 /\ in_state MAccept (CClear c) [] s1
    /\ sv_next s1 = sv_next s /\ table_abs (sv_table s1) = spec_worker_exit worker (table_abs (sv_table s))
    /\ responses (sv_events s1) = responses (sv_events s) ++ [(c_id c, MEMCR_OK)].
Proof.
  open_state. intros Hw. destruct (table_step_ok (TExit worker) t Ht) as [Ht1 Ha1]; [cbn; unfold PID_INVALID; lia|].
  cbn [table_step map_step] in Ht1, Ha1. destruct (clear_pid_on_worker_exit_non_blocking worker t) as [evs t1] eqn:E. cbn [snd] in Ht1, Ha1.
  eexists. split; [|split].
  { do_act (Service t false q MAccept (CClear c) n (es ++ [Respond (c_id c) MEMCR_OK]))
      by (rewrite restore_procedure_eq, exchange_resp_of).
    do_act (Service t1 false q MAccept (CClear c) n ((es ++ [Respond (c_id c) MEMCR_OK]) ++ map Table evs))
      by (rewrite (proj2 (Z.leb_gt _ _)) by done; rewrite E).
    reflexivity. }
  - by split_and!.
  - split_and!; [done|done|no_response].
Qed.

Lemma checkpoint_admitted pid p s :
  in_state MAccept p [] s -> pid <> PID_INVALID -> table_abs (sv_table s) !! pid = None ->
  (size (table_abs (sv_table s)) < CHECKPOINTED_PIDS_LIMIT)%nat ->
  exists s1, run_acts [Accept MEMCR_CHECKPOINT pid; Main; Main; Main] s = Some s1
    /\ in_state MAccept p [Command MEMCR_CHECKPOINT pid (sv_next s)] s1
    /\ sv_next s1 = S (sv_next s) /\ table_abs (sv_table s1) = <[pid := fresh_data]> (table_abs (sv_table s))
    /\ responses (sv_events s1) = responses (sv_events s).
Proof.
  open_state. intros Hp Hn Hroom. set (c := Command MEMCR_CHECKPOINT pid n).
  pose proof (can_checkpoint_absent pid t Ht Hp Hn) as Hcan. destruct (init_ok pid t Ht Hp Hn) as [Ht1 Ha1].
  unfold spec_init in Ha1. rewrite bool_decide_true in Ha1 by done. destruct (push_empty q c Hq) as (q1 & E1 & Hq1).
  eexists. split; [|split].
  { do_act (Service t false q (MCanCheckpoint c) p (S n) es) by (idtac).
    do_act (Service t false q (MInit c) p (S n) (es ++ [])) by (change (c_pid c) with pid; rewrite Hcan).
    do_act (Service (init_pid_checkpoint_data pid t) false q (MPushCheckpoint c) p (S n) ((es ++ []) ++ [])) by (idtac).
    do_act (Service (init_pid_checkpoint_data pid t) false q1 MAccept p (S n) (((es ++ []) ++ []) ++ [])) by (rewrite E1).
    reflexivity. }
  - by split_and!.
  - split_and!; [done|done|no_response].
Qed.

Lemma restore_cleared c items s :
  in_state MAccept (CClear c) items s -> has_pid c ->
  exists s1, run_acts [Cmd; Cmd] s = Some s1 /\ in_state MAccept CPop items s1
    /\ sv_next s1 = sv_next s /\ table_abs (sv_table s1) = delete (c_pid c) (table_abs (sv_table s))
    /\ responses (sv_events s1) = responses (sv_events s).
Proof.
  open_state. intros Hp. destruct (clear_ok (c_pid c) t Ht Hp) as [Ht1 Ha1]. eexists. split; [|split].
  { do_act (Service (clear_pid_checkpoint_data (c_pid c) t) false q MAccept (CClose c) n (es ++ [])) by (idtac).
    do_act (Service (clear_pid_checkpoint_data (c_pid c) t) false q MAccept CPop n ((es ++ []) ++ [Close (c_id c)])) by (idtac).
    reflexivity. }
  - by split_and!.
  - split_and!; [done|done|no_response].
Qed.

(** A checkpoint whose entry is gone is made and acknowledged all the same. *)
Lemma checkpoint_unrecorded c worker sd s :
  in_state MAccept CPop [c] s -> c_cmd c = MEMCR_CHECKPOINT -> has_pid c -> table_abs (sv_table s) !! c_pid c = None ->
  exists s1, run_acts [Cmd; Forked worker sd; Cmd; WorkerSays MEMCR_OK; Cmd; Cmd] s = Some s1 /\ idle s1
    /\ sv_next s1 = sv_next s /\ table_abs (sv_table s1) = table_abs (sv_table s)
    /\ responses (sv_events s1) = responses (sv_events s) ++ [(c_id c, MEMCR_OK)].
Proof.
  open_state. intros Hk Hp Hn. destruct (pop_single q c Hq) as (q1 & E1 & Hq1).
  destruct (table_step_ok (TCheckpointing (c_pid c) sd) t Ht Hp) as [Ht1 Ha1].
  cbn [table_step map_step] in Ht1, Ha1. destruct (set_pid_checkpointing (c_pid c) sd t) as [evs t1] eqn:E2. cbn [snd] in Ht1, Ha1.
  unfold spec_advance in Ha1. rewrite Hn in Ha1.
  destruct (table_step_ok (TCheckpointed (c_pid c) worker) t1 Ht1 Hp) as [Ht2 Ha2]. cbn [table_step map_step] in Ht2, Ha2.
  unfold spec_advance in Ha2. rewrite Ha1, Hn in Ha2.
  eexists. split; [|split].
  { do_act (Service t false q1 MAccept (CFork c) n (es ++ [])) by (rewrite E1, Hk).
    do_act (Service t false q1 MAccept (CCheckpointing c worker sd) n ((es ++ []) ++ [])) by (idtac).
    set (es1 := (es ++ []) ++ []).
    do_act (Service t1 false q1 MAccept (CWaitCheckpoint c worker) n (es1 ++ map Table evs)) by (rewrite E2).
    do_act (Service t1 false q1 MAccept (CCheckpointed c worker) n ((es1 ++ map Table evs) ++ [Respond (c_id c) MEMCR_OK])) by (idtac).
    set (es2 := (es1 ++ map Table evs) ++ [Respond (c_id c) MEMCR_OK]).
    do_act (Service (set_pid_checkpointed (c_pid c) worker t1) false q1 MAccept (CClose c) n (es2 ++ [])) by (idtac).
    do_act (Service (set_pid_checkpointed (c_pid c) worker t1) false q1 MAccept CPop n ((es2 ++ []) ++ [Close (c_id c)])) by (idtac).
    reflexivity. }
  - by split_and!.
  - split_and!; [done|done|no_response].
Qed.

(** The service has nothing about [pid]: no entry, and no request in hand but one
    that is about to be refused. *)
Record gone (pid : Z) (s : service) : Prop := {
  gn_inv : table_inv s;
  gn_absent : table_abs (sv_table s) !! pid = None;
  gn_queue : exists f, queue_abs (sv_queue s) f /\ Forall (fun c => c_pid c <> pid) (f_items f);
  gn_main : forall c, main_cmd (sv_main s) = Some c -> c_pid c = pid -> sv_main s = MCanRestore c \/ sv_main s = MOther c;
  gn_cmd : forall c, cmd_cmd (sv_cmd s) = Some c -> c_pid c <> pid;
}.

(** What is asked of the labels: no new checkpoint of [pid]. *)
Definition no_checkpoint_of (pid : Z) (a : act) : Prop := act_ok a /\ a <> Accept MEMCR_CHECKPOINT pid.

Lemma can_restore_gone pid t :
  table_ok t -> pid <> PID_INVALID -> table_abs t !! pid = None -> can_restore_pid pid t = 0.
Proof.
  #[local] Transparent can_restore_pid.
  intros Ht Hp Hn. unfold can_restore_pid. rewrite has_pid_abs, Hn by done. by rewrite bool_decide_false by (by intros []).
Qed.
#[local] Opaque can_restore_pid.

Lemma push_not_pid pid (q : queue command) c :
  (exists f, queue_abs q f /\ Forall (fun c => c_pid c <> pid) (f_items f)) -> c_pid c <> pid ->
  exists f, queue_abs (service_cmds_push_back c q).2 f /\ Forall (fun c => c_pid c <> pid) (f_items f).
Proof.
  intros (f & Hq & Hf) Hc. destruct (push_cases q c f Hq) as (f' & Hq' & Hcase). exists f'. split; [done|].
  destruct Hcase as [[_ ->]|[_ ->]]; [|done]. apply Forall_app. split; [done|by apply Forall_singleton].
Qed.

(** The command with the other pid goes on. *)
Ltac gone_side := try done; try (intros ? [= <-]; done); try (intros ? [= <-] ?; done).

Lemma main_step_gone pid s s' : gone pid s -> table_inv s' -> main_step s = Some s' -> gone pid s'.
Proof.
  intros [Hi Ha Hq Hm Hc] Hi'. unfold main_step. pose proof (ti_ok _ Hi) as Ht. pose proof (ti_main _ Hi) as Hp.
  pose proof (ti_fresh _ Hi) as Hfr.
  destruct (sv_main s) as [|c|c|c|c|c|c|c|c| |] eqn:Em; try done; try (destruct (sv_lock s); [done|]);
    try specialize (Hp c eq_refl);
    try (assert (Hne : c_pid c <> pid) by (intros E; by destruct (Hm c eq_refl E))).
  - intros [= <-]. case_match; split; gone_side.
  - intros [= <-]. split; gone_side. cbn [sv_table set_main set_table]. destruct (init_ok (c_pid c) (sv_table s) Ht Hp (Hfr c eq_refl)) as [_ ->].
    unfold spec_init. case_match; [by rewrite lookup_insert_ne|done].
  - pose proof (push_not_pid pid _ c Hq Hne) as Hq'. destruct (service_cmds_push_back c (sv_queue s)) as [ret q].
    intros [= <-]. split; gone_side. cbn. case_match; gone_side.
  - intros [= <-]. split; gone_side. apply (absent_stays (TClear (c_pid c))); done.
  - intros [= <-]. destruct (decide (c_pid c = pid)) as [<-|Hne].
    + rewrite can_restore_gone in * by done. cbn [Z.eqb] in *. split; gone_side.
    + case_match; split; gone_side.
  - pose proof (abort_ok (c_pid c) (sv_table s) Ht) as [_ Hab].
    destruct (try_to_abort_checkpoint _ _) as [[es t] b]. intros [= <-]. split; gone_side. cbn [sv_table fst snd] in *. by rewrite Hab.
  - pose proof (push_not_pid pid _ c Hq Hne) as Hq'. destruct (service_cmds_push_back c (sv_queue s)) as [ret q].
    intros [= <-]. case_match; split; gone_side.
  - intros [= <-]. split; gone_side.
  - pose proof (cleanup_ok (sv_table s) Ht) as [_ Hcl]. destruct (sv_cmd s) eqn:Ec; try done. destruct (sv_lock s); [done|].
    destruct (cleanup_checkpointed_pids _) as [es t]. intros [= <-]. split; gone_side; cbn [sv_table sv_cmd set_main set_table snd] in *; [by rewrite Hcl|by rewrite Ec].
Qed.

Lemma cmd_step_gone pid s s' : gone pid s -> table_inv s' -> cmd_step s = Some s' -> gone pid s'.
Proof.
  intros [Hi Ha Hq Hm Hc] Hi'. unfold cmd_step. pose proof (ti_ok _ Hi) as Ht. pose proof (ti_cmd _ Hi) as Hp.
  destruct (sv_cmd s) as [|c|c w sd|c w|c w|c|c|c w|c|] eqn:Ec; try done; try (destruct (sv_lock s); [done|]);
    try specialize (Hc c eq_refl); try specialize (Hp c eq_refl).
  - destruct Hq as (f & Hq & Hf). pose proof (pop_refines 0 (sv_queue s) f Hq) as Hpop.
    destruct (service_cmds_pop_front 0 (sv_queue s)) as [[[ret o] q]|]; [|done].
    unfold fifo_pop in Hpop. destruct (f_interrupt f); cbn [Z.eqb negb] in Hpop.
    { destruct Hpop as (-> & -> & Hq'). intros [= <-]. split; gone_side. by exists f. }
    destruct (f_items f) as [|c items]; [done|]. destruct Hpop as (-> & -> & Hq'). intros [= <-].
    apply Forall_cons in Hf as [Hc1 Hf]. cbn [Z.eqb] in *.
    repeat case_match; split; gone_side; by exists (Fifo items false).
  - pose proof (absent_stays (TCheckpointing (c_pid c) sd) (sv_table s) pid Ht Hp ltac:(done) Ha) as Hs. cbn [table_step] in Hs.
    destruct (set_pid_checkpointing _ _ _) as [es t]. intros [= <-]. split; gone_side.
  - intros [= <-]. split; gone_side. by apply (absent_stays (TCheckpointed (c_pid c) w)).
  - intros [= <-]. split; gone_side. by apply (absent_stays (TClear (c_pid c))).
  - intros [= <-]. case_match; split; gone_side.
  - intros [= <-]. split; gone_side.
Qed.

Lemma answer_gone pid resp s s' : gone pid s -> table_inv s' -> worker_answer resp s = Some s' -> gone pid s'.
Proof.
  intros [Hi Ha Hq Hm Hc] Hi'. unfold worker_answer.
  destruct (sv_cmd s) as [|c|c w sd|c w|c w|c|c|c w|c|] eqn:Ec; try done; specialize (Hc c eq_refl).
  - destruct (checkpoint_procedure_service c w resp) as [ret es]. intros [= <-]. split; gone_side. cbn. case_match; gone_side.
  - intros [= <-]. split; gone_side.
Qed.

Lemma step_gone pid a s s' : gone pid s -> no_checkpoint_of pid a -> step a s = Some s' -> gone pid s'.
Proof.
  intros Hg [Hok Hno] Hs. pose proof (step_table a s s' (gn_inv _ _ Hg) Hok Hs) as Hi'. revert Hs. pose proof Hg as [Hi Ha Hq Hm Hc].
  destruct a as [cmd p| | |w sd| | |code| |x|w| ].
  - cbn. destruct (sv_main s) eqn:Em; try done. intros [= <-]. split; gone_side. cbn. unfold service_command. cbn [c_cmd].
    destruct (Z.eqb_spec cmd MEMCR_CHECKPOINT) as [->|]; [intros c [= <-] E; cbn in E; by subst|].
    destruct (cmd =? MEMCR_RESTORE); intros c [= <-] _; auto.
  - by apply main_step_gone.
  - by apply cmd_step_gone.
  - cbn. destruct (sv_cmd s) eqn:Ec; try done. intros [= <-]. split; gone_side.
  - cbn. destruct (sv_cmd s) eqn:Ec; try done. intros [= <-]. split; gone_side.
  - cbn. destruct (sv_cmd s) eqn:Ec; try done. intros [= <-]. split; gone_side.
  - by apply answer_gone.
  - by apply answer_gone.
  - intros E%exchanged_answer. by eapply answer_gone.
  - cbn. destruct (w <=? 0) eqn:Ew; [done|]. tests. intros [= <-]. split; gone_side.
    apply (absent_stays (TExit w) _ _ (ti_ok _ Hi)); [cbn; unfold PID_INVALID; lia|done|done].
  - cbn. destruct (sv_main s) eqn:Em; try done. intros [= <-]. destruct Hq as (f & Hq & Hf). split; gone_side.
    exists (Fifo (f_items f) true). split; [by apply interrupt_refines|done].
Qed.

Lemma run_gone pid acts s s' : gone pid s -> Forall (no_checkpoint_of pid) acts -> run_acts acts s = Some s' -> gone pid s'.
Proof.
  intros Hg Ha. revert s Hg. induction Ha as [|a acts Ha Hacts IH]; intros s Hg; cbn; [by intros [= <-]|].
  destruct (step a s) as [s1|] eqn:E; [|done]. apply IH. by eapply step_gone.
Qed.

Lemma idle_gone pid s : idle s -> table_abs (sv_table s) !! pid = None -> gone pid s.
Proof.
  intros (Hm & Hc & _ & Hq & Ht) Hn. split; [split|..]; rewrite ?Hm, ?Hc; try done; by exists (Fifo [] false).
Qed.

(** C33: a checkpoint can be acknowledged and forgotten.  restore_procedure_service()
    answers the client before the entry is cleared; when the worker's exit is
    handled and the client asks for another checkpoint in between, the request
    gets a new entry, which that clearing removes.  From any idle service with
    room and for any process it does not know: in this order of steps all three
    requests (checkpoint, restore, checkpoint) are answered with MEMCR_OK, so the
    second worker has the process frozen, but the service is idle with no entry
    for it; and from there on, whatever else is asked and however the threads
    interleave, as long as nobody asks for a checkpoint of the process again (or
    names pid 0), it has no entry, no worker is asked to restore it, and every
    restore request for it is refused with MEMCR_INVALID_PID when it gets the lock
    of the table. *)
Theorem acknowledged_checkpoint_lost pid worker sd worker2 sd2 s0 :
  idle s0 -> pid <> PID_INVALID -> 0 < worker -> table_abs (sv_table s0) !! pid = None ->
  (size (table_abs (sv_table s0)) < CHECKPOINTED_PIDS_LIMIT)%nat ->
  exists s, run_acts (lost_checkpoint_acts pid worker sd worker2 sd2) s0 = Some s /\ idle s
    /\ responses (sv_events s) = responses (sv_events s0)
         ++ [(sv_next s0, MEMCR_OK); (S (sv_next s0), MEMCR_OK); (S (S (sv_next s0)), MEMCR_OK)]
    /\ forall acts s', Forall (no_checkpoint_of pid) acts -> run_acts acts s = Some s' ->
      table_abs (sv_table s') !! pid = None /\ (forall c w, sv_cmd s' = CRestore c w -> c_pid c <> pid)
      /\ forall c, sv_main s' = MCanRestore c -> c_pid c = pid -> sv_lock s' = false ->
           step Main s' = Some (refuse c MEMCR_INVALID_PID s').
Proof.
  intros Hi Hp Hw Hn Hroom. assert (Hw' : worker <> PID_INVALID) by (unfold PID_INVALID; lia).
  destruct (run_checkpoint pid worker sd s0) as (s1 & E1 & Hi1 & Hn1 & Ha1 & Hr1); [done..|].
  destruct (restore_begins pid worker s1) as (s2 & E2 & Hi2 & Hn2 & Ha2 & Hr2); [done..|by rewrite Ha1, lookup_insert_eq|].
  destruct (restore_told _ worker s2 Hi2 Hw) as (s3 & E3 & Hi3 & Hn3 & Ha3 & Hr3).
  assert (Hf3 : table_abs (sv_table s3) = spec_worker_exit worker (table_abs (sv_table s0))).
  { rewrite Ha3, Ha2, Ha1. unfold spec_worker_exit. rewrite map_filter_insert_False, delete_id; [done|done|cbn; tauto]. }
  destruct (checkpoint_admitted pid _ s3 Hi3 Hp) as (s4 & E4 & Hi4 & Hn4 & Ha4 & Hr4).
  { rewrite Hf3. apply map_lookup_filter_None. by left. }
  { rewrite Hf3. eapply Nat.le_lt_trans; [|exact Hroom]. apply map_subseteq_size, map_filter_subseteq. }
  destruct (restore_cleared _ _ s4 Hi4) as (s5 & E5 & Hi5 & Hn5 & Ha5 & Hr5); [done|]. cbn [c_pid] in Ha5.
  destruct (checkpoint_unrecorded _ worker2 sd2 s5 Hi5) as (s6 & E6 & Hi6 & Hn6 & Ha6 & Hr6);
    [done..|by rewrite Ha5, lookup_delete_eq|].
  exists s6. split; [|split; [done|split]].
  - unfold lost_checkpoint_acts. by rewrite run_acts_app, E1, run_acts_app, E2, run_acts_app, E3, run_acts_app, E4, run_acts_app, E5.
  - cbn [c_id] in Hr6, Hr3. rewrite Hr6, Hr5, Hr4, Hr3, Hr2, Hr1, Hn3, Hn2, Hn1, <- !app_assoc. done.
  - intros acts s' Ha Hrun. assert (Hg : gone pid s').
    { eapply run_gone; [|exact Ha|exact Hrun]. apply idle_gone; [done|]. by rewrite Ha6, Ha5, lookup_delete_eq. }
    destruct Hg as [Hi' Hn' _ _ Hc']. split_and!; [done|intros c w Ec; apply Hc'; by rewrite Ec|].
    intros c Em Ep Hl. cbn. unfold main_step. rewrite Em, Hl, Ep. rewrite can_restore_gone; [done|by apply ti_ok|done|done].
Qed.

(** * A worker that dies at once *)

(** A worker that exits as soon as it has answered leaves an entry for good: its
    end is handled before the entry has its number, so that nothing is cleared.
    The process is in the table as checkpointed by a worker that no longer exists,
    and a new checkpoint of it is refused. *)
Theorem dead_worker_recorded :
  exists s, run_acts [Accept MEMCR_CHECKPOINT 7; Main; Main; Main; Cmd; Forked 70 3; Cmd; WorkerSays MEMCR_OK; Sigchld 70; Cmd; Cmd;
                      Accept MEMCR_CHECKPOINT 7; Main] service_init = Some s
    /\ get_pid_worker 7 (sv_table s) = 70
    /\ responses (sv_events s) = [(0%nat, MEMCR_OK); (1%nat, MEMCR_INVALID_PID)].
Proof. eexists. split; [vm_compute; reflexivity|]. split; by vm_compute. Qed.

(** * Witnesses *)

Lemma init_room : (size (table_abs (sv_table service_init)) < CHECKPOINTED_PIDS_LIMIT)%nat.
Proof. destruct table_init_ok as [_ E]. cbn [sv_table service_init]. rewrite E, map_size_empty. unfold CHECKPOINTED_PIDS_LIMIT. lia. Qed.

Lemma init_idle : idle service_init.
Proof. split_and!; try done; [apply init_refines|apply table_init_ok]. Qed.

(** Whatever follows, the third client of the new service gets no answer. *)
Lemma double_restore_deadlocks_witness :
  exists s, run_acts (double_restore_acts 7 70 3) service_init = Some s
    /\ responses (sv_events s) = [(0%nat, MEMCR_OK); (1%nat, MEMCR_OK)]
    /\ forall acts s', run_acts acts s = Some s' -> sv_cmd s' = CGetWorker (Command MEMCR_RESTORE 7 2) /\ step Cmd s' = None.
Proof.
  destruct (double_restore_deadlocks 7 70 3 service_init) as (s & E & Hr & Hall);
    [apply init_idle|done|done|done|apply init_room|].
  exists s. split; [exact E|]. split; [exact Hr|]. intros acts s' Hrun. destruct (Hall acts s' Hrun) as (_ & Hc & Hs & _).
  exact (conj Hc Hs).
Defined.

(** A later restore request of process 7 is refused. *)
Lemma acknowledged_checkpoint_lost_witness :
  exists s s', run_acts (lost_checkpoint_acts 7 70 3 71 4) service_init = Some s
    /\ run_acts [Accept MEMCR_RESTORE 7] s = Some s'
    /\ step Main s' = Some (refuse (Command MEMCR_RESTORE 7 3) MEMCR_INVALID_PID s').
Proof.
  destruct (acknowledged_checkpoint_lost 7 70 3 71 4 service_init) as (s & E & _ & _ & Hall);
    [apply init_idle|done|done|done|apply init_room|].
  assert (Es : run_acts (lost_checkpoint_acts 7 70 3 71 4) service_init = Some s) by exact E. vm_compute in E. injection E as <-.
  eexists _, _. split; [exact Es|]. split; [cbn; reflexivity|].
  refine (proj2 (proj2 (Hall [Accept MEMCR_RESTORE 7] _ _ eq_refl)) _ eq_refl eq_refl eq_refl). apply Forall_singleton. by split.
Defined.
