(* ===== verification/ServiceLive.v ===== *)
(** That the command thread of the service (memcr.c) gets its work done: from
    every state it can be in, whatever the workers answer, it comes back to an
    empty queue, and every client whose request it had is answered, in the order
    of the requests. *)
From stdpp Require Import base list.
From S2P Require Import Prelude Io Proto Queue Table Service ServiceFacts.
#[local] Open Scope Z_scope.

#[local] Instance command_eq_dec : EqDecision command.
Proof. solve_decision. Defined.
#[local] Instance cmd_pc_eq_dec : EqDecision cmd_pc.
Proof. solve_decision. Defined.

(** * What is in the queue *)

Definition known (c : command) : Prop := c_cmd c = MEMCR_CHECKPOINT \/ c_cmd c = MEMCR_RESTORE.

Definition main_known (m : main_pc) : Prop :=
  match m with
  | MCanCheckpoint c | MInit c | MPushCheckpoint c | MPushFailed c | MCanRestore c | MAbort c | MPushRestore c => known c
  | MAccept | MOther _ | MJoin | MDone => True
  end.

(** Only the two commands are queued. *)
Definition known_inv (s : service) : Prop :=
  main_known (sv_main s) /\ exists f, queue_abs (sv_queue s) f /\ Forall known (f_items f).

Lemma main_step_known s s' : known_inv s -> main_step s = Some s' -> known_inv s'.
Proof.
  intros [Hm (f & Hq & Hf)]. unfold main_step, known_inv.
  assert (Hpush : forall c ret q, known c -> service_cmds_push_back c (sv_queue s) = (ret, q) ->
    exists f', queue_abs q f' /\ Forall known (f_items f')).
  { intros c ret q Hc E. destruct (push_cases (sv_queue s) c f Hq) as (f' & Hq' & Hi). rewrite E in Hq', Hi. exists f'.
    split; [done|]. destruct Hi as [[_ ->]|[_ ->]]; [by apply Forall_app; split; [|constructor]|done]. }
  destruct (sv_main s) as [|c|c|c|c|c|c|c|c| |] eqn:Em; try done; try (destruct (sv_lock s); [done|]); cbn in Hm.
  - intros [= <-]. case_match; cbn; eauto.
  - intros [= <-]. cbn. eauto.
  - destruct (service_cmds_push_back c (sv_queue s)) as [ret q] eqn:E. intros [= <-]. cbn. split; [by case_match|eauto].
  - intros [= <-]. cbn. eauto.
  - intros [= <-]. case_match; cbn; eauto.
  - destruct (try_to_abort_checkpoint _ _) as [[es t] b]. intros [= <-]. cbn. eauto.
  - destruct (service_cmds_push_back c (sv_queue s)) as [ret q] eqn:E. intros [= <-]. case_match; cbn; eauto.
  - intros [= <-]. cbn. eauto.
  - destruct (sv_cmd s); try done. destruct (sv_lock s); [done|]. intros [= <-]. cbn. eauto.
Qed.

Lemma cmd_step_known s s' : known_inv s -> cmd_step s = Some s' -> known_inv s'.
Proof.
  intros [Hm (f & Hq & Hf)]. unfold cmd_step, known_inv.
  destruct (sv_cmd s) as [|c|c w sd|c w|c w|c|c|c w|c|]; try done; try (destruct (sv_lock s); [done|]).
  - pose proof (pop_refines 0 (sv_queue s) f Hq) as Hp.
    destruct (service_cmds_pop_front 0 (sv_queue s)) as [[[ret o] q]|]; [|done].
    assert (Hf' : exists f', queue_abs q f' /\ Forall known (f_items f')).
    { unfold fifo_pop in Hp. destruct (f_interrupt f); cbn in Hp; [destruct Hp as (_ & _ & ?); eauto|].
      destruct (f_items f) as [|c items]; [done|]. destruct Hp as (_ & _ & ?). apply Forall_cons in Hf as [_ Hf]. by eexists. }
    intros [= <-]. repeat case_match; cbn; eauto.
  - destruct (set_pid_checkpointing _ _ _) as [es t]. intros [= <-]. cbn. eauto.
  - intros [= <-]. cbn. eauto.
  - intros [= <-]. cbn. eauto.
  - intros [= <-]. case_match; cbn; eauto.
  - intros [= <-]. cbn. eauto.
Qed.

Lemma step_known a s s' : known_inv s -> step a s = Some s' -> known_inv s'.
Proof.
  intros Hk. pose proof Hk as [Hm (f & Hq & Hf)]. destruct a as [cmd pid| | |w sd| | |code| |x|w| ]; cbn.
  - destruct (sv_main s) eqn:Em; try done. intros [= <-]. split; [|by exists f]. cbn. unfold service_command. cbn [c_cmd].
    destruct (Z.eqb_spec cmd MEMCR_CHECKPOINT); [by left|]. destruct (Z.eqb_spec cmd MEMCR_RESTORE); [by right|done].
  - by apply main_step_known.
  - by apply cmd_step_known.
  - destruct (sv_cmd s); try done. intros [= <-]. split; [done|by exists f].
  - destruct (sv_cmd s); try done. intros [= <-]. split; [done|by exists f].
  - destruct (sv_cmd s); try done. intros [= <-]. split; [done|by exists f].
  - unfold worker_answer, checkpoint_procedure_service. destruct (sv_cmd s); try done; intros [= <-]; (split; [done|by exists f]).
  - unfold worker_answer, checkpoint_procedure_service. destruct (sv_cmd s); try done; intros [= <-]; (split; [done|by exists f]).
  - destruct (sv_cmd s); try done. intros [= <-]. split; [done|by exists f].
  - case_match; [done|]. intros [= <-]. split; [done|by exists f].
  - destruct (sv_main s) eqn:Em; try done. intros [= <-]. split; [done|]. exists (Fifo (f_items f) true). split; [|done].
    by apply interrupt_refines.
Qed.

Lemma reachable_known s : reachable s -> known_inv s.
Proof.
  induction 1 as [|s a s' Hr IH Hs]; [|by eapply step_known]. split; [done|]. exists (Fifo [] false). split; [apply init_refines|done].
Qed.

(** * The command thread at work *)

Section Drive.
(** The pid and the socket of each worker, and what it answers; [None]: nothing. *)
Context (fork : nat -> Z * Z) (answer : nat -> option Z).

Definition says (o : option Z) : act := match o with Some code => WorkerSays code | None => WorkerSilent end.

(** What happens next on the side of the command thread. *)
Definition next_act (s : service) : act :=
  match sv_cmd s with
  | CFork c => Forked (fork (c_id c)).1 (fork (c_id c)).2
  | CWaitCheckpoint c _ | CRestore c _ => says (answer (c_id c))
  | _ => Cmd
  end.

(** Until it has to wait for a request, for [n] steps at most. *)
Fixpoint drive (n : nat) (s : service) : service :=
  match n with
  | O => s
  | S n => match step (next_act s) s with Some s => drive n s | None => s end
  end.

(** The steps left for the command in hand. *)
Definition pc_left (p : cmd_pc) : nat :=
  match p with
  | CPop | CExit => 0 | CClose _ => 1 | CCheckpointed _ _ | CClear _ => 2 | CWaitCheckpoint _ _ | CRestore _ _ => 3
  | CCheckpointing _ _ _ | CGetWorker _ => 4 | CFork _ => 5
  end.

(** The requests taken in and not yet answered, oldest first. *)
Definition owed (f : fifo) (s : service) : list nat := cmd_ids (sv_cmd s) ++ (c_id <$> f_items f).

(** Queue, lock and place of the thread as it works. *)
Record working (f : fifo) (s : service) : Prop := {
  wk_queue : queue_abs (sv_queue s) f;
  wk_known : Forall known (f_items f);
  wk_running : f_interrupt f = false;
  wk_lock : sv_lock s = false;
  wk_alive : sv_cmd s <> CExit;
}.

Lemma drive_step f s :
  working f s -> sv_cmd s <> CPop \/ f_items f <> [] ->
  exists f' s', step (next_act s) s = Some s' /\ working f' s' /\ sv_main s' = sv_main s
    /\ (6 * length (f_items f') + pc_left (sv_cmd s') < 6 * length (f_items f) + pc_left (sv_cmd s))%nat
    /\ responded (sv_events s') ++ owed f' s' = responded (sv_events s) ++ owed f s.
Proof.
  intros [Hq Hk Hi Hl Ha] Hw. unfold next_act, step, owed.
  destruct (sv_cmd s) as [|c|c w sd|c w|c w|c|c|c w|c|] eqn:Ec; cbn [cmd_ids pc_left].
  - destruct Hw as [?|Hne]; [done|]. unfold cmd_step. rewrite Ec. pose proof (pop_refines 0 (sv_queue s) f Hq) as Hp.
    unfold fifo_pop in Hp. rewrite Hi in Hp. cbn in Hp. destruct (f_items f) as [|c items]; [done|].
    destruct (service_cmds_pop_front 0 (sv_queue s)) as [[[ret o] q]|]; [|done]. destruct Hp as (-> & -> & Hq'). cbn [Z.eqb].
    apply Forall_cons in Hk as [Hc Hk]. exists (Fifo items false).
    destruct Hc as [Hc|Hc]; rewrite Hc; cbn [Z.eqb Pos.eqb MEMCR_CHECKPOINT MEMCR_RESTORE]; eexists; (split; [done|]);
      cbn; rewrite responded_app, app_nil_r; split_and!; try done; lia.
  - exists f. eexists. split; [done|]. cbn. rewrite responded_app, app_nil_r. split_and!; try done; lia.
  - unfold cmd_step. rewrite Ec, Hl. destruct (set_pid_checkpointing _ _ _) as [es t]. exists f. eexists. split; [done|].
    cbn. rewrite responded_app, responded_table, app_nil_r. split_and!; try done; lia.
  - unfold says, worker_answer. rewrite Ec. exists f. destruct (answer (c_id c)) as [code|]; cbn; eexists; (split; [done|]);
      cbn; rewrite responded_app; cbn; rewrite <- app_assoc; split_and!; try done; try lia; [split|..]; try done; cbn; case_match; cbn; done || lia.
  - unfold cmd_step. rewrite Ec, Hl. exists f. eexists. split; [done|]. cbn. rewrite responded_app, app_nil_r. split_and!; try done; lia.
  - unfold cmd_step. rewrite Ec, Hl. exists f. eexists. split; [done|]. cbn. rewrite responded_app, app_nil_r. split_and!; try done; lia.
  - unfold cmd_step. rewrite Ec, Hl. exists f. eexists. split; [done|]. case_match; cbn; rewrite responded_app; cbn;
      rewrite ?app_nil_r, <- ?app_assoc; split_and!; try done; lia.
  - unfold says, worker_answer. rewrite Ec, !restore_procedure_eq, !exchange_resp_of. exists f.
    destruct (answer (c_id c)) as [code|]; cbn; eexists; (split; [done|]);
      cbn; rewrite responded_app; cbn; rewrite <- app_assoc; split_and!; try done; lia.
  - unfold cmd_step. rewrite Ec. exists f. eexists. split; [done|]. cbn. rewrite responded_app, app_nil_r. split_and!; try done; lia.
  - done.
Qed.

(** It waits when there is nothing to do. *)
Lemma drive_rests n f s : working f s -> sv_cmd s = CPop -> f_items f = [] -> drive n s = s.
Proof.
  intros [Hq _ Hi _ _] Ec Ef. destruct n as [|n]; [done|]. cbn [drive]. unfold next_act, step, cmd_step. rewrite Ec.
  pose proof (pop_refines 0 (sv_queue s) f Hq) as Hp. unfold fifo_pop in Hp. rewrite Hi, Ef in Hp. cbn in Hp.
  destruct (service_cmds_pop_front 0 (sv_queue s)) as [[[ret o] q]|]; done.
Qed.

Lemma drive_drains n f s :
  working f s -> (6 * length (f_items f) + pc_left (sv_cmd s) <= n)%nat ->
  let s' := drive n s in
  working (Fifo [] false) s' /\ sv_cmd s' = CPop /\ sv_main s' = sv_main s
  /\ responded (sv_events s') = responded (sv_events s) ++ owed f s.
Proof.
  revert f s. induction n as [|n IH]; intros f s Hw Hn s'.
  all: destruct (decide (sv_cmd s = CPop /\ f_items f = [])) as [[Ec Ef]|Hne].
  1, 3: subst s'; rewrite (drive_rests _ f) by done; unfold owed; rewrite Ec, Ef; cbn; rewrite app_nil_r; split_and!; try done;
    destruct f as [items intr]; cbn in Ef; subst items; pose proof (wk_running _ _ Hw) as Hi; cbn in Hi; by subst intr.
  - exfalso. apply Hne. destruct (sv_cmd s) eqn:Ec; cbn in Hn; try lia; [|by destruct (wk_alive _ _ Hw)].
    split; [done|]. destruct (f_items f); [done|cbn in Hn; lia].
  - destruct (drive_step f s Hw) as (f1 & s1 & E & Hw1 & Em & Hlt & Er).
    { destruct (f_items f) eqn:Ef; [left|by right]. intros Ec. by apply Hne. }
    subst s'. cbn [drive]. rewrite E. destruct (IH f1 s1 Hw1) as (H1 & H2 & H3 & H4); [lia|]. split_and!; try done; congruence.
Qed.
End Drive.

(** Enough for a full queue and a command in hand. *)
Definition drain_steps : nat := 6 * MAX_CLIENT_CONNECTIONS + 5.

(** C11: nobody waits forever for the command thread.  In every state the
    service can get into with the lock free, no interrupt and the command thread
    alive, let that thread go on, with a worker forked whenever it asks for one,
    and each worker answering anything or, within the time allowed, nothing: after
    at most 53 steps it has answered, each exactly once and in the order in which
    they were queued, the client of the request it had in hand and those of all
    requests in the queue; the queue is empty, the lock free, and the thread
    waits for the next request. *)
Theorem requests_answered s fork answer :
  reachable s -> sv_lock s = false -> q_interrupt (sv_queue s) = false -> sv_cmd s <> CExit ->
  exists f, queue_abs (sv_queue s) f
    /\ let s' := drive fork answer drain_steps s in
       responded (sv_events s') = responded (sv_events s) ++ cmd_ids (sv_cmd s) ++ (c_id <$> f_items f)
       /\ queue_abs (sv_queue s') (Fifo [] false) /\ sv_cmd s' = CPop /\ sv_lock s' = false /\ sv_main s' = sv_main s.
Proof.
  intros Hr Hl Hi Ha. destruct (reachable_known s Hr) as [_ (f & Hq & Hk)]. exists f. split; [done|].
  assert (Hint : f_interrupt f = false) by (destruct Hq as (_ & -> & _); done).
  assert (Hlen : (length (f_items f) <= MAX_CLIENT_CONNECTIONS)%nat) by (destruct Hq as ((_ & _ & ? & _) & _ & -> & _); done).
  assert (Hpc : (pc_left (sv_cmd s) <= 5)%nat) by (destruct (sv_cmd s); cbn; lia).
  destruct (drive_drains fork answer drain_steps f s) as ([] & H2 & H3 & H4); [by split|unfold drain_steps; lia|].
  cbn zeta. split_and!; done.
Qed.

(** A checkpoint is being made, a restore is in the queue. *)
Definition two_requests : service :=
  match run_acts [Accept MEMCR_CHECKPOINT 7; Main; Main; Main; Cmd; Forked 70 3; Accept MEMCR_RESTORE 7; Main; Main; Main] service_init with
  | Some s => s
  | None => service_init
  end.

Lemma two_requests_reachable : reachable two_requests.
Proof.
  apply (reachable_run [Accept MEMCR_CHECKPOINT 7; Main; Main; Main; Cmd; Forked 70 3; Accept MEMCR_RESTORE 7; Main; Main; Main]
    service_init); [apply reach_init|by vm_compute].
Qed.

Lemma requests_answered_witness :
  exists f, queue_abs (sv_queue two_requests) f
    /\ let s' := drive (fun _ => (71, 4)) (fun _ => None) drain_steps two_requests in
       responded (sv_events s') = responded (sv_events two_requests) ++ cmd_ids (sv_cmd two_requests) ++ (c_id <$> f_items f)
       /\ queue_abs (sv_queue s') (Fifo [] false) /\ sv_cmd s' = CPop /\ sv_lock s' = false /\ sv_main s' = sv_main two_requests.
Proof.
  apply (requests_answered two_requests (fun _ => (71, 4)) (fun _ => None)); [apply two_requests_reachable|by vm_compute|by vm_compute|].
  intros E. by vm_compute in E.
Defined.
