(* ===== verification/ServiceMode.v ===== *)
(** [service_mode] of memcr.c: the listening socket, the loop around select(2)
    and accept(2), and the end of the service.  What a round of the loop hands
    to [service_command] is a step [Accept] of Service.v, the end of the loop its
    step [Interrupt]. *)
From Stdlib Require Import String.
From stdpp Require Import base list strings.
From S2P Require Import Prelude Io Proto Paths Queue Sockets.
#[local] Open Scope Z_scope.

Definition EWOULDBLOCK : Z := EAGAIN.

(** One round: [interrupted] at its start, what select(), accept() and
    [read_command] return, with the errno of the first two. *)
Record round := Round {
  rn_interrupted : bool;
  rn_select : Z;
  rn_select_errno : Z;
  rn_accept : Z;
  rn_accept_errno : Z;
  rn_read : Z * service_command_t;
}.

Inductive mode_event :=
| EvCommand (cd : Z) (c : service_command_t)   (** service_command() *)
| EvDrop (cd : Z)                              (** the command could not be read: close(cd) *)
| EvInterrupt                                  (** service_cmds_interrupt() *)
| EvJoin                                       (** pthread_join() of the command thread *)
| EvCleanup.                                   (** cleanup_checkpointed_pids() *)

Fixpoint accept_loop (rounds : list round) (ret : Z) : run (Z * list mode_event) :=
  match rounds with
  | [] => OutOfFuel
  | r :: rounds =>
      if rn_interrupted r then Ret (ret, [])
      else
        let ret := rn_select r in
        if (ret <? 0) && negb (rn_select_errno r =? EINTR) then Ret (ret, [])
        else if ret <=? 0 then accept_loop rounds ret
        else
          let cd := rn_accept r in
          if 0 <=? cd then
            let '(ret, c) := rn_read r in
            let! (ret', es) := accept_loop rounds ret in
            Ret (ret', (if ret <? 0 then EvDrop cd else EvCommand cd c) :: es)
          else if negb (rn_accept_errno r =? EAGAIN) || negb (rn_accept_errno r =? EWOULDBLOCK) then Ret (ret, [])
          else accept_loop rounds ret
  end.

(** [rthread]: what pthread_create() returns. *)
Definition service_mode (listen_location : string) (gid : Z) (r : listen_ret) (rthread : Z) (rounds : list round) (s : sys)
    : run (Z * list mode_event * sys) :=
  let listen_port := atoi listen_location in
  let '(csd, s) := service_listen listen_location gid r s in
  if csd <? 0 then Ret (-1, [], s)
  else
    let! (ret, es) :=
      if negb (rthread =? 0) then Ret (rthread, [])
      else
        let! (ret, es) := accept_loop rounds 0 in
        Ret (ret, es ++ [EvInterrupt; EvJoin]) in
    let s := closed csd s in
    let s := if listen_port =? 0 then called (Sys_unlink listen_location) s else s in
    Ret (ret, es ++ [EvCleanup], s).

(** * Lemmas *)

(** A round that ends the loop: SIGINT was seen, or select() or accept() fails
    for good. *)
Definition ends (r : round) : bool :=
  rn_interrupted r
  || (rn_select r <? 0) && negb (rn_select_errno r =? EINTR)
  || (0 <? rn_select r) && (rn_accept r <? 0) && negb (rn_accept_errno r =? EAGAIN).

(** What a round that does not end the loop does, and leaves in [ret]. *)
Definition round_events (r : round) : list mode_event :=
  if (rn_select r <=? 0) || (rn_accept r <? 0) then []
  else [if (rn_read r).1 <? 0 then EvDrop (rn_accept r) else EvCommand (rn_accept r) (rn_read r).2].
Definition round_ret (r : round) : Z := if (rn_select r <=? 0) || (rn_accept r <? 0) then rn_select r else (rn_read r).1.

Lemma accept_loop_ends before r rest ret :
  Forall (fun r => ends r = false) before -> ends r = true ->
  accept_loop (before ++ r :: rest) ret
    = Ret (if rn_interrupted r then default ret (last (map round_ret before)) else rn_select r, flat_map round_events before).
Proof.
  intros Hb Hr. revert ret. induction Hb as [|b before Hb1 Hb IH]; intros ret; cbn [app accept_loop].
  - unfold ends in Hr. cbn. destruct (rn_interrupted r); [done|]. cbn [orb] in Hr.
    destruct ((rn_select r <? 0) && negb (rn_select_errno r =? EINTR)) eqn:Es; [done|]. cbn [orb] in Hr. tests.
    rewrite (proj2 (Z.leb_gt (rn_select r) 0)), (proj2 (Z.leb_gt 0 (rn_accept r))) by lia.
    rewrite (proj2 (Z.eqb_neq (rn_accept_errno r) EAGAIN)) by done. done.
  - unfold ends in Hb1. apply orb_false_iff in Hb1 as [Hb1 Ha]. apply orb_false_iff in Hb1 as [Hi Hs]. rewrite Hi, Hs.
    change (b :: before) with ([b] ++ before). rewrite map_app, flat_map_app. cbn [map flat_map app].
    assert (El : forall v, default v (last (round_ret b :: map round_ret before)) = default (round_ret b) (last (map round_ret before))).
    { intros v. destruct (map round_ret before) as [|z l]; [done|]. rewrite last_cons_cons.
      destruct (last (z :: l)) eqn:E; [done|by apply last_None in E]. }
    rewrite El, app_nil_r. unfold round_events at 1, round_ret at 1.
    destruct (rn_select b <=? 0) eqn:E0; cbn [orb]; [by rewrite IH|].
    destruct (0 <=? rn_accept b) eqn:Eacc.
    + rewrite (proj2 (Z.ltb_ge (rn_accept b) 0)) by lia. destruct (rn_read b) as [rr c]. cbn [fst snd]. by rewrite IH.
    + rewrite (proj2 (Z.ltb_lt (rn_accept b) 0)) by lia. apply Z.leb_gt in E0, Eacc.
      assert (rn_accept_errno b = EAGAIN) as ->.
      { rewrite (proj2 (Z.ltb_lt 0 (rn_select b))), (proj2 (Z.ltb_lt (rn_accept b) 0)) in Ha by lia.
        apply Z.eqb_eq. by destruct (rn_accept_errno b =? EAGAIN). }
      cbn. by rewrite IH.
Qed.

(** C31: the service ends in order: whenever the loop comes to an end (SIGINT, or an
    error of select() or accept()), after every command that could be read was
    given to [service_command] in the order of the connections, the queue is
    interrupted, the command thread joined and the table cleaned up, the
    listening socket is closed and its file removed, unless the location begins
    with a number. *)
Theorem service_mode_ends location gid r before last_ rest s csd s1 :
  service_listen location gid r s = (csd, s1) -> 0 <= csd ->
  Forall (fun r => ends r = false) before -> ends last_ = true ->
  exists ret s', service_mode location gid r 0 (before ++ last_ :: rest) s
      = Ret (ret, flat_map round_events before ++ [EvInterrupt; EvJoin; EvCleanup], s')
    /\ sy_open s' = sy_open s
    /\ sy_calls s' = sy_calls s1 ++ (if atoi location =? 0 then [Sys_unlink location] else []).
Proof.
  intros E Hc Hb Hl. unfold service_mode. rewrite E, (proj2 (Z.ltb_ge csd 0)) by done. cbn [negb Z.eqb].
  rewrite accept_loop_ends by done. cbn [rbind]. eexists _, _. rewrite <- app_assoc. split; [reflexivity|].
  assert (Ho : sy_open s1 = csd :: sy_open s).
  { unfold service_listen, setup_listen_tcp_socket, setup_listen_unix_socket in E.
    destruct (0 <? atoi location); apply listen_socket_ok in E as [E _]; unfold result_open in E;
      by rewrite (proj2 (Z.ltb_ge csd 0)) in E. }
  destruct (atoi location =? 0); cbn [sy_open sy_calls called closed]; rewrite Ho, remove_fd_cons, ?app_nil_r; done.
Qed.

(** The value returned, and so the exit status of memcr, is whatever the last
    call left in [ret]: -1 when SIGINT interrupts select(), 0 when it is seen
    after a timeout, 8 when it is seen after a command. *)
Lemma service_mode_status gid r before c rest s csd s1 :
  service_listen "/run/memcr" gid r s = (csd, s1) -> 0 <= csd -> Forall (fun r => ends r = false) before ->
  let stop := Round true 0 0 0 0 (0, c) in
  let ret tail := match service_mode "/run/memcr" gid r 0 (before ++ tail ++ stop :: rest) s with Ret (ret, _, _) => Some ret | _ => None end in
  ret [Round false (-1) EINTR 0 0 (0, c)] = Some (-1)
  /\ ret [Round false 0 0 0 0 (0, c)] = Some 0
  /\ ret [Round false 1 0 5 0 (8, c)] = Some 8.
Proof.
  intros E Hc Hb stop ret. unfold ret, service_mode. rewrite E, (proj2 (Z.ltb_ge csd 0)) by done. cbn [negb Z.eqb].
  assert (Hret : forall b, ends b = false ->
    accept_loop (before ++ [b] ++ stop :: rest) 0 = Ret (round_ret b, flat_map round_events (before ++ [b]))).
  { intros b Hbb. rewrite app_assoc, accept_loop_ends by (done || (apply Forall_app; split; [done|by repeat constructor])).
    change (rn_interrupted stop) with true. cbn iota. rewrite map_app. cbn [map]. by rewrite last_snoc. }
  split_and!; rewrite Hret by done; done.
Qed.

Lemma service_mode_ends_witness :
  let c := SvcCmd MEMCR_CHECKPOINT 42 in
  let rounds := [Round false 0 0 0 0 (0, c); Round false 1 0 5 0 (8, c); Round false 1 0 (-1) EAGAIN (0, c);
                 Round false 1 0 6 0 (-1, c); Round false (-1) EINTR 0 0 (0, c)] in
  let s := Sys [3] [] OwnNs in
  exists ret s', service_mode "/run/memcr" 0 (ListenRet 4 0 0 0 0 0 0) 0 (rounds ++ Round true 0 0 0 0 (0, c) :: []) s
      = Ret (ret, flat_map round_events rounds ++ [EvInterrupt; EvJoin; EvCleanup], s')
    /\ sy_open s' = [3]
    /\ sy_calls s' = sy_calls (service_listen "/run/memcr" 0 (ListenRet 4 0 0 0 0 0 0) s).2 ++ [Sys_unlink "/run/memcr"].
Proof.
  intros c rounds s.
  apply (service_mode_ends "/run/memcr" 0 (ListenRet 4 0 0 0 0 0 0) rounds (Round true 0 0 0 0 (0, c)) [] s 4
    (service_listen "/run/memcr" 0 (ListenRet 4 0 0 0 0 0 0) s).2).
  - reflexivity.
  - lia.
  - by repeat constructor.
  - reflexivity.
Defined.
