(* ===== verification/EndToEnd.v ===== *)
(** The worker with everything it runs: [application_worker] over
    [seize_target], [execute_parasite_checkpoint] with [cmd_checkpoint] and
    [execute_parasite_restore] with [cmd_restore], on a target whose memory is
    the one ptrace(2) reads and writes and the one the parasite serves; and the
    service that waits for the worker's two responses. *)
From Stdlib Require Import Ascii String.
From stdpp Require Import base list gmap strings pretty.
From S2P Require Import Prelude Io Compress Dump Target Parasite Link Vmas Pages PageFacts Serve CkptFacts RestFacts Session SessionFacts Proto Paths Seize Watch Arch Abi Inject InjectFacts Enter Worker Queue Table Sockets Startup Service ServiceFacts.
#[local] Open Scope Z_scope.

(** * What the client is told *)

(** The worker's responses. *)
Definition replies (es : list wevent) : list Z := omap (fun e => match e with Reply code => Some code | _ => None end) es.

Section Told.
Context {S : Type}.
Context (seize_target execute_parasite_checkpoint execute_parasite_restore : Z -> S -> run (Z * S)).
Context (unseize_target : S -> S).
#[local] Abbreviation worker := (application_worker seize_target execute_parasite_checkpoint execute_parasite_restore unseize_target).
#[local] Abbreviation done := (checkpoint_done seize_target execute_parasite_checkpoint).

(** A worker whose messages get through, and whose target does not die by itself
    before the restore command is there. *)
Definition delivers (pid : Z) (env : worker_env) : Prop :=
  0 <= we_rsd env /\ we_sent1 env = true /\ survives env /\ 0 <= we_accept env
  /\ we_read env = (sizeof_service_command, SvcCmd MEMCR_RESTORE pid) /\ we_sent2 env = true.

(** It ends in one of three ways. *)
Lemma worker_ends pid env st r s' :
  delivers pid env -> worker pid env (WState st []) = Ret (r, s') ->
  (r <> 0 /\ (forall st1, ~ done pid st st1) /\ ws_events s' = [Kill pid; Cleanup pid; Reply MEMCR_ERROR_GENERAL])
  \/ (exists st1 st2, done pid st st1 /\ execute_parasite_restore pid st1 = Ret (r, st2) /\ ws_state s' = unseize_target st2
        /\ ws_events s' = [Watch; Reply MEMCR_OK; Unwatch] ++ (if r =? 0 then [] else [Kill pid])
             ++ [Unseize; Cleanup pid; Reply (if r =? 0 then MEMCR_OK else MEMCR_ERROR_GENERAL); RemoveSocket pid]).
Proof.
  intros (Hrsd & Hs1 & Hd & Hacc & Hread & Hs2). unfold application_worker.
  rewrite (proj2 (Z.ltb_ge (we_rsd env) 0)) by done. cbn [Z.eqb]. intros E. apply rbind_ret in E as ([r1 s1] & E1 & E).
  apply rbind_ret in E1 as ([r1' s1'] & E1 & [= <- <-]). rewrite Z.lor_0_l in E.
  pose proof (checkpoint_worker_ret _ _ pid (WState st []) r1' s1' E1) as [(-> & Hdone & Hev)|[Hn Hev]].
  - right. destruct s1' as [st1 ev]. cbn [ws_state ws_events app] in Hdone, Hev. subst ev.
    rewrite worker_rest_usable in E by (done || by rewrite Hread). rewrite Hread, Hs2 in E. cbn in E.
    apply rbind_ret in E as (res & E & Ex). apply rbind_ret in E as ([r2 st2] & Er & [= <-]). rewrite Z.lor_0_r in Ex.
    injection Ex as -> <-. exists st1, st2. split_and!; [done..|]. cbn. by destruct (r =? 0).
  - left. unfold worker_rest, sigchld, reply in E. rewrite (proj2 (Z.eqb_neq r1' 0)), Hs1 in E by done. cbn [andb] in E. rewrite Z.lor_0_r in E.
    rewrite (proj2 (Z.eqb_neq r1' 0)) in E by done. cbn in E. injection E as -> <-. split; [done|]. cbn. rewrite Hev. split; [|done].
    intros st1 (st0 & D1 & D2). unfold checkpoint_worker, lift in E1. cbn in E1. rewrite D1 in E1. cbn in E1. rewrite D2 in E1.
    cbn in E1. by injection E1 as <- _.
Qed.

(** C2: the client is told the truth.  Whatever seizing, checkpointing and
    restoring the target come to, if the worker's messages get through and the
    target does not die by itself while it is checkpointed: the
    client's checkpoint request is answered with MEMCR_OK exactly when the
    checkpoint was made, and then the restore request that follows with MEMCR_OK
    exactly when the restore succeeded.  An error means that the target was killed,
    MEMCR_OK to both that nobody was.  After the last answer the service has
    nothing about the process left and is idle. *)
Theorem client_told_truth pid env st r s' wpid sd sv :
  delivers pid env -> worker pid env (WState st []) = Ret (r, s') ->
  idle sv -> pid <> PID_INVALID -> wpid <> PID_INVALID -> table_abs (sv_table sv) !! pid = None ->
  (size (table_abs (sv_table sv)) < CHECKPOINTED_PIDS_LIMIT)%nat ->
  exists sv', idle sv' /\ table_abs (sv_table sv') = table_abs (sv_table sv)
    /\ ((exists c, c <> MEMCR_OK /\ replies (ws_events s') = [c] /\ (forall st1, ~ done pid st st1) /\ Kill pid ∈ ws_events s'
           /\ run_acts (answered c (checkpoint_acts pid wpid sd)) sv = Some sv'
           /\ responses (sv_events sv') = responses (sv_events sv) ++ [(sv_next sv, c)])
        \/ (exists c st1 st2, replies (ws_events s') = [MEMCR_OK; c] /\ done pid st st1
           /\ execute_parasite_restore pid st1 = Ret (r, st2) /\ (c = MEMCR_OK <-> r = 0) /\ (Kill pid ∈ ws_events s' <-> r <> 0)
           /\ run_acts (checkpoint_acts pid wpid sd ++ answered c (restore_acts pid)) sv = Some sv'
           /\ responses (sv_events sv') = responses (sv_events sv) ++ [(sv_next sv, MEMCR_OK); (Datatypes.S (sv_next sv), c)])).
Proof.
  intros Hdel E Hi Hp Hw Hnone Hroom. apply worker_ends in E as [(Hr & Hnd & Hev)|(st1 & st2 & Hd & Er & Est & Hev)]; [| |done].
  - destruct (run_checkpoint_answer MEMCR_ERROR_GENERAL pid wpid sd sv) as (sv1 & E1 & Hi1 & _ & Ha1 & Hr1); [done..|].
    exists sv1. split; [done|]. split; [done|]. left. exists MEMCR_ERROR_GENERAL. rewrite Hev. split_and!; try done. by left.
  - destruct (run_checkpoint pid wpid sd sv) as (sv1 & E1 & Hi1 & Hn1 & Ha1 & Hr1); [done..|].
    set (c := if r =? 0 then MEMCR_OK else MEMCR_ERROR_GENERAL).
    destruct (run_restore_answer c pid wpid sv1) as (sv2 & E2 & Hi2 & _ & Ha2 & Hr2); [done..|by rewrite Ha1, lookup_insert_eq|].
    exists sv2. split; [done|]. split; [by rewrite Ha2, Ha1, delete_insert_id|]. right. exists c, st1, st2. rewrite Hev.
    assert (Hc : restore_code c = c) by (subst c; by destruct (r =? 0)). unfold c. split_and!; try done.
    + by destruct (r =? 0).
    + destruct (Z.eqb_spec r 0); split; intros; congruence || done.
    + destruct (Z.eqb_spec r 0) as [->|Hne]; cbn; rewrite !elem_of_cons, elem_of_nil; [|tauto]. split; [|done].
      intros HK. by destruct_or! HK.
    + rewrite run_acts_app, E1. exact E2.
    + rewrite Hr2, Hr1, Hn1, Hc, <- app_assoc. done.
Qed.
End Told.

(** A restore that fails. *)
Lemma client_told_truth_witness :
  let bad_call (pid : Z) (n : nat) : run (Z * nat) := Ret (1, n) in
  let es := [Watch; Reply MEMCR_OK; Unwatch; Kill 42; Unseize; Cleanup 42; Reply MEMCR_ERROR_GENERAL; RemoveSocket 42] in
  exists sv', idle sv' /\ table_abs (sv_table sv') = table_abs table_init
    /\ ((exists c, c <> MEMCR_OK /\ replies es = [c] /\ (forall st1, ~ checkpoint_done ok_call ok_call 42 0%nat st1) /\ Kill 42 ∈ es
           /\ run_acts (answered c (checkpoint_acts 42 70 3)) service_init = Some sv'
           /\ responses (sv_events sv') = responses [] ++ [(0%nat, c)])
        \/ (exists c st1 st2, replies es = [MEMCR_OK; c] /\ checkpoint_done ok_call ok_call 42 0%nat st1
           /\ bad_call 42 st1 = Ret (1, st2) /\ (c = MEMCR_OK <-> 1 = 0) /\ (Kill 42 ∈ es <-> 1 <> 0)
           /\ run_acts (checkpoint_acts 42 70 3 ++ answered c (restore_acts 42)) service_init = Some sv'
           /\ responses (sv_events sv') = responses [] ++ [(0%nat, MEMCR_OK); (1%nat, c)])).
Proof.
  intros bad_call es.
  apply (client_told_truth ok_call ok_call bad_call (Nat.add 10) 42 (WorkerEnv 3 true 5 (8, SvcCmd MEMCR_RESTORE 42) true None)
    0%nat 1 (WState 12%nat es) 70 3 service_init); try done.
  - split_and!; try done; [apply init_refines|apply table_init_ok].
  - destruct table_init_ok as [_ E]. cbn [sv_table service_init]. rewrite E, map_size_empty. unfold CHECKPOINTED_PIDS_LIMIT. lia.
Defined.

(** * One memory, two views

    [load w t]: the address space [t] once its memory and its mappings are those
    ptrace(2) shows in [w]; a mapping [t] does not know of is the parasite's. *)
Class Views {R T : Type} `{AddrSpace T} (load : tracee R -> T -> T) := {
  load_byte w t x : as_byte (load w t) x = w_mem w x;
  load_prot w t x : as_prot (load w t) x = if w_mapped w x then Some (default PROT_RWX (as_prot t x)) else None;
}.

(** The thread once its address space is [t]. *)
Definition unload {R T} `{AddrSpace T} (t : T) (w : tracee R) : tracee R :=
  Tracee (w_regs w) (as_byte t) (fun x => bool_decide (is_Some (as_prot t x))) (w_mask w).

Section Views.
Context {R T : Type} `{AddrSpace T} (load : tracee R -> T -> T) `{!Views load}.

Lemma load_unload t w : same_bytes (load (unload t w) t) t /\ same_prot (load (unload t w) t) t.
Proof.
  split; intros x; [by rewrite load_byte|]. rewrite load_prot. cbn. by destruct (as_prot t x).
Qed.

(** Giving back the address space gives back the thread. *)
Lemma unload_restored t t' w w' :
  w_regs w' = w_regs w -> same_bytes t' (load w t) -> same_prot t' (load w t) -> restored w (unload t' w').
Proof.
  intros Hr Hb Hp. split_and!; [done| |]; intros x; cbn.
  - rewrite Hp, load_prot. by destruct (w_mapped w x).
  - intros _. by rewrite Hb, load_byte.
Qed.
End Views.

(** * The worker's process and its target *)

Section Memcr.
Context {R : Type} `{Cpu R} `{!CpuSpec R}.
Context {T : Type} `{AddrSpace T}.
#[local] Abbreviation tracee := (tracee R).
#[local] Abbreviation W := (word_size (R := R)).

(** The options and the kernel, as in the files of the parts. *)
Context (cfg : dump_cfg) (mc : mem_cfg) (kern : kernel) (lz4 : lz4_api) (zstd : zstd_api).
Context {C : Type} (evp : evp_api C).
Context {F : Type} (rd : Z -> F -> run (Z * bytes * F)) (wr : bytes -> F -> run (Z * F)).
Context (exec : tracee -> tracee) (sigprocmask_blob mmap_blob clone_blob munmap_blob : bytes).
Context (parasite_blob : bytes) (args_offset : Z) (sdir : option string) (sgid : Z) (pagemap : bool).
Context (load : tracee -> T -> T).
#[local] Abbreviation session := (session T F C).

Record memcr := Memcr {
  m_inject : inject_state;
  m_session : session;
  m_stops : list (stop (R := R));      (** what the thread does whenever it is continued *)
  m_target : tracee;
}.

(** What the outside answers. *)
Record memcr_env := MemcrEnv {
  me_threads : Z -> thread_env;        (** ptrace(2) on each thread *)
  me_detach : Z -> Z;                  (** PTRACE_DETACH *)
  me_exists : bool;
  me_tasks1 : Z + list string;         (** the task directory before the clone *)
  me_tasks2 : Z + list string;         (** and after *)
  me_start : start_ret;                (** the system calls of the parasite's start *)
  me_ckpt : tracee -> ckpt_env (F := F);   (** /proc/pid/maps shows the target of the time *)
  me_reopen : F -> F;                  (** open(2) of the dump that was written *)
  me_rest : rest_env (F := F);
  me_fuel : nat;
  me_wakeups : list wakeup;
  me_status : Z;
}.
Context (env : memcr_env).

Definition with_para (p : parasite T) (s : session) : session :=
  Session p (s_dump s) (s_vmas s) (s_ckpt_digest s) (s_rest_digest s).
Definition with_as (t : T) (p : parasite T) : parasite T :=
  Parasite (p_mode p) (p_in p) (p_closed p) (p_out p) (p_req p) (p_fpage p) t.

(** The parasite that the clone blob started, after the start of its service. *)
Definition parasite_started (b : Z) (w : tracee) (t : T) : parasite T :=
  let args := parasite_args_of (R := R) (range (w_mem w) (b + args_offset) (112 + 2 * W)) in
  match (service_start args (me_start env) (Sys [] [] OwnNs)).1 with
  | Listening _ fpage => Parasite PAccept [] true [] (replicate 28 Byte.x00) (0 <=? fpage) (load w t)
  | Died _ _ => Parasite PTrapped [] true [] (replicate 28 Byte.x00) false (load w t)
  end.

(** Without the thread there is nobody to serve. *)
Definition no_parasite (w : tracee) (t : T) : parasite T :=
  Parasite PExited [] true [] (replicate 28 Byte.x00) false (load w t).

Definition checkpoint_target (b clone : Z) (s : session) (w : tracee) : run (Z * session * tracee) :=
  let t := p_as (s_para s) in
  let s := with_para (if 0 <? clone then parasite_started b w t else no_parasite w t) s in
  let! (ret, s) := cmd_checkpoint cfg mc kern lz4 zstd evp wr b (me_ckpt env w) s in
  Ret (ret, s, unload (p_as (s_para s)) w).

Definition restore_target (s : session) (w : tracee) : run (Z * session * tracee) :=
  let e := me_rest env in
  let set := SetEnv (Some (me_reopen env (d_fd (s_dump s)))) (se_conn (e_set e)) (se_vmr (e_set e)) (se_buf (e_set e)) in
  let s := with_para (with_as (load w (p_as (s_para s))) (s_para s)) s in
  let! (ret, s) := cmd_restore cfg lz4 zstd evp rd (RestEnv set (e_on e) (e_end e)) s in
  Ret (ret, s, unload (p_as (s_para s)) w).

(** The four functions the worker calls, on the whole state. *)
Definition set_tids (tids : threads) (m : memcr) : memcr :=
  let i := m_inject m in
  Memcr (Inject (i_ctx i) tids (i_parasite_pid i) (i_parasite_pid_clone i) (i_watched i) (i_watch i))
    (m_session m) (m_stops m) (m_target m).

Definition run_seize (pid : Z) (m : memcr) : run (Z * memcr) :=
  let! (ret, tids) := seize_target (me_threads env) (me_exists env) (me_tasks1 env) pid (i_tids (m_inject m)) in
  Ret (ret, set_tids tids m).

Definition run_checkpoint_on (pid : Z) (m : memcr) : run (Z * memcr) :=
  let! (ret, i, s, stops, w) :=
    execute_parasite_checkpoint exec sigprocmask_blob mmap_blob clone_blob munmap_blob (page_size cfg) parasite_blob
      args_offset sdir sgid checkpoint_target pid pagemap (me_tasks2 env) (m_inject m) (m_session m) (m_stops m) (m_target m) in
  Ret (ret, Memcr i s stops w).

Definition run_restore_on (pid : Z) (m : memcr) : run (Z * memcr) :=
  let! (ret, s, stops, w) :=
    execute_parasite_restore exec sigprocmask_blob munmap_blob parasite_blob restore_target pid (me_fuel env)
      (me_wakeups env) (me_status env) (m_inject m) (m_session m) (m_stops m) (m_target m) in
  Ret (ret, Memcr (m_inject m) s stops w).

Definition run_unseize (m : memcr) : memcr :=
  let '(_, _, tids) := unseize_target (me_detach env) (i_tids (m_inject m)) in set_tids tids m.

Definition memcr_worker (pid : Z) (wenv : worker_env) (m : memcr) : run (Z * wstate memcr) :=
  application_worker run_seize run_checkpoint_on run_restore_on run_unseize pid wenv (WState m []).
End Memcr.

(** * The target comes back as it was *)

Section Facts.
Context {R : Type} `{Cpu R} `{!CpuSpec R}.
Context (cfg : dump_cfg) {T : Type} `{AddrSpace T} `{!AddrSpaceSpec T (page_size cfg)}.
Context (mc : mem_cfg) (kern : kernel) (Hkern : kernel_ok kern).
Context (lz4 : lz4_api) (zstd : zstd_api) `{!Lz4Spec lz4, !ZstdSpec zstd}.
Context {C : Type} (evp : evp_api C) `{!EvpOk evp}.
Context {F : Type} (rd : Z -> F -> run (Z * bytes * F)) (wr : bytes -> F -> run (Z * F)) `{!DumpChannel rd wr}.
Context (Hps : page_size_ok (page_size cfg)) (Hfit : bounds_fit lz4 zstd MAX_VM_REGION_SIZE).
Context (exec : tracee R -> tracee R) (sigprocmask_blob mmap_blob clone_blob munmap_blob : bytes).
Context (kmask : bytes -> bytes) `{!Blobs exec sigprocmask_blob mmap_blob clone_blob munmap_blob kmask (page_size cfg)}.
Context (parasite_blob : bytes) (args_offset : Z) (sdir : option string) (sgid : Z) (pagemap : bool).
Context (load : tracee R -> T -> T) `{!Views load}.
Context (env : memcr_env (R := R) (F := F)).
#[local] Abbreviation ps := (page_size cfg).
#[local] Abbreviation memcr := (memcr (R := R) (T := T) (C := C) (F := F)).
#[local] Abbreviation injected := (injected exec sigprocmask_blob mmap_blob clone_blob munmap_blob kmask ps parasite_blob args_offset sdir sgid).
#[local] Abbreviation seize := (run_seize env).
#[local] Abbreviation checkpoint := (run_checkpoint_on cfg mc kern lz4 zstd evp wr exec sigprocmask_blob mmap_blob clone_blob
  munmap_blob parasite_blob args_offset sdir sgid pagemap load env).
#[local] Abbreviation restore := (run_restore_on cfg lz4 zstd evp rd exec sigprocmask_blob munmap_blob parasite_blob load env).

(** A target that can be checkpointed, on a system where nothing fails: its
    threads stop, code can be injected, the parasite's system calls and the
    connections to it succeed, the areas scanned are the target's, and the dump
    reads back as it was written.  [sigs]: signals that arrive during the first
    blob; [n]: the seconds the parasite takes to exit. *)
Record ready (pid : Z) (ts : list Z) (sigs : list (stop (R := R))) (n : nat) (status : Z) (m : memcr) : Prop := Ready {
  rd_tasks : me_exists env = true /\ me_tasks1 env = inr (["."; ".."]%string ++ map pretty ts) /\ i_tids (m_inject m) = [];
  rd_threads : Forall (fun t => 0 < t < 2 ^ 31 /\ (stops (me_threads env) t \/ vanished (me_threads env) t = true)) ts
    /\ blen ts <= MAX_THREADS;
  rd_injectable : injectable sigprocmask_blob mmap_blob clone_blob munmap_blob kmask ps parasite_blob args_offset (m_target m);
  rd_stops : m_stops m = sigs ++ quiet ++ quiet ++ quiet ++ quiet ++ quiet ++ [];
  rd_signals : signals (get_cpu_regs_sp (w_regs (m_target m)) - 16 * word_size) sigs;
  rd_calls : calls_work exec mmap_blob clone_blob munmap_blob parasite_blob (m_target m);
  rd_address : match sdir with Some d => no_nul d | None => True end /\ sgid < 2 ^ 31;
  rd_start args : Forall (fun ret => 0 <= ret) (start_rets args (me_start env));
  rd_areas b w : injected pid pagemap (m_target m) b w ->
    exists vmas, scan_target_vmas b ps (e_maps (me_ckpt env w)) (s_vmas (m_session m)) = Ret (0, vmas)
      /\ target_areas cfg mc (load w (p_as (s_para (m_session m)))) vmas;
  rd_ckpt w : env_ok (e_off (me_ckpt env w)) /\ exists fd, get_env_ok mc rd wr (negb pagemap) (e_get (me_ckpt env w)) fd;
  rd_dump : d_size (s_dump (m_session m)) = 0;
  rd_reopen fd img : dc_writer rd wr fd img -> dc_reader rd wr (me_reopen env fd) img;
  rd_rest : env_ok (se_conn (e_set (me_rest env))) /\ env_ok (e_on (me_rest env)) /\ env_ok (e_end (me_rest env));
  rd_watch : pw_changed (i_watch (m_inject m)) = false /\ WIFEXITED status = true /\ (0 < me_fuel env)%nat
    /\ me_wakeups env = replicate n (0, i_watch (m_inject m)) ++ [(0, parasite_status_signal status (i_watch (m_inject m)))];
}.

(** The service that was started waits for memcr, with the pagemap open when
    memcr cannot open it. *)
Lemma parasite_started_ok pid pm w0 b w t :
  injected pid pm w0 b w -> match sdir with Some d => no_nul d | None => True end -> sgid < 2 ^ 31 ->
  (forall args, Forall (fun ret => 0 <= ret) (start_rets args (me_start env))) ->
  parasite_started args_offset load env b w t = Parasite PAccept [] true [] (replicate 28 Byte.x00) (negb pm) (load w t).
Proof.
  intros [_ _ _ _ _ Ha] Hd Hg Hr. unfold parasite_started. rewrite Ha. unfold inject_args.
  rewrite parasite_args_roundtrip; [|by apply parasite_socket_addr_ok| |by destruct pm].
  2: { destruct (0 <? sgid) eqn:Eg; tests; [split; [lia|]|]; destruct (cpu_word (R := R)) as [-> | ->]; lia. }
  set (args := ParasiteArgs _ _ _). specialize (Hr args).
  destruct (service_start_ok args (me_start env) (Sys [] [] OwnNs) Hr) as (s' & -> & _ & _). cbn [fst]. f_equal.
  unfold start_fpage, start_rets, args in *. cbn [pa_flags pa_addr] in *. destruct pm; [done|]. cbn in *.
  apply Forall_cons in Hr as [_ Hr]. apply Forall_app in Hr as [_ Hr]. apply Forall_cons in Hr as [_ Hr].
  change (negb (Z.land _ _ =? 0)) with true in *. cbn in *. apply Forall_cons in Hr as [Hr _]. by apply Z.leb_le.
Qed.

(** What the checkpoint left, seen through the thread again. *)
Lemma between_loaded t0 vmas t1 rs s w :
  between cfg lz4 zstd evp rd wr t0 vmas t1 rs s ->
  between cfg lz4 zstd evp rd wr t0 vmas t1 rs
    (with_para (with_as (load (unload (p_as (s_para s)) w) (p_as (s_para s))) (s_para s)) s).
Proof.
  intros (B1 & B2 & B3 & B4 & (ctx & D1 & D2 & D3) & B6).
  destruct (load_unload load (p_as (s_para s)) w) as [Lb Lp].
  split_and!; try done. exists ctx. split; [by transitivity (p_as (s_para s))|]. split; [|done].
  intros x. destruct (D2 x) as [E|]; [left|by right]. cbn. by rewrite Lb.
Qed.

(** The target between the two: stopped, with the parasite in it. *)
Definition suspended (pid : Z) (m m1 : memcr) : Prop :=
  exists b w1 vmas t1 rs,
    let t0 := load w1 (p_as (s_para (m_session m))) in
    injected pid pagemap (m_target m) b w1
    /\ i_ctx (m_inject m1)
         = ctx_of sigprocmask_blob mmap_blob clone_blob munmap_blob ps pid (m_target m) (w_mask (m_target m)) b
    /\ i_watch (m_inject m1) = i_watch (m_inject m)
    /\ m_target m1 = unload (p_as (s_para (m_session m1))) w1 /\ m_stops m1 = quiet ++ quiet ++ []
    /\ Forall (area_of_target cfg mc t0) vmas /\ between cfg lz4 zstd evp rd wr t0 vmas t1 rs (m_session m1).

Lemma checkpoint_suspends pid ts sigs n status m :
  ready pid ts sigs n status m ->
  exists m1, checkpoint_done seize checkpoint pid m m1 /\ suspended pid m m1
    /\ i_tids (m_inject m1) = filter (fun t => vanished (me_threads env) t = false) ts.
Proof.
  intros [(Hex & Hdir & Htids) [Hts _] Hinj Hst Hsig Hmm (Hd & Hg) Hstart Hareas Hck Hdump _ _ _].
  destruct m as [i s stops w0]. cbn [m_inject m_session m_stops m_target] in *. subst stops.
  set (i1 := Inject (i_ctx i) (filter (fun t => vanished (me_threads env) t = false) ts) (i_parasite_pid i)
    (i_parasite_pid_clone i) (i_watched i) (i_watch i)).
  destruct (inject_ok exec _ _ _ _ kmask ps parasite_blob args_offset sdir sgid
    (checkpoint_target cfg mc kern lz4 zstd evp wr args_offset load env) pid pagemap (me_tasks2 env) i1 s w0 sigs
    (quiet ++ quiet ++ []) Hinj Hsig Hmm) as (b & pp & clone & w1 & Ei & Hcl & Hid).
  destruct (Hareas b w1 Hid) as (vmas & Hscan & Hta). destruct (Hck w1) as (Hoff & fd & Hget).
  pose proof (parasite_started_ok pid pagemap w0 b w1 (p_as (s_para s)) Hid Hd Hg Hstart) as Ep.
  set (t0 := load w1 (p_as (s_para s))) in *.
  destruct (cmd_checkpoint_between cfg mc kern Hkern lz4 zstd evp rd wr Hps Hfit b (me_ckpt env w1)
    (with_para (Parasite PAccept [] true [] (replicate 28 Byte.x00) (negb pagemap) t0) s) vmas fd)
    as (s1 & t1 & rs & Ec & Hbt); [done..|]. cbn [with_para s_para p_as] in Hbt.
  eexists (Memcr (Inject _ _ _ _ _ _) s1 (quiet ++ quiet ++ []) (unload (p_as (s_para s1)) w1)). split_and!.
  - exists (Memcr i1 s (sigs ++ quiet ++ quiet ++ quiet ++ quiet ++ quiet ++ []) w0). split.
    + unfold run_seize. cbn [m_inject]. by rewrite Hex, Hdir, Htids, seize_target_ok.
    + unfold run_checkpoint_on. cbn [m_inject m_session m_stops m_target]. rewrite Ei. unfold checkpoint_target.
      rewrite (proj2 (Z.ltb_lt _ _) Hcl), Ep, Ec. done.
  - exists b, w1, vmas, t1, rs. split_and!; try done. by destruct Hta.
  - done.
Qed.

Lemma restore_resumes pid ts sigs n status m m1 :
  ready pid ts sigs n status m -> suspended pid m m1 ->
  exists m2, restore pid m1 = Ret (0, m2)
    /\ restored (m_target m) (m_target m2) /\ w_mask (m_target m2) = w_mask (m_target m)
    /\ p_mode (s_para (m_session m2)) = PExited
    /\ forall x p, w_mapped (m_target m) x = true -> as_prot (p_as (s_para (m_session m))) x = Some p ->
         as_prot (p_as (s_para (m_session m2))) x = Some p.
Proof.
  intros [_ _ Hinj _ _ Hcw _ _ _ _ _ Hre (He1 & He2 & He3) (Hch & Hexit & Hfuel & Hwk)]
    (b & w1 & vmas & t1 & rs & Hid & Hctx & Hwt & Htg & Hst & Hta & Hbt).
  destruct m1 as [i2 s1 stops w2]. cbn [m_inject m_session m_stops m_target] in *. subst stops w2.
  set (t0 := load w1 (p_as (s_para (m_session m)))) in *.
  destruct (cmd_restore_between cfg mc lz4 zstd evp rd wr Hps Hfit
    (RestEnv (SetEnv (Some (me_reopen env (d_fd (s_dump s1)))) (se_conn (e_set (me_rest env)))
       (se_vmr (e_set (me_rest env))) (se_buf (e_set (me_rest env)))) (e_on (me_rest env)) (e_end (me_rest env)))
    _ t0 vmas t1 rs (me_reopen env (d_fd (s_dump s1))) Hta (between_loaded _ _ _ _ _ w1 Hbt))
    as (s2 & Er & Hsb & Hsp & Hpe); [done| |done..|].
  { apply Hre. by destruct Hbt as (_ & _ & _ & _ & (ctx & _ & _ & _ & D4 & _) & _). }
  destruct (me_fuel env) as [|fuel] eqn:Ef; [lia|].
  destruct (eject_ok exec _ _ _ _ kmask ps parasite_blob args_offset sdir sgid (restore_target cfg lz4 zstd evp rd load env)
    pid pagemap (m_target m) b w1 i2 s1 s2 (unload (p_as (s_para s1)) w1) (unload (p_as (s_para s2)) w1) n fuel status
    (me_status env) []) as (w3 & Eo & Hres & Hmask); try done.
  { by rewrite Hwt. }
  { unfold restore_target. by rewrite Er. }
  { by apply (unload_restored load (p_as (s_para (m_session m)))). }
  exists (Memcr i2 s2 [] w3). split.
  - unfold run_restore_on. cbn [m_inject m_session m_stops m_target]. rewrite Ef, Hwk, <- Hwt, Eo. done.
  - cbn [m_inject m_session m_stops m_target]. split_and!; try done. intros x p Hx Hp. rewrite Hsp. unfold t0.
    destruct Hid as [_ _ Hin _ _ _]. by rewrite load_prot, (in_mapped _ _ _ _ _ _ _ _ _ Hin), Hx, Hp.
Qed.

(** ** The worker and the service *)

Lemma run_unseize_eq (m : memcr) : run_unseize env m = set_tids [] m.
Proof. unfold run_unseize, unseize_target. by destruct (unseize_loop _ _ _ _ _ _). Qed.

#[local] Abbreviation worker := (memcr_worker cfg mc kern lz4 zstd evp rd wr exec sigprocmask_blob mmap_blob clone_blob
  munmap_blob parasite_blob args_offset sdir sgid pagemap load env).


(** The same from the command line: [user_interactive_mode] returns 0, releases
    the target and cleans up, and the target is as it was. *)
Theorem interactive_transparent pid ts sigs n status m no_wait interrupted :
  ready pid ts sigs n status m ->
  exists m', user_interactive_mode seize checkpoint restore (run_unseize env) no_wait interrupted pid (WState m [])
      = Ret (0, WState m' ((if negb no_wait && negb interrupted then [WaitKey] else []) ++ [Unseize; Cleanup pid]))
    /\ restored (m_target m) (m_target m') /\ w_mask (m_target m') = w_mask (m_target m) /\ i_tids (m_inject m') = [].
Proof.
  intros Hrdy. destruct (checkpoint_suspends pid ts sigs n status m Hrdy) as (m1 & (m0 & D1 & D2) & Hsusp & _).
  destruct (restore_resumes pid ts sigs n status m m1 Hrdy Hsusp) as (m2 & Er & R1 & R2 & _).
  exists (run_unseize env m2). split; [|by rewrite run_unseize_eq]. unfold user_interactive_mode, lift. cbn [ws_state ws_events].
  rewrite D1. cbn. rewrite D2. cbn. destruct (negb no_wait && negb interrupted); cbn; rewrite Er; done.
Qed.
End Facts.

(** * A target on the processor and the kernel of Enter.v *)

Definition simple_load (w : tracee x86_64_registers) (t : simple_as) : simple_as :=
  SimpleAs (w_mem w) (fun x => if w_mapped w x then Some (default PROT_RWX (sa_prot t x)) else None)
    (sa_dropped t) (sa_locked t) (sa_pagemap t).

#[export] Instance simple_views : Views simple_load.
Proof. by split. Qed.

Definition e2e_maps : text := wit_maps ++ txt "00100000-00101000 rwxp 00000000 00:00 0" ++ [newline].

Definition e2e_target : tracee x86_64_registers :=
  Tracee (set_reg X86_64.rip 4196 (set_reg X86_64.rsp 24576 (fun _ => 0))) (sa_byte wit_as)
    (fun x => in_rangeb 4096 8192 x || in_rangeb 20480 4096 x) (op Byte.x05).

Definition e2e_memcr : memcr (R := x86_64_registers) (T := simple_as) (C := bytes) (F := stream) :=
  Memcr (Inject (Context_ 0 0 0 [] [] [] 0) [] 0 0 None (Watch.Watch false 0)) wit_session
    (wit_signals ++ quiet ++ quiet ++ quiet ++ quiet ++ quiet ++ []) e2e_target.

Definition e2e_env : memcr_env (R := x86_64_registers) (F := stream) :=
  MemcrEnv wit_threads (fun _ => 0) true (inr (["."; ".."]%string ++ map pretty [42; 12])) (inr ["42"; "43"]%string)
    (StartRet 3 0 0 0 0 0 4) (fun _ => CkptEnv (Some e2e_maps) wit_conn (e_get wit_env))
    (fun f => Stream (st_data f) [HShort 7]) wit_renv 1 (replicate 2 (0, Watch.Watch false 0) ++ [(0, Watch.Watch true 256)]) (-1).

#[local] Abbreviation e2e_exec := (exec_code (A := X86_64.reg) toy_kernel (fun _ => 0) (fun z => z) toy_fetch).
#[local] Abbreviation blob p := (Enter.emit toy_enc Byte.x00 0 p).

#[export] Instance e2e_blobs :
  Blobs e2e_exec (blob x86_64_sigprocmask_blob) (blob x86_64_mmap_blob) (blob x86_64_clone_blob) (blob x86_64_munmap_blob) (fun m => m) 4096.
Proof.
  apply (enter_blobs (A := X86_64.reg) toy_kernel (fun m => m) 4096 (fun _ => 0) (fun z => z) toy_enc Byte.x00 toy_fetch toy_fetches).
  eapply Forall_impl; [apply x86_64_padded|]. intros p Hp.
  exact (padded_words (A := X86_64.reg) toy_enc Byte.x00 p Hp).
Qed.

(** mmap() finds room at [map_at]. *)
Lemma e2e_mmap w :
  mmap_runs (blob x86_64_mmap_blob) wit_image e2e_target w -> get_cpu_syscall_ret (w_regs (e2e_exec w)) = map_at.
Proof.
  intros [(Hc & Ha & _) Hm]. unfold exec_code.
  rewrite (toy_fetches x86_64_mmap_blob); [|by right; left|done].
  destruct (run_mmap (A := X86_64.reg) (fun z => z) (svc_caller toy_kernel (fun _ => 0)) w) as (r & fd & E & Hn & Har).
  change (mmap_blob (A := X86_64.reg)) with x86_64_mmap_blob in E. rewrite E.
  destruct (svc_caller_spec toy_kernel (fun _ => 0) r _ [0; cpu_arg0 (w_regs w); PROT_RWX; MAP_ANON_PRIVATE; fd; 0] w Hn Har) as (rest & Es). rewrite Es.
  cbn [w_regs setregs]. rewrite trap_ret. unfold toy_kernel. cbn -[all_in_range map_at].
  rewrite all_in_range_true; [done|]. intros x Hx. rewrite Hm. cbn in Ha. rewrite Ha in Hx. cbn.
  unfold map_at, in_range in Hx. change (page_up 4096 (blen wit_image)) with 4096 in Hx. unfold in_rangeb. lia.
Qed.

Lemma e2e_mmap_ret b : mmap_ret e2e_exec (blob x86_64_mmap_blob) wit_image e2e_target b -> b = map_at.
Proof. intros (w & Hw & ->). by apply e2e_mmap. Qed.

Lemma e2e_calls : calls_work e2e_exec (blob x86_64_mmap_blob) (blob x86_64_clone_blob) (blob x86_64_munmap_blob) wit_image e2e_target.
Proof.
  split.
  - intros w Hw. by rewrite (e2e_mmap w Hw).
  - intros b w _ (Hc & _). unfold exec_code. rewrite (toy_fetches x86_64_clone_blob); [|by right; right; left|done].
    destruct (run_clone (A := X86_64.reg) (fun z => z) (svc_caller toy_kernel (fun _ => 0)) w) as (r & r2 & flags & E & Er2 & _ & Hn & Har & Hfl).
    change (clone_blob (A := X86_64.reg)) with x86_64_clone_blob in E. rewrite E.
    destruct (svc_caller_spec toy_kernel (fun _ => 0) r _ [flags; 0; 0; 0] w Hn Har) as (rest & Es).
    assert (Ek : toy_kernel (nr_clone (A := X86_64.reg)) ([flags; 0; 0; 0] ++ rest) (setregs r w) = (77, setregs r w)).
    { unfold toy_kernel. cbn -[Z.land Z.eqb]. by rewrite Hfl. }
    rewrite Ek in Es. cbn [fst snd] in Es. rewrite Es in E, Er2 |- *. cbn [w_regs setregs] in E, Er2 |- *.
    rewrite trap_ret in E, Er2 |- *. change (77 =? 0) with false. cbn [w_regs setregs]. by rewrite Er2.
  - intros b w Hb%e2e_mmap_ret Hr. subst b.
    destruct (run_munmap (A := X86_64.reg) (fun z => z) (svc_caller toy_kernel (fun _ => 0)) w) as (r & E & Hn & Har).
    destruct (Hr) as (Hc & Ea & Eb). rewrite Ea, Eb in Har. unfold exec_code.
    rewrite (toy_fetches x86_64_munmap_blob); [|by right; right; right; left|done].
    change (munmap_blob (A := X86_64.reg)) with x86_64_munmap_blob in E. rewrite E.
    destruct (svc_caller_spec toy_kernel (fun _ => 0) r _ [map_at; blen wit_image] w Hn Har) as (rest & Es). rewrite Es.
    cbn [w_regs setregs]. by rewrite trap_ret.
Qed.

Lemma e2e_injectable :
  injectable (blob x86_64_sigprocmask_blob) (blob x86_64_mmap_blob) (blob x86_64_clone_blob) (blob x86_64_munmap_blob)
    (fun m => m) 4096 wit_image 16 e2e_target.
Proof.
  split; try done.
  - intros x Hx. change (in_range 4096 16 x) in Hx. cbn. unfold in_range, in_rangeb in *. lia.
  - intros x Hx. change (in_range 24448 128 x) in Hx. cbn. unfold in_range, in_rangeb in *. lia.
  - intros x Hx. change (in_range 4096 16 x) in Hx. change (~ in_range 24448 128 x). unfold in_range in *. lia.
Qed.

(** With the parasite in it the target still has the areas of its maps file. *)
Lemma e2e_areas (w : tracee x86_64_registers) :
  (forall x, w_mapped w x = w_mapped e2e_target x || in_rangeb map_at 4096 x) ->
  target_areas wit_cfg wit_mc (simple_load w wit_as) wit_vmas.
Proof.
  intros Hm. destruct SessionFacts.wit_target as [Hall Hasc]. split; [|done].
  apply Forall_forall. intros vma Hin. pose proof (proj1 (Forall_forall _ _) Hall vma Hin) as (A1 & A2 & A3 & A4 & A5).
  assert (Ha : is_anon vma = true) by (unfold wit_vmas in Hin; rewrite !elem_of_cons in Hin; destruct_or! Hin; [by subst..|by inversion Hin]).
  split; [done|]. split; [done|]. split; [|split; [intros Hn; congruence|done]]. intros x Hx. destruct (A3 x Hx) as [Hp Hl]. split; [|done].
  rewrite load_prot, Hp, Hm. revert Hp. cbn. unfold map_at, in_rangeb. clear. intros Hp. repeat case_match; tests; lia || done.
Qed.

Lemma e2e_ready : ready wit_cfg wit_mc (dump_read None) (dump_write None) e2e_exec (blob x86_64_sigprocmask_blob)
  (blob x86_64_mmap_blob) (blob x86_64_clone_blob) (blob x86_64_munmap_blob) (fun m => m) wit_image 16 None 0 true
  simple_load e2e_env 42 [42; 12] wit_signals 2 256 e2e_memcr.
Proof.
  split; try done.
  - split; [|done]. repeat (apply Forall_cons_2; [split; [lia|]|]); [left; by apply wit_threads_stop|by right|by apply Forall_nil_2].
  - apply e2e_injectable.
  - apply wit_signals_ok.
  - apply e2e_calls.
  - intros args. unfold start_rets. destruct (pa_addr args), (0 <? pa_gid args); cbn; case_match; by repeat constructor.
  - intros b w [->%e2e_mmap_ret _ Hin _ _ _]. exists wit_vmas. split; [by vm_compute|].
    apply e2e_areas. intros x. apply (in_mapped _ _ _ _ _ _ _ _ _ Hin).
  - intros w. split; [apply wit_conn_ok|]. exists (Stream [] [HShort 100]).
    split_and!; try done; [repeat constructor|apply wit_conn_ok|by left].
  - intros fd img [Hf _]. split; [done|]. repeat constructor.
  - split_and!; apply wit_conn_ok.
  - split_and!; [done|done|cbn; lia|done].
Qed.

