(* ===== verification/Getopt.v ===== *)
(** getopt_long() of the C library as memcr's main() relies on it: clusters of
    short options, arguments attached or in the next element, optional
    arguments, long options with [=], abbreviations, "--", and elements that are
    no options, which are passed over. *)
From Stdlib Require Import Ascii String.
From stdpp Require Import base list strings.
From S2P Require Import Prelude.
#[local] Open Scope Z_scope.

Inductive has_arg := no_argument | required_argument | optional_argument.

Record option_def := OptionDef { od_name : string; od_arg : has_arg; od_val : ascii }.

(** [nextchar]: what is left of a cluster of short options; while there is
    something left, the first of [args] (argv from optind on) is the cluster. *)
Record getopt_state := GetoptState { nextchar : string; args : list string }.

Inductive getopt_result :=
| GEnd                                                     (** -1 *)
| GOpt (c : ascii) (optarg : option string) (st : getopt_state)
| GBad (st : getopt_state).                                (** '?' *)

(** "-" alone is no option. *)
Definition is_option (s : string) : bool :=
  match s with String "-" (String _ _) => true | _ => false end.

Fixpoint skip_nonoptions (l : list string) : list string :=
  match l with
  | [] => []
  | s :: l' => if is_option s then l else skip_nonoptions l'
  end.

(** The name of a long option, and its argument if there is a [=]. *)
Fixpoint split_eq (s : string) : string * option string :=
  match s with
  | EmptyString => (EmptyString, None)
  | String "=" s => (EmptyString, Some s)
  | String c s => let '(n, a) := split_eq s in (String c n, a)
  end.

Section Getopt.
Context (short : ascii -> option has_arg) (long : list option_def).

Definition find_long (name : string) : option option_def :=
  match filter (fun d => od_name d = name) long with
  | d :: _ => Some d
  | [] => match filter (fun d => String.prefix name (od_name d) = true) long with
          | [d] => Some d
          | _ => None
          end
  end.

(** [rest]: argv behind the element. *)
Definition long_option (s : string) (rest : list string) : getopt_result :=
  let '(name, value) := split_eq s in
  match find_long name with
  | None => GBad (GetoptState EmptyString rest)
  | Some d =>
      match od_arg d, value with
      | no_argument, Some _ => GBad (GetoptState EmptyString rest)
      | _, Some v => GOpt (od_val d) (Some v) (GetoptState EmptyString rest)
      | required_argument, None =>
          match rest with
          | [] => GBad (GetoptState EmptyString [])
          | v :: rest => GOpt (od_val d) (Some v) (GetoptState EmptyString rest)
          end
      | _, None => GOpt (od_val d) None (GetoptState EmptyString rest)
      end
  end.

(** [c]: the option, [next]: the rest of the cluster, [cluster]: the element,
    [rest]: argv behind it. *)
Definition short_option (c : ascii) (next cluster : string) (rest : list string) : getopt_result :=
  let ended := match next with EmptyString => true | _ => false end in
  let st := GetoptState next (if ended then rest else cluster :: rest) in
  match short c with
  | None => GBad st
  | Some no_argument => GOpt c None st
  | Some optional_argument => GOpt c (if ended then None else Some next) (GetoptState EmptyString rest)
  | Some required_argument =>
      if ended then
        match rest with
        | [] => GBad (GetoptState EmptyString [])
        | v :: rest => GOpt c (Some v) (GetoptState EmptyString rest)
        end
      else GOpt c (Some next) (GetoptState EmptyString rest)
  end.

Definition getopt_long (st : getopt_state) : getopt_result :=
  match nextchar st, args st with
  | String c next, cluster :: rest => short_option c next cluster rest
  | _, l =>
      match skip_nonoptions l with
      | [] => GEnd
      | e :: rest =>
          match e with
          | String _ (String "-" EmptyString) => GEnd
          | String _ (String "-" s) => long_option s rest
          | String _ (String c next) => short_option c next e rest
          | _ => GEnd
          end
      end
  end.
End Getopt.

(** * Lemmas *)

(** What is left to read: each call takes a character of a cluster or an
    element. *)
Definition getopt_size (st : getopt_state) : nat :=
  match nextchar st, args st with
  | EmptyString, l => sum_list_with (fun s => S (String.length s)) l
  | _, [] => 0
  | next, _ :: l => String.length next + sum_list_with (fun s => S (String.length s)) l
  end.

Lemma skip_nonoptions_size l :
  (sum_list_with (fun s => S (String.length s)) (skip_nonoptions l) <= sum_list_with (fun s => S (String.length s)) l)%nat.
Proof. induction l as [|s l IH]; cbn; [done|]. case_match; cbn in *; lia. Qed.

Section Progress.
Context (short : ascii -> option has_arg) (long : list option_def).

Lemma long_option_progress s rest :
  match long_option long s rest with
  | GEnd => True
  | GOpt _ _ st | GBad st => (getopt_size st <= sum_list_with (fun s => S (String.length s)) rest)%nat
  end.
Proof. unfold long_option. repeat case_match; simplify_eq/=; try done; unfold getopt_size; cbn; lia. Qed.

Lemma short_option_progress c next cluster rest :
  match short_option short c next cluster rest with
  | GEnd => True
  | GOpt _ _ st | GBad st => (getopt_size st <= String.length next + sum_list_with (fun s => S (String.length s)) rest)%nat
  end.
Proof. unfold short_option. repeat case_match; simplify_eq/=; try done; unfold getopt_size; cbn; lia. Qed.

Lemma getopt_progress st :
  match getopt_long short long st with
  | GEnd => True
  | GOpt _ _ st' | GBad st' => (getopt_size st' < getopt_size st)%nat
  end.
Proof.
  unfold getopt_long. destruct st as [next l]. cbn [nextchar args].
  assert (Hskip : match match skip_nonoptions l with
      | [] => GEnd
      | e :: rest =>
          match e with
          | String _ (String "-" EmptyString) => GEnd
          | String _ (String "-" s) => long_option long s rest
          | String _ (String c next) => short_option short c next e rest
          | _ => GEnd
          end
      end with
      | GEnd => True
      | GOpt _ _ st' | GBad st' => (getopt_size st' < sum_list_with (fun s => S (String.length s)) l)%nat
      end).
  { pose proof (skip_nonoptions_size l) as Hl. destruct (skip_nonoptions l) as [|e rest]; [done|]. cbn in Hl.
    destruct e as [|c0 [|c s]]; try done.
    assert (Hs : forall r, match r with GEnd => True | GOpt _ _ st | GBad st =>
      (getopt_size st <= String.length s + sum_list_with (fun s => S (String.length s)) rest)%nat end ->
      match r with GEnd => True | GOpt _ _ st | GBad st => (getopt_size st < sum_list_with (fun s => S (String.length s)) l)%nat end).
    { cbn in Hl. intros [| |]; [done|lia..]. }
    assert (Hshort := Hs _ (short_option_progress c s (String c0 (String c s)) rest)).
    assert (Hlong : match long_option long s rest with GEnd => True | GOpt _ _ st | GBad st =>
      (getopt_size st < sum_list_with (fun s => S (String.length s)) l)%nat end).
    { apply Hs. pose proof (long_option_progress s rest). case_match; [done|lia..]. }
    destruct c as [[] [] [] [] [] [] [] []]; try exact Hshort. by destruct s. }
  destruct next as [|c next]; [exact Hskip|]. destruct l as [|e rest]; [done|].
  pose proof (short_option_progress c next e rest). unfold getopt_size at 2 4. cbn. case_match; [done|lia..].
Qed.
End Progress.
