(* ===== verification/Main.v ===== *)
(** The program's entry (memcr.c): [main] with its options, the checks and
    initialisations it makes, and the two modes it ends in. *)
From Stdlib Require Import Ascii String.
From stdpp Require Import base list strings.
From S2P Require Import Prelude Compress Dump Proto Getopt.
#[local] Open Scope Z_scope.

(** * The options *)

(** "hp:d:S:G:Nl:g:nmfzce::t:V" *)
Definition memcr_short (c : ascii) : option has_arg :=
  match c with
  | "h" | "N" | "n" | "m" | "f" | "z" | "c" | "V" => Some no_argument
  | "p" | "d" | "S" | "G" | "l" | "g" | "t" => Some required_argument
  | "e" => Some optional_argument
  | _ => None
  end%char.

Definition long_options : list option_def :=
  [ OptionDef "help" no_argument "h"; OptionDef "pid" required_argument "p"; OptionDef "dir" required_argument "d";
    OptionDef "parasite-socket-dir" required_argument "S"; OptionDef "parasite-socket-gid" required_argument "G";
    OptionDef "parasite-socket-netns" no_argument "N"; OptionDef "listen" required_argument "l";
    OptionDef "listen-gid" required_argument "g"; OptionDef "no-wait" no_argument "n";
    OptionDef "proc-mem" no_argument "m"; OptionDef "rss-file" no_argument "f";
    OptionDef "compress" optional_argument "z"; OptionDef "checksum" no_argument "c";
    OptionDef "encrypt" optional_argument "e"; OptionDef "timeout" required_argument "t";
    OptionDef "version" no_argument "V" ].

(** The variables the loop sets. *)
Record options := Options {
  o_pid : Z;
  o_dump_dir : string;
  o_socket_dir : option string;
  o_socket_gid : Z;
  o_netns : bool;
  o_listen : option string;
  o_listen_gid : Z;
  o_no_wait : bool;
  o_proc_mem : bool;
  o_rss_file : bool;
  o_compress : option string;
  o_checksum : bool;
  o_encrypt : bool;
  o_encrypt_arg : option string;
  o_timeout : Z;
}.

(** The values they start with. *)
Definition default_options : options :=
  Options 0 "/tmp" None (-1) false None 0 false false false None false false None 0.

Section Setters.
Context (o : options).
Definition set_pid v := Options v (o_dump_dir o) (o_socket_dir o) (o_socket_gid o) (o_netns o) (o_listen o) (o_listen_gid o)
  (o_no_wait o) (o_proc_mem o) (o_rss_file o) (o_compress o) (o_checksum o) (o_encrypt o) (o_encrypt_arg o) (o_timeout o).
Definition set_dump_dir v := Options (o_pid o) v (o_socket_dir o) (o_socket_gid o) (o_netns o) (o_listen o) (o_listen_gid o)
  (o_no_wait o) (o_proc_mem o) (o_rss_file o) (o_compress o) (o_checksum o) (o_encrypt o) (o_encrypt_arg o) (o_timeout o).
Definition set_socket_dir v := Options (o_pid o) (o_dump_dir o) (Some v) (o_socket_gid o) (o_netns o) (o_listen o) (o_listen_gid o)
  (o_no_wait o) (o_proc_mem o) (o_rss_file o) (o_compress o) (o_checksum o) (o_encrypt o) (o_encrypt_arg o) (o_timeout o).
Definition set_socket_gid v := Options (o_pid o) (o_dump_dir o) (o_socket_dir o) v (o_netns o) (o_listen o) (o_listen_gid o)
  (o_no_wait o) (o_proc_mem o) (o_rss_file o) (o_compress o) (o_checksum o) (o_encrypt o) (o_encrypt_arg o) (o_timeout o).
Definition set_netns := Options (o_pid o) (o_dump_dir o) (o_socket_dir o) (o_socket_gid o) true (o_listen o) (o_listen_gid o)
  (o_no_wait o) (o_proc_mem o) (o_rss_file o) (o_compress o) (o_checksum o) (o_encrypt o) (o_encrypt_arg o) (o_timeout o).
Definition set_listen v := Options (o_pid o) (o_dump_dir o) (o_socket_dir o) (o_socket_gid o) (o_netns o) (Some v) (o_listen_gid o)
  (o_no_wait o) (o_proc_mem o) (o_rss_file o) (o_compress o) (o_checksum o) (o_encrypt o) (o_encrypt_arg o) (o_timeout o).
Definition set_listen_gid v := Options (o_pid o) (o_dump_dir o) (o_socket_dir o) (o_socket_gid o) (o_netns o) (o_listen o) v
  (o_no_wait o) (o_proc_mem o) (o_rss_file o) (o_compress o) (o_checksum o) (o_encrypt o) (o_encrypt_arg o) (o_timeout o).
Definition set_no_wait := Options (o_pid o) (o_dump_dir o) (o_socket_dir o) (o_socket_gid o) (o_netns o) (o_listen o)
  (o_listen_gid o) true (o_proc_mem o) (o_rss_file o) (o_compress o) (o_checksum o) (o_encrypt o) (o_encrypt_arg o) (o_timeout o).
Definition set_proc_mem := Options (o_pid o) (o_dump_dir o) (o_socket_dir o) (o_socket_gid o) (o_netns o) (o_listen o)
  (o_listen_gid o) (o_no_wait o) true (o_rss_file o) (o_compress o) (o_checksum o) (o_encrypt o) (o_encrypt_arg o) (o_timeout o).
Definition set_rss_file := Options (o_pid o) (o_dump_dir o) (o_socket_dir o) (o_socket_gid o) (o_netns o) (o_listen o)
  (o_listen_gid o) (o_no_wait o) (o_proc_mem o) true (o_compress o) (o_checksum o) (o_encrypt o) (o_encrypt_arg o) (o_timeout o).
Definition set_compress v := Options (o_pid o) (o_dump_dir o) (o_socket_dir o) (o_socket_gid o) (o_netns o) (o_listen o)
  (o_listen_gid o) (o_no_wait o) (o_proc_mem o) (o_rss_file o) (Some v) (o_checksum o) (o_encrypt o) (o_encrypt_arg o) (o_timeout o).
Definition set_checksum := Options (o_pid o) (o_dump_dir o) (o_socket_dir o) (o_socket_gid o) (o_netns o) (o_listen o)
  (o_listen_gid o) (o_no_wait o) (o_proc_mem o) (o_rss_file o) (o_compress o) true (o_encrypt o) (o_encrypt_arg o) (o_timeout o).
Definition set_encrypt v := Options (o_pid o) (o_dump_dir o) (o_socket_dir o) (o_socket_gid o) (o_netns o) (o_listen o)
  (o_listen_gid o) (o_no_wait o) (o_proc_mem o) (o_rss_file o) (o_compress o) (o_checksum o) true
  (match v with Some _ => v | None => o_encrypt_arg o end) (o_timeout o).
Definition set_timeout v := Options (o_pid o) (o_dump_dir o) (o_socket_dir o) (o_socket_gid o) (o_netns o) (o_listen o)
  (o_listen_gid o) (o_no_wait o) (o_proc_mem o) (o_rss_file o) (o_compress o) (o_checksum o) (o_encrypt o) (o_encrypt_arg o) v.
End Setters.

(** What main() finds around it: geteuid() is 0, the build has CHECKSUM_MD5,
    the two files of /proc are there and the second can be opened, and the
    outcome of lib__init(), when a library defines it. *)
Record main_env := MainEnv {
  me_root : bool;
  me_checksum : bool;
  me_pagemap : bool;
  me_kpageflags : bool;
  me_kpageflags_open : bool;
  me_build : build_opts;
  me_lib_init : option (bool -> option string -> Z);
}.

(** What main() does that others see, in order. *)
Inductive main_event :=
| EUsage (to_stderr : bool)                          (** the usage text *)
| EVersion                                           (** the version *)
| EDie (msg : string)                                (** a message on stderr *)
| ELibInit (encrypt : bool) (arg : option string)
| EService (location : string) (gid : Z)
| EInteractive (pid : Z)
| ELibFini.

(** The exit status, and what was printed. *)
Abbreviation exit := (Z * list main_event)%type.

Definition usage (status : Z) : exit := (status, [EUsage (negb (status =? 0))]).
Definition die (msg : string) : exit := (1, [EDie msg]).
Definition print_version : list main_event := [EVersion].

Section Main.
Context (env : main_env).

(** The optional argument in the next element, if it does not begin with '-'. *)
Definition next_arg (st : getopt_state) : option (string * getopt_state) :=
  match args st with
  | v :: rest =>
      match v with
      | String "-" _ => None
      | _ => Some (v, GetoptState (nextchar st) rest)
      end
  | [] => None
  end.

(** One round of the loop: the program exits, or the variables and what is left. *)
Definition option_step (c : ascii) (optarg : option string) (st : getopt_state) (o : options)
    : exit + options * getopt_state :=
  let arg := default EmptyString optarg in
  match c with
  | "h" => inl (usage 0)
  | "p" => inr (set_pid o (atoi arg), st)
  | "d" => inr (set_dump_dir o arg, st)
  | "S" => inr (set_socket_dir o arg, st)
  | "G" => inr (set_socket_gid o (atoi arg), st)
  | "N" => inr (set_netns o, st)
  | "l" => inr (set_listen o arg, st)
  | "g" => inr (set_listen_gid o (atoi arg), st)
  | "n" => inr (set_no_wait o, st)
  | "m" => if negb (me_root env) then inl (die " -m --proc-mem option cannot be used when memcr is run as non-root user")
           else inr (set_proc_mem o, st)
  | "f" => inr (set_rss_file o, st)
  | "z" => match optarg, next_arg st with
           | Some v, _ => inr (set_compress o v, st)
           | None, Some (v, st) => inr (set_compress o v, st)
           | None, None => inr (set_compress o "lz4", st)
           end
  | "c" => if negb (me_checksum env) then inl (die "checksumming not available, recompile with CHECKSUM_MD5=1")
           else inr (set_checksum o, st)
  | "e" => match optarg, next_arg st with
           | Some v, _ => inr (set_encrypt o (Some v), st)
           | None, Some (v, st) => inr (set_encrypt o (Some v), st)
           | None, None => inr (set_encrypt o None, st)
           end
  | "t" => inr (set_timeout o (u32 (atoi arg)), st)
  | "V" => inl (0, print_version)
  | _ => inl (usage 1)
  end%char.

Fixpoint parse_options (fuel : nat) (st : getopt_state) (o : options) : run (exit + options) :=
  match getopt_long memcr_short long_options st with
  | GEnd => Ret (inr o)
  | GBad _ => Ret (inl (usage 1))
  | GOpt c optarg st =>
      match option_step c optarg st o with
      | inl e => Ret (inl e)
      | inr (o, st) => match fuel with O => OutOfFuel | S fuel => parse_options fuel st o end
      end
  end.

Definition argv_size (argv : list string) : nat := sum_list_with (fun s => S (String.length s)) argv.

(** argv without the program's name. *)
Definition main_options (argv : list string) : run (exit + options) :=
  parse_options (argv_size argv) (GetoptState EmptyString argv) default_options.

(** * The rest of main *)

(** The two modes: the return value of [service_mode] and that of
    [user_interactive_mode], with the globals set. *)
Context (service_mode : string -> Z -> options -> compress_globals -> Z).
Context (user_interactive_mode : Z -> options -> compress_globals -> Z).

(** The exit status or the value returned. *)
Definition main (argv : list string) (g : compress_globals) : run exit :=
  let! parsed := main_options argv in
  match parsed with
  | inl e => Ret e
  | inr o =>
      let no_listen := match o_listen o with None => true | Some _ => false end in
      if (o_pid o =? 0) && no_listen then Ret (usage 1)
      else if (o_pid o <=? 0) && no_listen then Ret (die "pid must be > 0")
      else
      let died msg evs := Ret (1, print_version ++ evs ++ [EDie msg]) in
      if negb (me_pagemap env) then died "/proc/self/pagemap not present (depends on CONFIG_PROC_PAGE_MONITOR)" []
      else if negb (me_kpageflags env) then died "/proc/kpageflags not present (depends on CONFIG_PROC_PAGE_MONITOR)" []
      else
        let '(ret, g) := compress_init (me_build env) (o_compress o) MAX_VM_REGION_SIZE g in
        if negb (ret =? 0) then Ret (1, print_version)
        else
          let enter evs :=
            if negb (me_kpageflags_open env) then died "/proc/kpageflags" evs
            else
              let '(ret, mode) :=
                match o_listen o with
                | Some location => (service_mode location (o_listen_gid o) o g, EService location (o_listen_gid o))
                | None => (user_interactive_mode (o_pid o) o g, EInteractive (o_pid o))
                end in
              Ret (ret, print_version ++ evs ++ [mode] ++ match me_lib_init env with Some _ => [ELibFini] | None => [] end) in
          match me_lib_init env with
          | Some lib__init =>
              let evs := [ELibInit (o_encrypt o) (o_encrypt_arg o)] in
              if negb (lib__init (o_encrypt o) (o_encrypt_arg o) =? 0) then Ret (1, print_version ++ evs) else enter evs
          | None => if o_encrypt o then died "encryption not available, preload libencrypt.so" [] else enter []
          end
  end.
End Main.

(** * Lemmas *)

Section Facts.
Context (env : main_env).

Lemma option_step_size c optarg st o o' st' :
  option_step env c optarg st o = inr (o', st') -> (getopt_size st' <= getopt_size st)%nat.
Proof.
  assert (Hn : forall v s, next_arg st = Some (v, s) -> (getopt_size s <= getopt_size st)%nat).
  { unfold next_arg. destruct st as [next [|e rest]]; [done|]. cbn. intros v s E.
    assert (E' : s = GetoptState next rest) by (repeat case_match; by simplify_eq). subst s.
    unfold getopt_size. cbn. destruct next, rest; cbn; lia. }
  intros E. unfold option_step in E. repeat case_match; simplify_eq; eauto with lia.
Qed.

(** The loop ends: the fuel is the size of argv. *)
Lemma parse_options_total fuel st o :
  (getopt_size st <= fuel)%nat -> exists r, parse_options env fuel st o = Ret r.
Proof.
  revert st o. induction fuel as [|fuel IH]; intros st o Hf; cbn [parse_options];
    pose proof (getopt_progress memcr_short long_options st) as Hp;
    destruct (getopt_long memcr_short long_options st) as [|c a st1|st1]; eauto;
    destruct (option_step env c a st1 o) as [status|[o' st2]] eqn:E; eauto; apply option_step_size in E; [lia|].
  apply IH. lia.
Qed.

Lemma main_options_total argv : exists r, main_options env argv = Ret r.
Proof. by apply parse_options_total. Qed.
End Facts.

(** * The options as the usage text lists them *)

Inductive setting :=
| Pid (v : string) | DumpDir (v : string) | SocketDir (v : string) | SocketGid (v : string) | Netns
| Listen (v : string) | ListenGid (v : string) | NoWait | ProcMem | RssFile
| CompressWith (v : option string) | Checksum | EncryptWith (v : option string) | Timeout (v : string).

(** What each is for. *)
Definition apply_setting (o : options) (s : setting) : options :=
  match s with
  | Pid v => set_pid o (atoi v)
  | DumpDir v => set_dump_dir o v
  | SocketDir v => set_socket_dir o v
  | SocketGid v => set_socket_gid o (atoi v)
  | Netns => set_netns o
  | Listen v => set_listen o v
  | ListenGid v => set_listen_gid o (atoi v)
  | NoWait => set_no_wait o
  | ProcMem => set_proc_mem o
  | RssFile => set_rss_file o
  | CompressWith v => set_compress o (default "lz4" v)
  | Checksum => set_checksum o
  | EncryptWith v => set_encrypt o v
  | Timeout v => set_timeout o (u32 (atoi v))
  end.

(** Its entry in the table, and its argument. *)
Definition setting_option (s : setting) : option_def * option string :=
  match s with
  | Pid v => (OptionDef "pid" required_argument "p", Some v)
  | DumpDir v => (OptionDef "dir" required_argument "d", Some v)
  | SocketDir v => (OptionDef "parasite-socket-dir" required_argument "S", Some v)
  | SocketGid v => (OptionDef "parasite-socket-gid" required_argument "G", Some v)
  | Netns => (OptionDef "parasite-socket-netns" no_argument "N", None)
  | Listen v => (OptionDef "listen" required_argument "l", Some v)
  | ListenGid v => (OptionDef "listen-gid" required_argument "g", Some v)
  | NoWait => (OptionDef "no-wait" no_argument "n", None)
  | ProcMem => (OptionDef "proc-mem" no_argument "m", None)
  | RssFile => (OptionDef "rss-file" no_argument "f", None)
  | CompressWith v => (OptionDef "compress" optional_argument "z", v)
  | Checksum => (OptionDef "checksum" no_argument "c", None)
  | EncryptWith v => (OptionDef "encrypt" optional_argument "e", v)
  | Timeout v => (OptionDef "timeout" required_argument "t", Some v)
  end.

Definition begins_dash (s : string) : bool := match s with String "-" _ => true | _ => false end.

(** The ways to write an option with its argument.  An argument that may be
    left out can stand in the next element when it does not begin with '-';
    -z takes none attached. *)
Inductive spells (d : option_def) : option string -> list string -> Prop :=
| spells_short : od_arg d <> required_argument -> spells d None [String "-" (String (od_val d) "")]
| spells_long : od_arg d <> required_argument -> spells d None ["--" +:+ od_name d]
| spells_short_next v : od_arg d = required_argument \/ od_arg d = optional_argument /\ begins_dash v = false ->
    spells d (Some v) [String "-" (String (od_val d) ""); v]
| spells_long_next v : od_arg d = required_argument \/ od_arg d = optional_argument /\ begins_dash v = false ->
    spells d (Some v) ["--" +:+ od_name d; v]
| spells_attached v : v <> EmptyString -> od_arg d <> no_argument -> od_val d <> "z"%char ->
    spells d (Some v) [String "-" (String (od_val d) v)]
| spells_eq v : od_arg d <> no_argument -> spells d (Some v) ["--" +:+ od_name d +:+ "=" +:+ v].

(** What the options of this process and this build allow. *)
Definition permitted (env : main_env) (s : setting) : Prop :=
  match s with
  | ProcMem => me_root env = true
  | Checksum => me_checksum env = true
  | _ => True
  end.

(** ** The table *)

Lemma table_facts d v :
  d ∈ long_options ->
  split_eq (od_name d +:+ "=" +:+ v) = (od_name d, Some v) /\ split_eq (od_name d) = (od_name d, None)
  /\ find_long long_options (od_name d) = Some d
  /\ memcr_short (od_val d) = Some (if decide (od_val d = "z"%char) then no_argument else od_arg d)
  /\ (od_val d = "z"%char -> od_arg d = optional_argument) /\ exists c s, od_name d = String c s.
Proof.
  intros Hd. repeat (apply elem_of_cons in Hd as [->|Hd]; [by split_and!; [..|eexists _, _]|]). by apply not_elem_of_nil in Hd.
Qed.

Lemma setting_in_table s : (setting_option s).1 ∈ long_options.
Proof. destruct s; unfold long_options; repeat first [by left | right]. Qed.

(** The list goes on with an option. *)
Definition tail_ok (rest : list string) : Prop := match rest with [] => True | e :: _ => begins_dash e = true end.

Lemma next_arg_tail next rest : tail_ok rest -> next_arg (GetoptState next rest) = None.
Proof.
  unfold next_arg. destruct rest as [|e rest]; [done|]. cbn. destruct e as [|c e]; [done|].
  by destruct c as [[] [] [] [] [] [] [] []].
Qed.

Lemma next_arg_value next v rest : begins_dash v = false -> next_arg (GetoptState next (v :: rest)) = Some (v, GetoptState next rest).
Proof. unfold next_arg. cbn. destruct v as [|c v]; [done|]. by destruct c as [[] [] [] [] [] [] [] []]. Qed.

(** The argument as main() gets at it. *)
Definition take_value (optarg : option string) (st : getopt_state) : option string * getopt_state :=
  match optarg, next_arg st with
  | Some v, _ => (Some v, st)
  | None, Some (v, st) => (Some v, st)
  | None, None => (None, st)
  end.

Lemma getopt_short d next rest :
  d ∈ long_options ->
  getopt_long memcr_short long_options (GetoptState EmptyString (String "-" (String (od_val d) next) :: rest))
  = short_option memcr_short (od_val d) next (String "-" (String (od_val d) next)) rest.
Proof.
  intros Hd. repeat (apply elem_of_cons in Hd as [->|Hd]; [reflexivity|]). by apply not_elem_of_nil in Hd.
Qed.

Lemma getopt_long_name c s rest :
  getopt_long memcr_short long_options (GetoptState EmptyString (("--" +:+ String c s) :: rest))
  = long_option long_options (String c s) rest.
Proof. reflexivity. Qed.

Lemma spelled_long d w rest :
  d ∈ long_options ->
  getopt_long memcr_short long_options (GetoptState EmptyString (("--" +:+ od_name d +:+ w) :: rest))
  = long_option long_options (od_name d +:+ w) rest.
Proof.
  intros Hd. destruct (table_facts d "" Hd) as (_ & _ & _ & _ & _ & (c & s & ->)). apply (getopt_long_name c (s +:+ w)).
Qed.

Lemma append_empty s : s +:+ EmptyString = s.
Proof. induction s as [|c s IH]; [done|]. exact (f_equal (String c) IH). Qed.

(** Every spelling gives getopt_long()'s caller the option with its argument. *)
Lemma spelled d v words rest :
  d ∈ long_options -> spells d v words -> tail_ok rest ->
  exists optarg st, getopt_long memcr_short long_options (GetoptState EmptyString (words ++ rest)) = GOpt (od_val d) optarg st
    /\ match od_arg d with
       | optional_argument => take_value optarg st = (v, GetoptState EmptyString rest)
       | _ => optarg = v /\ st = GetoptState EmptyString rest
       end.
Proof.
  intros Hd Hs Ht. destruct (table_facts d "" Hd) as (_ & Fn & Ff & Fs & Fz & _).
  pose proof (next_arg_tail EmptyString rest Ht) as Hn. unfold take_value.
  destruct Hs as [Ha|Ha|v Ha|v Ha|v Hv Ha Hz|v Ha]; cbn [app];
    try rewrite getopt_short by done;
    try (rewrite <- (append_empty (od_name d)), spelled_long, append_empty by done);
    try rewrite spelled_long by done; unfold short_option, long_option; rewrite ?Fs, ?Fn.
  - destruct (od_arg d); [|done|]; case_decide; eexists _, _; (split; [done|]); by rewrite ?Hn.
  - rewrite Ff. destruct (od_arg d); [|done|]; eexists _, _; (split; [done|]); by rewrite ?Hn.
  - destruct Ha as [E|[E Hb]]; rewrite E in *; case_decide as Hc; try (by specialize (Fz Hc));
      eexists _, _; (split; [done|]); by rewrite ?next_arg_value.
  - rewrite Ff. destruct Ha as [E|[E Hb]]; rewrite E; eexists _, _; (split; [done|]); by rewrite ?next_arg_value.
  - rewrite decide_False by done. destruct v; [done|]. destruct (od_arg d); [done|..]; by eexists _, _.
  - destruct (table_facts d v Hd) as (-> & _). rewrite Ff. destruct (od_arg d); [done|..]; by eexists _, _.
Qed.

Lemma spells_dash d v words rest : spells d v words -> tail_ok (words ++ rest).
Proof. by intros []. Qed.

Lemma spells_size d v words : spells d v words -> (0 < argv_size words)%nat.
Proof. intros []; cbn; lia. Qed.

Section Settings.
Context (env : main_env).

(** One option. *)
Lemma setting_step s words rest o :
  permitted env s -> spells (setting_option s).1 (setting_option s).2 words -> tail_ok rest ->
  exists optarg st, getopt_long memcr_short long_options (GetoptState EmptyString (words ++ rest))
      = GOpt (od_val (setting_option s).1) optarg st
    /\ option_step env (od_val (setting_option s).1) optarg st o = inr (apply_setting o s, GetoptState EmptyString rest).
Proof.
  intros Hp Hs Ht. destruct (spelled _ _ _ rest (setting_in_table s) Hs Ht) as (optarg & st & E & Hv).
  exists optarg, st. split; [done|]. unfold take_value in Hv.
  destruct s; cbn in *;
    match type of Hv with
    | _ /\ _ => destruct Hv as [-> ->]; by rewrite ?Hp
    | _ => destruct optarg, (next_arg st) as [[]|]; simplify_eq/=; done
    end.
Qed.

(** C18: the options do what the usage text says, in whichever way they are
    written.  For every list of options, each spelled with its letter or its
    name, with the argument attached, after '=' or in the next word (as
    [spells] allows), main() reads the settings they stand for, in their order,
    and nothing else; -m needs root and -c a build with checksums. *)
Theorem options_read settings words :
  Forall2 (fun s w => permitted env s /\ spells (setting_option s).1 (setting_option s).2 w) settings words ->
  main_options env (concat words) = Ret (inr (foldl apply_setting default_options settings)).
Proof.
  unfold main_options. generalize default_options. intros o Hs.
  assert (Hf : (getopt_size (GetoptState EmptyString (concat words)) <= argv_size (concat words))%nat) by done.
  revert o Hf. generalize (argv_size (concat words)). induction Hs as [|s w settings words [Hp Hw] Hs IH]; intros fuel o Hf.
  - by destruct fuel.
  - assert (Ht : tail_ok (concat words)).
    { destruct Hs as [|s' w' ? ? [_ Hw']]; [done|]. cbn. by eapply spells_dash. }
    destruct (setting_step s w (concat words) o Hp Hw Ht) as (optarg & st & E1 & E2).
    pose proof (getopt_progress memcr_short long_options (GetoptState EmptyString (w ++ concat words))) as Hpr.
    pose proof (option_step_size env _ _ _ _ _ _ E2) as Hsz. rewrite E1 in Hpr.
    destruct fuel as [|fuel]; [cbn [concat] in Hf; lia|]. cbn [parse_options concat]. rewrite E1, E2.
    apply IH. cbn [concat] in Hf. lia.
Qed.
End Settings.

Definition sample_env : main_env :=
  MainEnv true true true true true {| COMPRESS_LZ4 := true; COMPRESS_ZSTD := true |} None.

Lemma options_read_witness :
  main_options sample_env (concat [["-p"; "42"]; ["--compress"; "zstd"]; ["-c"]; ["-d/var"]; ["--encrypt=aes-256-cbc"]; ["-z"]; ["-m"]])
  = Ret (inr (foldl apply_setting default_options
      [Pid "42"; CompressWith (Some "zstd"); Checksum; DumpDir "/var"; EncryptWith (Some "aes-256-cbc"); CompressWith None; ProcMem])).
Proof.
  apply (options_read sample_env).
  repeat (apply Forall2_cons; split; [split; [done|]|]); [..|done];
    [by apply spells_short_next; left|by apply spells_long_next; right|by apply spells_short|by apply spells_attached
    |by apply spells_eq|by apply spells_short|by apply spells_short].
Defined.

(** The algorithm cannot be attached to -z, although --compress=lz4 is
    understood: "-zlz4" is read as -z and -l, so memcr compresses with the
    default, forgets the process it was asked to checkpoint and becomes a
    service that listens on the file "z4"; whatever the word, what follows "-zl"
    is taken for the place to listen on. *)
Theorem attached_algorithm_starts_service env w pid :
  w <> EmptyString ->
  exists o, main_options env ["-p"; pid; "-zl" +:+ w] = Ret (inr o)
    /\ o_listen o = Some w /\ o_compress o = Some "lz4".
Proof. intros Hw. destruct w as [|c w]; [done|]. by eexists. Qed.

Lemma attached_algorithm_starts_service_witness :
  exists o, main_options sample_env ["-p"; "42"; "-zlz4"] = Ret (inr o) /\ o_listen o = Some "z4" /\ o_compress o = Some "lz4".
Proof. apply (attached_algorithm_starts_service sample_env "z4" "42"). done. Defined.

(** * What main ends in *)

Section MainFacts.
Context (env : main_env) (service_mode : string -> Z -> options -> compress_globals -> Z).
Context (user_interactive_mode : Z -> options -> compress_globals -> Z).
#[local] Abbreviation main := (main env service_mode user_interactive_mode).

(** There is something to do, the kernel offers what it takes, and both the
    compression and the encryption asked for are available. *)
Definition can_start (o : options) (g : compress_globals) : Prop :=
  (is_Some (o_listen o) \/ 0 < o_pid o)
  /\ me_pagemap env = true /\ me_kpageflags env = true /\ me_kpageflags_open env = true
  /\ (compress_init (me_build env) (o_compress o) MAX_VM_REGION_SIZE g).1 = 0
  /\ match me_lib_init env with
     | Some init => init (o_encrypt o) (o_encrypt_arg o) = 0
     | None => o_encrypt o = false
     end.

#[export] Instance can_start_dec o g : Decision (can_start o g).
Proof. unfold can_start. destruct (me_lib_init env); apply _. Defined.

(** What the library is told first and last. *)
Definition lib_init_events (o : options) : list main_event :=
  match me_lib_init env with Some _ => [ELibInit (o_encrypt o) (o_encrypt_arg o)] | None => [] end.
Definition lib_fini_events : list main_event :=
  match me_lib_init env with Some _ => [ELibFini] | None => [] end.

(** One of the modes was entered. *)
Definition enters_mode (e : main_event) : bool :=
  match e with EService _ _ | EInteractive _ => true | _ => false end.

(** The part after the options. *)
Lemma main_started argv g o :
  main_options env argv = Ret (inr o) -> can_start o g ->
  let g' := (compress_init (me_build env) (o_compress o) MAX_VM_REGION_SIZE g).2 in
  main argv g = Ret (
    match o_listen o with
    | Some l => (service_mode l (o_listen_gid o) o g', print_version ++ lib_init_events o ++ [EService l (o_listen_gid o)] ++ lib_fini_events)
    | None => (user_interactive_mode (o_pid o) o g', print_version ++ lib_init_events o ++ [EInteractive (o_pid o)] ++ lib_fini_events)
    end).
Proof.
  intros Ho (Hw & Hp & Hk & Hko & Hc & Hl) g'. unfold Main.main, lib_init_events, lib_fini_events. rewrite Ho. cbn [rbind].
  subst g'. destruct (compress_init (me_build env) (o_compress o) MAX_VM_REGION_SIZE g) as [ret g']. cbn in Hc. subst ret.
  rewrite Hp, Hk, Hko. cbn [negb Z.eqb snd].
  assert (E : (o_pid o =? 0) && match o_listen o with None => true | Some _ => false end = false
    /\ (o_pid o <=? 0) && match o_listen o with None => true | Some _ => false end = false).
  { destruct (o_listen o); [by rewrite !andb_false_r|]. destruct Hw as [[? ?]|?]; [done|]. lia. }
  destruct E as [-> ->]. destruct (me_lib_init env) as [init|].
  - rewrite Hl. cbn [Z.eqb negb]. by destruct (o_listen o).
  - rewrite Hl. by destruct (o_listen o).
Qed.

Lemma main_refused argv g o :
  main_options env argv = Ret (inr o) -> ~ can_start o g ->
  exists evs, main argv g = Ret (1, evs) /\ Forall (fun e => enters_mode e = false) evs.
Proof.
  intros Ho Hn. unfold Main.main. rewrite Ho. cbn [rbind]. unfold can_start in Hn.
  destruct (compress_init (me_build env) (o_compress o) MAX_VM_REGION_SIZE g) as [ret g'].
  destruct (me_lib_init env) as [init|], (o_listen o) as [l|]; cbn [fst] in Hn;
    repeat (case_match; tests; [eexists; split; [done|by repeat constructor]|]); exfalso; apply Hn; split_and!; eauto; lia.
Qed.

(** C17: main() always ends its option loop, and starts only what it can.  If
    the options say to stop, it exits with what they say, the usage text, the
    version or a message.  Otherwise it
    enters exactly one of its two modes, the service when there is a place to
    listen on and the run on one process when there is not, precisely when it has
    something to do, the files of /proc are there, and the compression and the
    encryption asked for are available; it then returns the mode's result, with
    the encryption library initialised before and released after it.  In all
    other cases it exits with 1 and enters neither mode. *)
Theorem main_spec argv g :
  exists ret evs, main argv g = Ret (ret, evs)
    /\ match main_options env argv with
       | Ret (inr o) =>
           let g' := (compress_init (me_build env) (o_compress o) MAX_VM_REGION_SIZE g).2 in
           if decide (can_start o g) then
             (ret, evs) =
             match o_listen o with
             | Some l => (service_mode l (o_listen_gid o) o g', print_version ++ lib_init_events o ++ [EService l (o_listen_gid o)] ++ lib_fini_events)
             | None => (user_interactive_mode (o_pid o) o g', print_version ++ lib_init_events o ++ [EInteractive (o_pid o)] ++ lib_fini_events)
             end
           else ret = 1 /\ Forall (fun e => enters_mode e = false) evs
       | Ret (inl e) => (ret, evs) = e
       | _ => False
       end.
Proof.
  destruct (main_options_total env argv) as ([[status evs]|o] & Ho).
  - exists status, evs. unfold Main.main. by rewrite Ho.
  - rewrite Ho. case_decide as Hc.
    + rewrite (main_started argv g o Ho Hc). cbn zeta. destruct (o_listen o); by eexists _, _.
    + destruct (main_refused argv g o Ho Hc) as (evs & -> & He). by exists 1, evs.
Qed.
End MainFacts.
