(* ===== verification/Client.v ===== *)
(** memcr-client from its command line (memcr-client.c): getopt_long() over
    argv, and what Proto.v says of its main() on the options found. *)
From Stdlib Require Import Ascii String.
From stdpp Require Import base list strings.
From S2P Require Import Prelude Io Proto Getopt.
#[local] Open Scope Z_scope.

(** "hl:p:crV" *)
Definition client_short (c : ascii) : option has_arg :=
  match c with
  | "h" | "c" | "r" | "V" => Some no_argument
  | "l" | "p" => Some required_argument
  | _ => None
  end%char.

Definition client_long_options : list option_def :=
  [ OptionDef "help" no_argument "h"; OptionDef "location" required_argument "l"; OptionDef "pid" required_argument "p";
    OptionDef "checkpoint" no_argument "c"; OptionDef "restore" no_argument "r"; OptionDef "version" no_argument "V" ].

(** The cases of the switch. *)
Definition client_opt (c : ascii) (optarg : option string) : copt :=
  match c with
  | "h" => OHelp
  | "l" => OLocation (default EmptyString optarg)
  | "p" => OPid (default EmptyString optarg)
  | "c" => OCheckpoint
  | "r" => ORestore
  | "V" => OVersion
  | _ => OUnknown
  end%char.

(** The options in order; what follows one that exits is not looked at. *)
Fixpoint client_getopt (fuel : nat) (st : getopt_state) : run (list copt) :=
  match getopt_long client_short client_long_options st with
  | GEnd => Ret []
  | GBad _ => Ret [OUnknown]
  | GOpt c optarg st =>
      match client_opt c optarg with
      | (OHelp | OVersion | OUnknown) as o => Ret [o]
      | o => match fuel with
             | O => OutOfFuel
             | S fuel => let! rest := client_getopt fuel st in Ret (o :: rest)
             end
      end
  end.

(** Enough for every element and every letter of it. *)
Definition argv_fuel (argv : list string) : nat := sum_list_with (fun s => S (String.length s)) argv.

(** argv without the program's name: the exit status and the socket, if one was
    opened. *)
Definition memcr_client {S} `{Fd S} (net : sockaddr -> option S) (argv : list string) : run (Z * option S) :=
  let! opts := client_getopt (argv_fuel argv) (GetoptState EmptyString argv) in Ret (client_main net opts).

(** * Lemmas *)

Lemma client_getopt_total fuel st : (getopt_size st <= fuel)%nat -> exists opts, client_getopt fuel st = Ret opts.
Proof.
  revert st. induction fuel as [|fuel IH]; intros st Hf; cbn [client_getopt];
    pose proof (getopt_progress client_short client_long_options st) as Hp;
    destruct (getopt_long client_short client_long_options st) as [|c a st1|st1]; eauto; [lia|].
  destruct (IH st1) as [opts E]; [lia|]. rewrite E. destruct (client_opt c a); eauto.
Qed.

(** The ways to write an option. *)
Inductive client_spells : copt -> list string -> Prop :=
| spells_location v : client_spells (OLocation v) ["-l"; v]
| spells_location_attached v : v <> EmptyString -> client_spells (OLocation v) ["-l" +:+ v]
| spells_location_long v : client_spells (OLocation v) ["--location"; v]
| spells_location_eq v : client_spells (OLocation v) ["--location=" +:+ v]
| spells_pid v : client_spells (OPid v) ["-p"; v]
| spells_pid_attached v : v <> EmptyString -> client_spells (OPid v) ["-p" +:+ v]
| spells_pid_long v : client_spells (OPid v) ["--pid"; v]
| spells_pid_eq v : client_spells (OPid v) ["--pid=" +:+ v]
| spells_checkpoint : client_spells OCheckpoint ["-c"]
| spells_checkpoint_long : client_spells OCheckpoint ["--checkpoint"]
| spells_restore : client_spells ORestore ["-r"]
| spells_restore_long : client_spells ORestore ["--restore"].

Lemma client_spelled o w rest :
  client_spells o w ->
  exists c a, getopt_long client_short client_long_options (GetoptState EmptyString (w ++ rest)) = GOpt c a (GetoptState EmptyString rest)
    /\ client_opt c a = o /\ match o with OHelp | OVersion | OUnknown => False | _ => True end.
Proof.
  intros [v|v Hv|v|v|v|v Hv|v|v| | | |]; try (by eexists _, _); destruct v; try done; by eexists _, _.
Qed.

Lemma client_reads opts words fuel :
  Forall2 client_spells opts words -> (argv_fuel (concat words) <= fuel)%nat ->
  client_getopt fuel (GetoptState EmptyString (concat words)) = Ret opts.
Proof.
  intros Hs. revert fuel. induction Hs as [|o w opts words Hw Hs IH]; intros fuel Hf; [by destruct fuel|].
  destruct (client_spelled o w (concat words) Hw) as (c & a & E & Eo & Ho). cbn [concat] in *.
  pose proof (getopt_progress client_short client_long_options (GetoptState EmptyString (w ++ concat words))) as Hp.
  rewrite E in Hp. assert (Hp' : (argv_fuel (concat words) < argv_fuel (w ++ concat words))%nat) by exact Hp.
  destruct fuel as [|fuel]; [lia|]. cbn [client_getopt]. rewrite E, Eo, IH by lia. cbn [rbind]. by destruct o.
Qed.

(** The options give this command for this process at this place. *)
Definition asks_for (opts : list copt) (loc : string) (pid cmd : Z) : Prop :=
  client_options opts (ClientArgs None 0 false false)
  = inr (ClientArgs (Some loc) pid (cmd =? MEMCR_CHECKPOINT) (cmd =? MEMCR_RESTORE)).

(** * Theorems *)

(** C26: memcr-client does what its command line says, in whichever way it is
    written (each option by its letter or its full name): with a place, a process and one of the two commands among its
    options, it connects to that place and sends one request, which the service
    reads as that command for that process, in however many pieces it arrives;
    and it exits with the code that the service answers. *)
Theorem memcr_client_runs opts words loc pid cmd code c0 rhints net :
  Forall2 client_spells opts words -> asks_for opts loc pid cmd -> cmd = MEMCR_CHECKPOINT \/ cmd = MEMCR_RESTORE ->
  is_i32 pid -> pid <> 0 -> is_i32 code -> Forall rd_benign rhints ->
  net (client_addr loc) = Some (Socket (Stream (int_bytes code) []) (Stream [] [])) ->
  exists request rh, memcr_client net (concat words) = Ret (code, Some (Socket (Stream [] []) (Stream request [])))
    /\ read_command c0 (Stream request rhints) = Ret (8, SvcCmd cmd pid, Stream [] rh).
Proof.
  intros Hs Ha Hc Hp Hne Hcode Hr Hnet. exists (command_bytes (SvcCmd cmd pid)).
  assert (Hok : command_ok (SvcCmd cmd pid)) by (split; [destruct Hc as [-> | ->]; by split|done]).
  destruct (read_command_ok (SvcCmd cmd pid) c0 [] rhints Hok Hr) as (rh & Er & _). rewrite app_nil_r in Er.
  exists rh. split; [|done]. unfold memcr_client. rewrite (client_reads opts words) by done. cbn [rbind]. do 2 f_equal.
  unfold client_main, memcr_client_connect, memcr_client_checkpoint, memcr_client_restore. rewrite Ha.
  cbn [ca_location ca_pid ca_checkpoint ca_restore]. rewrite (proj2 (Z.eqb_neq pid 0)), Hnet, i32_u32 by done.
  pose proof (fun cmd => send_cmd_ok cmd code [] [] Hcode) as Es. rewrite app_nil_r in Es.
  destruct Hc as [-> | ->]; cbn [Z.eqb Pos.eqb negb andb MEMCR_CHECKPOINT MEMCR_RESTORE]; rewrite Es; done.
Qed.

Lemma memcr_client_runs_witness :
  let net a := if decide (a = AF_UNIX "/run/memcr") then Some (Socket (Stream (int_bytes MEMCR_INVALID_PID) []) (Stream [] [])) else None in
  exists request rh,
    memcr_client net (concat [["-p"; "17"]; ["--restore"]; ["--location=/run/memcr"]])
      = Ret (MEMCR_INVALID_PID, Some (Socket (Stream [] []) (Stream request [])))
    /\ read_command (SvcCmd 0 0) (Stream request [HShort 3]) = Ret (8, SvcCmd MEMCR_RESTORE 17, Stream [] rh).
Proof.
  intros net. apply (memcr_client_runs [OPid "17"; ORestore; OLocation "/run/memcr"] _ "/run/memcr" 17 MEMCR_RESTORE MEMCR_INVALID_PID
    (SvcCmd 0 0) [HShort 3] net);
    [repeat (apply Forall2_cons; split; [constructor|]); done|done|by right|by split|done|by split|by repeat constructor|done].
Defined.
